(* ===== verification/_CoqProject ===== *)
-Q . S2P
Prelude.v
PyStr.v
Json.v
Bytes.v
Models.v
Session.v
Sample.v
Migrations.v
Ddl.v
SchemaHistory.v
Secrets.v
Accounts.v
Crypto.v
NodeConfig.v
AccountPolicy.v
Devices.v
Lifecycle.v
Jobs.v
Events.v
NodeSync.v
RemnawaveSync.v
WorkerApi.v
WorkerRemnawave.v
TelegramProxy.v
Display.v
UserApi.v
NodeApi.v
Downloads.v
PublicPage.v
RemnawaveApi.v
Panel.v
RequestBodies.v
Auth.v
AgentConfig.v
EventHub.v
ParkedEvents.v
Listener.v
WorkerClients.v
Publishers.v
NodeAgent.v
WorkerQueue.v
Consumers.v
WorkerHandlers.v
WorkerMain.v
NodeReconcile.v
EndToEnd.v
