(* ===== verification/Prelude.v ===== *)
(** * Verification development of the AmneziaWG VPN management panel

    The program is a control panel for AmneziaWG nodes. A FastAPI backend ([src/panel/backend/app])
    keeps accounts, devices, nodes and peers in PostgreSQL and publishes commands to RabbitMQ; a
    worker ([src/panel/worker/app]) takes the commands, reads the wanted state of a node from the
    backend, brings the node's agent ([src/node/agent]) to it over HTTP and reports back what the
    node says; a Remnawave installation may own accounts; users read their devices on a public page
    that is kept fresh by server-sent events. The library has one file per component and composes
    them the way the program does.

    ** Foundations

    - [Prelude]: Python tests ([==], [isin]), attribute assignment ([r <| f := v |>]), datetimes
      and the range of their differences ([datetime_minus]), integer columns ([int_column]), exceptions
      ([exn], [outcome]), sorting. [PyStr], [Json], [Bytes]: the [str] methods, [json]
      texts and base64/struct encoders the code uses, executable, with their round trips.
    - [Models] ([models.py]): every table as a finite map of row records, the schema constraints
      [db_wf], what must hold of tombstones [tombstones_hold], and the deletion cascades.
    - [Session] (the SQLAlchemy session as the code uses it): the monad [M]. A computation has a
      working view and the committed tables, and a trace of what left the process. [commit],
      [rollback], [savepoint]; [lock_wait] (a [SELECT ... FOR UPDATE] or an insert that may wait) lets
      other sessions commit arbitrary changes that keep the invariant ([Env], [EnvLaws]); [race] lets
      them take a unique key first. [preserves] and [persisted] are the Hoare-style predicates the
      handlers' invariant lemmas are stated with.
    - [Sample]: a concrete environment and concrete tables for witnesses.
    - [Migrations] ([migrations/versions/0019_device_ownership.py], [0020_device_ip_release.py],
      [0013_p0_reliability_integrity.py]): the schema before devices, and the upgrade and downgrade
      between it and the tables of [Models], on typed rows.
    - [Ddl]: tables as data (columns, keys, indexes, and rows that map column names to values), the
      statements of a migration and what PostgreSQL makes of them ([run_op]). [SchemaHistory]
      ([migrations/versions], every revision from 0001 to 0020; [migrations/env.py]): the revisions as
      lists of such statements, and the tables the classes of [models.py] declare.

    ** Backend services

    - [Secrets] ([remnawave_crypto.py], [mtproxy_secret_crypto.py]), [Accounts] ([services/users.py],
      [services/public_access.py]), [Crypto] ([crypto.py]), [NodeConfig] ([services/node_config.py]),
      [AccountPolicy] ([services/account_policy.py]), [Devices] ([services/devices.py]), [Lifecycle]
      ([services/local_lifecycle.py]), [Jobs] ([queue.py], [job_commands.py], [services/operations.py]),
      [NodeSync] ([services/node_sync.py]), [RemnawaveSync] ([services/remnawave_sync.py]), [Display]
      ([services/remnawave_display.py], [services/online.py]).
    - [Events] and [EventHub] ([services/events.py], [routers/user_events.py]): the notifications of a
      transaction; the hub that fans them out, as a state machine over the callbacks of the event
      loop ([hub_event], [hub_step]), and the turns of one stream. [ParkedEvents]: the same
      notifications on a backend without NOTIFY, parked by savepoint level until the commit, against
      the scopes NOTIFY would use. [Listener]: the task that keeps the listening connection, await by
      await, which the hub's listener states abstract.

    ** Backend routes

    - [WorkerApi], [WorkerRemnawave] ([routers/internal_worker_parts]), [TelegramProxy],
      [UserApi], [NodeApi], [Downloads] ([routers/api_parts]), [PublicPage] ([routers/user_page.py]),
      [RemnawaveApi] ([routers/remnawave.py], [routers/api_parts/remnawave.py]).
    - [Auth] ([routers/auth.py]): the administrator's login and token, and the credential each router
      asks for.
    - [Panel]: every route as one request type with one dispatcher, and the runs of the panel.
      [RequestBodies] ([models.py], [error_handlers.py]): the bodies that set numbers and policies, read
      from JSON under their constraints, and the requests from body to tables.

    ** Worker and node

    - [WorkerClients], [WorkerQueue], [WorkerHandlers]: the worker's HTTP clients, its queue and its
      handlers, in a state monad [Act] over an abstract world. [Consumers] ([worker/app/queue.py]): the
      loops that take messages, their semaphores and tasks, event by event. [Publishers]: the cached
      AMQP connection of the panel ([app/queue.py]) and of the worker. [WorkerMain] ([worker/app/main.py]):
      its loops and its task group.
    - [AgentConfig], [NodeAgent] ([node/agent/agent.py], [mtproxy.py]): the agent's configuration
      file as text, and its endpoints over a disk and a host that runs processes.
    - [EndToEnd]: the worker's clients answered by the backend's own handlers. [NodeReconcile]: the
      worker's node client answered by the agent's own endpoints.

    ** What the theorems show

    - Tables: [Panel.panel_invariant] (no run of the panel breaks the constraints or revives a
      deleted device), [Devices.create_device_safe], [Devices.delete_device_removes],
      [UserApi.delete_user_leaves_nothing], [Lifecycle.lifecycle_pass_consistent],
      [WorkerRemnawave.upsert_all_or_nothing], [RemnawaveSync.combined_limit_enforced].
    - Node replies: [NodeSync.node_result_never_resurrects], [NodeSync.peer_result_accounting],
      and the lemma [WorkerApi.sync_confirms_unreported].
    - Commands: [Panel.published_commands_are_durable], [WorkerApi.operation_state_machine],
      [EndToEnd.tracked_command_runs_once], the lemma [Jobs.topology_routes_commands],
      [WorkerQueue.failing_command_is_poisoned], [WorkerHandlers.handled_commands_are_settled],
      [Consumers.consumers_respect_limits], [Consumers.readable_messages_can_all_settle],
      [WorkerHandlers.full_reconcile_sees_everyone].
    - Nodes: [NodeAgent.agent_refines_peer_table] (the abstract specification of an agent is a table
      of peers, and its text file implements it), [NodeReconcile.synced_node_matches_snapshot],
      and the lemmas [NodeAgent.configure_interface_idempotent],
      [NodeAgent.apply_mtproxy_writes_first].
    - Schema: [SchemaHistory.migrations_build_models] (the revisions in order build the tables the
      classes declare), [SchemaHistory.upgrades_never_fail] (up to 0018, whatever the tables hold),
      [SchemaHistory.downgrade_restores], [SchemaHistory.narrowing_needs_32_bits].
    - Migration of rows: [Migrations.migration_succeeds_or_refuses],
      [Migrations.upgrade_then_downgrade], [Migrations.downgrade_is_lossless].
    - Bounds: [RequestBodies.admin_bodies_stay_in_bounds].
    - Downloads: [PublicPage.device_config_served_iff], [PublicPage.public_admin_downloads_agree],
      and the lemmas [Crypto.qr_chunks_scan_back], [NodeConfig.configs_zip_complete],
      [Crypto.allocate_ip_correct].
    - Access: [AccountPolicy.account_active_iff], [RemnawaveApi.webhook_rejects_forgeries],
      [Auth.unauthorised_requests_do_nothing], and the lemmas [Auth.issued_token_is_accepted],
      [EventHub.revoked_stream_ends].
    - Event streams: [EventHub.hub_invariant], [EventHub.notification_reaches_streams],
      [EventHub.stop_ends_every_stream], [ParkedEvents.parked_payloads_are_transactional],
      [Listener.listener_refines_hub], and the lemma [Listener.listener_keeps_one_connection].
    - Behaviour the code has and does not mean: [Lifecycle.admin_block_lost_by_expiry],
      [Devices.node_provisioning_race], [Consumers.unreadable_message_stops_its_queue],
      [EndToEnd.stale_telegram_operation_stops_recovery], [RequestBodies.long_retention_stops_cleanup],
      and the lemmas [Publishers.failed_declaration_silences_publisher],
      [EndToEnd.webhook_command_never_runs], [WorkerMain.worker_ends_with_unguarded_loops],
      [NodeAgent.delete_key_spellings], [RemnawaveApi.webhook_event_once_or_lost],
      [Listener.interrupted_close_is_left], [Listener.availability_lags],
      [NodeAgent.mtproxy_status_reads_exit_code], [EventHub.tick_swallows_a_change],
      [TelegramProxy.dd_plain_secret_truncated], [RemnawaveSync.purge_exactly_confirmed],
      [WorkerRemnawave.reconcile_never_purges_missing].

    ** Choices and bounds

    - Operations without entropy, exceptions or commits are pure functions of the tables; the rest
      run in [M]. A handler's clock is read where the code reads it; list views read it once. A row
      held across a wait is re-read by its key when it is written ([modify_user] and the like), and
      a row that is gone raises. Unordered queries return rows in the order of the map. Relationship
      attributes are queries of the current view. [onupdate] timestamps of settings rows and of
      Remnawave profiles are not tracked.
    - Strings are sequences of Latin-1 code points; case mapping is ASCII; NFC is the identity there.
      Subnets are IPv4 in prefix notation.
    - Times are integers of microseconds. Python integers are [Z]. Subtracting a [timedelta] raises
      [OverflowError] outside the range of [timedelta] or [datetime], and a flush of a device limit, a
      traffic limit, a retention, a threshold or a polling interval raises outside the width of its
      column; the widths of the other integer columns are not checked.
    - The statements on the schema are PostgreSQL's; a constraint the migration does not name keeps no
      name. A statement changes the schema and then the rows; the [safe] ones cannot fail on the rows.
      [SchemaHistory] has the tables and columns of 0019, [Migrations] what it does with the rows.
    - Fuel: the archive of configurations takes one more than the number of used names; a full
      reconcile more than the number of profiles; a failing message's journey more than
      [max_attempts] hops. In each case a theorem says that this much suffices.
    - Parameters, with the behaviour relied on as laws of a class: entropy, clock and other sessions
      ([Env]), the cipher and the key hash ([Vault]), the keyed hash, the JSON parser and the remote
      answers ([Remote]), QR drawing and deflate ([Renderer]), HTTP ([Transport]), AMQP ([Broker],
      [Amqp], [Qos]),
      date and JSON parsing of commands ([Codec]), processes and pydantic's JSON of the agent
      ([Host], [MtproxyCodec]), the output format of [awg show] ([AwgOutput]), the JWT library
      ([Jwt]), how pydantic reads one value of a body ([Pydantic]), and PostgreSQL's cast of a text to an
      integer ([Casts]). FastAPI's routing is stated per path as a hypothesis ([answers], [reaches]).
    - The worker runs the handlers of a node under that node's lock and the agent serves one request
      at a time, so each is one uninterrupted computation; the event hub is interleaved callback by
      callback, its [stop] split at its await, the listening task await by await, and the worker's
      consumers by the starts and ends of their tasks, in any order.

    ** Not modelled

    The web interface (rendering); the wiring of FastAPI and SQLAlchemy ([main.py], [database.py]: pure
    I/O); the response schemas of [models.py] no route computes with; the demonstration client
    [test-stand/seed.py], which only calls the routes; the reconnection the AMQP library does by itself;
    reading the environment and the command line; and logging. *)

From stdpp Require Export base gmap strings pretty sorting list fin_maps.
From Stdlib Require Export ZArith.

Declare Scope py_scope.
Delimit Scope py_scope with py.
Open Scope py_scope.

(** ** Notation for Python tests

    [a == b] is Python's [==] on values with decidable equality, [x 'in' l] membership in a literal
    set or tuple; both are booleans, so conditions compute. *)
Notation "x == y" := (bool_decide (x = y)) (at level 70, no associativity) : py_scope.
Notation "x != y" := (negb (bool_decide (x = y))) (at level 70, no associativity) : py_scope.
Notation "x 'isin' l" := (bool_decide (x ∈ l)) (at level 70, no associativity) : py_scope.

(** ** Attribute assignment

    [r <| f := v |>] is the record [r] with the attribute [f] set to [v]. A record type provides an
    [Eta] instance (the record rebuilt from its projections); the setter of one projection is
    obtained by abstracting that projection in the rebuilt record. *)
Class Eta (R : Type) := eta_expand : R → R.
Class Setter {R T : Type} (proj : R → T) := set_field : T → R → R.
Arguments set_field {R T} proj {Setter} _ _ /.

Ltac build_setter p :=
  let R := match type of p with ?R → _ => R end in
  let inst := constr:(ltac:(typeclasses eauto) : Eta R) in
  let inst := eval hnf in inst in
  let v := fresh "v" in
  let r := fresh "r" in
  intros v r;
  let body := eval cbv beta in (inst r) in
  let f := eval pattern (p r) in body in
  match f with ?g _ => let z := eval cbv beta in (g v) in exact z end.

#[export] Hint Extern 1 (Setter ?p) => build_setter p : typeclass_instances.

Notation "r <| f := v |>" := (set_field f v r)
  (at level 1, left associativity, format "r  <| f  :=  v |>") : py_scope.

(** ** Truthiness of optional strings

    Python's [if value:] on a [str | None]: false for [None] and for the empty string. *)
Definition truthy_str (s : string) : bool := negb (s == "").
Definition truthy (o : option string) : bool :=
  match o with Some s => truthy_str s | None => false end.

(** [value or default] on an optional string and on an optional integer. *)
Definition str_or (o : option string) (d : string) : string :=
  match o with Some s => if truthy_str s then s else d | None => d end.
Definition int_or (o : option Z) (d : Z) : Z :=
  match o with Some z => if z == 0%Z then d else z | None => d end.

(** ** Datetimes

    A [datetime] is its wall clock in microseconds and its UTC offset in microseconds, [None] for a
    naive value. *)
Record datetime := DT { dt_wall : Z; dt_offset : option Z }.

#[export] Instance datetime_eq_dec : EqDecision datetime.
Proof. solve_decision. Defined.

(** [value.replace(tzinfo=UTC)] and the instant an aware value denotes. *)
Definition replace_utc (t : datetime) : datetime := DT (dt_wall t) (Some 0%Z).
Definition instant (t : datetime) : Z := (dt_wall t - default 0 (dt_offset t))%Z.

(** [datetime.now(UTC)] at the instant [z]. *)
Definition utc (z : Z) : datetime := DT z (Some 0%Z).

Definition seconds (n : Z) : Z := (n * 1000000)%Z.
Definition day_us : Z := seconds 86400.

(** [a == b] of datetimes: a naive and an aware value are never equal. *)
Definition dt_eq (a b : datetime) : bool :=
  match dt_offset a, dt_offset b with
  | None, None => bool_decide (dt_wall a = dt_wall b)
  | Some _, Some _ => bool_decide (instant a = instant b)
  | _, _ => false
  end.
Definition opt_dt_eq (a b : option datetime) : bool :=
  match a, b with
  | Some a, Some b => dt_eq a b
  | None, None => true
  | _, _ => false
  end.

(** [.date()] of a datetime: the day number of its wall clock. *)
Definition dt_date (t : datetime) : Z := (dt_wall t / day_us)%Z.

Lemma instant_utc z : instant (utc z) = z.
Proof. unfold instant, utc; simpl. lia. Qed.

(** ** Exceptions

    The exceptions the modelled code raises or catches, as values. [HTTPException] carries the
    status code and the detail. *)
Inductive exn :=
  | HTTPException (status_code : Z) (detail : string)
  | ValueError (message : string)
  | TypeError (message : string)
  | RuntimeError (message : string)
  | KeyError (key : string)
  | IntegrityError (constraint : string)
  | MultipleResultsFound
  | AccountInactiveError (code : string) (reason : option string)
  | DeviceLimitExceededError (limit current : Z)
  | DeviceIpAllocationError (attempts : Z)
  | DeviceIpPoolExhaustedError (subnet : string)
  | SubscriptionLimitExceededError (limit : Z)
  | EventStreamsStoppedError
  | BrokerError (message : string)
  | StructError (message : string)
  | JSONDecodeError (message : string)
  | UnicodeDecodeError (message : string)
  | DBAPIError (message : string)
  | RequestError (message : string)
  (* the response of an httpx request that answered with an error status *)
  | HTTPStatusError (response_status : Z) (request_path body : string) (message : string)
  | FileNotFoundError (filename : string)
  | TimeoutExpired (message : string)
  | CalledProcessError (returncode : Z) (stderr message : string)
  | SupervisorCommandError (action : string) (returncode : Z)
  | SupervisorTimeoutError (action : string)
  | AttributeError (message : string)
  | OverflowError (message : string)
  (* of the JWT library *)
  | InvalidTokenError (message : string)
  | InvalidToken.

#[export] Instance exn_eq_dec : EqDecision exn.
Proof. solve_decision. Defined.

(** [str(exc)]. [str(HTTPException)] is starlette's [code: detail]. *)
Definition exn_text (e : exn) : string :=
  match e with
  | HTTPException c d => pretty c +:+ ": " +:+ d
  | KeyError m => "'" +:+ m +:+ "'"
  | ValueError m | TypeError m | RuntimeError m | IntegrityError m
  | BrokerError m | StructError m | JSONDecodeError m | UnicodeDecodeError m | DBAPIError m
  | RequestError m | HTTPStatusError _ _ _ m | CalledProcessError _ _ m
  | TimeoutExpired m | AttributeError m | OverflowError m | InvalidTokenError m => m
  | FileNotFoundError f => "[Errno 2] No such file or directory: '" +:+ f +:+ "'"
  | SupervisorCommandError action rc =>
      "supervisorctl " +:+ action +:+ " mtproxy failed with exit code " +:+ pretty rc
  | SupervisorTimeoutError action => "supervisorctl " +:+ action +:+ " mtproxy timed out"
  | MultipleResultsFound => "Multiple rows were found when one or none was required"
  | AccountInactiveError code reason =>
      "account is " +:+ code +:+
      match reason with Some r => if truthy_str r then " (" +:+ r +:+ ")" else "" | None => "" end
  | DeviceLimitExceededError limit current =>
      "device limit " +:+ pretty limit +:+ " already reached with " +:+ pretty current +:+ " device(s)"
  | DeviceIpAllocationError attempts =>
      "could not allocate a unique VPN IP after " +:+ pretty attempts +:+ " attempt(s)"
  | DeviceIpPoolExhaustedError subnet =>
      "VPN address pool " +:+ subnet +:+ " is exhausted: every client address is held by a live device or by a deleted device whose node has not yet confirmed removal"
  | SubscriptionLimitExceededError limit => pretty limit
  | EventStreamsStoppedError => ""
  | InvalidToken => ""
  end.

(** The result of a call: a value or a raised exception. *)
Inductive outcome (A : Type) :=
  | Ok (a : A)
  | Raise (e : exn).
Arguments Ok {A} _.
Arguments Raise {A} _.

#[export] Instance outcome_eq_dec {A} `{EqDecision A} : EqDecision (outcome A).
Proof. solve_decision. Defined.

Definition is_ok {A} (o : outcome A) : bool := match o with Ok _ => true | Raise _ => false end.

#[export] Instance outcome_ret : MRet outcome := fun A a => Ok a.
#[export] Instance outcome_bind : MBind outcome := fun A B f o =>
  match o with Ok a => f a | Raise e => Raise e end.
#[export] Instance outcome_map : FMap outcome := fun A B f o =>
  match o with Ok a => Ok (f a) | Raise e => Raise e end.

(** ** Machine widths

    [timedelta(days=n)], [timedelta(seconds=n)] and [t - timedelta(...)] with the limits of the standard
    library (years 1 to 9999); an integer column takes the values of its width. *)
Definition fits (width : Z) (z : Z) : bool := (- 2 ^ (width - 1) <=? z)%Z && (z <? 2 ^ (width - 1))%Z.
Definition MIN_DATETIME : Z := seconds (-62135596800).
Definition MAX_DATETIME : Z := (seconds 253402300800 - 1)%Z.
Definition timedelta (n unit : Z) : outcome Z :=
  let us := (n * unit)%Z in
  let days := (us / day_us)%Z in
  if negb (fits 32 days) then Raise (OverflowError "Python int too large to convert to C int")
  else if (999999999 <? Z.abs days)%Z
  then Raise (OverflowError ("days=" +:+ pretty days +:+ "; must have magnitude <= 999999999"))
  else Ok us.
Definition datetime_minus (t : datetime) (n unit : Z) : outcome datetime :=
  us ← timedelta n unit;
  let wall := (dt_wall t - us)%Z in
  if (MIN_DATETIME <=? wall)%Z && (wall <=? MAX_DATETIME)%Z then Ok (DT wall (dt_offset t))
  else Raise (OverflowError "date value out of range").
Definition int_column (width z : Z) : outcome unit :=
  if fits width z then Ok tt
  else Raise (DBAPIError ("invalid input for query argument: value out of int" +:+ pretty width +:+ " range")).

(** [for x in xs: ys.append(f x)] where [f] may raise. *)
Fixpoint map_outcome {A B} (f : A → outcome B) (xs : list A) : outcome (list B) :=
  match xs with
  | [] => Ok []
  | x :: xs => y ← f x; ys ← map_outcome f xs; Ok (y :: ys)
  end.

Lemma map_outcome_ok {A B} (f : A → outcome B) (g : A → B) xs :
  (∀ x, x ∈ xs → f x = Ok (g x)) → map_outcome f xs = Ok (g <$> xs).
Proof.
  induction xs as [|x xs IH]; intros H; simpl; [done|].
  rewrite H by left. simpl. rewrite IH; [done|]. intros y Hy. apply H. by right.
Qed.

(** Lookup in a literal dict. *)
Fixpoint dict_get {A} (l : list (string * A)) (k : string) : option A :=
  match l with
  | [] => None
  | (k', v) :: l => if k == k' then Some v else dict_get l k
  end.

(** ** Sorting by a key

    [sorted(...)] of strings, and [ORDER BY key, id]. *)
Definition sorted_strings (xs : list string) : list string := merge_sort String.le xs.

Definition order_by {A} (key : A → Z) (ident : A → string) (xs : list A) : list A :=
  merge_sort (fun a b => (key a < key b)%Z ∨ (key a = key b ∧ String.le (ident a) (ident b))) xs.

Definition order_by_str {A} (key : A → string) (ident : A → string) (xs : list A) : list A :=
  merge_sort
    (fun a b => (key a ≠ key b ∧ String.le (key a) (key b)) ∨
                (key a = key b ∧ String.le (ident a) (ident b))) xs.

Lemma elem_of_order_by {A} key ident (xs : list A) x :
  x ∈ order_by key ident xs ↔ x ∈ xs.
Proof. unfold order_by. by rewrite merge_sort_Permutation. Qed.
Lemma elem_of_order_by_str {A} key ident (xs : list A) x :
  x ∈ order_by_str key ident xs ↔ x ∈ xs.
Proof. unfold order_by_str. by rewrite merge_sort_Permutation. Qed.
Lemma length_order_by {A} key ident (xs : list A) :
  length (order_by key ident xs) = length xs.
Proof. apply Permutation_length. apply merge_sort_Permutation. Qed.
Lemma elem_of_sorted_strings xs x : x ∈ sorted_strings xs ↔ x ∈ xs.
Proof. unfold sorted_strings. by rewrite merge_sort_Permutation. Qed.
Lemma sorted_strings_perm xs : sorted_strings xs ≡ₚ xs.
Proof. apply merge_sort_Permutation. Qed.
Lemma sorted_strings_sorted xs : StronglySorted String.le (sorted_strings xs).
Proof. apply StronglySorted_merge_sort; apply _. Qed.

(** ** Automation

    [py_simpl] destructs the boolean tests of a goal or hypothesis; the hint database [panel]
    collects the lemmas that close the common side conditions. *)
Create HintDb panel discriminated.

Ltac py_bool :=
  repeat match goal with
  | H : negb _ = true |- _ => apply negb_true_iff in H
  | H : negb _ = false |- _ => apply negb_false_iff in H
  | H : (_ && _)%bool = true |- _ => apply andb_true_iff in H as [? ?]
  | H : (_ || _)%bool = false |- _ => apply orb_false_iff in H as [? ?]
  | H : bool_decide _ = true |- _ => apply bool_decide_eq_true in H
  | H : bool_decide _ = false |- _ => apply bool_decide_eq_false in H
  end.

(** Case analysis on the first stuck [if] or [match] of the goal (or of a hypothesis). *)
Ltac py_case :=
  match goal with
  | |- context [if ?b then _ else _] => let E := fresh "Hb" in destruct b eqn:E
  | |- context [match ?o with _ => _ end] => let E := fresh "Hm" in destruct o eqn:E
  end.
Ltac py_case_in H :=
  match type of H with
  | context [if ?b then _ else _] => let E := fresh "Hb" in destruct b eqn:E
  | context [match ?o with _ => _ end] => let E := fresh "Hm" in destruct o eqn:E
  end.

(** ** Generic lemmas shared by the components *)
Lemma elem_of_map_to_list_snd {A} (m : gmap string A) x :
  x ∈ (map_to_list m).*2 ↔ ∃ k, m !! k = Some x.
Proof.
  rewrite list_elem_of_fmap. split.
  - intros ([k y] & -> & H). exists k. by apply elem_of_map_to_list in H.
  - intros [k H]. exists (k, x). split; [done|]. by apply elem_of_map_to_list.
Qed.

Lemma bool_decide_in_true {A} `{EqDecision A} (x : A) (l : list A) : (x isin l) = true ↔ x ∈ l.
Proof. apply bool_decide_eq_true. Qed.

Lemma bool_decide_in_false {A} `{EqDecision A} (x : A) (l : list A) : (x isin l) = false ↔ x ∉ l.
Proof. apply bool_decide_eq_false. Qed.

Lemma foldl_invariant {A B} (P : A → Prop) (f : A → B → A) l a :
  P a → (∀ a b, b ∈ l → P a → P (f a b)) → P (foldl f a l).
Proof.
  revert a; induction l as [|b l IH]; intros a Ha Hf; simpl; [done|].
  apply IH; [apply Hf; [left|done]|]. intros a' b' Hb'. apply Hf. by right.
Qed.

#[export] Hint Rewrite @elem_of_map_to_list_snd @elem_of_order_by @elem_of_order_by_str
  elem_of_sorted_strings : panel.

(** Membership of a literal string in a literal list. *)
Ltac literal_in :=
  match goal with
  | |- ?x ∈ ?l => apply (bool_decide_eq_true_1 (x ∈ l)); vm_compute; reflexivity
  | |- ?x ∉ ?l => apply (bool_decide_eq_false_1 (x ∈ l)); vm_compute; reflexivity
  | |- ¬ (?x ∈ ?l) => apply (bool_decide_eq_false_1 (x ∈ l)); vm_compute; reflexivity
  | |- ?x ∈ ?l → _ =>
      let H := fresh in
      intros H; exfalso; revert H; change (x ∉ l);
      apply (bool_decide_eq_false_1 (x ∈ l)); vm_compute; reflexivity
  end.
