(* ===== verification/PyStr.v ===== *)
(** * Python strings

    The [str] methods the panel, the worker and the node agent use, as total functions on
    [string]. A string is the sequence of its code points; code points above 255 do not occur in
    the modelled data. Character classes are Python's: [strip] and [split] treat the ASCII
    whitespace, the separators 28-31, NEL and NBSP as white space. *)
From S2P Require Import Prelude.
From Stdlib Require Import Ascii.
From Stdlib Require Strings.String.

Abbreviation chars := (list ascii).

Definition of_str (s : string) : chars := Stdlib.Strings.String.list_ascii_of_string s.
Definition to_str (l : chars) : string := Stdlib.Strings.String.string_of_list_ascii l.

Lemma to_of_str s : to_str (of_str s) = s.
Proof. apply Stdlib.Strings.String.string_of_list_ascii_of_string. Qed.
Lemma of_to_str l : of_str (to_str l) = l.
Proof. apply Stdlib.Strings.String.list_ascii_of_string_of_list_ascii. Qed.
#[export] Instance of_str_inj : Inj (=) (=) of_str.
Proof. intros a b H. by rewrite <- (to_of_str a), <- (to_of_str b), H. Qed.
#[export] Instance to_str_inj : Inj (=) (=) to_str.
Proof. intros a b H. by rewrite <- (of_to_str a), <- (of_to_str b), H. Qed.

Definition code (c : ascii) : nat := nat_of_ascii c.
Definition is_space (c : ascii) : bool :=
  code c isin [9; 10; 11; 12; 13; 28; 29; 30; 31; 32; 133; 160].
Definition is_digit (c : ascii) : bool := (48 <=? code c) && (code c <=? 57).
Definition is_upper (c : ascii) : bool := (65 <=? code c) && (code c <=? 90).
Definition is_lower (c : ascii) : bool := (97 <=? code c) && (code c <=? 122).
Definition lower_char (c : ascii) : ascii :=
  if is_upper c then ascii_of_nat (code c + 32) else c.

(** ** Concatenation and length *)
Lemma of_str_app a b : of_str (a +:+ b) = of_str a ++ of_str b.
Proof. induction a as [|c a IH]; simpl; [done|]. by f_equal. Qed.
Lemma to_str_app a b : to_str (a ++ b) = to_str a +:+ to_str b.
Proof. apply (inj of_str). by rewrite of_str_app, !of_to_str. Qed.

Definition str_len (s : string) : nat := length (of_str s).

(** [sep.join(parts)]. *)
Fixpoint join (sep : string) (parts : list string) : string :=
  match parts with
  | [] => ""
  | [p] => p
  | p :: ps => p +:+ sep +:+ join sep ps
  end.

(** ** Prefixes, suffixes and substrings *)
Fixpoint prefix_of (p l : chars) : bool :=
  match p, l with
  | [], _ => true
  | a :: p, b :: l => (a == b) && prefix_of p l
  | _ :: _, [] => false
  end.

Definition startswith (s p : string) : bool := prefix_of (of_str p) (of_str s).
Definition endswith (s p : string) : bool := prefix_of (rev (of_str p)) (rev (of_str s)).
Definition removeprefix (s p : string) : string :=
  if startswith s p then to_str (drop (str_len p) (of_str s)) else s.

(** The index of the first occurrence of [p] in [l]. *)
Fixpoint find_from (p l : chars) (i : nat) : option nat :=
  if prefix_of p l then Some i
  else match l with [] => None | _ :: l => find_from p l (S i) end.
Definition find (s p : string) : option nat := find_from (of_str p) (of_str s) 0.
Definition contains (s p : string) : bool :=
  match find s p with Some _ => true | None => false end.

(** [s.partition(sep)] and, for a one-character separator, [s.rpartition(sep)]. *)
Definition partition (s sep : string) : string * string * string :=
  match find s sep with
  | Some i => (to_str (take i (of_str s)), sep, to_str (drop (i + str_len sep) (of_str s)))
  | None => (s, "", "")
  end.

Fixpoint split_last (c : ascii) (l : chars) : option (chars * chars) :=
  match l with
  | [] => None
  | a :: l =>
      match split_last c l with
      | Some (x, y) => Some (a :: x, y)
      | None => if a == c then Some ([], l) else None
      end
  end.
Definition rpartition (s : string) (c : ascii) : string * string * string :=
  match split_last c (of_str s) with
  | Some (x, y) => (to_str x, to_str [c], to_str y)
  | None => ("", "", s)
  end.

(** [s.split(c)] for a one-character separator. *)
Fixpoint split_on (c : ascii) (l : chars) : list chars :=
  match l with
  | [] => [[]]
  | a :: l =>
      if a == c then [] :: split_on c l
      else match split_on c l with
           | [] => [[a]]
           | w :: ws => (a :: w) :: ws
           end
  end.
Definition split_char (s : string) (c : ascii) : list string := to_str <$> split_on c (of_str s).

(** [s.split()]: the maximal runs of non-space characters. *)
Fixpoint split_ws_go (cur : chars) (l : chars) : list chars :=
  match l with
  | [] => match cur with [] => [] | _ => [rev cur] end
  | a :: l =>
      if is_space a
      then match cur with [] => split_ws_go [] l | _ => rev cur :: split_ws_go [] l end
      else split_ws_go (a :: cur) l
  end.
Definition split_ws (s : string) : list string := to_str <$> split_ws_go [] (of_str s).

(** ** Stripping *)
Fixpoint lstrip_with (f : ascii → bool) (l : chars) : chars :=
  match l with
  | [] => []
  | a :: l' => if f a then lstrip_with f l' else l
  end.
Definition rstrip_with (f : ascii → bool) (l : chars) : chars := rev (lstrip_with f (rev l)).
Definition strip_with (f : ascii → bool) (s : string) : string :=
  to_str (rstrip_with f (lstrip_with f (of_str s))).
Definition strip (s : string) : string := strip_with is_space s.
(** [s.rstrip(c)] for one character. *)
Definition rstrip_char (c : ascii) (s : string) : string :=
  to_str (rstrip_with (fun a => a == c) (of_str s)).

Definition lower (s : string) : string := to_str (lower_char <$> of_str s).
Definition isdigit (s : string) : bool :=
  match of_str s with [] => false | l => forallb is_digit l end.

(** [s[:n]]. *)
Definition str_take (n : nat) (s : string) : string := to_str (take n (of_str s)).
Definition str_drop (n : nat) (s : string) : string := to_str (drop n (of_str s)).

(** [s.replace(p, r)] for a non-empty [p]; the fuel is the length of the string, and every step
    consumes at least one character. *)
Fixpoint replace_go (fuel : nat) (p r l : chars) : chars :=
  match fuel with
  | 0 => l
  | S fuel =>
      match l with
      | [] => []
      | a :: l' =>
          if prefix_of p l then r ++ replace_go fuel p r (drop (length p) l)
          else a :: replace_go fuel p r l'
      end
  end.
Definition replace (s p r : string) : string :=
  to_str (replace_go (S (str_len s)) (of_str p) (of_str r) (of_str s)).

(** [int(s)] of a string of decimal digits. *)
Definition digit_value (c : ascii) : Z := Z.of_nat (code c - 48).
Definition int_of_digits (s : string) : Z :=
  foldl (fun acc c => 10 * acc + digit_value c)%Z 0%Z (of_str s).

(** [int(s)]: blanks around, a sign, and digits with single underscores between them, at most 4300
    of them; [None] stands for the [ValueError]. *)
Fixpoint int_digits (after_digit : bool) (acc : chars) (l : chars) : option chars :=
  match l with
  | [] => if after_digit then Some (rev acc) else None
  | c :: l =>
      if is_digit c then int_digits true (c :: acc) l
      else if (c == "_"%char) && after_digit then int_digits false acc l
      else None
  end.
Definition MAX_INT_DIGITS : nat := 4300.
Definition py_int (s : string) : option Z :=
  let l := of_str (strip s) in
  let '(sign, l) := match l with
    | c :: l' => if c == "-"%char then ((-1)%Z, l') else if c == "+"%char then (1%Z, l') else (1%Z, l)
    | [] => (1%Z, l)
    end in
  match int_digits false [] l with
  | Some digits =>
      if (length digits <=? MAX_INT_DIGITS)%nat then Some (sign * int_of_digits (to_str digits))%Z
      else None
  | None => None
  end.

(** ** Lemmas *)
Lemma prefix_of_spec p l : prefix_of p l = true ↔ ∃ k, l = p ++ k.
Proof.
  revert l; induction p as [|a p IH]; intros l; simpl.
  - split; [by exists l|done].
  - destruct l as [|b l].
    + split; [done|]. intros [k Hk]. done.
    + rewrite andb_true_iff, bool_decide_eq_true, IH. split.
      * intros [-> [k ->]]. by exists k.
      * intros [k [= -> ->]]. split; [done|]. by exists k.
Qed.

Lemma startswith_spec s p : startswith s p = true ↔ ∃ k, s = p +:+ k.
Proof.
  unfold startswith. rewrite prefix_of_spec. split; intros [k Hk].
  - exists (to_str k). apply (inj of_str). by rewrite of_str_app, of_to_str.
  - exists (of_str k). by rewrite Hk, of_str_app.
Qed.

Lemma startswith_app p k : startswith (p +:+ k) p = true.
Proof. apply startswith_spec. by exists k. Qed.

Lemma removeprefix_app p k : removeprefix (p +:+ k) p = k.
Proof.
  unfold removeprefix. rewrite startswith_app. apply (inj of_str).
  rewrite of_to_str, of_str_app. unfold str_len. by rewrite drop_app_length.
Qed.

Lemma split_last_some c l x y :
  split_last c l = Some (x, y) → l = x ++ c :: y ∧ c ∉ y.
Proof.
  revert x y; induction l as [|a l IH]; intros x y H; simpl in H; [done|].
  destruct (split_last c l) as [[x' y']|] eqn:E.
  - injection H as <- <-. destruct (IH x' y' eq_refl) as [-> ?]. done.
  - case_bool_decide; [|done]. injection H as <- <-. subst a. split; [done|].
    clear IH. intros Hc. revert E. induction l as [|b l IH]; simpl; [by apply elem_of_nil in Hc|].
    destruct (split_last c l) as [[]|]; [done|]. intros E.
    case_bool_decide; [done|]. apply IH; [|done].
    by apply elem_of_cons in Hc as [->|?].
Qed.

Lemma split_last_none c l : split_last c l = None ↔ c ∉ l.
Proof.
  induction l as [|a l IH]; simpl; [split; [intros _; apply not_elem_of_nil|done]|].
  destruct (split_last c l) as [[x y]|] eqn:E.
  - split; [done|]. intros H. apply not_elem_of_cons in H as [_ H].
    by apply IH in H.
  - case_bool_decide; subst.
    + split; [done|]. intros H. apply not_elem_of_cons in H as [H _]. done.
    + rewrite not_elem_of_cons. split; [intros _; split; [done|by apply IH]|done].
Qed.

Lemma rpartition_no_sep s c : c ∉ of_str s → rpartition s c = ("", "", s).
Proof. unfold rpartition. intros H. apply split_last_none in H. by rewrite H. Qed.

Lemma rpartition_app a b c :
  c ∉ of_str b → rpartition (a +:+ to_str [c] +:+ b) c = (a, to_str [c], b).
Proof.
  intros Hb. unfold rpartition. rewrite !of_str_app, of_to_str.
  assert (split_last c (of_str a ++ [c] ++ of_str b) = Some (of_str a, of_str b)) as ->.
  { apply split_last_none in Hb. induction (of_str a) as [|x l IH]; simpl.
    - rewrite Hb. by rewrite bool_decide_eq_true_2.
    - simpl in IH. by rewrite IH. }
  by rewrite !to_of_str.
Qed.

Lemma lstrip_with_forall f l : forallb (fun c => negb (f c)) l = true → lstrip_with f l = l.
Proof. destruct l as [|a l]; simpl; [done|]. by destruct (f a). Qed.

Lemma lstrip_with_head f l a l' : lstrip_with f l = a :: l' → f a = false.
Proof.
  induction l as [|b l IH]; simpl; [done|]. destruct (f b) eqn:E; [done|]. by intros [= <- <-].
Qed.

Lemma lstrip_with_suffix f l : ∃ k, l = k ++ lstrip_with f l ∧ Forall (fun c => f c = true) k.
Proof.
  induction l as [|a l (k & Hk & Hf)]; simpl; [by exists []|].
  destruct (f a) eqn:E; [|by exists []]. exists (a :: k). simpl. split; [by f_equal|].
  by constructor.
Qed.

Lemma forallb_rev {A} (f : A → bool) l : forallb f (rev l) = forallb f l.
Proof.
  apply eq_true_iff_eq. rewrite !forallb_forall. split; intros H x Hx; apply H.
  - by rewrite <- in_rev.
  - by rewrite <- in_rev in Hx.
Qed.

(** Stripping a string without strippable characters is the identity. *)
Lemma strip_with_clean f s :
  forallb (fun c => negb (f c)) (of_str s) = true → strip_with f s = s.
Proof.
  intros H. unfold strip_with, rstrip_with. rewrite (lstrip_with_forall f (of_str s)) by done.
  rewrite lstrip_with_forall by (by rewrite forallb_rev).
  by rewrite rev_involutive, to_of_str.
Qed.

Lemma join_cons sep p ps : ps ≠ [] → join sep (p :: ps) = p +:+ sep +:+ join sep ps.
Proof. by destruct ps. Qed.

Lemma str_app_assoc (a b c : string) : (a +:+ b) +:+ c = a +:+ b +:+ c.
Proof. apply (inj of_str). by rewrite !of_str_app, app_assoc. Qed.

Lemma str_app_inj_l (a b c : string) : a +:+ b = a +:+ c → b = c.
Proof. intros H%(f_equal of_str). rewrite !of_str_app in H. by apply app_inv_head, (inj of_str) in H. Qed.

Lemma str_app_inj_r (a b c : string) : a +:+ c = b +:+ c → a = b.
Proof. intros H%(f_equal of_str). rewrite !of_str_app in H. by apply app_inv_tail, (inj of_str) in H. Qed.

(** A number as a text of bits: a codec that loses nothing, for concrete instances. *)
Fixpoint bits_of (p : positive) : chars :=
  match p with
  | xH => ["."]
  | xO p => "0" :: bits_of p
  | xI p => "1" :: bits_of p
  end%char.
Fixpoint of_bits (l : chars) : option positive :=
  match l with
  | [] => None
  | c :: l =>
      if c == "."%char then Some xH
      else if c == "0"%char then xO <$> of_bits l else xI <$> of_bits l
  end.
Lemma of_bits_of p l : of_bits (bits_of p ++ l) = Some p.
Proof. induction p as [p IH|p IH|]; cbn; rewrite ?IH; done. Qed.
