(* ===== verification/Json.v ===== *)
(** * JSON texts

    The values and the serialisation of Python's [json.dumps(..., sort_keys=True)] as
    [app/crypto.py] calls it: with the default separators, with the compact ones, and indented. The
    text is ASCII ([ensure_ascii]), which is why [.encode()] cannot fail. *)
From S2P Require Import Prelude PyStr.
From Stdlib Require Import Ascii.

(** A float is kept as its [repr]. *)
Inductive json :=
  | JNull
  | JBool (b : bool)
  | JStr (s : string)
  | JInt (z : Z)
  | JFloat (repr : string)
  | JArr (l : list json)
  | JObj (l : list (string * json)).

Definition hex_digit (n : nat) : ascii :=
  if (n <? 10)%nat then ascii_of_nat (48 + n) else ascii_of_nat (87 + n).

(** The escapes of one character. *)
Definition json_escape_char (c : ascii) : chars :=
  let n := code c in
  if n == 34 then ["\"; ascii_of_nat 34]%char
  else if n == 92 then ["\"; "\"]%char
  else if n == 10 then ["\"; "n"]%char
  else if n == 13 then ["\"; "r"]%char
  else if n == 9 then ["\"; "t"]%char
  else if n == 12 then ["\"; "f"]%char
  else if n == 8 then ["\"; "b"]%char
  else if (32 <=? n) && (n <=? 126) then [c]
  else ["\"; "u"; "0"; "0"; hex_digit (n / 16); hex_digit (n mod 16)]%char.

Definition quote_mark : string := to_str [ascii_of_nat 34].
Definition newline : string := to_str [ascii_of_nat 10].

Definition json_string (s : string) : string :=
  quote_mark +:+ to_str (concat (json_escape_char <$> of_str s)) +:+ quote_mark.

Definition spaces (n : nat) : string := to_str (replicate n " "%char).

(** The items of a container between its brackets. *)
Definition json_container (indent : option nat) (item_sep : string) (level : nat)
    (opening closing : string) (items : list string) : string :=
  match items, indent with
  | [], _ => opening +:+ closing
  | _, None => opening +:+ join item_sep items +:+ closing
  | _, Some n =>
      opening +:+ newline +:+ spaces (n * S level)
      +:+ join (item_sep +:+ newline +:+ spaces (n * S level)) items
      +:+ newline +:+ spaces (n * level) +:+ closing
  end.

(** [json.dumps(v, indent=indent, separators=(item_sep, key_sep), sort_keys=True)]. *)
Fixpoint json_dumps (indent : option nat) (item_sep key_sep : string) (level : nat)
    (v : json) : string :=
  match v with
  | JNull => "null"
  | JBool b => if b then "true" else "false"
  | JStr s => json_string s
  | JInt z => pretty z
  | JFloat repr => repr
  | JArr l =>
      json_container indent item_sep level "[" "]"
        (map (json_dumps indent item_sep key_sep (S level)) l)
  | JObj l =>
      json_container indent item_sep level "{" "}"
        (map (fun kv => json_string kv.1 +:+ key_sep +:+ kv.2)
          (merge_sort (fun a b => String.le a.1 b.1)
            (map (fun kv => (kv.1, json_dumps indent item_sep key_sep (S level) kv.2)) l)))
  end.

Definition dumps_default : json → string := json_dumps None ", " ": " 0.
Definition dumps_compact : json → string := json_dumps None "," ":" 0.
Definition dumps_indent4 : json → string := json_dumps (Some 4) "," ": " 0.

(** ** Values as Python sees them *)

(** [bool(v)] of a parsed value; a zero float prints as [0.0] or [-0.0]. *)
Definition json_truthy (v : json) : bool :=
  match v with
  | JNull => false
  | JBool b => b
  | JStr s => truthy_str s
  | JInt z => negb (z == 0%Z)
  | JFloat r => negb (r isin ["0.0"; "-0.0"])
  | JArr l => match l with [] => false | _ => true end
  | JObj l => match l with [] => false | _ => true end
  end.
Definition json_or (v w : json) : json := if json_truthy v then v else w.

(** [payload.get(key)] of a parsed object, whose keys are distinct; [None] and [null] coincide. *)
Definition json_get (fields : list (string * json)) (key : string) : json :=
  match List.find (fun kv => kv.1 == key) fields with Some kv => kv.2 | None => JNull end.
Definition is_obj (v : json) : bool := match v with JObj _ => true | _ => false end.
Definition obj_fields (v : json) : list (string * json) := match v with JObj l => l | _ => [] end.

(** [repr(s)] of a Latin-1 string. *)
Definition is_printable (c : ascii) : bool :=
  let n := code c in
  ((32 <=? n) && (n <=? 126)) || ((161 <=? n) && negb (n == 173)).
Definition repr_char (quote c : ascii) : chars :=
  let n := code c in
  if (c == quote) || (c == "\"%char) then ["\"%char; c]
  else if n == 10 then ["\"; "n"]%char
  else if n == 13 then ["\"; "r"]%char
  else if n == 9 then ["\"; "t"]%char
  else if is_printable c then [c]
  else ["\"; "x"; hex_digit (n / 16); hex_digit (n mod 16)]%char.
Definition repr_str (s : string) : string :=
  let single := ascii_of_nat 39 in
  let double := ascii_of_nat 34 in
  let l := of_str s in
  let quote := if (single isin l) && negb (double isin l) then double else single in
  to_str (quote :: concat (repr_char quote <$> l) ++ [quote]).

(** [repr(v)] and [str(v)] of a parsed value. *)
Fixpoint py_repr (v : json) : string :=
  match v with
  | JNull => "None"
  | JBool b => if b then "True" else "False"
  | JStr s => repr_str s
  | JInt z => pretty z
  | JFloat repr => repr
  | JArr l => "[" +:+ join ", " (map py_repr l) +:+ "]"
  | JObj l => "{" +:+ join ", " (map (fun kv => repr_str kv.1 +:+ ": " +:+ py_repr kv.2) l) +:+ "}"
  end.
Definition py_str (v : json) : string := match v with JStr s => s | _ => py_repr v end.

(** A quoted string is determined by what it quotes: unescaping gives it back. *)
Definition unhex (c : ascii) : nat := if is_digit c then code c - 48 else code c - 87.
Fixpoint json_unescape (l : chars) : chars :=
  match l with
  | [] => []
  | c :: l =>
      if c == "\"%char then
        match l with
        | [] => []
        | e :: l =>
            if e == "u"%char then
              match l with
              | _ :: _ :: a :: b :: l => ascii_of_nat (16 * unhex a + unhex b) :: json_unescape l
              | _ => []
              end
            else
              (if e == "n"%char then ascii_of_nat 10
               else if e == "r"%char then ascii_of_nat 13
               else if e == "t"%char then ascii_of_nat 9
               else if e == "f"%char then ascii_of_nat 12
               else if e == "b"%char then ascii_of_nat 8
               else e) :: json_unescape l
        end
      else c :: json_unescape l
  end.

Lemma json_unescape_escape_char c l :
  json_unescape (json_escape_char c ++ l) = c :: json_unescape l.
Proof. destruct c as [[] [] [] [] [] [] [] []]; reflexivity. Qed.

Lemma json_unescape_escape l :
  json_unescape (concat (json_escape_char <$> l)) = l.
Proof.
  induction l as [|c l IH]; [done|]. cbn [fmap list_fmap concat].
  by rewrite json_unescape_escape_char, IH.
Qed.

Lemma json_string_inj : Inj (=) (=) json_string.
Proof.
  intros a b H. unfold json_string in H.
  apply str_app_inj_l, str_app_inj_r, (inj to_str) in H.
  apply (inj of_str). by rewrite <- (json_unescape_escape (of_str a)), H, json_unescape_escape.
Qed.
