(* ===== verification/Bytes.v ===== *)
(** * Byte strings: big-endian packing and base64

    A [bytes] value is a list of integers between 0 and 255. The encoders are those of Python's
    [struct] and [base64] that [app/crypto.py] and [node/agent/agent.py] use, written out on lists,
    with their round trips. *)
From S2P Require Import Prelude PyStr.
From Stdlib Require Import Ascii.

Abbreviation bytes := (list Z).

Definition is_byte (b : Z) : Prop := (0 <= b < 256)%Z.
Definition is_bytes (l : bytes) : Prop := Forall is_byte l.

(** [s.encode()] of an ASCII string. *)
Definition encode_ascii (s : string) : bytes := (fun c => Z.of_nat (code c)) <$> of_str s.

Lemma encode_ascii_bytes s : is_bytes (encode_ascii s).
Proof.
  unfold encode_ascii, is_bytes. apply Forall_fmap, Forall_true. intros c. unfold is_byte, compose.
  pose proof (nat_ascii_bounded c). unfold code. lia.
Qed.

(** [s.encode()] of a Latin-1 string: the UTF-8 bytes of each character. *)
Definition encode_utf8 (s : string) : bytes :=
  concat ((fun c => let n := code c in
             if (n <? 128)%nat then [Z.of_nat n]
             else [Z.of_nat (192 + n / 64); Z.of_nat (128 + n mod 64)]) <$> of_str s).

(** ** [struct.pack] of big-endian unsigned integers

    [pack_be n v] is [v] on [n] bytes, or a [struct.error] when [v] does not fit. *)
Fixpoint be_bytes (n : nat) (v : Z) : bytes :=
  match n with
  | 0 => []
  | S n => ((v / 256 ^ Z.of_nat n) mod 256)%Z :: be_bytes n v
  end.
Definition pack_be (n : nat) (v : Z) : outcome bytes :=
  if ((0 <=? v) && (v <? 256 ^ Z.of_nat n))%Z then Ok (be_bytes n v)
  else Raise (StructError "integer out of range for format").

(** [struct.unpack]. *)
Definition unpack_be (l : bytes) : Z := foldl (fun acc b => 256 * acc + b)%Z 0%Z l.

Lemma be_bytes_length n v : length (be_bytes n v) = n.
Proof. induction n; simpl; auto. Qed.

Lemma be_bytes_bytes n v : is_bytes (be_bytes n v).
Proof.
  induction n; simpl; [constructor|]. constructor; [|done]. unfold is_byte.
  apply Z.mod_pos_bound. lia.
Qed.

Lemma unpack_be_bytes_acc n v acc :
  (0 <= v)%Z →
  foldl (fun acc b => 256 * acc + b)%Z acc (be_bytes n v)
  = (acc * 256 ^ Z.of_nat n + v mod 256 ^ Z.of_nat n)%Z.
Proof.
  intros Hv. revert acc. induction n as [|n IH]; intros acc; simpl.
  - rewrite Z.mod_1_r. lia.
  - rewrite IH. replace (Z.of_nat (S n)) with (Z.of_nat n + 1)%Z by lia.
    rewrite Z.pow_add_r, Z.pow_1_r by lia.
    pose proof (Z.pow_pos_nonneg 256 (Z.of_nat n)) as Hp.
    rewrite Z.rem_mul_r by lia. lia.
Qed.

Lemma unpack_pack_be n v l : pack_be n v = Ok l → unpack_be l = v ∧ length l = n ∧ is_bytes l.
Proof.
  unfold pack_be. destruct (_ && _)%Z eqn:E; [|done]. intros [= <-].
  apply andb_true_iff in E as [?%Z.leb_le ?%Z.ltb_lt].
  unfold unpack_be. rewrite unpack_be_bytes_acc by done. rewrite Z.mod_small by lia.
  split_and!; [lia|apply be_bytes_length|apply be_bytes_bytes].
Qed.

(** ** Base64

    Both alphabets; the digit functions are inverse to each other on 0..63. *)
Definition b64_tail_std : list ascii := ["+"; "/"]%char.
Definition b64_tail_url : list ascii := ["-"; "_"]%char.
Definition b64_digit (tail : list ascii) (v : Z) : ascii :=
  if (v <? 26)%Z then ascii_of_nat (65 + Z.to_nat v)
  else if (v <? 52)%Z then ascii_of_nat (71 + Z.to_nat v)
  else if (v <? 62)%Z then ascii_of_nat (Z.to_nat v - 4)
  else nth (Z.to_nat v - 62) tail "A"%char.
Definition b64_value (tail : list ascii) (c : ascii) : option Z :=
  let n := code c in
  if is_upper c then Some (Z.of_nat (n - 65))
  else if is_lower c then Some (Z.of_nat (n - 71))
  else if is_digit c then Some (Z.of_nat (n + 4))
  else if Some c == head tail then Some 62%Z
  else if Some c == (tail !! 1) then Some 63%Z
  else None.

Fixpoint b64_encode_chars (tail : list ascii) (l : bytes) : chars :=
  match l with
  | [] => []
  | [a] => [b64_digit tail (a / 4); b64_digit tail ((a mod 4) * 16); "="; "="]%char
  | [a; b] =>
      [b64_digit tail (a / 4); b64_digit tail ((a mod 4) * 16 + b / 16);
       b64_digit tail ((b mod 16) * 4); "="]%char
  | a :: b :: c :: l =>
      b64_digit tail (a / 4) :: b64_digit tail ((a mod 4) * 16 + b / 16) ::
      b64_digit tail ((b mod 16) * 4 + c / 64) :: b64_digit tail (c mod 64) ::
      b64_encode_chars tail l
  end%Z.
Definition b64encode (l : bytes) : string := to_str (b64_encode_chars b64_tail_std l).
Definition urlsafe_b64encode (l : bytes) : string := to_str (b64_encode_chars b64_tail_url l).

(** Decoding whole quads, [None] on a character outside the alphabet or on bad padding. *)
Fixpoint b64_decode_chars (tail : list ascii) (l : chars) : option bytes :=
  match l with
  | [] => Some []
  | w :: x :: y :: z :: l =>
      a ← b64_value tail w; b ← b64_value tail x;
      if (y == "="%char) && (z == "="%char) then
        match l with [] => Some [a * 4 + b / 16]%Z | _ => None end
      else
        c ← b64_value tail y;
        if z == "="%char then
          match l with [] => Some [a * 4 + b / 16; (b mod 16) * 16 + c / 4]%Z | _ => None end
        else
          d ← b64_value tail z;
          r ← b64_decode_chars tail l;
          Some (a * 4 + b / 16 :: (b mod 16) * 16 + c / 4 :: (c mod 4) * 64 + d :: r)%Z
  | _ => None
  end.

(** [s + '=' * (-len(s) % 4)]. *)
Definition b64_pad (l : chars) : chars :=
  l ++ replicate (Z.to_nat ((- Z.of_nat (length l)) mod 4)) "="%char.

Definition urlsafe_b64decode_padded (s : string) : option bytes :=
  b64_decode_chars b64_tail_url (b64_pad (of_str s)).

Definition good_tail (tail : list ascii) : Prop := tail = b64_tail_std ∨ tail = b64_tail_url.

Lemma b64_digit_facts tail v :
  good_tail tail → (0 <= v < 64)%Z →
  b64_value tail (b64_digit tail v) = Some v ∧ b64_digit tail v ≠ "="%char.
Proof.
  intros Ht Hv.
  assert (∀ t, t = b64_tail_std ∨ t = b64_tail_url →
    forallb (fun n => (b64_value t (b64_digit t (Z.of_nat n)) == Some (Z.of_nat n)) &&
                      (b64_digit t (Z.of_nat n) != "="%char)) (seq 0 64) = true) as Hall.
  { intros t [->| ->]; vm_compute; reflexivity. }
  specialize (Hall tail Ht). rewrite forallb_forall in Hall.
  specialize (Hall (Z.to_nat v)). rewrite in_seq, Z2Nat.id in Hall by lia.
  destruct (andb_prop _ _ (Hall ltac:(lia))) as [H1 H2]. by py_bool.
Qed.

(** Decoding what was encoded gives the bytes back, with either alphabet. *)
Lemma b64_decode_encode tail l :
  good_tail tail → is_bytes l → b64_decode_chars tail (b64_encode_chars tail l) = Some l.
Proof.
  intros Ht. remember (length l) as n eqn:Hn. revert l Hn.
  induction (lt_wf n) as [n _ IH]. intros l -> Hl.
  assert (∀ v, (0 <= v < 64)%Z → b64_value tail (b64_digit tail v) = Some v) as Hval
    by (intros; by apply b64_digit_facts).
  assert (∀ v, (0 <= v < 64)%Z → b64_digit tail v ≠ "="%char) as Hne
    by (intros; by apply b64_digit_facts).
  assert (∀ v, (0 <= v < 64)%Z → (b64_digit tail v == "="%char) = false) as Hne'
    by (intros; by apply bool_decide_eq_false_2, Hne).
  destruct l as [|a [|b [|c l]]]; [done|..]; cbn [b64_encode_chars b64_decode_chars].
  - apply Forall_cons in Hl as [Ha _]. unfold is_byte in Ha.
    rewrite !Hval by (Z.div_mod_to_equations; lia). cbn.
    repeat f_equal; Z.div_mod_to_equations; lia.
  - apply Forall_cons in Hl as [Ha [Hb _]%Forall_cons]. unfold is_byte in *.
    rewrite !Hval by (Z.div_mod_to_equations; lia).
    rewrite !Hne' by (Z.div_mod_to_equations; lia). cbn.
    repeat f_equal; Z.div_mod_to_equations; lia.
  - apply Forall_cons in Hl as [Ha [Hb [Hc Hl]%Forall_cons]%Forall_cons]. unfold is_byte in *.
    rewrite !Hval by (Z.div_mod_to_equations; lia).
    rewrite !Hne' by (Z.div_mod_to_equations; lia).
    rewrite (IH (length l)); [|simpl; lia|done|done].
    cbn. repeat f_equal; Z.div_mod_to_equations; lia.
Qed.

(** Re-padding an encoding whose padding was stripped. *)
Lemma b64_encode_length tail l :
  length (b64_encode_chars tail l) mod 4 = 0.
Proof.
  remember (length l) as n eqn:Hn. revert l Hn.
  induction (lt_wf n) as [n _ IH]. intros l ->.
  destruct l as [|a [|b [|c l]]]; [done..|]. cbn [b64_encode_chars length].
  replace (S (S (S (S (length (b64_encode_chars tail l))))))
    with (length (b64_encode_chars tail l) + 1 * 4) by lia.
  rewrite Nat.Div0.mod_add. apply (IH (length l)); [simpl; lia|done].
Qed.

Lemma lstrip_replicate (a : ascii) n l :
  head l ≠ Some a → lstrip_with (fun c => c == a) (replicate n a ++ l) = l.
Proof.
  intros Hl. induction n as [|n IH]; simpl.
  - destruct l as [|b l]; [done|]. simpl. rewrite bool_decide_eq_false_2; [done|]. by intros ->.
  - by rewrite bool_decide_eq_true_2.
Qed.

Lemma b64_encode_shape tail l :
  good_tail tail → is_bytes l →
  ∃ body n, b64_encode_chars tail l = body ++ replicate n "="%char ∧ n ≤ 2 ∧
    "="%char ∉ body.
Proof.
  intros Ht. remember (length l) as n eqn:Hn. revert l Hn.
  induction (lt_wf n) as [n _ IH]. intros l -> Hl.
  assert (∀ v, (0 <= v < 64)%Z → "="%char ≠ b64_digit tail v) as Hne
    by (intros v Hv E; by apply (b64_digit_facts tail v Ht Hv)).
  destruct l as [|a [|b [|c l]]]; cbn [b64_encode_chars].
  - exists [], 0. split_and!; [done|lia|apply not_elem_of_nil].
  - apply Forall_cons in Hl as [Ha _]. unfold is_byte in Ha.
    eexists [_; _], 2. split_and!; [reflexivity|lia|].
    rewrite !not_elem_of_cons. split_and!; [..|apply not_elem_of_nil];
      apply Hne; Z.div_mod_to_equations; lia.
  - apply Forall_cons in Hl as [Ha [Hb _]%Forall_cons]. unfold is_byte in *.
    eexists [_; _; _], 1. split_and!; [reflexivity|lia|].
    rewrite !not_elem_of_cons. split_and!; [..|apply not_elem_of_nil];
      apply Hne; Z.div_mod_to_equations; lia.
  - apply Forall_cons in Hl as [Ha [Hb [Hc Hl]%Forall_cons]%Forall_cons]. unfold is_byte in *.
    destruct (IH (length l) ltac:(simpl; lia) l eq_refl Hl) as (body & n & -> & Hn & Hb').
    eexists (_ :: _ :: _ :: _ :: body), n. split_and!; [reflexivity|done|].
    rewrite !not_elem_of_cons. split_and!; [..|done];
      apply Hne; Z.div_mod_to_equations; lia.
Qed.

(** [base64.urlsafe_b64encode(data).decode().rstrip('=')] and the decoder that puts the padding
    back are inverse to each other. *)
Definition urlsafe_b64encode_nopad (l : bytes) : string :=
  rstrip_char "="%char (urlsafe_b64encode l).

Lemma urlsafe_nopad_roundtrip l :
  is_bytes l → urlsafe_b64decode_padded (urlsafe_b64encode_nopad l) = Some l.
Proof.
  intros Hl. assert (good_tail b64_tail_url) as Ht by by right.
  unfold urlsafe_b64decode_padded, urlsafe_b64encode_nopad, rstrip_char, urlsafe_b64encode.
  rewrite !of_to_str.
  destruct (b64_encode_shape b64_tail_url l Ht Hl) as (body & n & E & Hn & Hb).
  pose proof (b64_encode_length b64_tail_url l) as Hlen.
  pose proof (b64_decode_encode b64_tail_url l Ht Hl) as Hdec.
  rewrite E in Hlen, Hdec |- *. unfold rstrip_with.
  rewrite rev_app_distr.
  assert (rev (replicate n "="%char) = replicate n "="%char) as -> by
    (clear; induction n as [|n IH]; simpl; [done|]; by rewrite IH, <- replicate_S_end).
  rewrite lstrip_replicate, rev_involutive.
  - unfold b64_pad. rewrite length_app, length_replicate in Hlen.
    enough (Z.to_nat (- Z.of_nat (length body) mod 4) = n) as -> by done.
    assert (Z.of_nat (length body + n) mod 4 = 0)%Z as Hz.
    { change 4%Z with (Z.of_nat 4). rewrite <- Nat2Z.inj_mod, Hlen. done. }
    rewrite Nat2Z.inj_add in Hz. Z.div_mod_to_equations. lia.
  - destruct (rev body) as [|b bs] eqn:Er; [done|]. simpl. intros [= ->]. apply Hb.
    apply list_elem_of_In, in_rev. rewrite Er. by left.
Qed.
