(* ===== verification/Models.v ===== *)
(** * Database rows, tables and schema constraints

    The ORM rows of [panel/backend/app/models.py], column by column ([str] is [string], integers
    are [Z], a nullable column is an [option]); the tables as finite maps keyed by their primary
    key (aggregates by the columns of their unique constraint, settings as the list of their rows);
    the constraints the database enforces, as the invariant [db_wf]; and the cascades of a row
    deletion. Relationship attributes ([user.peers], [node.peers]) are the queries below. *)
From S2P Require Import Prelude.

Record Node := mkNode {
  Node_id : string;
  Node_name : string;
  Node_url : string;
  Node_token : string;
  Node_created_at : datetime;
  Node_health_status : string;
  Node_last_seen_at : option datetime;
  Node_reachability_status : string;
  Node_last_heartbeat_at : option datetime;
  Node_last_heartbeat_error : option string;
  Node_sync_status : string;
  Node_sync_error : option string;
  Node_last_synced_at : option datetime;
  Node_provision_status : string;
  Node_private_key : option string;
  Node_server_public_key : option string;
  Node_server_endpoint : option string;
  Node_listen_port : option Z;
  Node_jc : option Z;
  Node_jmin : option Z;
  Node_jmax : option Z;
  Node_s1 : option Z;
  Node_s2 : option Z;
  Node_s3 : option Z;
  Node_s4 : option Z;
  Node_h1 : option string;
  Node_h2 : option string;
  Node_h3 : option string;
  Node_h4 : option string;
  Node_i1 : option string;
  Node_i2 : option string;
  Node_i3 : option string;
  Node_i4 : option string;
  Node_i5 : option string;
  Node_mtu : option string;
  Node_last_error : option string }.
#[export] Instance Node_eta : Eta Node := fun r =>
  mkNode (Node_id r) (Node_name r) (Node_url r) (Node_token r) (Node_created_at r)
    (Node_health_status r) (Node_last_seen_at r) (Node_reachability_status r)
    (Node_last_heartbeat_at r) (Node_last_heartbeat_error r) (Node_sync_status r)
    (Node_sync_error r) (Node_last_synced_at r) (Node_provision_status r)
    (Node_private_key r) (Node_server_public_key r) (Node_server_endpoint r)
    (Node_listen_port r) (Node_jc r) (Node_jmin r) (Node_jmax r) (Node_s1 r) (Node_s2 r)
    (Node_s3 r) (Node_s4 r) (Node_h1 r) (Node_h2 r) (Node_h3 r) (Node_h4 r) (Node_i1 r)
    (Node_i2 r) (Node_i3 r) (Node_i4 r) (Node_i5 r) (Node_mtu r) (Node_last_error r).
#[export] Instance Node_eq_dec : EqDecision Node.
Proof. solve_decision. Defined.

Record User := mkUser {
  User_id : string;
  User_name : string;
  User_is_blocked : bool;
  User_lifecycle_status : string;
  User_expire_at : option datetime;
  User_traffic_limit_bytes : Z;
  User_traffic_reset_policy : string;
  User_traffic_reset_at : option datetime;
  User_public_token : string;
  User_created_at : datetime;
  User_device_limit : Z;
  User_public_key : option string;
  User_private_key : option string;
  User_vpn_ip : option string }.
#[export] Instance User_eta : Eta User := fun r =>
  mkUser (User_id r) (User_name r) (User_is_blocked r) (User_lifecycle_status r)
    (User_expire_at r) (User_traffic_limit_bytes r) (User_traffic_reset_policy r)
    (User_traffic_reset_at r) (User_public_token r) (User_created_at r) (User_device_limit r)
    (User_public_key r) (User_private_key r) (User_vpn_ip r).
#[export] Instance User_eq_dec : EqDecision User.
Proof. solve_decision. Defined.

Record Device := mkDevice {
  Device_id : string;
  Device_user_id : string;
  Device_name : string;
  Device_public_key : option string;
  Device_private_key : option string;
  Device_vpn_ip : option string;
  Device_released_vpn_ip : option string;
  Device_ip_released_at : option datetime;
  Device_is_legacy_default : bool;
  Device_deleted_at : option datetime;
  Device_created_at : datetime }.
#[export] Instance Device_eta : Eta Device := fun r =>
  mkDevice (Device_id r) (Device_user_id r) (Device_name r) (Device_public_key r)
    (Device_private_key r) (Device_vpn_ip r) (Device_released_vpn_ip r)
    (Device_ip_released_at r) (Device_is_legacy_default r) (Device_deleted_at r)
    (Device_created_at r).
#[export] Instance Device_eq_dec : EqDecision Device.
Proof. solve_decision. Defined.

Record Peer := mkPeer {
  Peer_id : string;
  Peer_node_id : string;
  Peer_user_id : string;
  Peer_device_id : string;
  Peer_created_at : datetime;
  Peer_status : string;
  Peer_psk_key : option string;
  Peer_raw_rx : option Z;
  Peer_raw_tx : option Z;
  Peer_last_handshake : option datetime;
  Peer_endpoint : option string }.
#[export] Instance Peer_eta : Eta Peer := fun r =>
  mkPeer (Peer_id r) (Peer_node_id r) (Peer_user_id r) (Peer_device_id r) (Peer_created_at r)
    (Peer_status r) (Peer_psk_key r) (Peer_raw_rx r) (Peer_raw_tx r) (Peer_last_handshake r)
    (Peer_endpoint r).
#[export] Instance Peer_eq_dec : EqDecision Peer.
Proof. solve_decision. Defined.

Record PeerTrafficSample := mkPeerTrafficSample {
  Sample_id : string;
  Sample_peer_id : string;
  Sample_sampled_at : datetime;
  Sample_rx_bytes : Z;
  Sample_tx_bytes : Z }.
#[export] Instance PeerTrafficSample_eta : Eta PeerTrafficSample := fun r =>
  mkPeerTrafficSample (Sample_id r) (Sample_peer_id r) (Sample_sampled_at r) (Sample_rx_bytes r)
    (Sample_tx_bytes r).
#[export] Instance PeerTrafficSample_eq_dec : EqDecision PeerTrafficSample.
Proof. solve_decision. Defined.

Record PeerEndpointSession := mkPeerEndpointSession {
  Session_id : string;
  Session_peer_id : string;
  Session_node_id : string;
  Session_user_id : string;
  Session_endpoint : string;
  Session_first_seen_at : datetime;
  Session_last_seen_at : datetime;
  Session_last_handshake : option datetime;
  Session_created_at : datetime;
  Session_updated_at : datetime }.
#[export] Instance PeerEndpointSession_eta : Eta PeerEndpointSession := fun r =>
  mkPeerEndpointSession (Session_id r) (Session_peer_id r) (Session_node_id r) (Session_user_id r)
    (Session_endpoint r) (Session_first_seen_at r) (Session_last_seen_at r)
    (Session_last_handshake r) (Session_created_at r) (Session_updated_at r).
#[export] Instance PeerEndpointSession_eq_dec : EqDecision PeerEndpointSession.
Proof. solve_decision. Defined.

Record LocalAmneziawgTrafficDelta := mkLocalAmneziawgTrafficDelta {
  Delta_id : string;
  Delta_peer_id : string;
  Delta_node_id : string;
  Delta_user_id : string;
  Delta_observed_at : datetime;
  Delta_source_sync_id : option string;
  Delta_previous_rx_bytes : Z;
  Delta_previous_tx_bytes : Z;
  Delta_current_rx_bytes : Z;
  Delta_current_tx_bytes : Z;
  Delta_rx_delta_bytes : Z;
  Delta_tx_delta_bytes : Z;
  Delta_total_delta_bytes : Z;
  Delta_rx_reset_detected : bool;
  Delta_tx_reset_detected : bool;
  Delta_created_at : datetime }.
#[export] Instance LocalAmneziawgTrafficDelta_eta : Eta LocalAmneziawgTrafficDelta := fun r =>
  mkLocalAmneziawgTrafficDelta (Delta_id r) (Delta_peer_id r) (Delta_node_id r) (Delta_user_id r) (Delta_observed_at r)
    (Delta_source_sync_id r) (Delta_previous_rx_bytes r) (Delta_previous_tx_bytes r)
    (Delta_current_rx_bytes r) (Delta_current_tx_bytes r) (Delta_rx_delta_bytes r)
    (Delta_tx_delta_bytes r) (Delta_total_delta_bytes r) (Delta_rx_reset_detected r)
    (Delta_tx_reset_detected r) (Delta_created_at r).
#[export] Instance LocalAmneziawgTrafficDelta_eq_dec : EqDecision LocalAmneziawgTrafficDelta.
Proof. solve_decision. Defined.

Record LocalAmneziawgUserDailyTraffic := mkLocalAmneziawgUserDailyTraffic {
  UserDaily_id : string;
  UserDaily_user_id : string;
  UserDaily_day : Z;
  UserDaily_rx_bytes : Z;
  UserDaily_tx_bytes : Z;
  UserDaily_total_bytes : Z;
  UserDaily_updated_at : datetime }.
#[export] Instance LocalAmneziawgUserDailyTraffic_eta : Eta LocalAmneziawgUserDailyTraffic := fun r =>
  mkLocalAmneziawgUserDailyTraffic (UserDaily_id r) (UserDaily_user_id r) (UserDaily_day r) (UserDaily_rx_bytes r)
    (UserDaily_tx_bytes r) (UserDaily_total_bytes r) (UserDaily_updated_at r).
#[export] Instance LocalAmneziawgUserDailyTraffic_eq_dec : EqDecision LocalAmneziawgUserDailyTraffic.
Proof. solve_decision. Defined.

Record LocalAmneziawgUserNodeDailyTraffic := mkLocalAmneziawgUserNodeDailyTraffic {
  UserNodeDaily_id : string;
  UserNodeDaily_user_id : string;
  UserNodeDaily_node_id : string;
  UserNodeDaily_day : Z;
  UserNodeDaily_rx_bytes : Z;
  UserNodeDaily_tx_bytes : Z;
  UserNodeDaily_total_bytes : Z;
  UserNodeDaily_updated_at : datetime }.
#[export] Instance LocalAmneziawgUserNodeDailyTraffic_eta : Eta LocalAmneziawgUserNodeDailyTraffic := fun r =>
  mkLocalAmneziawgUserNodeDailyTraffic (UserNodeDaily_id r) (UserNodeDaily_user_id r) (UserNodeDaily_node_id r)
    (UserNodeDaily_day r) (UserNodeDaily_rx_bytes r) (UserNodeDaily_tx_bytes r)
    (UserNodeDaily_total_bytes r) (UserNodeDaily_updated_at r).
#[export] Instance LocalAmneziawgUserNodeDailyTraffic_eq_dec : EqDecision LocalAmneziawgUserNodeDailyTraffic.
Proof. solve_decision. Defined.

Record LocalAmneziawgUserLifetimeTraffic := mkLocalAmneziawgUserLifetimeTraffic {
  UserLifetime_id : string;
  UserLifetime_user_id : string;
  UserLifetime_rx_bytes : Z;
  UserLifetime_tx_bytes : Z;
  UserLifetime_total_bytes : Z;
  UserLifetime_updated_at : datetime }.
#[export] Instance LocalAmneziawgUserLifetimeTraffic_eta : Eta LocalAmneziawgUserLifetimeTraffic := fun r =>
  mkLocalAmneziawgUserLifetimeTraffic (UserLifetime_id r) (UserLifetime_user_id r) (UserLifetime_rx_bytes r)
    (UserLifetime_tx_bytes r) (UserLifetime_total_bytes r) (UserLifetime_updated_at r).
#[export] Instance LocalAmneziawgUserLifetimeTraffic_eq_dec : EqDecision LocalAmneziawgUserLifetimeTraffic.
Proof. solve_decision. Defined.

Record LocalAmneziawgUserNodeLifetimeTraffic := mkLocalAmneziawgUserNodeLifetimeTraffic {
  UserNodeLifetime_id : string;
  UserNodeLifetime_user_id : string;
  UserNodeLifetime_node_id : string;
  UserNodeLifetime_rx_bytes : Z;
  UserNodeLifetime_tx_bytes : Z;
  UserNodeLifetime_total_bytes : Z;
  UserNodeLifetime_updated_at : datetime }.
#[export] Instance LocalAmneziawgUserNodeLifetimeTraffic_eta : Eta LocalAmneziawgUserNodeLifetimeTraffic := fun r =>
  mkLocalAmneziawgUserNodeLifetimeTraffic (UserNodeLifetime_id r) (UserNodeLifetime_user_id r) (UserNodeLifetime_node_id r)
    (UserNodeLifetime_rx_bytes r) (UserNodeLifetime_tx_bytes r)
    (UserNodeLifetime_total_bytes r) (UserNodeLifetime_updated_at r).
#[export] Instance LocalAmneziawgUserNodeLifetimeTraffic_eq_dec : EqDecision LocalAmneziawgUserNodeLifetimeTraffic.
Proof. solve_decision. Defined.

Record LocalAmneziawgTrafficSettings := mkLocalAmneziawgTrafficSettings {
  TrafficSettings_id : string;
  TrafficSettings_raw_sample_retention_days : Z;
  TrafficSettings_peer_online_threshold_seconds : Z;
  TrafficSettings_created_at : datetime;
  TrafficSettings_updated_at : datetime }.
#[export] Instance LocalAmneziawgTrafficSettings_eta : Eta LocalAmneziawgTrafficSettings := fun r =>
  mkLocalAmneziawgTrafficSettings (TrafficSettings_id r) (TrafficSettings_raw_sample_retention_days r)
    (TrafficSettings_peer_online_threshold_seconds r) (TrafficSettings_created_at r)
    (TrafficSettings_updated_at r).
#[export] Instance LocalAmneziawgTrafficSettings_eq_dec : EqDecision LocalAmneziawgTrafficSettings.
Proof. solve_decision. Defined.

Record AsyncOperation := mkAsyncOperation {
  Op_id : string;
  Op_kind : string;
  Op_target_type : option string;
  Op_target_id : option string;
  Op_status : string;
  Op_error : option string;
  Op_result : option string;
  Op_attempts : Z;
  Op_idempotency_key : string;
  Op_created_at : datetime;
  Op_updated_at : datetime;
  Op_finished_at : option datetime }.
#[export] Instance AsyncOperation_eta : Eta AsyncOperation := fun r =>
  mkAsyncOperation (Op_id r) (Op_kind r) (Op_target_type r) (Op_target_id r) (Op_status r) (Op_error r)
    (Op_result r) (Op_attempts r) (Op_idempotency_key r) (Op_created_at r) (Op_updated_at r)
    (Op_finished_at r).
#[export] Instance AsyncOperation_eq_dec : EqDecision AsyncOperation.
Proof. solve_decision. Defined.

Record RemnawaveSettings := mkRemnawaveSettings {
  RwSettings_id : string;
  RwSettings_base_url : option string;
  RwSettings_enabled : bool;
  RwSettings_polling_enabled : bool;
  RwSettings_polling_interval_seconds : Z;
  RwSettings_api_token : option string;
  RwSettings_webhook_secret : option string;
  RwSettings_subscription_url : option string;
  RwSettings_last_tested_at : option datetime;
  RwSettings_last_test_status : option string;
  RwSettings_last_test_error : option string;
  RwSettings_last_synced_at : option datetime;
  RwSettings_created_at : datetime;
  RwSettings_updated_at : datetime }.
#[export] Instance RemnawaveSettings_eta : Eta RemnawaveSettings := fun r =>
  mkRemnawaveSettings (RwSettings_id r) (RwSettings_base_url r) (RwSettings_enabled r)
    (RwSettings_polling_enabled r) (RwSettings_polling_interval_seconds r)
    (RwSettings_api_token r) (RwSettings_webhook_secret r) (RwSettings_subscription_url r)
    (RwSettings_last_tested_at r) (RwSettings_last_test_status r)
    (RwSettings_last_test_error r) (RwSettings_last_synced_at r) (RwSettings_created_at r)
    (RwSettings_updated_at r).
#[export] Instance RemnawaveSettings_eq_dec : EqDecision RemnawaveSettings.
Proof. solve_decision. Defined.

Record TelegramProxySettings := mkTelegramProxySettings {
  TgSettings_id : string;
  TgSettings_enabled : bool;
  TgSettings_port : Z;
  TgSettings_tls_domain : string;
  TgSettings_secret_encrypted : option string;
  TgSettings_primary_node_id : option string;
  TgSettings_last_rotation_at : option datetime;
  TgSettings_last_rotation_reason : option string;
  TgSettings_last_rotation_error : option string;
  TgSettings_created_at : datetime;
  TgSettings_updated_at : datetime }.
#[export] Instance TelegramProxySettings_eta : Eta TelegramProxySettings := fun r =>
  mkTelegramProxySettings (TgSettings_id r) (TgSettings_enabled r) (TgSettings_port r) (TgSettings_tls_domain r)
    (TgSettings_secret_encrypted r) (TgSettings_primary_node_id r)
    (TgSettings_last_rotation_at r) (TgSettings_last_rotation_reason r)
    (TgSettings_last_rotation_error r) (TgSettings_created_at r) (TgSettings_updated_at r).
#[export] Instance TelegramProxySettings_eq_dec : EqDecision TelegramProxySettings.
Proof. solve_decision. Defined.

Record TelegramProxyNodeState := mkTelegramProxyNodeState {
  TgState_node_id : string;
  TgState_status : string;
  TgState_public_host : option string;
  TgState_public_port : option Z;
  TgState_last_applied_at : option datetime;
  TgState_last_checked_at : option datetime;
  TgState_last_error : option string;
  TgState_created_at : datetime;
  TgState_updated_at : datetime }.
#[export] Instance TelegramProxyNodeState_eta : Eta TelegramProxyNodeState := fun r =>
  mkTelegramProxyNodeState (TgState_node_id r) (TgState_status r) (TgState_public_host r) (TgState_public_port r)
    (TgState_last_applied_at r) (TgState_last_checked_at r) (TgState_last_error r)
    (TgState_created_at r) (TgState_updated_at r).
#[export] Instance TelegramProxyNodeState_eq_dec : EqDecision TelegramProxyNodeState.
Proof. solve_decision. Defined.

Record RemnawaveUser := mkRemnawaveUser {
  Rw_id : string;
  Rw_user_id : string;
  Rw_remnawave_uuid : string;
  Rw_remnawave_id : option Z;
  Rw_short_uuid : option string;
  Rw_username : string;
  Rw_status : string;
  Rw_expire_at : option datetime;
  Rw_email : option string;
  Rw_tag : option string;
  Rw_telegram_id : option Z;
  Rw_description : option string;
  Rw_traffic_limit_bytes : Z;
  Rw_traffic_limit_strategy : string;
  Rw_traffic_used_bytes : Z;
  Rw_lifetime_used_traffic_bytes : Z;
  Rw_last_traffic_reset_at : option datetime;
  Rw_online_at : option datetime;
  Rw_first_connected_at : option datetime;
  Rw_last_connected_node_uuid : option string;
  Rw_hwid_device_limit : option Z;
  Rw_external_squad_uuid : option string;
  Rw_active_internal_squads_json : option string;
  Rw_subscription_url_encrypted : option string;
  Rw_last_seen_at : option datetime;
  Rw_last_synced_at : option datetime;
  Rw_sync_status : string;
  Rw_sync_reason : option string;
  Rw_sync_error : option string;
  Rw_delete_requested_at : option datetime;
  Rw_created_at : datetime;
  Rw_updated_at : datetime }.
#[export] Instance RemnawaveUser_eta : Eta RemnawaveUser := fun r =>
  mkRemnawaveUser (Rw_id r) (Rw_user_id r) (Rw_remnawave_uuid r) (Rw_remnawave_id r) (Rw_short_uuid r)
    (Rw_username r) (Rw_status r) (Rw_expire_at r) (Rw_email r) (Rw_tag r) (Rw_telegram_id r)
    (Rw_description r) (Rw_traffic_limit_bytes r) (Rw_traffic_limit_strategy r)
    (Rw_traffic_used_bytes r) (Rw_lifetime_used_traffic_bytes r) (Rw_last_traffic_reset_at r)
    (Rw_online_at r) (Rw_first_connected_at r) (Rw_last_connected_node_uuid r)
    (Rw_hwid_device_limit r) (Rw_external_squad_uuid r) (Rw_active_internal_squads_json r)
    (Rw_subscription_url_encrypted r) (Rw_last_seen_at r) (Rw_last_synced_at r)
    (Rw_sync_status r) (Rw_sync_reason r) (Rw_sync_error r) (Rw_delete_requested_at r)
    (Rw_created_at r) (Rw_updated_at r).
#[export] Instance RemnawaveUser_eq_dec : EqDecision RemnawaveUser.
Proof. solve_decision. Defined.

Record RemnawaveWebhookEvent := mkRemnawaveWebhookEvent {
  Webhook_id : string;
  Webhook_event_key : string;
  Webhook_event_type : string;
  Webhook_remnawave_user_uuid : option string;
  Webhook_received_at : datetime;
  Webhook_processed_at : option datetime }.
#[export] Instance RemnawaveWebhookEvent_eta : Eta RemnawaveWebhookEvent := fun r =>
  mkRemnawaveWebhookEvent (Webhook_id r) (Webhook_event_key r) (Webhook_event_type r)
    (Webhook_remnawave_user_uuid r) (Webhook_received_at r) (Webhook_processed_at r).
#[export] Instance RemnawaveWebhookEvent_eq_dec : EqDecision RemnawaveWebhookEvent.
Proof. solve_decision. Defined.

(** ** The tables *)
Record db := mkDb {
  nodes : gmap string Node;
  users : gmap string User;
  devices : gmap string Device;
  peers : gmap string Peer;
  samples : list PeerTrafficSample;
  endpoint_sessions : gmap string PeerEndpointSession;
  deltas : list LocalAmneziawgTrafficDelta;
  user_daily : gmap (string * Z) LocalAmneziawgUserDailyTraffic;
  user_node_daily : gmap (string * string * Z) LocalAmneziawgUserNodeDailyTraffic;
  user_lifetime : gmap string LocalAmneziawgUserLifetimeTraffic;
  user_node_lifetime : gmap (string * string) LocalAmneziawgUserNodeLifetimeTraffic;
  traffic_settings : list LocalAmneziawgTrafficSettings;
  operations : gmap string AsyncOperation;
  rw_settings : list RemnawaveSettings;
  tg_settings : list TelegramProxySettings;
  tg_states : gmap string TelegramProxyNodeState;
  rw_users : gmap string RemnawaveUser;
  webhook_events : gmap string RemnawaveWebhookEvent }.
#[export] Instance db_eta : Eta db := fun r =>
  mkDb (nodes r) (users r) (devices r) (peers r) (samples r) (endpoint_sessions r) (deltas r)
    (user_daily r) (user_node_daily r) (user_lifetime r) (user_node_lifetime r)
    (traffic_settings r) (operations r) (rw_settings r) (tg_settings r) (tg_states r)
    (rw_users r) (webhook_events r).

Definition empty_db : db :=
  mkDb ∅ ∅ ∅ ∅ [] ∅ [] ∅ ∅ ∅ ∅ [] ∅ [] [] ∅ ∅ ∅.

(** ** Queries *)
Definition rows {A} (t : gmap string A) : list A := (map_to_list t).*2.

(** [select(Row).where(p)]. *)
Definition select {A} (p : A → bool) (t : gmap string A) : list A :=
  List.filter p (rows t).

Definition peers_of_user (d : db) (uid : string) : list Peer :=
  select (fun p => Peer_user_id p == uid) (peers d).
Definition peers_of_node (d : db) (nid : string) : list Peer :=
  select (fun p => Peer_node_id p == nid) (peers d).
Definition peers_of_device (d : db) (did : string) : list Peer :=
  select (fun p => Peer_device_id p == did) (peers d).
Definition devices_of_user (d : db) (uid : string) : list Device :=
  select (fun v => Device_user_id v == uid) (devices d).

(** [user.remnawave_user]: the unique profile row of an account. *)
Definition remnawave_of (d : db) (uid : string) : option RemnawaveUser :=
  head (select (fun r => Rw_user_id r == uid) (rw_users d)).

Lemma elem_of_rows {A} (t : gmap string A) x : x ∈ rows t ↔ ∃ k, t !! k = Some x.
Proof. apply elem_of_map_to_list_snd. Qed.

Lemma elem_of_lfilter {A} (p : A → bool) (l : list A) x :
  x ∈ List.filter p l ↔ x ∈ l ∧ p x = true.
Proof. by rewrite !list_elem_of_In, filter_In. Qed.

Lemma elem_of_select {A} (p : A → bool) (t : gmap string A) x :
  x ∈ select p t ↔ (∃ k, t !! k = Some x) ∧ p x = true.
Proof. unfold select. by rewrite elem_of_lfilter, elem_of_rows. Qed.

#[export] Instance lfilter_permutation {A} (p : A → bool) :
  Proper (Permutation ==> Permutation) (List.filter p).
Proof.
  intros l l' HP. induction HP; simpl; try done.
  - case_match; [by constructor|done].
  - do 2 case_match; try done. constructor.
  - by etrans.
Qed.

Lemma rows_insert {A} (t : gmap string A) k x :
  t !! k = None → rows (<[k := x]> t) ≡ₚ x :: rows t.
Proof. intros Hk. unfold rows. by rewrite map_to_list_insert. Qed.

Lemma select_insert {A} (p : A → bool) (t : gmap string A) k x :
  t !! k = None → select p (<[k := x]> t) ≡ₚ (if p x then [x] else []) ++ select p t.
Proof. intros Hk. unfold select. rewrite rows_insert by done. simpl. by case_match. Qed.

(** Updating a row in place, and rewriting every row a predicate selects. *)
Definition update_peer (p : Peer) (d : db) : db := d <| peers := <[Peer_id p := p]> (peers d) |>.
Definition update_device (v : Device) (d : db) : db :=
  d <| devices := <[Device_id v := v]> (devices d) |>.
Definition update_user (u : User) (d : db) : db := d <| users := <[User_id u := u]> (users d) |>.
Definition update_node (n : Node) (d : db) : db := d <| nodes := <[Node_id n := n]> (nodes d) |>.
Definition update_rw (r : RemnawaveUser) (d : db) : db :=
  d <| rw_users := <[Rw_id r := r]> (rw_users d) |>.
Definition update_operation (o : AsyncOperation) (d : db) : db :=
  d <| operations := <[Op_id o := o]> (operations d) |>.

(** ** The constraints the schema enforces *)
Record db_wf (d : db) : Prop := {
  wf_node_id : ∀ k n, nodes d !! k = Some n → Node_id n = k;
  wf_user_id : ∀ k u, users d !! k = Some u → User_id u = k;
  wf_device_id : ∀ k v, devices d !! k = Some v → Device_id v = k ∧ k ≠ "";
  wf_peer_id : ∀ k p, peers d !! k = Some p → Peer_id p = k;
  wf_rw_id : ∀ k r, rw_users d !! k = Some r → Rw_id r = k;
  (* uq_devices_vpn_ip, uq_devices_public_key *)
  wf_device_ip : ∀ k1 k2 v1 v2 ip, devices d !! k1 = Some v1 → devices d !! k2 = Some v2 →
    Device_vpn_ip v1 = Some ip → Device_vpn_ip v2 = Some ip → k1 = k2;
  wf_device_key : ∀ k1 k2 v1 v2 pk, devices d !! k1 = Some v1 → devices d !! k2 = Some v2 →
    Device_public_key v1 = Some pk → Device_public_key v2 = Some pk → k1 = k2;
  (* devices.user_id *)
  wf_device_user : ∀ k v, devices d !! k = Some v → is_Some (users d !! Device_user_id v);
  (* uq_peers_node_device *)
  wf_peer_unique : ∀ k1 k2 p1 p2, peers d !! k1 = Some p1 → peers d !! k2 = Some p2 →
    Peer_node_id p1 = Peer_node_id p2 → Peer_device_id p1 = Peer_device_id p2 → k1 = k2;
  (* fk_peers_device_owner and peers.node_id *)
  wf_peer_owner : ∀ k p, peers d !! k = Some p →
    ∃ v, devices d !! Peer_device_id p = Some v ∧ Device_user_id v = Peer_user_id p;
  wf_peer_node : ∀ k p, peers d !! k = Some p → is_Some (nodes d !! Peer_node_id p);
  (* remnawave_users.user_id *)
  wf_rw_user : ∀ k r, rw_users d !! k = Some r → is_Some (users d !! Rw_user_id r);
  wf_rw_unique : ∀ k1 k2 r1 r2, rw_users d !! k1 = Some r1 → rw_users d !! k2 = Some r2 →
    Rw_user_id r1 = Rw_user_id r2 → k1 = k2 }.

Lemma empty_db_wf : db_wf empty_db.
Proof. split; intros *; simpl; rewrite ?lookup_empty; naive_solver. Qed.

(** Peer statuses. A live peer may serve a configuration; a tombstoned one is going or gone. *)
Definition LIVE_PEER_STATUSES : list string := ["pending"; "active"].
Definition DELETING_PEER_STATUSES : list string := ["pending_delete"; "deleted"].

(** The application invariant behind device deletion: no peer of a tombstoned device is live. *)
Definition tombstones_hold (d : db) : Prop :=
  ∀ k p v, peers d !! k = Some p → devices d !! Peer_device_id p = Some v →
    Device_deleted_at v ≠ None → Peer_status p ∉ LIVE_PEER_STATUSES.

(** The invariant of the panel's database: the schema's constraints and the tombstones. *)
Definition db_inv (d : db) : Prop := db_wf d ∧ tombstones_hold d.

(** ** Row updates that keep the identifying columns *)
Definition same_peer (p q : Peer) : Prop :=
  Peer_id p = Peer_id q ∧ Peer_node_id p = Peer_node_id q ∧
  Peer_user_id p = Peer_user_id q ∧ Peer_device_id p = Peer_device_id q.

#[export] Instance same_peer_refl : Reflexive same_peer.
Proof. by intros p. Qed.
#[export] Instance same_peer_trans : Transitive same_peer.
Proof. unfold same_peer. intros p q r (?&?&?&?) (?&?&?&?). repeat split; congruence. Qed.

(** Two databases that agree on the tables the invariants read. *)
Definition core_eq (d d' : db) : Prop :=
  nodes d = nodes d' ∧ users d = users d' ∧ devices d = devices d' ∧
  peers d = peers d' ∧ rw_users d = rw_users d'.

#[export] Instance core_eq_equiv : Equivalence core_eq.
Proof.
  split; unfold core_eq.
  - by intros d.
  - intros d d' (?&?&?&?&?). by repeat split.
  - intros d1 d2 d3 (?&?&?&?&?) (?&?&?&?&?). repeat split; congruence.
Qed.
#[export] Instance db_wf_proper : Proper (core_eq ==> iff) db_wf.
Proof.
  intros d d' (Hn & Hu & Hd & Hp & Hr).
  split; intros []; split; rewrite ?Hn, ?Hu, ?Hd, ?Hp, ?Hr in *;
    rewrite <- ?Hn, <- ?Hu, <- ?Hd, <- ?Hp, <- ?Hr in *; assumption.
Qed.
#[export] Instance tombstones_hold_proper : Proper (core_eq ==> iff) tombstones_hold.
Proof. intros d d' (Hn & Hu & Hd & Hp & Hr). unfold tombstones_hold. by rewrite Hd, Hp. Qed.

#[export] Instance db_inv_proper : Proper (core_eq ==> iff) db_inv.
Proof. intros d d' H. unfold db_inv. by rewrite H. Qed.

Lemma empty_db_inv : db_inv empty_db.
Proof. split; [apply empty_db_wf|]. intros k p v. simpl. by rewrite lookup_empty. Qed.

Lemma update_peer_wf d p q :
  db_wf d → peers d !! Peer_id p = Some p → same_peer p q → db_wf (update_peer q d).
Proof.
  intros [] Hp (Hid & Hn & Hu & Hv).
  assert (∀ k r, <[Peer_id q:=q]> (peers d) !! k = Some r →
    ∃ r', peers d !! k = Some r' ∧ same_peer r' r) as Hlk.
  { intros k r. rewrite lookup_insert. case_decide as Hk.
    - intros [= <-]. exists p. rewrite <- Hk, <- Hid. by repeat split.
    - intros Hr. by exists r. }
  split; simpl; try assumption.
  - intros k r (r' & Hr & Hs)%Hlk. destruct Hs as [<- _]. eauto.
  - intros k1 k2 r1 r2 (r1' & H1 & S1)%Hlk (r2' & H2 & S2)%Hlk.
    destruct S1 as (_ & <- & _ & <-), S2 as (_ & <- & _ & <-). eauto.
  - intros k r (r' & Hr & Hs)%Hlk. destruct Hs as (_ & _ & <- & <-). eauto.
  - intros k r (r' & Hr & Hs)%Hlk. destruct Hs as (_ & <- & _ & _). eauto.
Qed.

Lemma update_peer_tombstones d p q :
  tombstones_hold d → peers d !! Peer_id p = Some p → same_peer p q →
  (Peer_status q ∈ LIVE_PEER_STATUSES → Peer_status p ∈ LIVE_PEER_STATUSES ∨
     ∀ v, devices d !! Peer_device_id p = Some v → Device_deleted_at v = None) →
  tombstones_hold (update_peer q d).
Proof.
  intros HT Hp (Hid & Hn & Hu & Hv) Hst k r v. simpl. rewrite lookup_insert.
  case_decide as Hk; [|by eauto]. intros [= <-] Hdv Hdel Hlive.
  rewrite <- Hv in Hdv. destruct (Hst Hlive) as [Hl|Hl]; [|by eauto].
  by eapply (HT _ p v).
Qed.

(** The common case: a peer row is rewritten and is live only if its device is. *)
Lemma update_peer_inv d p q :
  db_inv d → peers d !! Peer_id q = Some p → same_peer p q →
  (Peer_status q ∈ LIVE_PEER_STATUSES → Peer_status p ∈ LIVE_PEER_STATUSES ∨
     ∀ v, devices d !! Peer_device_id q = Some v → Device_deleted_at v = None) →
  db_inv (update_peer q d).
Proof.
  intros [Hwf HT] Hp Hs Hl. pose proof Hs as (Hid & _ & _ & Hd).
  rewrite <- Hid in Hp. rewrite <- Hd in Hl.
  split; [by eapply update_peer_wf|by eapply update_peer_tombstones].
Qed.

(** Rewriting every peer row in place. *)
Lemma map_peers_wf d (f : Peer → Peer) :
  db_wf d → (∀ p, same_peer p (f p)) → db_wf (d <| peers := f <$> peers d |>).
Proof.
  intros [] Hf.
  assert (∀ k r, (f <$> peers d) !! k = Some r →
    ∃ r', peers d !! k = Some r' ∧ same_peer r' r) as Hlk.
  { intros k r. rewrite lookup_fmap. intros (r' & Hr & ->)%fmap_Some. eauto. }
  split; simpl; try assumption.
  - intros k r (r' & Hr & Hs)%Hlk. destruct Hs as [<- _]. eauto.
  - intros k1 k2 r1 r2 (r1' & H1 & S1)%Hlk (r2' & H2 & S2)%Hlk.
    destruct S1 as (_ & <- & _ & <-), S2 as (_ & <- & _ & <-). eauto.
  - intros k r (r' & Hr & Hs)%Hlk. destruct Hs as (_ & _ & <- & <-). eauto.
  - intros k r (r' & Hr & Hs)%Hlk. destruct Hs as (_ & <- & _ & _). eauto.
Qed.

(** Updates of the other tables. *)
Definition same_device (v w : Device) : Prop :=
  Device_id v = Device_id w ∧ Device_user_id v = Device_user_id w ∧
  Device_public_key v = Device_public_key w ∧
  (Device_vpn_ip w = Device_vpn_ip v ∨ Device_vpn_ip w = None).

Lemma update_device_wf d v w :
  db_wf d → devices d !! Device_id v = Some v → same_device v w → db_wf (update_device w d).
Proof.
  intros [] Hv (Hid & Hu & Hpk & Hip).
  assert (∀ k r, <[Device_id w:=w]> (devices d) !! k = Some r →
    ∃ r', devices d !! k = Some r' ∧ same_device r' r) as Hlk.
  { intros k r. rewrite lookup_insert. case_decide as Hk.
    - intros [= <-]. exists v. rewrite <- Hk, <- Hid. by repeat split.
    - intros Hr. exists r. split; [done|]. unfold same_device. tauto. }
  split; simpl; try assumption.
  - intros k r (r' & Hr & Hs)%Hlk. destruct Hs as [<- _]. by apply wf_device_id0.
  - intros k1 k2 r1 r2 ip (r1' & H1 & S1)%Hlk (r2' & H2 & S2)%Hlk.
    destruct S1 as (_ & _ & _ & [->| ->]), S2 as (_ & _ & _ & [->| ->]); [|done..]. eauto.
  - intros k1 k2 r1 r2 pk (r1' & H1 & S1)%Hlk (r2' & H2 & S2)%Hlk.
    destruct S1 as (_ & _ & <- & _), S2 as (_ & _ & <- & _). eauto.
  - intros k r (r' & Hr & Hs)%Hlk. destruct Hs as (_ & <- & _). eauto.
  - intros k p Hp. destruct (wf_peer_owner0 k p Hp) as (x & Hx & Hxu).
    rewrite lookup_insert. case_decide as Hk; [|by exists x].
    exists w. split; [done|]. rewrite <- Hk, <- Hid, Hv in Hx. injection Hx as <-. congruence.
Qed.

Lemma update_device_tombstones d v w :
  tombstones_hold d → devices d !! Device_id v = Some v → Device_id v = Device_id w →
  Device_deleted_at w = Device_deleted_at v →
  tombstones_hold (update_device w d).
Proof.
  intros HT Hv Hid Hdel k p x. simpl. intros Hp. rewrite lookup_insert.
  case_decide as Hk; [|by eauto]. intros [= <-] Hx.
  apply (HT k p v); [done| |by rewrite <- Hdel].
  by rewrite <- Hk, <- Hid.
Qed.

Lemma update_user_wf d u w :
  db_wf d → users d !! User_id u = Some u → User_id u = User_id w → db_wf (update_user w d).
Proof.
  intros [] Hu Hid.
  assert (∀ k, is_Some (users d !! k) → is_Some (<[User_id w:=w]> (users d) !! k)) as Hsome.
  { intros k Hk. rewrite lookup_insert. case_decide; [done|done]. }
  split; simpl; try assumption; eauto.
  intros k r. rewrite lookup_insert. case_decide; [|eauto]. intros [= <-]. done.
Qed.

Lemma update_user_inv d u w :
  db_inv d → users d !! User_id w = Some u → db_inv (update_user w d).
Proof.
  intros [Hwf HT] Hu. split; [|done].
  pose proof (wf_user_id _ Hwf _ _ Hu) as E. eapply (update_user_wf _ u); [done| |done]. by rewrite E.
Qed.

Lemma update_node_wf d n m :
  db_wf d → nodes d !! Node_id n = Some n → Node_id n = Node_id m → db_wf (update_node m d).
Proof.
  intros [] Hn Hid.
  assert (∀ k, is_Some (nodes d !! k) → is_Some (<[Node_id m:=m]> (nodes d) !! k)) as Hsome.
  { intros k Hk. rewrite lookup_insert. case_decide; [done|done]. }
  split; simpl; try assumption; eauto.
  intros k r. rewrite lookup_insert. case_decide; [|eauto]. intros [= <-]. done.
Qed.

Lemma update_rw_wf d r s :
  db_wf d → rw_users d !! Rw_id r = Some r → Rw_id r = Rw_id s →
  Rw_user_id r = Rw_user_id s → db_wf (update_rw s d).
Proof.
  intros [] Hr Hid Hu.
  assert (∀ k x, <[Rw_id s:=s]> (rw_users d) !! k = Some x →
    ∃ x', rw_users d !! k = Some x' ∧ Rw_id x' = Rw_id x ∧ Rw_user_id x' = Rw_user_id x) as Hlk.
  { intros k x. rewrite lookup_insert. case_decide as Hk.
    - intros [= <-]. exists r. by rewrite <- Hk, <- Hid.
    - intros Hx. by exists x. }
  split; simpl; try assumption.
  - intros k x (x' & Hx & <- & _)%Hlk. eauto.
  - intros k x (x' & Hx & _ & <-)%Hlk. eauto.
  - intros k1 k2 x1 x2 (y1 & H1 & _ & <-)%Hlk (y2 & H2 & _ & <-)%Hlk. eauto.
Qed.

(** ** Rewriting the status of some peers, one by one *)
Section status_fold.
Context (f : Peer → string) (d : db).

Definition set_status (acc : gset string * db) (p : Peer) : gset string * db :=
  if Peer_status p == f p then acc
  else ({[Peer_node_id p]} ∪ acc.1, update_peer (p <| Peer_status := f p |>) acc.2).

Lemma set_status_fold ps s0 :
  (∀ p, p ∈ ps → peers d !! Peer_id p = Some p) →
  let r := foldl set_status (s0, d) ps in
  r.2 = d <| peers := peers r.2 |> ∧
  (∀ k, peers r.2 !! k =
     if decide (k ∈ Peer_id <$> ps)
     then (fun p => p <| Peer_status := f p |>) <$> peers d !! k else peers d !! k) ∧
  (∀ nid, nid ∈ r.1 ↔ nid ∈ s0 ∨ ∃ p, p ∈ ps ∧ Peer_status p ≠ f p ∧ Peer_node_id p = nid).
Proof.
  induction ps as [|p ps IH] using rev_ind; intros Hps; simpl.
  { split_and!; [by destruct d|done|]. intros nid. set_solver. }
  destruct IH as (IHd & IHp & IHn); [intros q Hq; apply Hps; set_solver|].
  rewrite foldl_app. cbn [foldl]. set (r := foldl set_status (s0, d) ps) in *.
  assert (peers d !! Peer_id p = Some p) as Hp by (apply Hps; set_solver).
  assert (∀ k, k ∈ Peer_id <$> (ps ++ [p]) ↔ k ∈ Peer_id <$> ps ∨ k = Peer_id p) as Hk.
  { intros k. rewrite fmap_app, elem_of_app. simpl. by rewrite list_elem_of_singleton. }
  assert (∀ q, q ∈ ps ++ [p] ↔ q ∈ ps ∨ q = p) as Hq.
  { intros q. by rewrite elem_of_app, list_elem_of_singleton. }
  unfold set_status. destruct (bool_decide_reflect (Peer_status p = f p)) as [El|El].
  - split_and!; [done| |].
    + intros k. rewrite IHp. specialize (Hk k). destruct (decide (Peer_id p = k)) as [<-|Hne].
      * rewrite (decide_True (P := Peer_id p ∈ Peer_id <$> (ps ++ [p]))) by tauto.
        rewrite Hp. simpl. rewrite <- El. case_decide; by destruct p.
      * do 2 case_decide; try done; exfalso; naive_solver.
    + intros nid. rewrite IHn. setoid_rewrite Hq. naive_solver.
  - cbn [fst snd]. split_and!.
    + unfold update_peer. rewrite IHd. by destruct d.
    + intros k. cbn. rewrite lookup_insert, IHp. specialize (Hk k).
      destruct (decide (Peer_id p = k)) as [<-|Hne].
      * rewrite (decide_True (P := Peer_id p ∈ Peer_id <$> (ps ++ [p]))) by tauto. by rewrite Hp.
      * do 2 case_decide; try done; exfalso; naive_solver.
    + intros nid. rewrite elem_of_union, elem_of_singleton, IHn. setoid_rewrite Hq. naive_solver.
Qed.
End status_fold.

(** Such a loop keeps the invariants when it makes a peer live only if its device is. *)
Lemma set_status_fold_inv (f : Peer → string) d ps s0 :
  db_inv d → (∀ p, p ∈ ps → ∃ k, peers d !! k = Some p) →
  (∀ p, p ∈ ps → Peer_status p ≠ f p → f p ∈ LIVE_PEER_STATUSES →
     ∀ v, devices d !! Peer_device_id p = Some v → Device_deleted_at v = None) →
  let r := foldl (set_status f) (s0, d) ps in
  db_inv r.2 ∧ devices r.2 = devices d ∧ users r.2 = users d ∧ nodes r.2 = nodes d ∧
  rw_users r.2 = rw_users d.
Proof.
  intros Hd Hps Hlive r.
  enough (db_inv r.2 ∧ devices r.2 = devices d ∧ users r.2 = users d ∧ nodes r.2 = nodes d ∧
    rw_users r.2 = rw_users d ∧
    ∀ p, p ∈ ps → ∃ p', peers r.2 !! Peer_id p = Some p' ∧ same_peer p' p) by tauto.
  apply (foldl_invariant (fun acc => db_inv acc.2 ∧ devices acc.2 = devices d ∧
    users acc.2 = users d ∧ nodes acc.2 = nodes d ∧ rw_users acc.2 = rw_users d ∧
    ∀ p, p ∈ ps → ∃ p', peers acc.2 !! Peer_id p = Some p' ∧ same_peer p' p)).
  - split_and!; [done..|]. intros p Hp. destruct (Hps p Hp) as [k Hk]. exists p. split; [|done].
    by rewrite (wf_peer_id _ (proj1 Hd) _ _ Hk).
  - intros acc p Hp (Hi & Hdv & Hu & Hn & Hr & Hq). unfold set_status.
    destruct (bool_decide_reflect (Peer_status p = f p)) as [E|E]; [done|]. cbn [snd].
    destruct (Hq p Hp) as (p' & Hp' & Hs).
    split_and!; simpl; [|done..|].
    + apply (update_peer_inv _ p'); [done|done|by destruct Hs as (?&?&?&?)|].
      intros Hl. right. simpl in *. rewrite Hdv. by apply Hlive.
    + intros q Hq'. destruct (Hq q Hq') as (q' & Hq1 & Hq2). rewrite lookup_insert. simpl.
      case_decide as Eid; [|by exists q']. eexists. split; [done|].
      destruct (Hps p Hp) as [k Hk], (Hps q Hq') as [k' Hk'].
      assert (p = q) as <-; [|done].
      pose proof (wf_peer_id _ (proj1 Hd) _ _ Hk). pose proof (wf_peer_id _ (proj1 Hd) _ _ Hk').
      congruence.
Qed.

(** ** Inserts checked by the database

    The first violated constraint of an insert, by name; unique indexes are checked before foreign
    keys. [NULL] never collides. *)
Definition collides (a b : option string) : bool :=
  match a, b with Some x, Some y => x == y | _, _ => false end.

Definition device_violation (d : db) (v : Device) : option string :=
  if bool_decide (is_Some (devices d !! Device_id v)) then Some "devices_pkey"
  else if existsb (fun w => collides (Device_public_key w) (Device_public_key v)) (rows (devices d))
  then Some "uq_devices_public_key"
  else if existsb (fun w => collides (Device_vpn_ip w) (Device_vpn_ip v)) (rows (devices d))
  then Some "uq_devices_vpn_ip"
  else if bool_decide (is_Some (users d !! Device_user_id v)) then None
  else Some "devices_user_id_fkey".

Definition peer_violation (d : db) (p : Peer) : option string :=
  if bool_decide (is_Some (peers d !! Peer_id p)) then Some "peers_pkey"
  else if existsb (fun q => (Peer_node_id q == Peer_node_id p) &&
                            (Peer_device_id q == Peer_device_id p)) (rows (peers d))
  then Some "uq_peers_node_device"
  else if bool_decide (is_Some (nodes d !! Peer_node_id p)) then
    match devices d !! Peer_device_id p with
    | Some v => if Device_user_id v == Peer_user_id p then None else Some "fk_peers_device_owner"
    | None => Some "fk_peers_device_owner"
    end
  else Some "peers_node_id_fkey".

Lemma existsb_false_rows {A} (f : A → bool) (t : gmap string A) :
  existsb f (rows t) = false → ∀ k x, t !! k = Some x → f x = false.
Proof.
  intros H k x Hx. destruct (f x) eqn:E; [|done].
  assert (existsb f (rows t) = true) as Ht; [|by rewrite Ht in H].
  apply existsb_exists. exists x. split; [|done].
  apply list_elem_of_In, elem_of_rows. by exists k.
Qed.

Lemma collides_false a b x : collides a b = false → a = Some x → b = Some x → False.
Proof. intros H -> ->. simpl in H. py_bool. done. Qed.

Lemma insert_device_wf d v :
  db_wf d → device_violation d v = None → Device_id v ≠ "" → db_wf (update_device v d).
Proof.
  intros [] H Hne. unfold device_violation in H.
  do 4 (py_case_in H; [discriminate || idtac|]); [|discriminate]. py_bool.
  assert (devices d !! Device_id v = None) as Hfresh by (by apply eq_None_not_Some).
  pose proof (existsb_false_rows _ _ Hb0) as Hpk.
  pose proof (existsb_false_rows _ _ Hb1) as Hip.
  split; simpl; try assumption.
  - intros k x. rewrite lookup_insert. case_decide; [|eauto]. intros [= <-]. by subst.
  - intros k1 k2 x1 x2 ip. rewrite !lookup_insert. do 2 case_decide; [congruence| | |eauto].
    + intros [= <-] Hl2 E1 E2. exfalso. by eapply collides_false; [eapply (Hip _ _ Hl2)|..].
    + intros Hl1 [= <-] E1 E2. exfalso. by eapply collides_false; [eapply (Hip _ _ Hl1)|..].
  - intros k1 k2 x1 x2 pk. rewrite !lookup_insert. do 2 case_decide; [congruence| | |eauto].
    + intros [= <-] Hl2 E1 E2. exfalso. by eapply collides_false; [eapply (Hpk _ _ Hl2)|..].
    + intros Hl1 [= <-] E1 E2. exfalso. by eapply collides_false; [eapply (Hpk _ _ Hl1)|..].
  - intros k x. rewrite lookup_insert. case_decide; [|eauto]. by intros [= <-].
  - intros k p Hp. destruct (wf_peer_owner0 k p Hp) as (x & Hx & Hxu).
    exists x. split; [|done]. rewrite lookup_insert_ne; [done|]. congruence.
Qed.

Lemma insert_device_tombstones d v :
  tombstones_hold d → Device_deleted_at v = None → tombstones_hold (update_device v d).
Proof.
  intros HT Hdel k p w. simpl. intros Hp. rewrite lookup_insert.
  case_decide as Hk; [|by eauto]. intros [= <-] ?. done.
Qed.

Lemma insert_peer_wf d p :
  db_wf d → peer_violation d p = None → db_wf (update_peer p d).
Proof.
  intros [] H. unfold peer_violation in H.
  py_case_in H; [discriminate|]. py_case_in H; [discriminate|].
  py_case_in H; [|discriminate]. py_case_in H; [|discriminate].
  py_case_in H; [|discriminate]. py_bool. rename d0 into v.
  assert (peers d !! Peer_id p = None) as Hfresh by (by apply eq_None_not_Some).
  pose proof (existsb_false_rows _ _ Hb0) as Hnd. cbv beta in Hnd.
  assert (∀ k q, peers d !! k = Some q → Peer_node_id q = Peer_node_id p →
    Peer_device_id q = Peer_device_id p → False) as Huq.
  { intros k q Hq E1 E2. specialize (Hnd k q Hq). rewrite E1, E2 in Hnd.
    by rewrite !bool_decide_eq_true_2 in Hnd. }
  split; simpl; try assumption.
  - intros k x. rewrite lookup_insert. case_decide; [|eauto]. by intros [= <-].
  - intros k1 k2 x1 x2. rewrite !lookup_insert. do 2 case_decide; [congruence| | |eauto].
    + intros [= <-] Hl2 E1 E2. exfalso. by eapply (Huq _ _ Hl2).
    + intros Hl1 [= <-] E1 E2. exfalso. by eapply (Huq _ _ Hl1).
  - intros k x. rewrite lookup_insert. case_decide; [|eauto]. intros [= <-]. by exists v.
  - intros k x. rewrite lookup_insert. case_decide; [|eauto]. by intros [= <-].
Qed.

Lemma insert_peer_tombstones d p :
  tombstones_hold d →
  (∀ v, devices d !! Peer_device_id p = Some v → Device_deleted_at v = None) →
  tombstones_hold (update_peer p d).
Proof.
  intros HT Hdel k q w. simpl. rewrite lookup_insert.
  case_decide as Hk; [|by eauto]. intros [= <-] Hw ?. by rewrite (Hdel w Hw) in *.
Qed.

(** ** Deleting an account or a node, with the cascades of the mapping and of the schema *)
Definition drop_peers (gone : Peer → bool) (d : db) : db :=
  let dead (pid : string) :=
    match peers d !! pid with Some p => gone p | None => false end in
  d <| peers := filter (fun kp => gone kp.2 = false) (peers d) |>
    <| samples := List.filter (fun s => negb (dead (Sample_peer_id s))) (samples d) |>
    <| endpoint_sessions :=
         filter (fun ks => dead (Session_peer_id ks.2) = false) (endpoint_sessions d) |>
    <| deltas := List.filter (fun t => negb (dead (Delta_peer_id t))) (deltas d) |>.

Definition delete_user (uid : string) (d : db) : db :=
  let d1 := drop_peers (fun p => Peer_user_id p == uid) d in
  d1 <| users := delete uid (users d1) |>
     <| devices := filter (fun kv => Device_user_id kv.2 ≠ uid) (devices d1) |>
     <| rw_users := filter (fun kr => Rw_user_id kr.2 ≠ uid) (rw_users d1) |>
     <| user_daily := filter (fun ka => ka.1.1 ≠ uid) (user_daily d1) |>
     <| user_node_daily := filter (fun ka => ka.1.1.1 ≠ uid) (user_node_daily d1) |>
     <| user_lifetime := delete uid (user_lifetime d1) |>
     <| user_node_lifetime := filter (fun ka => ka.1.1 ≠ uid) (user_node_lifetime d1) |>.

Definition delete_node (nid : string) (d : db) : db :=
  let d1 := drop_peers (fun p => Peer_node_id p == nid) d in
  d1 <| nodes := delete nid (nodes d1) |>
     <| tg_states := delete nid (tg_states d1) |>
     <| tg_settings := (fun s =>
          if TgSettings_primary_node_id s == Some nid then s <| TgSettings_primary_node_id := None |>
          else s) <$> tg_settings d1 |>
     <| user_node_daily := filter (fun ka => ka.1.1.2 ≠ nid) (user_node_daily d1) |>
     <| user_node_lifetime := filter (fun ka => ka.1.2 ≠ nid) (user_node_lifetime d1) |>.

Lemma lookup_filter_Some {A} (P : string * A → Prop) `{!∀ x, Decision (P x)} (m : gmap string A) k x :
  filter P m !! k = Some x ↔ m !! k = Some x ∧ P (k, x).
Proof. apply map_lookup_filter_Some. Qed.

Lemma delete_user_wf uid d : db_wf d → db_wf (delete_user uid d).
Proof.
  intros []. split; simpl; intros *; rewrite ?lookup_filter_Some, ?lookup_delete_Some; simpl;
    rewrite ?bool_decide_eq_false.
  - eauto.
  - intros [_ ?]. eauto.
  - intros [? _]. eauto.
  - intros [? _]. eauto.
  - intros [? _]. eauto.
  - intros [? _] [? _]. eauto.
  - intros [? _] [? _]. eauto.
  - intros [Hv Hn]. rewrite lookup_delete_ne by done. eauto.
  - intros [? _] [? _]. eauto.
  - intros [Hp Hg]. destruct (wf_peer_owner0 _ _ Hp) as (v & Hv & Hvu).
    exists v. rewrite lookup_filter_Some. simpl. split; [split; congruence|done].
  - intros [? _]. eauto.
  - intros [Hr Hn]. rewrite lookup_delete_ne by done. eauto.
  - intros [? _] [? _]. eauto.
Qed.

Lemma delete_user_tombstones uid d : tombstones_hold d → tombstones_hold (delete_user uid d).
Proof.
  intros HT k p v. simpl. rewrite !lookup_filter_Some. intros [Hp _] [Hv _]. eauto.
Qed.

Lemma delete_node_wf nid d : db_wf d → db_wf (delete_node nid d).
Proof.
  intros []. split; simpl; intros *; rewrite ?lookup_filter_Some, ?lookup_delete_Some; simpl;
    rewrite ?bool_decide_eq_false; try by eauto.
  - intros [_ ?]. eauto.
  - intros [? _]. eauto.
  - intros [? _] [? _]. eauto.
  - intros [? _]. eauto.
  - intros [Hp Hg]. rewrite lookup_delete_ne by done. eauto.
Qed.

Lemma delete_node_tombstones nid d : tombstones_hold d → tombstones_hold (delete_node nid d).
Proof. intros HT k p v. simpl. rewrite !lookup_filter_Some. intros [Hp _] Hv. eauto. Qed.
