(* ===== verification/Session.v ===== *)
(** * Database sessions

    One request of the panel runs in one database session. A session has a working view of the
    tables (what its own statements see), the committed tables (what survives the request and what
    other sessions see), the notifications recorded in the open transaction, and a trace of what
    left the process: commits, broker publishes and delivered notifications. A computation [M A]
    threads that state and may raise a Python exception; an exception that leaves a handler
    discards the working view, so only [committed] persists.

    What the code takes from its environment (random identifiers and keys, the clock, the broker,
    the other sessions that commit while this one waits for a row lock) is the class [Env]. *)
From S2P Require Import Prelude Models.

(** The JSON object published for one command ([job_commands._payload]). *)
Record Payload := mkPayload {
  Payload_command : string;
  Payload_idempotency_key : string;
  Payload_operation_id : string;
  Payload_track_operation : bool;
  Payload_target_type : string;
  Payload_target_id : option string;
  Payload_created_at : datetime }.
#[export] Instance Payload_eq_dec : EqDecision Payload.
Proof. solve_decision. Defined.

Inductive event :=
  | EvCommit (d : db)
  | EvPublish (routing_key : string) (payload : Payload)
  | EvNotify (user_id reason : string).

(** The environment of the panel. Each draw from it is numbered, so two draws may differ. *)
Class Env := {
  uuid4 : nat → string;
  (* a fresh X25519 key: its raw private and public bytes *)
  x25519_generate : nat → list Z * list Z;
  (* [os.urandom(size)] *)
  urandom : nat → nat → list Z;
  (* [secrets.token_urlsafe(24)] *)
  random_token : nat → string;
  (* the environment variable of that name *)
  VPN_SUBNET : string;
  clock : nat → Z;
  (* [Some message] when the broker refuses the numbered publish *)
  broker_error : nat → option string;
  (* what other sessions commit while this one waits for a row lock *)
  concurrent : nat → db → db;
  (* what other sessions commit between a read of this one and its insert into a unique index *)
  raced : nat → db → db }.

(** What the environment promises: fresh identifiers, a clock that does not go back, and other
    sessions that keep the invariants of the database. The last law says that a session that only
    holds its owner's lock sees no device change under an insert. *)
Class EnvLaws `{Env} := {
  uuid4_inj : Inj (=) (=) uuid4;
  uuid4_nonempty : ∀ n, uuid4 n ≠ "";
  clock_mono : ∀ m n, m ≤ n → (clock m <= clock n)%Z;
  concurrent_inv : ∀ n d, db_inv d → db_inv (concurrent n d);
  raced_inv : ∀ n d, db_inv d → db_inv (raced n d);
  raced_devices : ∀ n d k v, devices d !! k = Some v → devices (raced n d) !! k = Some v }.

Record session := mkSession {
  work : db;
  committed : db;
  pending : list (string * string);
  trace : list event;      (* newest first *)
  draws : nat }.
#[export] Instance session_eta : Eta session := fun r =>
  mkSession (work r) (committed r) (pending r) (trace r) (draws r).

Definition M (A : Type) : Type := session → outcome A * session.

Definition retM {A} (a : A) : M A := fun s => (Ok a, s).
Definition bindM {A B} (m : M A) (k : A → M B) : M B := fun s =>
  match m s with
  | (Ok a, s') => k a s'
  | (Raise e, s') => (Raise e, s')
  end.
Definition raise {A} (e : exn) : M A := fun s => (Raise e, s).

Declare Scope session_scope.
Delimit Scope session_scope with session.
Notation "'let*' x ':=' m 'in' k" := (bindM m (fun x => k))
  (at level 200, x pattern, m at level 200, k at level 200, right associativity) : session_scope.
Notation "'do*' m 'in' k" := (bindM m (fun _ => k))
  (at level 200, m at level 200, k at level 200, right associativity) : session_scope.
Open Scope session_scope.

(** Reading and writing the working view. *)
Definition reads {A} (f : db → A) : M A := fun s => (Ok (f (work s)), s).
Definition modify (f : db → db) : M unit := fun s => (Ok tt, s <| work := f (work s) |>).
Definition transact {A} (f : db → A * db) : M A := fun s =>
  let '(a, d) := f (work s) in (Ok a, s <| work := d |>).
Definition lift {A} (o : outcome A) : M A := fun s => (o, s).

(** One draw from the environment. *)
Definition draw {A} (f : nat → A) : M A := fun s => (Ok (f (draws s)), s <| draws := S (draws s) |>).

Section with_env.
Context `{Env}.

Definition new_uuid : M string := draw uuid4.
Definition now : M datetime := draw (fun n => utc (clock n)).

(** [db.commit()]: the working view becomes durable and the notifications recorded in the
    transaction are delivered with it. *)
Definition commit : M unit := fun s =>
  (Ok tt, s <| committed := work s |> <| pending := [] |>
            <| trace := ((fun ur => EvNotify ur.1 ur.2) <$> rev (pending s))
                        ++ EvCommit (work s) :: trace s |>).

(** [db.rollback()]. *)
Definition rollback : M unit := fun s =>
  (Ok tt, s <| work := committed s |> <| pending := [] |>).

(** Waiting for a row lock lets other sessions commit first. *)
Definition lock_wait : M unit := fun s =>
  let n := draws s in
  (Ok tt, s <| work := concurrent n (work s) |> <| committed := concurrent n (committed s) |>
            <| draws := S n |>).

(** Before an insert reaches a unique index, other sessions may have committed. *)
Definition race : M unit := fun s =>
  let n := draws s in
  (Ok tt, s <| work := raced n (work s) |> <| committed := raced n (committed s) |>
            <| draws := S n |>).

(** [exchange.publish(...)]: the broker takes the message or raises. *)
Definition publish (routing_key : string) (p : Payload) : M unit := fun s =>
  let n := draws s in
  match broker_error n with
  | Some msg => (Raise (BrokerError msg), s <| draws := S n |>)
  | None => (Ok tt, s <| draws := S n |> <| trace := EvPublish routing_key p :: trace s |>)
  end.
End with_env.

(** [pg_notify] inside the open transaction. *)
Definition record_notification (uid reason : string) : M unit := fun s =>
  (Ok tt, s <| pending := pending s ++ [(uid, reason)] |>).

(** [try: m except E: h]. *)
Definition try_except {A} (m : M A) (h : exn → M A) : M A := fun s =>
  match m s with
  | (Ok a, s') => (Ok a, s')
  | (Raise e, s') => h e s'
  end.

(** [async with db.begin_nested(): m]: a savepoint, rolled back when [m] raises. *)
Definition savepoint {A} (m : M A) : M A := fun s =>
  match m s with
  | (Ok a, s') => (Ok a, s')
  | (Raise e, s') => (Raise e, s' <| work := work s |> <| pending := pending s |>)
  end.

(** [for x in xs: acc = f(acc, x)]. *)
Fixpoint for_fold {A B} (f : B → A → M B) (acc : B) (xs : list A) : M B :=
  match xs with
  | [] => retM acc
  | x :: xs => bindM (f acc x) (fun b => for_fold f b xs)
  end.
Definition for_each {A} (xs : list A) (f : A → M unit) : M unit :=
  for_fold (fun _ x => f x) tt xs.

(** A request on the database [d]: it opens a session, and what it leaves behind is what it
    committed. *)
Definition start (d : db) (n : nat) : session := mkSession d d [] [] n.
Definition persisted {A} (r : outcome A * session) : db := committed r.2.

Lemma bind_run {A B} (m : M A) (k : A → M B) s :
  bindM m k s = match m s with (Ok a, s') => k a s' | (Raise e, s') => (Raise e, s') end.
Proof. done. Qed.

(** ** Invariants of computations

    [preserves I m]: running [m] from a session that satisfies [I] ends in one that does, whatever
    the outcome. *)
Definition preserves {A} (I : session → Prop) (m : M A) : Prop := ∀ s, I s → I (m s).2.

Section preserves.
Context (I : session → Prop).

Lemma preserves_ret {A} (a : A) : preserves I (retM a).
Proof. by intros s. Qed.
Lemma preserves_raise {A} e : preserves I (@raise A e).
Proof. by intros s. Qed.
Lemma preserves_lift {A} (o : outcome A) : preserves I (lift o).
Proof. by intros s. Qed.
Lemma preserves_reads {A} (f : db → A) : preserves I (reads f).
Proof. by intros s. Qed.
Lemma preserves_bind {A B} (m : M A) (k : A → M B) :
  preserves I m → (∀ a, preserves I (k a)) → preserves I (bindM m k).
Proof.
  intros Hm Hk s Hs. unfold bindM. specialize (Hm s Hs).
  destruct (m s) as [[a|e] s']; [by apply Hk|done].
Qed.
(** Binding a read: the continuation may use what was read. *)
Lemma preserves_bind_reads {A B} (f : db → A) (k : A → M B) :
  (∀ s, I s → I (k (f (work s)) s).2) → preserves I (bindM (reads f) k).
Proof. intros Hk s Hs. by apply Hk. Qed.
Lemma preserves_try {A} (m : M A) h :
  preserves I m → (∀ e, preserves I (h e)) → preserves I (try_except m h).
Proof.
  intros Hm Hh s Hs. unfold try_except. specialize (Hm s Hs).
  destruct (m s) as [[a|e] s']; [done|by apply Hh].
Qed.
Lemma preserves_for_fold {A B} (f : B → A → M B) xs acc :
  (∀ b x, x ∈ xs → preserves I (f b x)) → preserves I (for_fold f acc xs).
Proof.
  revert acc. induction xs as [|x xs IH]; intros acc Hf; [apply preserves_ret|].
  apply preserves_bind; [apply Hf; left|]. intros b. apply IH. intros b' y Hy.
  apply Hf. by right.
Qed.
Lemma preserves_for_each {A} (f : A → M unit) xs :
  (∀ x, x ∈ xs → preserves I (f x)) → preserves I (for_each xs f).
Proof. intros Hf. apply preserves_for_fold. eauto. Qed.
End preserves.

(** The common shape: a property of the tables, held by the working and by the committed view. *)
Definition holds (P : db → Prop) (s : session) : Prop := P (work s) ∧ P (committed s).

Section holds.
Context `{Env} (P : db → Prop).

Lemma holds_modify f : (∀ d, P d → P (f d)) → preserves (holds P) (modify f).
Proof. intros Hf s [Hw Hc]. split; simpl; eauto. Qed.
Lemma holds_transact {A} (f : db → A * db) :
  (∀ d, P d → P (f d).2) → preserves (holds P) (transact f).
Proof.
  intros Hf s [Hw Hc]. unfold transact. specialize (Hf _ Hw).
  destruct (f (work s)) as [a d]. by split.
Qed.
Lemma holds_draw {A} (f : nat → A) : preserves (holds P) (draw f).
Proof. by intros s [Hw Hc]. Qed.
Lemma holds_commit : preserves (holds P) commit.
Proof. by intros s [Hw Hc]. Qed.
Lemma holds_rollback : preserves (holds P) rollback.
Proof. by intros s [Hw Hc]. Qed.
Lemma holds_lock_wait :
  (∀ n d, P d → P (concurrent n d)) → preserves (holds P) lock_wait.
Proof. intros Hc s [Hw Hk]. split; simpl; eauto. Qed.
Lemma holds_race :
  (∀ n d, P d → P (raced n d)) → preserves (holds P) race.
Proof. intros Hc s [Hw Hk]. split; simpl; eauto. Qed.
Lemma holds_publish rk p : preserves (holds P) (publish rk p).
Proof. intros s [Hw Hc]. unfold publish. by destruct (broker_error _). Qed.
Lemma holds_notify uid r : preserves (holds P) (record_notification uid r).
Proof. by intros s [Hw Hc]. Qed.
Lemma holds_savepoint {A} (m : M A) :
  preserves (holds P) m → preserves (holds P) (savepoint m).
Proof.
  intros Hm s Hs. unfold savepoint. pose proof (Hm s Hs) as [Hw Hc].
  destruct Hs as [Hs _]. destruct (m s) as [[a|e] s']; by split.
Qed.
Lemma holds_start d n : P d → holds P (start d n).
Proof. by intros Hd. Qed.
End holds.

Create HintDb preserves discriminated.
#[export] Hint Resolve preserves_ret preserves_raise preserves_lift preserves_reads
  preserves_bind preserves_try preserves_for_fold preserves_for_each
  holds_modify holds_transact holds_draw holds_commit holds_rollback holds_publish holds_notify
  holds_savepoint holds_lock_wait holds_race concurrent_inv raced_inv : preserves.

(** Closing [preserves (holds P) m] along the structure of [m]: a bind, a case analysis, or a known
    lemma; what is left are the facts about the rows read. *)
Ltac session_step :=
  match goal with
  | |- preserves _ (let _ := _ in _) => cbv zeta
  | |- preserves _ (bindM _ _) => apply preserves_bind; [|intros ?]
  | |- preserves _ (match ?x with _ => _ end) => destruct x
  | |- preserves _ _ => solve [auto 4 with preserves]
  end.
Ltac session_steps := repeat (cbv beta; session_step).

(** ** Pre- and postconditions

    [hoare P m Q E]: from a session satisfying [P], a value [a] leaves [Q a], an exception [e]
    leaves [E e]. *)
Definition hoare {A} (P : session → Prop) (m : M A) (Q : A → session → Prop)
    (E : exn → session → Prop) : Prop :=
  ∀ s, P s → match m s with (Ok a, s') => Q a s' | (Raise e, s') => E e s' end.

Section hoare.
Lemma hoare_ret {A} (a : A) P (Q : A → session → Prop) E :
  (∀ s, P s → Q a s) → hoare P (retM a) Q E.
Proof. intros HQ s Hs. by apply HQ. Qed.
Lemma hoare_raise {A} e P (Q : A → session → Prop) (E : exn → session → Prop) :
  (∀ s, P s → E e s) → hoare P (raise e) Q E.
Proof. intros HQ s Hs. by apply HQ. Qed.
Lemma hoare_bind {A B} (m : M A) (k : A → M B) P R (Q : B → session → Prop) E :
  hoare P m R E → (∀ a, hoare (R a) (k a) Q E) → hoare P (bindM m k) Q E.
Proof.
  intros Hm Hk s Hs. unfold bindM. specialize (Hm s Hs).
  destruct (m s) as [[a|e] s']; [|done]. by apply Hk.
Qed.
Lemma hoare_weaken {A} (m : M A) (P P' : session → Prop) (Q Q' : A → session → Prop)
    (E E' : exn → session → Prop) :
  hoare P m Q E → (∀ s, P' s → P s) → (∀ a s, Q a s → Q' a s) → (∀ e s, E e s → E' e s) →
  hoare P' m Q' E'.
Proof.
  intros Hm HP HQ HE s Hs. specialize (Hm s (HP s Hs)).
  destruct (m s) as [[a|e] s']; auto.
Qed.
Lemma hoare_preserves {A} (m : M A) I :
  hoare I m (fun _ => I) (fun _ => I) ↔ preserves I m.
Proof.
  split; intros H s Hs; specialize (H s Hs); destruct (m s) as [[a|e] s']; done.
Qed.
Lemma hoare_reads {A} (f : db → A) P (Q : A → session → Prop) E :
  (∀ s, P s → Q (f (work s)) s) → hoare P (reads f) Q E.
Proof. intros HQ s Hs. by apply HQ. Qed.
Lemma hoare_lift {A} (o : outcome A) P (Q : A → session → Prop) (E : exn → session → Prop) :
  (∀ s, P s → match o with Ok a => Q a s | Raise e => E e s end) → hoare P (lift o) Q E.
Proof. intros HQ s Hs. by apply HQ. Qed.
Lemma hoare_modify f P (Q : unit → session → Prop) E :
  (∀ s, P s → Q tt (s <| work := f (work s) |>)) → hoare P (modify f) Q E.
Proof. intros HQ s Hs. by apply HQ. Qed.
Lemma hoare_transact {A} (f : db → A * db) P (Q : A → session → Prop) E :
  (∀ s, P s → Q (f (work s)).1 (s <| work := (f (work s)).2 |>)) → hoare P (transact f) Q E.
Proof. intros HQ s Hs. unfold transact. specialize (HQ s Hs). by destruct (f (work s)). Qed.
Lemma hoare_draw {A} (f : nat → A) P (Q : A → session → Prop) E :
  (∀ s, P s → Q (f (draws s)) (s <| draws := S (draws s) |>)) → hoare P (draw f) Q E.
Proof. intros HQ s Hs. by apply HQ. Qed.
Lemma hoare_try {A} (m : M A) (h : exn → M A) P (Q : A → session → Prop) E R :
  hoare P m Q R → (∀ e, hoare (R e) (h e) Q E) → hoare P (try_except m h) Q E.
Proof.
  intros Hm Hh s Hs. unfold try_except. specialize (Hm s Hs).
  destruct (m s) as [[a|e] s']; [done|]. by apply Hh.
Qed.
Lemma hoare_for_fold {A B} (f : B → A → M B) xs (I : B → session → Prop) E :
  (∀ b x, x ∈ xs → hoare (I b) (f b x) I E) →
  ∀ acc, hoare (I acc) (for_fold f acc xs) I E.
Proof.
  induction xs as [|x xs IH]; intros Hf acc; simpl; [by apply hoare_ret|].
  eapply hoare_bind; [apply Hf; left|]. intros b. apply IH. intros b' y Hy. apply Hf. by right.
Qed.
End hoare.

(** A postcondition of a computation that only draws from the environment. *)
Definition pure_draw {A} (m : M A) : Prop :=
  ∀ s, work (m s).2 = work s ∧ committed (m s).2 = committed s ∧ pending (m s).2 = pending s ∧
       trace (m s).2 = trace s.

Lemma pure_draw_ret {A} (a : A) : pure_draw (retM a).
Proof. by intros s. Qed.
Lemma pure_draw_raise {A} e : pure_draw (@raise A e).
Proof. by intros s. Qed.
Lemma pure_draw_lift {A} (o : outcome A) : pure_draw (lift o).
Proof. by intros s. Qed.
Lemma pure_draw_reads {A} (f : db → A) : pure_draw (reads f).
Proof. by intros s. Qed.
Lemma pure_draw_draw {A} (f : nat → A) : pure_draw (draw f).
Proof. by intros s. Qed.
Lemma pure_draw_bind {A B} (m : M A) (k : A → M B) :
  pure_draw m → (∀ a, pure_draw (k a)) → pure_draw (bindM m k).
Proof.
  intros Hm Hk s. unfold bindM. specialize (Hm s). destruct (m s) as [[a|e] s']; [|done].
  specialize (Hk a s'). simpl in *. destruct Hm as (? & ? & ? & ?), Hk as (? & ? & ? & ?).
  repeat split; congruence.
Qed.
#[export] Hint Resolve pure_draw_ret pure_draw_raise pure_draw_lift pure_draw_reads pure_draw_draw
  pure_draw_bind : preserves.

Lemma hoare_pure_draw {A} (m : M A) (P : db → db → Prop) :
  pure_draw m →
  hoare (fun s => P (work s) (committed s)) m (fun _ s => P (work s) (committed s))
    (fun _ s => P (work s) (committed s)).
Proof.
  intros Hm s Hs. specialize (Hm s). destruct (m s) as [[a|e] s']; simpl in *;
    destruct Hm as (-> & -> & _); done.
Qed.
