(* ===== verification/Sample.v ===== *)
(** * A concrete environment and concrete tables

    Fixtures the witnesses evaluate: an environment without other sessions whose identifiers are
    the draw numbers, and a small database with one account and two nodes. *)
From S2P Require Import Prelude PyStr Json Bytes Models Session.

#[export] Instance sample_env : Env := {
  uuid4 n := "id-" +:+ pretty n;
  x25519_generate n := (replicate 32 (Z.of_nat (n mod 256)), replicate 32 (Z.of_nat (n mod 256)));
  urandom n size := replicate size (Z.of_nat (n mod 256));
  random_token n := "token-" +:+ pretty n;
  VPN_SUBNET := "10.8.0.0/24";
  clock n := (1000000 * Z.of_nat n)%Z;
  broker_error _ := None;
  concurrent _ d := d;
  raced _ d := d }.

#[export] Instance sample_env_laws : EnvLaws.
Proof.
  split.
  - intros a b H. simpl in H. apply str_app_inj_l in H. by apply (inj pretty) in H.
  - done.
  - intros m n Hmn. simpl. lia.
  - done.
  - done.
  - done.
Qed.

Definition t0 : datetime := utc 0.

Definition sample_node (id : string) : Node :=
  {| Node_id := id; Node_name := "node " +:+ id; Node_url := "http://" +:+ id;
     Node_token := "secret"; Node_created_at := t0; Node_health_status := "healthy";
     Node_last_seen_at := None; Node_reachability_status := "online";
     Node_last_heartbeat_at := None; Node_last_heartbeat_error := None;
     Node_sync_status := "synced"; Node_sync_error := None; Node_last_synced_at := None;
     Node_provision_status := "active"; Node_private_key := Some "npriv";
     Node_server_public_key := Some "npub"; Node_server_endpoint := Some "vpn.example:51820";
     Node_listen_port := Some 51820%Z; Node_jc := None; Node_jmin := None; Node_jmax := None;
     Node_s1 := None; Node_s2 := None; Node_s3 := None; Node_s4 := None; Node_h1 := None;
     Node_h2 := None; Node_h3 := None; Node_h4 := None; Node_i1 := None; Node_i2 := None;
     Node_i3 := None; Node_i4 := None; Node_i5 := None; Node_mtu := None;
     Node_last_error := None |}.

Definition sample_user (id : string) (limit : Z) : User :=
  {| User_id := id; User_name := "user " +:+ id; User_is_blocked := false;
     User_lifecycle_status := "active"; User_expire_at := None; User_traffic_limit_bytes := 0;
     User_traffic_reset_policy := "manual"; User_traffic_reset_at := None;
     User_public_token := "public-" +:+ id; User_created_at := t0; User_device_limit := limit;
     User_public_key := None; User_private_key := None; User_vpn_ip := None |}.

Definition sample_device (id uid : string) (ip : option string) (deleted : option datetime)
    : Device :=
  {| Device_id := id; Device_user_id := uid; Device_name := "device " +:+ id;
     Device_public_key := Some ("pub-" +:+ id); Device_private_key := Some ("priv-" +:+ id);
     Device_vpn_ip := ip; Device_released_vpn_ip := None; Device_ip_released_at := None;
     Device_is_legacy_default := false; Device_deleted_at := deleted; Device_created_at := t0 |}.

Definition sample_peer (id nid uid did status : string) : Peer :=
  {| Peer_id := id; Peer_node_id := nid; Peer_user_id := uid; Peer_device_id := did;
     Peer_created_at := t0; Peer_status := status; Peer_psk_key := Some "psk"; Peer_raw_rx := None;
     Peer_raw_tx := None; Peer_last_handshake := None; Peer_endpoint := None |}.

(** Account [u] with a limit of two, its device [d] installed on node [a] and pending on [b], and
    its deleted device [e] whose removal node [a] has confirmed. *)
Definition sample_db : db :=
  empty_db
    <| nodes := list_to_map ((fun n => (n, sample_node n)) <$> ["a"; "b"]) |>
    <| users := {["u" := sample_user "u" 2]} |>
    <| devices := list_to_map
         [("d", sample_device "d" "u" (Some "10.8.0.2") None);
          ("e", sample_device "e" "u" (Some "10.8.0.3") (Some t0))] |>
    <| peers := list_to_map
         [("p", sample_peer "p" "a" "u" "d" "active");
          ("q", sample_peer "q" "b" "u" "d" "pending");
          ("r", sample_peer "r" "a" "u" "e" "deleted")] |>.

(** A profile of account [uid] with a traffic limit that its remote traffic has reached. *)
Definition sample_rw (id uid : string) : RemnawaveUser :=
  {| Rw_id := id; Rw_user_id := uid; Rw_remnawave_uuid := "uuid-" +:+ id; Rw_remnawave_id := None;
     Rw_short_uuid := None; Rw_username := "remote"; Rw_status := "ACTIVE"; Rw_expire_at := None;
     Rw_email := None; Rw_tag := None; Rw_telegram_id := None; Rw_description := None;
     Rw_traffic_limit_bytes := 100; Rw_traffic_limit_strategy := "NO_RESET";
     Rw_traffic_used_bytes := 100; Rw_lifetime_used_traffic_bytes := 100;
     Rw_last_traffic_reset_at := None; Rw_online_at := None; Rw_first_connected_at := None;
     Rw_last_connected_node_uuid := None; Rw_hwid_device_limit := None;
     Rw_external_squad_uuid := None; Rw_active_internal_squads_json := None;
     Rw_subscription_url_encrypted := None; Rw_last_seen_at := None; Rw_last_synced_at := None;
     Rw_sync_status := "synced"; Rw_sync_reason := None; Rw_sync_error := None;
     Rw_delete_requested_at := None; Rw_created_at := t0; Rw_updated_at := t0 |}.
Definition sample_managed_db : db := sample_db <| rw_users := {["w" := sample_rw "w" "u"]} |>.

(** ** Deciding the invariant of concrete tables *)
Definition all_rows {A} (f : string → A → bool) (t : gmap string A) : bool :=
  forallb (fun kx => f kx.1 kx.2) (map_to_list t).
Definition all_pairs {A} (f : A → A → bool) (t : gmap string A) : bool :=
  all_rows (fun k x => all_rows (fun k' y => (k == k') || f x y) t) t.
Definition has {A} (t : gmap string A) (k : string) : bool :=
  match t !! k with Some _ => true | None => false end.

Lemma all_rows_true {A} (f : string → A → bool) t k x :
  all_rows f t = true → t !! k = Some x → f k x = true.
Proof.
  intros H Hk. unfold all_rows in H. rewrite forallb_forall in H.
  apply (H (k, x)). by apply list_elem_of_In, elem_of_map_to_list.
Qed.
Lemma all_pairs_true {A} (f : A → A → bool) t k k' x y :
  all_pairs f t = true → t !! k = Some x → t !! k' = Some y → k = k' ∨ f x y = true.
Proof.
  intros H Hk Hk'. pose proof (all_rows_true _ _ _ _ H Hk) as H1.
  pose proof (all_rows_true _ _ _ _ H1 Hk') as H2. apply orb_true_iff in H2 as [H2|H2]; [left|by right].
  by py_bool.
Qed.
Lemma has_true {A} (t : gmap string A) k : has t k = true → is_Some (t !! k).
Proof. unfold has. destruct (t !! k); [by eexists|done]. Qed.

Definition db_invb (d : db) : bool :=
  all_rows (fun k n => Node_id n == k) (nodes d) &&
  all_rows (fun k u => User_id u == k) (users d) &&
  all_rows (fun k v => (Device_id v == k) && truthy_str k && has (users d) (Device_user_id v))
    (devices d) &&
  all_rows (fun k p => (Peer_id p == k) && has (nodes d) (Peer_node_id p) &&
    match devices d !! Peer_device_id p with
    | Some v => (Device_user_id v == Peer_user_id p) &&
                ((Device_deleted_at v == None) || negb (Peer_status p isin LIVE_PEER_STATUSES))
    | None => false
    end) (peers d) &&
  all_rows (fun k r => (Rw_id r == k) && has (users d) (Rw_user_id r)) (rw_users d) &&
  all_pairs (fun v w => negb (collides (Device_vpn_ip v) (Device_vpn_ip w)) &&
                        negb (collides (Device_public_key v) (Device_public_key w))) (devices d) &&
  all_pairs (fun p q => negb ((Peer_node_id p == Peer_node_id q) &&
                              (Peer_device_id p == Peer_device_id q))) (peers d) &&
  all_pairs (fun r s => Rw_user_id r != Rw_user_id s) (rw_users d).

Lemma db_invb_sound d : db_invb d = true → db_inv d.
Proof.
  unfold db_invb. intros H. do 7 (apply andb_true_iff in H as [H ?]).
  rename H6 into Rusers, H5 into Rdevices, H4 into Rpeers, H3 into Rrw, H2 into Pdevices, H1 into Ppeers, H0 into Prw, H into Rnodes.
  assert (∀ k p, peers d !! k = Some p → Peer_id p = k ∧ is_Some (nodes d !! Peer_node_id p) ∧
    ∃ v, devices d !! Peer_device_id p = Some v ∧ Device_user_id v = Peer_user_id p ∧
      (Device_deleted_at v = None ∨ Peer_status p ∉ LIVE_PEER_STATUSES)) as Hpeer.
  { intros k p Hp. eapply all_rows_true in Hp; [|exact Rpeers]. cbv beta in Hp.
    destruct (devices d !! Peer_device_id p) as [v|]; [|by rewrite andb_false_r in Hp].
    apply andb_true_iff in Hp as [[E Hn]%andb_true_iff [E' Hd]%andb_true_iff].
    apply bool_decide_eq_true in E, E'. split; [done|]. split; [by apply has_true|].
    exists v. split; [done|]. split; [done|]. apply orb_true_iff in Hd as [Hd|Hd]; py_bool; auto. }
  assert (∀ k v, devices d !! k = Some v →
    (Device_id v = k ∧ k ≠ "") ∧ is_Some (users d !! Device_user_id v)) as Hdev.
  { intros k v Hv. eapply all_rows_true in Hv; [|exact Rdevices].
    apply andb_true_iff in Hv as [[E Hk]%andb_true_iff ?]. apply bool_decide_eq_true in E.
    unfold truthy_str in Hk. py_bool. split; [done|by apply has_true]. }
  assert (∀ k v, rw_users d !! k = Some v → Rw_id v = k ∧ is_Some (users d !! Rw_user_id v)) as Hrw.
  { intros k v Hv. eapply all_rows_true in Hv; [|exact Rrw].
    apply andb_true_iff in Hv as [E ?]. apply bool_decide_eq_true in E.
    split; [done|by apply has_true]. }
  split; [split|].
  - intros k n Hn. eapply (all_rows_true _ (nodes d)) in Hn; [|exact Rnodes]. by apply bool_decide_eq_true in Hn.
  - intros k n Hn. eapply (all_rows_true _ (users d)) in Hn; [|exact Rusers]. by apply bool_decide_eq_true in Hn.
  - intros k v Hv. by apply Hdev.
  - intros k p Hp. by apply Hpeer.
  - intros k r Hr. by apply Hrw.
  - intros k1 k2 v1 v2 ip H1 H2 E1 E2.
    eapply (all_pairs_true _ (devices d) k1 k2) in H2 as [?|Hc]; [done| |exact Pdevices|done].
    apply andb_true_iff in Hc as [Hc _].
    destruct (collides_false _ _ ip (proj1 (negb_true_iff _) Hc) E1 E2).
  - intros k1 k2 v1 v2 pk H1 H2 E1 E2.
    eapply (all_pairs_true _ (devices d) k1 k2) in H2 as [?|Hc]; [done| |exact Pdevices|done].
    apply andb_true_iff in Hc as [_ Hc].
    destruct (collides_false _ _ pk (proj1 (negb_true_iff _) Hc) E1 E2).
  - intros k v Hv. exact (proj2 (Hdev k v Hv)).
  - intros k1 k2 p1 p2 H1 H2 E1 E2.
    eapply (all_pairs_true _ (peers d) k1 k2) in H2 as [?|Hc]; [done| |exact Ppeers|done].
    cbv beta in Hc. rewrite E1, E2 in Hc. by rewrite !bool_decide_eq_true_2 in Hc.
  - intros k p Hp. destruct (Hpeer k p Hp) as (_ & _ & v & ? & ? & _). by exists v.
  - intros k p Hp. exact (proj1 (proj2 (Hpeer k p Hp))).
  - intros k r Hr. exact (proj2 (Hrw k r Hr)).
  - intros k1 k2 r1 r2 H1 H2 E.
    eapply (all_pairs_true _ (rw_users d) k1 k2) in H2 as [?|Hc]; [done| |exact Prw|done].
    apply negb_true_iff, bool_decide_eq_false in Hc. done.
  - intros k p v Hp Hv Hdel. destruct (Hpeer k p Hp) as (_ & _ & v' & Hv' & _ & [Hn|Hn]); [|done].
    congruence.
Qed.

Lemma sample_db_inv : db_inv sample_db.
Proof. apply db_invb_sound. vm_compute. reflexivity. Qed.
Lemma sample_managed_db_inv : db_inv sample_managed_db.
Proof. apply db_invb_sound. vm_compute. reflexivity. Qed.
