(* ===== verification/Migrations.v ===== *)
(** * The migration to device ownership

    [panel/backend/migrations/versions/0019_device_ownership.py] and [0020_device_ip_release.py], and the
    deduplication of [0013_p0_reliability_integrity.py] whose constraint 0019 relies on: the
    tables of revision 0018, where an account has one key pair and one address, become the tables of
    [Models], where it has devices; and back. A statement that breaks a constraint raises the
    database's [IntegrityError]; each migration runs in one transaction, so a raised exception leaves
    the tables of the old revision. The tables a revision does not touch are carried along as they
    are. *)
From S2P Require Import Prelude PyStr Json Models Session Sample.

Definition DEFAULT_DEVICE_NAME : string := "Default".

(** ** Revision 0018 *)
Record User0018 := mkUser0018 {
  U18_id : string;
  U18_name : string;
  U18_is_blocked : bool;
  U18_lifecycle_status : string;
  U18_expire_at : option datetime;
  U18_traffic_limit_bytes : Z;
  U18_traffic_reset_policy : string;
  U18_traffic_reset_at : option datetime;
  U18_public_token : string;
  U18_created_at : datetime;
  U18_public_key : option string;
  U18_private_key : option string;
  U18_vpn_ip : option string }.
Record Peer0018 := mkPeer0018 {
  P18_id : string;
  P18_node_id : string;
  P18_user_id : string;
  P18_created_at : datetime;
  P18_status : string;
  P18_psk_key : option string;
  P18_raw_rx : option Z;
  P18_raw_tx : option Z;
  P18_last_handshake : option datetime;
  P18_endpoint : option string }.
(** [others] holds every other table. *)
Record db0018 := mkDb0018 {
  users0018 : gmap string User0018; peers0018 : gmap string Peer0018; others0018 : db }.

(** ** 0013: one peer per node and account

    [DELETE FROM peers WHERE id NOT IN (SELECT MIN(id) ... GROUP BY node_id, user_id)]: the rows have the
    columns of revision 0018 already. *)
Definition same_place (p q : Peer0018) : bool :=
  (P18_node_id p == P18_node_id q) && (P18_user_id p == P18_user_id q).
Definition least_of_place (t : gmap string Peer0018) (p : Peer0018) : bool :=
  forallb (fun q => negb (same_place p q) || String.leb (P18_id p) (P18_id q)) (rows t).
Definition remove_duplicate_peers (t : gmap string Peer0018) : gmap string Peer0018 :=
  filter (fun kp : string * Peer0018 => least_of_place t kp.2 = true) t.
Definition upgrade_0013 (t : gmap string Peer0018) : outcome (gmap string Peer0018) :=
  let t := remove_duplicate_peers t in
  if bool_decide (NoDup ((fun p => (P18_node_id p, P18_user_id p)) <$> rows t)) then Ok t
  else Raise (IntegrityError "uq_peers_node_user").

(** ** Revision 0019 *)
Record Device0019 := mkDevice0019 {
  D19_id : string;
  D19_user_id : string;
  D19_name : string;
  D19_public_key : option string;
  D19_private_key : option string;
  D19_vpn_ip : option string;
  D19_is_legacy_default : bool;
  D19_deleted_at : option datetime;
  D19_created_at : datetime }.
Record db0019 := mkDb0019 {
  users0019 : gmap string User; devices0019 : gmap string Device0019; peers0019 : gmap string Peer;
  others0019 : db }.

(** ** Columns *)
Definition add_device_limit (u : User0018) : User :=
  mkUser (U18_id u) (U18_name u) (U18_is_blocked u) (U18_lifecycle_status u) (U18_expire_at u)
    (U18_traffic_limit_bytes u) (U18_traffic_reset_policy u) (U18_traffic_reset_at u)
    (U18_public_token u) (U18_created_at u) 0 (U18_public_key u) (U18_private_key u) (U18_vpn_ip u).
Definition drop_device_limit (u : User) : User0018 :=
  mkUser0018 (User_id u) (User_name u) (User_is_blocked u) (User_lifecycle_status u) (User_expire_at u)
    (User_traffic_limit_bytes u) (User_traffic_reset_policy u) (User_traffic_reset_at u)
    (User_public_token u) (User_created_at u) (User_public_key u) (User_private_key u) (User_vpn_ip u).
Definition with_device_id (device_id : string) (p : Peer0018) : Peer :=
  mkPeer (P18_id p) (P18_node_id p) (P18_user_id p) device_id (P18_created_at p) (P18_status p)
    (P18_psk_key p) (P18_raw_rx p) (P18_raw_tx p) (P18_last_handshake p) (P18_endpoint p).
Definition drop_device_id (p : Peer) : Peer0018 :=
  mkPeer0018 (Peer_id p) (Peer_node_id p) (Peer_user_id p) (Peer_created_at p) (Peer_status p)
    (Peer_psk_key p) (Peer_raw_rx p) (Peer_raw_tx p) (Peer_last_handshake p) (Peer_endpoint p).

(** [GROUP BY column HAVING COUNT( * ) > 1] of the values that are not null. *)
Definition occurrences (k : string) (l : list string) : nat := length (List.filter (fun x => x == k) l).
Definition shared_values (l : list string) : list (string * nat) :=
  List.filter (fun g : string * nat => (1 <? g.2)%nat) ((fun k => (k, occurrences k l)) <$> remove_dups l).
(** Whether two rows of a table agree on a column that is not null: a unique constraint broken. *)
Definition unique_on {A} (col : A → option string) (t : gmap string A) : bool :=
  bool_decide (NoDup (omap col (rows t))).

(** ** 0019, upgrade *)
Definition orphaned_peers (d : db0018) : list Peer0018 :=
  select (fun p => match users0018 d !! P18_user_id p with None => true | Some _ => false end) (peers0018 d).
Definition refuse_unmappable_legacy_data (d : db0018) : outcome unit :=
  match shared_values (omap U18_public_key (rows (users0018 d))) with
  | (key, owners) :: rest =>
      Raise (RuntimeError ("refusing to migrate to 0019: " +:+ pretty (S (length rest)) +:+
        " client public key(s) are shared by several users (for example " +:+ repr_str key +:+ " by " +:+
        pretty owners +:+ " users). Node results are matched by public key, so every device key must be unique; resolve the duplicates before upgrading."))
  | [] =>
      match shared_values (omap U18_vpn_ip (rows (users0018 d))) with
      | (ip, owners) :: rest =>
          Raise (RuntimeError ("refusing to migrate to 0019: " +:+ pretty (S (length rest)) +:+
            " legacy VPN IP address(es) are shared by several users (for example " +:+ repr_str ip +:+ " by " +:+
            pretty owners +:+ " users). Every device owns exactly one VPN IP and the devices table enforces that, so give each user a distinct IP before upgrading."))
      | [] =>
          match orphaned_peers d with
          | [] => Ok tt
          | l => Raise (RuntimeError ("refusing to migrate to 0019: " +:+ pretty (length l) +:+
              " peer(s) reference a missing user, so no Default device can own them; remove the orphaned peer rows before upgrading."))
          end
      end
  end.

Section migrations.
(* [uuid.uuid4()], by draw *)
Context (uuid4 : nat → string).

Definition default_device (id : string) (u : User0018) : Device0019 :=
  mkDevice0019 id (U18_id u) DEFAULT_DEVICE_NAME (U18_public_key u) (U18_private_key u) (U18_vpn_ip u)
    true None (U18_created_at u).
(** [INSERT INTO devices] under the constraints of the new table. *)
Definition insert_device (users : gmap string User0018) (v : Device0019) (t : gmap string Device0019)
    : outcome (gmap string Device0019) :=
  match t !! D19_id v with
  | Some _ => Raise (IntegrityError "devices_pkey")
  | None =>
      let t := <[D19_id v := v]> t in
      if negb (bool_decide (is_Some (users !! D19_user_id v))) then Raise (IntegrityError "devices_user_id_fkey")
      else if negb (unique_on D19_public_key t) then Raise (IntegrityError "uq_devices_public_key")
      else if negb (unique_on D19_vpn_ip t) then Raise (IntegrityError "uq_devices_vpn_ip")
      else Ok t
  end.
(** The peers while [device_id] is nullable. *)
Abbreviation peers_between := (gmap string (Peer0018 * option string)).
Definition bind_peers (device_id user_id : string) (t : peers_between) : peers_between :=
  (fun p => if P18_user_id p.1 == user_id then (p.1, Some device_id) else p) <$> t.
Fixpoint backfill_default_devices (n : nat) (users : gmap string User0018) (todo : list User0018)
    (t : gmap string Device0019) (ps : peers_between) : outcome (gmap string Device0019 * peers_between) :=
  match todo with
  | [] => Ok (t, ps)
  | u :: todo =>
      let device_id := uuid4 n in
      t ← insert_device users (default_device device_id u) t;
      backfill_default_devices (S n) users todo t (bind_peers device_id (U18_id u) ps)
  end.

(** [batch_alter_table('peers')]: NOT NULL, the new unique constraint and the composite key. *)
Definition not_null (ps : peers_between) : outcome (gmap string Peer) :=
  if bool_decide (map_Forall (fun _ p => p.2 ≠ None) ps)
  then Ok ((fun p : Peer0018 * option string => with_device_id (default "" p.2) p.1) <$> ps)
  else Raise (IntegrityError "peers_device_id_not_null").
Definition owner_key_holds (t : gmap string Device0019) (p : Peer) : bool :=
  match t !! Peer_device_id p with
  | Some v => D19_user_id v == Peer_user_id p
  | None => false
  end.
Definition constrain_peers (t : gmap string Device0019) (ps : peers_between) : outcome (gmap string Peer) :=
  ps ← not_null ps;
  if negb (bool_decide (NoDup ((fun p => (Peer_node_id p, Peer_device_id p)) <$> rows ps)))
  then Raise (IntegrityError "uq_peers_node_device")
  else if negb (forallb (owner_key_holds t) (rows ps))
  then Raise (IntegrityError "fk_peers_device_owner")
  else Ok ps.

Definition upgrade_0019 (d : db0018) : outcome db0019 :=
  _ ← refuse_unmappable_legacy_data d;
  backfilled ← backfill_default_devices 0 (users0018 d) (rows (users0018 d)) ∅
                 ((fun p => (p, None)) <$> peers0018 d);
  ps ← constrain_peers backfilled.1 backfilled.2;
  Ok (mkDb0019 (add_device_limit <$> users0018 d) backfilled.1 ps (others0018 d)).

(** ** 0019, downgrade *)
Definition refuse_lossy_downgrade (d : db0019) : outcome unit :=
  match select (fun v => match D19_deleted_at v with Some _ => true | None => false end) (devices0019 d) with
  | _ :: _ as l =>
      Raise (RuntimeError ("refusing lossy downgrade to 0018: " +:+ pretty (length l) +:+
        " deleted device(s) would come back as live per-user credentials, because the legacy schema has no way to express device deletion"))
  | [] =>
      let foreign := select (fun v => negb (D19_is_legacy_default v)) (devices0019 d) in
      let bound := select (fun p => match devices0019 d !! Peer_device_id p with
                                    | Some v => negb (D19_is_legacy_default v) | None => false end) (peers0019 d) in
      match foreign, bound with
      | [], [] => Ok tt
      | _, _ =>
          Raise (RuntimeError ("refusing lossy downgrade to 0018: " +:+ pretty (length foreign) +:+
            " non-migration device(s) and " +:+ pretty (length bound) +:+
            " peer(s) bound to them would lose their credentials and ownership on the legacy per-user schema"))
      end
  end.
(** The live migration devices of a user, as the subqueries see them. *)
Definition live_defaults (t : gmap string Device0019) (user_id : string) : list Device0019 :=
  select (fun v => (D19_user_id v == user_id) && D19_is_legacy_default v &&
                   match D19_deleted_at v with None => true | Some _ => false end) t.
Definition coalesce {A} (a b : option A) : option A := match a with Some _ => a | None => b end.
Definition restore_user (t : gmap string Device0019) (u : User) : outcome User :=
  match live_defaults t (User_id u) with
  | [] => Ok u
  | [v] => Ok (u <| User_public_key := coalesce (D19_public_key v) (User_public_key u) |>
                 <| User_private_key := coalesce (D19_private_key v) (User_private_key u) |>
                 <| User_vpn_ip := coalesce (D19_vpn_ip v) (User_vpn_ip u) |>)
  | _ => Raise (DBAPIError "more than one row returned by a subquery used as an expression")
  end.
(** A statement over a whole table: the first row that fails fails it. *)
Definition update_all {A} (f : A → outcome A) (t : gmap string A) : outcome (gmap string A) :=
  kvs ← map_outcome (fun kv : string * A => v ← f kv.2; Ok (kv.1, v)) (map_to_list t);
  Ok (list_to_map kvs).
Definition downgrade_0019 (d : db0019) : outcome db0018 :=
  _ ← refuse_lossy_downgrade d;
  us ← update_all (restore_user (devices0019 d)) (users0019 d);
  if negb (bool_decide (NoDup ((fun p => (Peer_node_id p, Peer_user_id p)) <$> rows (peers0019 d))))
  then Raise (IntegrityError "uq_peers_node_user")
  else Ok (mkDb0018 (drop_device_limit <$> us) (drop_device_id <$> peers0019 d) (others0019 d)).
End migrations.

(** ** 0020 *)
Definition add_release_columns (v : Device0019) : Device :=
  mkDevice (D19_id v) (D19_user_id v) (D19_name v) (D19_public_key v) (D19_private_key v) (D19_vpn_ip v)
    None None (D19_is_legacy_default v) (D19_deleted_at v) (D19_created_at v).
Definition drop_release_columns (v : Device) : Device0019 :=
  mkDevice0019 (Device_id v) (Device_user_id v) (Device_name v) (Device_public_key v) (Device_private_key v)
    (Device_vpn_ip v) (Device_is_legacy_default v) (Device_deleted_at v) (Device_created_at v).
Definition upgrade_0020 (d : db0019) : db :=
  (others0019 d) <| users := users0019 d |> <| devices := add_release_columns <$> devices0019 d |>
               <| peers := peers0019 d |>.
(** [others]: the untouched tables, with those of the revision empty. *)
Definition downgrade_0020 (d : db) : db0019 :=
  mkDb0019 (users d) (drop_release_columns <$> devices d) (peers d)
    (d <| users := ∅ |> <| devices := ∅ |> <| peers := ∅ |>).

(** From 0018 to the tables of [Models] and back. *)
Definition upgrade (uuid4 : nat → string) (d : db0018) : outcome db :=
  d ← upgrade_0019 uuid4 d; Ok (upgrade_0020 d).
Definition downgrade (d : db) : outcome db0018 := downgrade_0019 (downgrade_0020 d).

(** ** Duplicates *)
Lemma occurrences_elem k l : k ∈ l → 1 ≤ occurrences k l.
Proof.
  unfold occurrences. induction l as [|x l IH]; intros Hk; [by apply elem_of_nil in Hk|]. cbn.
  destruct (x == k) eqn:E; cbn; [lia|]. apply IH. apply elem_of_cons in Hk as [->|]; [|done].
  by rewrite bool_decide_eq_true_2 in E.
Qed.
Lemma NoDup_occurrences l : NoDup l ↔ ∀ k, occurrences k l ≤ 1.
Proof.
  induction l as [|x l IH]; [split; [cbn; lia|intros _; apply NoDup_nil_2]|].
  assert (∀ k, occurrences k (x :: l) = (if x == k then 1 else 0) + occurrences k l) as Hc.
  { intros k. unfold occurrences. cbn. by destruct (x == k). }
  rewrite NoDup_cons, IH. split.
  - intros [Hx Hl] k. rewrite Hc. specialize (Hl k). case_bool_decide as E; [|lia]. subst k.
    destruct (decide (occurrences x l = 0)) as [->|Hne]; [lia|]. destruct Hx. unfold occurrences in Hne.
    destruct (List.filter (fun y => y == x) l) as [|y r] eqn:Ef; [done|].
    assert (y ∈ List.filter (fun y => y == x) l) as [Hy Hyx]%elem_of_lfilter by (rewrite Ef; by left).
    apply bool_decide_eq_true in Hyx. by subst y.
  - intros Hall. split.
    + intros Hx%occurrences_elem. specialize (Hall x). rewrite Hc, bool_decide_eq_true_2 in Hall by done. lia.
    + intros k. specialize (Hall k). rewrite Hc in Hall. lia.
Qed.
Lemma shared_values_nil l : shared_values l = [] ↔ NoDup l.
Proof.
  unfold shared_values. rewrite NoDup_occurrences. split.
  - intros H k. destruct (decide (k ∈ l)) as [Hk|Hk].
    + destruct (1 <? occurrences k l)%nat eqn:E; [|by apply Nat.ltb_ge in E].
      assert ((k, occurrences k l) ∈ @nil (string * nat)) as Hin; [|by apply elem_of_nil in Hin].
      rewrite <- H. apply elem_of_lfilter. split; [|done]. apply list_elem_of_fmap. exists k.
      split; [done|]. by apply elem_of_remove_dups.
    + destruct (decide (occurrences k l = 0)) as [->|Hne]; [lia|]. destruct Hk. unfold occurrences in Hne.
      destruct (List.filter (fun y => y == k) l) as [|y r] eqn:Ef; [done|].
      assert (y ∈ List.filter (fun y => y == k) l) as [Hy Hyk]%elem_of_lfilter by (rewrite Ef; by left).
      apply bool_decide_eq_true in Hyk. by subst y.
  - intros H. destruct (List.filter _ _) as [|g r] eqn:E; [done|].
    assert (g ∈ List.filter (fun g : string * nat => (1 <? g.2)%nat) ((fun k => (k, occurrences k l)) <$> remove_dups l))
      as [(k & -> & _)%list_elem_of_fmap Hg]%elem_of_lfilter by (rewrite E; by left).
    specialize (H k). apply Nat.ltb_lt in Hg. cbn in Hg. lia.
Qed.

(** Two rows that agree on a column, where no value is shared. *)
Lemma shared_column {A B} (col : A → option B) (t : gmap string A) k1 k2 x1 x2 v :
  NoDup (omap col (rows t)) → t !! k1 = Some x1 → t !! k2 = Some x2 →
  col x1 = Some v → col x2 = Some v → k1 = k2.
Proof.
  intros Hnd H1 H2 C1 C2. destruct (decide (k1 = k2)) as [|Hne]; [done|]. exfalso.
  assert (rows t ≡ₚ x1 :: x2 :: rows (delete k2 (delete k1 t))) as Hp.
  { rewrite <- (insert_delete_id t k1 x1 H1) at 1. rewrite rows_insert by apply lookup_delete_eq.
    f_equiv. rewrite <- (insert_delete_id (delete k1 t) k2 x2) at 1 by (by rewrite lookup_delete_ne).
    by rewrite rows_insert by apply lookup_delete_eq. }
  rewrite Hp in Hnd. cbn in Hnd. rewrite C1, C2 in Hnd. apply NoDup_cons in Hnd as [Hn _]. apply Hn. by left.
Qed.
Lemma unique_column {A B} (col : A → option B) (t : gmap string A) :
  (∀ k1 k2 x1 x2 v, t !! k1 = Some x1 → t !! k2 = Some x2 → col x1 = Some v → col x2 = Some v → k1 = k2) →
  NoDup (omap col (rows t)).
Proof.
  induction t as [|k x t Hk IH] using map_ind; intros Hu; [apply NoDup_nil_2|].
  rewrite rows_insert by done. cbn. assert (NoDup (omap col (rows t))) as Ht.
  { apply IH. intros k1 k2 x1 x2 v H1 H2. apply Hu; rewrite lookup_insert_ne; [done|congruence|done|congruence]. }
  destruct (col x) as [v|] eqn:Ec; [|done]. apply NoDup_cons. split; [|done].
  intros (y & [k' Hy]%elem_of_rows & Cy)%list_elem_of_omap.
  assert (k' = k) as -> by (eapply (Hu k' k y x v); [by rewrite lookup_insert_ne by congruence|apply lookup_insert_eq|done|done]).
  congruence.
Qed.

Lemma omap_total {A B} (f : A → B) (l : list A) : omap (fun x => Some (f x)) l = f <$> l.
Proof. induction l as [|x l IH]; [done|]. cbn. by rewrite IH. Qed.
Lemma unique_rows {A B} (f : A → B) (t : gmap string A) :
  NoDup (f <$> rows t) ↔
  ∀ k1 k2 x1 x2, t !! k1 = Some x1 → t !! k2 = Some x2 → f x1 = f x2 → k1 = k2.
Proof.
  rewrite <- omap_total. split.
  - intros Hnd k1 k2 x1 x2 H1 H2 E. eapply (shared_column (fun x => Some (f x)) t k1 k2 x1 x2 (f x1)); try done.
    by rewrite E.
  - intros Hu. apply unique_column. intros k1 k2 x1 x2 v H1 H2 [= C1] [= C2]. eapply Hu; try done. congruence.
Qed.
Lemma shared_rows {A B} `{EqDecision B} (f : A → B) (t : gmap string A) :
  ¬ NoDup (f <$> rows t) → ∃ k1 k2 x1 x2, k1 ≠ k2 ∧ t !! k1 = Some x1 ∧ t !! k2 = Some x2 ∧ f x1 = f x2.
Proof.
  induction t as [|k x t Hk IH] using map_ind; intros Hn; [by destruct Hn; apply NoDup_nil_2|].
  rewrite rows_insert in Hn by done. cbn in Hn. destruct (decide (f x ∈ f <$> rows t)) as [Hx|Hx].
  - apply list_elem_of_fmap in Hx as (y & E & [k' Hy]%elem_of_rows). exists k, k', x, y.
    assert (k ≠ k') by congruence. split_and!; [done|apply lookup_insert_eq|by rewrite lookup_insert_ne|done].
  - destruct IH as (k1 & k2 & x1 & x2 & Hne & H1 & H2 & E); [by intros H; apply Hn, NoDup_cons|].
    exists k1, k2, x1, x2. split_and!; [done| | |done]; rewrite lookup_insert_ne; congruence.
Qed.
Lemma select_single {A} (p : A → bool) (t : gmap string A) k v :
  t !! k = Some v → p v = true → (∀ k' v', t !! k' = Some v' → p v' = true → k' = k) → select p t = [v].
Proof.
  intros Hk Hp Hu. apply Permutation_singleton_r. rewrite <- (insert_delete_id t k v Hk).
  rewrite select_insert by apply lookup_delete_eq. rewrite Hp. cbn. f_equiv.
  destruct (select p (delete k t)) as [|x l] eqn:E; [done|].
  assert (x ∈ select p (delete k t)) as [[k' [Hne Hx]%lookup_delete_Some] Hpx]%elem_of_select by (rewrite E; by left).
  destruct Hne. symmetry. by eapply Hu.
Qed.
Lemma select_none {A} (p : A → bool) (t : gmap string A) :
  select p t = [] ↔ ∀ k v, t !! k = Some v → p v = false.
Proof.
  split.
  - intros E k v Hk. destruct (p v) eqn:Ep; [|done].
    assert (v ∈ select p t) as Hin by (apply elem_of_select; eauto). rewrite E in Hin. by apply elem_of_nil in Hin.
  - intros H. destruct (select p t) as [|x l] eqn:E; [done|].
    assert (x ∈ select p t) as [[k Hk] Hp]%elem_of_select by (rewrite E; by left). by rewrite (H k x Hk) in Hp.
Qed.

(** ** The backfill *)
Section backfill.
Context (uuid4 : nat → string) `{!Inj (=) (=) uuid4}.

(** The device a user gets, by the position of the user. *)
Fixpoint device_of (n : nat) (todo : list User0018) (user_id : string) : option string :=
  match todo with
  | [] => None
  | u :: todo => if U18_id u == user_id then Some (uuid4 n) else device_of (S n) todo user_id
  end.
Definition bound (n : nat) (todo : list User0018) (p : Peer0018 * option string) : Peer0018 * option string :=
  (p.1, match device_of n todo (P18_user_id p.1) with Some i => Some i | None => p.2 end).

Lemma device_of_spec n todo uid id :
  NoDup (U18_id <$> todo) →
  (device_of n todo uid = Some id ↔ ∃ i u, todo !! i = Some u ∧ U18_id u = uid ∧ id = uuid4 (n + i)).
Proof.
  revert n. induction todo as [|u todo IH]; intros n Hnd; cbn; [split; [done|intros (i & u & ? & _); done]|].
  apply NoDup_cons in Hnd as [Hu Hnd]. case_bool_decide as E.
  - split.
    + intros [= <-]. exists 0, u. by rewrite Nat.add_0_r.
    + intros ([|i] & u' & Hi & Eu & ->); [by rewrite Nat.add_0_r|]. destruct Hu. cbn in Hi. apply list_elem_of_fmap.
      exists u'. split; [congruence|]. by eapply list_elem_of_lookup_2.
  - rewrite (IH (S n) Hnd). split.
    + intros (i & u' & Hi & Eu & ->). exists (S i), u'. split_and!; [done|done|]. f_equal. lia.
    + intros ([|i] & u' & Hi & Eu & ->); [cbn in Hi; congruence|]. exists i, u'. split_and!; [done|done|]. f_equal. lia.
Qed.
Lemma device_of_user n todo uid : is_Some (device_of n todo uid) ↔ uid ∈ U18_id <$> todo.
Proof.
  revert n. induction todo as [|u todo IH]; intros n; cbn.
  - split; [by intros [? ?]|]. by intros ?%elem_of_nil.
  - case_bool_decide as E.
    + split; [intros _; rewrite <- E; by left|by eexists].
    + rewrite (IH (S n)), elem_of_cons. split; [by right|]. by intros [Eu|].
Qed.

Definition pairwise_distinct (todo : list User0018) (t : gmap string Device0019) : Prop :=
  NoDup (omap U18_public_key todo ++ omap D19_public_key (rows t)) ∧
  NoDup (omap U18_vpn_ip todo ++ omap D19_vpn_ip (rows t)).
Lemma distinct_column {A B} (c1 : A → option string) (c2 : B → option string) u todo v rs rs' :
  rs' ≡ₚ v :: rs → c2 v = c1 u → NoDup (omap c1 (u :: todo) ++ omap c2 rs) →
  NoDup (omap c1 todo ++ omap c2 rs').
Proof.
  intros Hp Hc Hnd. rewrite Hp. cbn in *. rewrite Hc. destruct (c1 u) as [x|]; [|done].
  by rewrite <- Permutation_middle.
Qed.

Lemma insert_default_device users u todo n t :
  t !! uuid4 n = None → is_Some (users !! U18_id u) → pairwise_distinct (u :: todo) t →
  let v := default_device (uuid4 n) u in
  insert_device users v t = Ok (<[uuid4 n := v]> t) ∧ pairwise_distinct todo (<[uuid4 n := v]> t).
Proof.
  intros Hn Hu [Hk Hi]. cbv zeta. set (v := default_device (uuid4 n) u).
  pose proof (rows_insert t (uuid4 n) v Hn) as Hp.
  pose proof (distinct_column U18_public_key D19_public_key u todo v (rows t) _ Hp eq_refl Hk) as Hk'.
  pose proof (distinct_column U18_vpn_ip D19_vpn_ip u todo v (rows t) _ Hp eq_refl Hi) as Hi'.
  split; [|done]. unfold insert_device. change (D19_id v) with (uuid4 n). rewrite Hn.
  change (D19_user_id v) with (U18_id u). rewrite (bool_decide_eq_true_2 _ Hu). cbn [negb].
  unfold unique_on. apply NoDup_app in Hk' as (_ & _ & Hk'). apply NoDup_app in Hi' as (_ & _ & Hi').
  by rewrite !bool_decide_eq_true_2.
Qed.

Lemma bind_bound n u todo ps :
  NoDup (U18_id <$> u :: todo) →
  bound (S n) todo <$> bind_peers (uuid4 n) (U18_id u) ps = bound n (u :: todo) <$> ps.
Proof.
  intros Hnd. unfold bind_peers. rewrite <- map_fmap_compose. apply map_fmap_ext. intros k [p o] _.
  unfold bound, compose. cbn [fst snd device_of]. rewrite (bool_decide_ext (P18_user_id p = U18_id u) (U18_id u = P18_user_id p)) by done.
  case_bool_decide as E; cbn [fst snd]; [|done]. f_equal.
  destruct (device_of (S n) todo (P18_user_id p)) as [id|] eqn:Ed; [|done]. exfalso.
  apply NoDup_cons in Hnd as [Hu _]. apply Hu. rewrite E. apply (device_of_user (S n)). by eexists.
Qed.
Lemma backfill_spec n users todo t ps :
  NoDup (U18_id <$> todo) → Forall (fun u => is_Some (users !! U18_id u)) todo →
  (∀ m, n ≤ m → t !! uuid4 m = None) → pairwise_distinct todo t →
  ∃ t', backfill_default_devices uuid4 n users todo t ps = Ok (t', bound n todo <$> ps) ∧
    ∀ k v, t' !! k = Some v ↔
      t !! k = Some v ∨ ∃ i u, todo !! i = Some u ∧ k = uuid4 (n + i) ∧ v = default_device k u.
Proof.
  revert n t ps. induction todo as [|u todo IH]; intros n t ps Hnd Hus Hfresh Hd.
  - exists t. split.
    + cbn. do 2 f_equal. symmetry. etrans; [|apply map_fmap_id]. apply map_fmap_ext. by intros k [p o] _.
    + intros k v. split; [by left|]. by intros [|(i & u & ? & _)].
  - apply Forall_cons in Hus as [Hu Hus].
    destruct (insert_default_device users u todo n t (Hfresh n ltac:(done)) Hu Hd) as [Hins Hd'].
    set (t1 := <[uuid4 n := default_device (uuid4 n) u]> t) in *.
    assert (∀ m, S n ≤ m → t1 !! uuid4 m = None) as Hfresh'.
    { intros m Hm. unfold t1. rewrite lookup_insert_ne by (intros E%(inj uuid4); lia). apply Hfresh. lia. }
    destruct (IH (S n) t1 (bind_peers (uuid4 n) (U18_id u) ps)) as (t' & Hb & Ht'); [by apply NoDup_cons in Hnd as []|done..|].
    exists t'. split.
    + cbn [backfill_default_devices]. rewrite Hins. cbn [mbind outcome_bind]. rewrite Hb. by rewrite bind_bound.
    + intros k v. rewrite Ht'. unfold t1. destruct (decide (k = uuid4 n)) as [->|Hk].
      * rewrite lookup_insert_eq, (Hfresh n) by done. split.
        -- intros [[= <-]|(i & u' & Hi & Ek & ->)]; right.
           ++ exists 0, u. by rewrite Nat.add_0_r.
           ++ exists (S i), u'. split_and!; [done| |done]. rewrite Ek. f_equal. lia.
        -- intros [|([|i] & u' & Hi & Ek & ->)]; [done| |].
           ++ left. cbn in Hi. congruence.
           ++ right. exists i, u'. split_and!; [done| |done]. rewrite Ek. f_equal. lia.
      * rewrite lookup_insert_ne by done. split.
        -- intros [|(i & u' & Hi & Ek & ->)]; [by left|]. right. exists (S i), u'. split_and!; [done| |done].
           rewrite Ek. f_equal. lia.
        -- intros [|([|i] & u' & Hi & Ek & ->)]; [by left| |].
           ++ destruct Hk. by rewrite Ek, Nat.add_0_r.
           ++ right. exists i, u'. split_and!; [done| |done]. rewrite Ek. f_equal. lia.
Qed.
End backfill.

(** ** The peers of 0013 *)
Lemma same_place_spec p q :
  same_place p q = true ↔ P18_node_id p = P18_node_id q ∧ P18_user_id p = P18_user_id q.
Proof. unfold same_place. by rewrite andb_true_iff, !bool_decide_eq_true. Qed.
Lemma least_of_place_spec t p :
  least_of_place t p = true ↔
  ∀ k q, t !! k = Some q → P18_node_id p = P18_node_id q → P18_user_id p = P18_user_id q →
    String.le (P18_id p) (P18_id q).
Proof.
  unfold least_of_place. rewrite forallb_forall. split.
  - intros H k q Hq En Eu. assert (q ∈ rows t) as Hin%list_elem_of_In by (apply elem_of_rows; by exists k).
    apply H in Hin. apply orb_true_iff in Hin as [Hn|Hl]; [|by rewrite <- Is_true_true in Hl].
    apply negb_true_iff in Hn. assert (same_place p q = true) as E by by apply same_place_spec. congruence.
  - intros H q Hin%list_elem_of_In. apply elem_of_rows in Hin as [k Hq]. apply orb_true_iff.
    destruct (same_place p q) eqn:E; [right|by left]. apply same_place_spec in E as [En Eu].
    by apply Is_true_true, (H k).
Qed.
(** A non-empty list of peers has one whose identifier is least. *)
Lemma least_exists (l : list Peer0018) :
  l ≠ [] → ∃ p, p ∈ l ∧ ∀ q, q ∈ l → String.le (P18_id p) (P18_id q).
Proof.
  induction l as [|x l IH]; [done|]. intros _. destruct l as [|y l].
  - exists x. split; [by left|]. intros q ->%list_elem_of_singleton. reflexivity.
  - destruct IH as (p & Hp & Hle); [done|]. destruct (total String.le (P18_id x) (P18_id p)) as [Hx|Hx].
    + exists x. split; [by left|]. intros q [->|Hq]%elem_of_cons; [reflexivity|]. etrans; [exact Hx|by apply Hle].
    + exists p. split; [by right|]. intros q [->|Hq]%elem_of_cons; [exact Hx|by apply Hle].
Qed.
(** The deletion leaves, of the peers an account has on a node, exactly the one with the least
    identifier, as it was; so the unique constraint that follows never fails. *)
Lemma deduplication_keeps_the_least t :
  (∀ k p, t !! k = Some p → P18_id p = k) →
  ∃ t', upgrade_0013 t = Ok t' ∧ t' ⊆ t ∧
    (∀ k p, t !! k = Some p → ∃ k' p', t' !! k' = Some p' ∧ P18_node_id p' = P18_node_id p ∧
       P18_user_id p' = P18_user_id p ∧ String.le k' k) ∧
    (∀ k1 k2 p1 p2, t' !! k1 = Some p1 → t' !! k2 = Some p2 → P18_node_id p1 = P18_node_id p2 →
       P18_user_id p1 = P18_user_id p2 → k1 = k2).
Proof.
  intros Hid. exists (remove_duplicate_peers t).
  assert (∀ k p, remove_duplicate_peers t !! k = Some p ↔ t !! k = Some p ∧ least_of_place t p = true) as Hin
    by (intros k p; apply map_lookup_filter_Some).
  assert (∀ k1 k2 p1 p2, remove_duplicate_peers t !! k1 = Some p1 → remove_duplicate_peers t !! k2 = Some p2 →
    P18_node_id p1 = P18_node_id p2 → P18_user_id p1 = P18_user_id p2 → k1 = k2) as Hu.
  { intros k1 k2 p1 p2 [H1 L1]%Hin [H2 L2]%Hin En Eu. rewrite least_of_place_spec in L1, L2.
    rewrite <- (Hid k1 p1 H1), <- (Hid k2 p2 H2). apply (anti_symm String.le); [by apply (L1 k2)|by apply (L2 k1)]. }
  split_and!; [| |  |done].
  - unfold upgrade_0013. rewrite bool_decide_eq_true_2; [done|]. apply unique_rows.
    intros k1 k2 p1 p2 H1 H2 [= En Eu]. by apply (Hu k1 k2 p1 p2).
  - apply map_filter_subseteq.
  - intros k p Hp. destruct (least_exists (List.filter (same_place p) (rows t))) as (q & Hq & Hle).
    { intros E. assert (p ∈ List.filter (same_place p) (rows t)) as Hpin; [|rewrite E in Hpin; by apply elem_of_nil in Hpin].
      apply elem_of_lfilter. split; [apply elem_of_rows; by exists k|]. by apply same_place_spec. }
    apply elem_of_lfilter in Hq as [[k' Hk']%elem_of_rows [En Eu]%same_place_spec]. exists k', q.
    assert (∀ j r, t !! j = Some r → P18_node_id p = P18_node_id r → P18_user_id p = P18_user_id r →
      String.le (P18_id q) (P18_id r)) as Hall.
    { intros j r Hr E1 E2. apply Hle, elem_of_lfilter. split; [apply elem_of_rows; by exists j|]. by apply same_place_spec. }
    split_and!; [|done|done|].
    + apply Hin. split; [done|]. apply least_of_place_spec. intros j r Hr E1 E2. apply (Hall j r Hr); congruence.
    + rewrite <- (Hid k' q Hk'), <- (Hid k p Hp). by apply (Hall k p Hp).
Qed.

(** ** What revision 0018 enforces *)
Record wf0018 (d : db0018) : Prop := {
  w18_user_id : ∀ k u, users0018 d !! k = Some u → U18_id u = k;
  w18_peer_id : ∀ k p, peers0018 d !! k = Some p → P18_id p = k;
  (* uq_peers_node_user *)
  w18_peer_unique : ∀ k1 k2 p1 p2, peers0018 d !! k1 = Some p1 → peers0018 d !! k2 = Some p2 →
    P18_node_id p1 = P18_node_id p2 → P18_user_id p1 = P18_user_id p2 → k1 = k2;
  w18_peer_node : ∀ k p, peers0018 d !! k = Some p → is_Some (nodes (others0018 d) !! P18_node_id p);
  w18_node_id : ∀ k n, nodes (others0018 d) !! k = Some n → Node_id n = k;
  w18_rw_id : ∀ k r, rw_users (others0018 d) !! k = Some r → Rw_id r = k;
  w18_rw_user : ∀ k r, rw_users (others0018 d) !! k = Some r → is_Some (users0018 d !! Rw_user_id r);
  w18_rw_unique : ∀ k1 k2 r1 r2, rw_users (others0018 d) !! k1 = Some r1 → rw_users (others0018 d) !! k2 = Some r2 →
    Rw_user_id r1 = Rw_user_id r2 → k1 = k2;
  w18_others : users (others0018 d) = ∅ ∧ devices (others0018 d) = ∅ ∧ peers (others0018 d) = ∅ }.
(** What the upgrade asks of the data. *)
Record mappable (d : db0018) : Prop := {
  map_keys : NoDup (omap U18_public_key (rows (users0018 d)));
  map_ips : NoDup (omap U18_vpn_ip (rows (users0018 d)));
  map_owners : ∀ k p, peers0018 d !! k = Some p → is_Some (users0018 d !! P18_user_id p) }.

Lemma refuse_spec d : refuse_unmappable_legacy_data d = Ok tt ↔ mappable d.
Proof.
  unfold refuse_unmappable_legacy_data. split.
  - destruct (shared_values (omap U18_public_key _)) as [|[k n] r] eqn:Ek; [|done].
    destruct (shared_values (omap U18_vpn_ip _)) as [|[i n] r] eqn:Ei; [|done].
    destruct (orphaned_peers d) as [|o r] eqn:Eo; [|done]. intros _. split.
    + by apply shared_values_nil.
    + by apply shared_values_nil.
    + unfold orphaned_peers in Eo. rewrite select_none in Eo. intros k p Hp. specialize (Eo k p Hp). cbn in Eo.
      by destruct (users0018 d !! P18_user_id p).
  - intros [Hk Hi Ho]. apply shared_values_nil in Hk, Hi. rewrite Hk, Hi.
    assert (orphaned_peers d = []) as ->; [|done]. apply select_none. intros k p Hp. cbn.
    by destruct (Ho k p Hp) as [u ->].
Qed.
Lemma refuse_raises d e : refuse_unmappable_legacy_data d = Raise e → ∃ m, e = RuntimeError m.
Proof.
  unfold refuse_unmappable_legacy_data. repeat case_match; intros [= <-]; by eexists.
Qed.
Lemma row_ids d : wf0018 d → NoDup (U18_id <$> rows (users0018 d)).
Proof.
  intros W. apply unique_rows. intros k1 k2 u1 u2 H1 H2. by rewrite (w18_user_id _ W _ _ H1), (w18_user_id _ W _ _ H2).
Qed.

(** ** The upgrade *)
Section upgrade.
Context (uuid4 : nat → string) `{!Inj (=) (=) uuid4} (uuid4_nonempty : ∀ n, uuid4 n ≠ "").

Definition device_id_of (d : db0018) (user_id : string) : option string :=
  device_of uuid4 0 (rows (users0018 d)) user_id.
Definition upgraded_peer (d : db0018) (p : Peer0018) : Peer :=
  with_device_id (default "" (device_id_of d (P18_user_id p))) p.

Section on_tables.
Context (d : db0018) (W : wf0018 d) (M : mappable d).
Lemma device_id_of_spec uid id :
  device_id_of d uid = Some id ↔ ∃ i u, rows (users0018 d) !! i = Some u ∧ U18_id u = uid ∧ id = uuid4 i.
Proof. apply (device_of_spec uuid4 0). by apply row_ids. Qed.
Lemma device_id_of_user k u : users0018 d !! k = Some u → is_Some (device_id_of d k).
Proof.
  intros Hk. apply device_of_user, list_elem_of_fmap. exists u. split; [by rewrite (w18_user_id _ W k u Hk)|].
  apply elem_of_rows. by exists k.
Qed.
Lemma device_id_of_inj uid1 uid2 id : device_id_of d uid1 = Some id → device_id_of d uid2 = Some id → uid1 = uid2.
Proof.
  rewrite !device_id_of_spec. intros (i & u & Hi & <- & ->) (j & u' & Hj & <- & E%(inj uuid4)). subst j. congruence.
Qed.
Lemma device_id_nonempty uid id : device_id_of d uid = Some id → id ≠ "".
Proof. intros (i & u & _ & _ & ->)%device_id_of_spec. apply uuid4_nonempty. Qed.
Lemma peer_device k p :
  peers0018 d !! k = Some p → ∃ u id, users0018 d !! P18_user_id p = Some u ∧ U18_id u = P18_user_id p ∧
    device_id_of d (P18_user_id p) = Some id ∧ Peer_device_id (upgraded_peer d p) = id.
Proof.
  intros Hp. destruct (map_owners _ M k p Hp) as [u Hu]. destruct (device_id_of_user _ u Hu) as [id Hid].
  exists u, id. split_and!; [done|by apply (w18_user_id _ W)|done|]. unfold upgraded_peer. by rewrite Hid.
Qed.

Lemma backfilled :
  ∃ t, backfill_default_devices uuid4 0 (users0018 d) (rows (users0018 d)) ∅ ((fun p => (p, None)) <$> peers0018 d)
       = Ok (t, (fun p => (p, device_id_of d (P18_user_id p))) <$> peers0018 d) ∧
    ∀ k v, t !! k = Some v ↔ ∃ u, users0018 d !! U18_id u = Some u ∧ device_id_of d (U18_id u) = Some k ∧
      v = default_device k u.
Proof.
  destruct (backfill_spec uuid4 0 (users0018 d) (rows (users0018 d)) ∅ ((fun p => (p, None)) <$> peers0018 d))
    as (t & Hb & Ht).
  - by apply row_ids.
  - apply Forall_forall. intros u [k Hk]%elem_of_rows. rewrite (w18_user_id _ W k u Hk). by eexists.
  - intros m _. apply lookup_empty.
  - unfold pairwise_distinct. change (rows ∅) with (@nil Device0019). cbn. rewrite !app_nil_r. split; apply M.
  - exists t. split.
    + rewrite Hb. do 2 f_equal. rewrite <- map_fmap_compose. apply map_fmap_ext. intros k p _.
      unfold bound, compose. cbn [fst snd]. unfold device_id_of. by destruct (device_of _ _ _ _).
    + intros k v. rewrite Ht, lookup_empty. split.
      * intros [|(i & u & Hi & -> & ->)]; [done|]. exists u.
        assert (u ∈ rows (users0018 d)) as [k Hk]%elem_of_rows by by eapply list_elem_of_lookup_2.
        split_and!; [by rewrite (w18_user_id _ W k u Hk)| |done]. apply device_id_of_spec. by exists i, u.
      * intros (u & Hu & (i & u' & Hi & Eu & ->)%device_id_of_spec & ->). right. exists i, u.
        split_and!; [|done|done]. rewrite Hi. f_equal.
        assert (u' ∈ rows (users0018 d)) as [k Hk]%elem_of_rows by by eapply list_elem_of_lookup_2.
        pose proof (w18_user_id _ W k u' Hk). congruence.
Qed.

Lemma constrained t :
  (∀ k v, t !! k = Some v ↔ ∃ u, users0018 d !! U18_id u = Some u ∧ device_id_of d (U18_id u) = Some k ∧
     v = default_device k u) →
  constrain_peers t ((fun p => (p, device_id_of d (P18_user_id p))) <$> peers0018 d)
  = Ok (upgraded_peer d <$> peers0018 d).
Proof.
  intros Ht. unfold constrain_peers, not_null. rewrite bool_decide_eq_true_2.
  2:{ apply map_Forall_fmap. intros k p Hp. cbn. by destruct (peer_device k p Hp) as (u & id & _ & _ & -> & _). }
  cbn [mbind outcome_bind]. rewrite <- map_fmap_compose.
  change ((fun p => with_device_id (default "" p.2) p.1) ∘ (fun p => (p, device_id_of d (P18_user_id p))))
    with (upgraded_peer d).
  rewrite bool_decide_eq_true_2.
  2:{ apply unique_rows. intros k1 k2 x1 x2 H1 H2 E. rewrite lookup_fmap in H1, H2.
      destruct (peers0018 d !! k1) as [p1|] eqn:E1; [|done]. injection H1 as <-.
      destruct (peers0018 d !! k2) as [p2|] eqn:E2; [|done]. injection H2 as <-.
      injection E as En Ed. apply (w18_peer_unique _ W k1 k2 p1 p2 E1 E2 En).
      destruct (peer_device _ _ E1) as (? & id1 & _ & _ & I1 & D1), (peer_device _ _ E2) as (? & id2 & _ & _ & I2 & D2).
      eapply device_id_of_inj; [exact I1|]. rewrite I2. f_equal. unfold upgraded_peer in D1, D2. cbn in D1, D2.
      rewrite <- D1, <- D2. symmetry. exact Ed. }
  cbn [negb].
  assert (forallb (owner_key_holds t) (rows (upgraded_peer d <$> peers0018 d)) = true) as ->; [|done].
  apply forallb_forall. intros x Hx%list_elem_of_In. apply elem_of_rows in Hx as [k Hk]. rewrite lookup_fmap in Hk.
  destruct (peers0018 d !! k) as [p|] eqn:Ep; [|done]. injection Hk as <-.
  destruct (peer_device _ _ Ep) as (u & id & Hu & Eu & Hid & Hd). unfold owner_key_holds. rewrite Hd.
  rewrite (proj2 (Ht id (default_device id u))); [by rewrite bool_decide_eq_true_2|].
  exists u. rewrite Eu. done.
Qed.
Lemma upgrade_0019_spec :
  ∃ t, upgrade_0019 uuid4 d = Ok (mkDb0019 (add_device_limit <$> users0018 d) t
                                    (upgraded_peer d <$> peers0018 d) (others0018 d)) ∧
    ∀ k v, t !! k = Some v ↔ ∃ u, users0018 d !! U18_id u = Some u ∧ device_id_of d (U18_id u) = Some k ∧
      v = default_device k u.
Proof.
  destruct backfilled as (t & Hb & Ht). exists t. split; [|exact Ht]. unfold upgrade_0019.
  rewrite (proj2 (refuse_spec d) M). cbn [mbind outcome_bind]. rewrite Hb. cbn [mbind outcome_bind fst snd].
  by rewrite (constrained t Ht).
Qed.
End on_tables.
End upgrade.

(** The tables of [Models] after both revisions satisfy the invariant of [Models]. *)
Lemma upgraded_db_inv (uuid4 : nat → string) d t :
  Inj (=) (=) uuid4 → (∀ n, uuid4 n ≠ "") → wf0018 d → mappable d →
  (∀ k v, t !! k = Some v ↔ ∃ u, users0018 d !! U18_id u = Some u ∧ device_id_of uuid4 d (U18_id u) = Some k ∧
     v = default_device k u) →
  db_inv (upgrade_0020 (mkDb0019 (add_device_limit <$> users0018 d) t (upgraded_peer uuid4 d <$> peers0018 d)
                          (others0018 d))).
Proof.
  intros Hinj Hne W M Ht.
  assert (∀ k x, (add_release_columns <$> t) !! k = Some x → ∃ u, users0018 d !! U18_id u = Some u ∧
    device_id_of uuid4 d (U18_id u) = Some k ∧ x = add_release_columns (default_device k u)) as Hdev.
  { intros k x. rewrite lookup_fmap. destruct (t !! k) as [v|] eqn:Ev; [|done]. intros [= <-].
    apply Ht in Ev as (u & Hu & Hk & ->). by exists u. }
  assert (∀ k x, (upgraded_peer uuid4 d <$> peers0018 d) !! k = Some x → ∃ p, peers0018 d !! k = Some p ∧
    x = upgraded_peer uuid4 d p) as Hpeer.
  { intros k x. rewrite lookup_fmap. destruct (peers0018 d !! k) as [p|] eqn:Ep; [|done]. intros [= <-]. by exists p. }
  split; [split|]; simpl.
  - apply W.
  - intros k x. rewrite lookup_fmap. destruct (users0018 d !! k) as [u|] eqn:Eu; [|done]. intros [= <-].
    by apply (w18_user_id _ W).
  - intros k x (u & _ & Hk & ->)%Hdev. split; [done|]. by eapply device_id_nonempty.
  - intros k x (p & Hp & ->)%Hpeer. by apply (w18_peer_id _ W).
  - apply W.
  - intros k1 k2 x1 x2 ip (u1 & Hu1 & H1 & ->)%Hdev (u2 & Hu2 & H2 & ->)%Hdev C1 C2.
    pose proof (shared_column _ _ _ _ _ _ _ (map_ips _ M) Hu1 Hu2 C1 C2) as E. rewrite E in H1. congruence.
  - intros k1 k2 x1 x2 ip (u1 & Hu1 & H1 & ->)%Hdev (u2 & Hu2 & H2 & ->)%Hdev C1 C2.
    pose proof (shared_column _ _ _ _ _ _ _ (map_keys _ M) Hu1 Hu2 C1 C2) as E. rewrite E in H1. congruence.
  - intros k x (u & Hu & _ & ->)%Hdev. cbn. rewrite lookup_fmap, Hu. by eexists.
  - intros k1 k2 x1 x2 (p1 & H1 & ->)%Hpeer (p2 & H2 & ->)%Hpeer En Ed.
    destruct (peer_device uuid4 d W M k1 p1 H1) as (? & i1 & _ & _ & I1 & D1).
    destruct (peer_device uuid4 d W M k2 p2 H2) as (? & i2 & _ & _ & I2 & D2).
    apply (w18_peer_unique _ W k1 k2 p1 p2 H1 H2 En). eapply device_id_of_inj; [done|exact W|exact I1|]. congruence.
  - intros k x (p & Hp & ->)%Hpeer. destruct (peer_device uuid4 d W M k p Hp) as (u & i & Hu & Eu & Hi & Hd).
    exists (add_release_columns (default_device i u)). rewrite Hd, lookup_fmap.
    rewrite (proj2 (Ht i (default_device i u))) by (exists u; by rewrite Eu). done.
  - intros k x (p & Hp & ->)%Hpeer. by apply (w18_peer_node _ W k).
  - intros k r Hr. rewrite lookup_fmap. destruct (w18_rw_user _ W k r Hr) as [u ->]. by eexists.
  - apply W.
  - intros k x v _ (u & _ & _ & ->)%Hdev Hd. by destruct Hd.
Qed.
(** The device of an account after the upgrade. *)
Lemma upgraded_devices (uuid4 : nat → string) d t k u :
  Inj (=) (=) uuid4 → wf0018 d →
  (∀ k v, t !! k = Some v ↔ ∃ u, users0018 d !! U18_id u = Some u ∧ device_id_of uuid4 d (U18_id u) = Some k ∧
     v = default_device k u) →
  users0018 d !! k = Some u →
  ∃ id, device_id_of uuid4 d k = Some id ∧
    select (fun v => Device_user_id v == k) (add_release_columns <$> t)
    = [add_release_columns (default_device id u)].
Proof.
  intros Hinj W Ht Hu. pose proof (w18_user_id _ W k u Hu) as Eu.
  destruct (device_id_of_user uuid4 d W k u Hu) as [id Hid]. exists id. split; [done|].
  apply (select_single _ _ id).
  - rewrite lookup_fmap, (proj2 (Ht id (default_device id u))); [done|]. exists u. by rewrite Eu.
  - cbn. by rewrite bool_decide_eq_true_2.
  - intros k' v'. rewrite lookup_fmap. destruct (t !! k') as [v|] eqn:Ev; [|done]. intros [= <-] E.
    apply Ht in Ev as (u' & _ & Hk' & ->). apply bool_decide_eq_true in E. cbn in E. rewrite E in Hk'. congruence.
Qed.

(** C33: upgrading a database of revision 0018 to the schema the panel runs on either succeeds or
    refuses with a [RuntimeError], never with a constraint error halfway, and it refuses exactly when
    two accounts share a client key or an address or a peer has no account. When it succeeds the
    result satisfies the invariant of the panel's database, every account has exactly one device, the
    live migration default named Default with the account's keys, address and creation time, every
    peer keeps its row and only gains the device of its account, and no other table changes. *)
Theorem migration_succeeds_or_refuses (uuid4 : nat → string) (d : db0018) :
  Inj (=) (=) uuid4 → (∀ n, uuid4 n ≠ "") → wf0018 d →
  match upgrade uuid4 d with
  | Ok d' =>
      mappable d ∧ db_inv d' ∧ users d' = add_device_limit <$> users0018 d ∧
      (∀ k u, users0018 d !! k = Some u → ∃ id, devices_of_user d' k =
         [{| Device_id := id; Device_user_id := k; Device_name := "Default";
             Device_public_key := U18_public_key u; Device_private_key := U18_private_key u;
             Device_vpn_ip := U18_vpn_ip u; Device_released_vpn_ip := None; Device_ip_released_at := None;
             Device_is_legacy_default := true; Device_deleted_at := None;
             Device_created_at := U18_created_at u |}] ∧
         ∀ pk p, peers d' !! pk = Some p → Peer_user_id p = k → Peer_device_id p = id) ∧
      drop_device_id <$> peers d' = peers0018 d ∧
      others0019 (downgrade_0020 d') = others0018 d
  | Raise e => ¬ mappable d ∧ ∃ m, e = RuntimeError m
  end.
Proof.
  intros Hinj Hne W. destruct (refuse_unmappable_legacy_data d) as [[]|e] eqn:E.
  2:{ unfold upgrade, upgrade_0019. rewrite E. cbn. split; [|by eapply refuse_raises]. intros M%refuse_spec. congruence. }
  apply refuse_spec in E as M. destruct (upgrade_0019_spec uuid4 d W M) as (t & Hup & Ht).
  unfold upgrade. rewrite Hup. cbn [mbind outcome_bind]. split; [done|]. split; [by apply upgraded_db_inv|].
  split; [done|]. split; [|split].
  - intros k u Hu. destruct (upgraded_devices uuid4 d t k u Hinj W Ht Hu) as (id & Hid & Hsel). exists id. split.
    + unfold devices_of_user. simpl. rewrite Hsel. unfold add_release_columns. cbn. by rewrite (w18_user_id _ W k u Hu).
    + intros pk p. simpl. rewrite lookup_fmap. destruct (peers0018 d !! pk) as [p0|]; [|done]. intros [= <-] Ep.
      cbn in Ep. unfold upgraded_peer. rewrite Ep, Hid. done.
  - simpl. rewrite <- map_fmap_compose. etrans; [|apply map_fmap_id]. apply map_fmap_ext. by intros k [] _.
  - simpl. destruct (w18_others _ W) as (Hus & Hds & Hps). destruct (others0018 d). cbn in *. by subst.
Qed.

(** ** The downgrade *)
Lemma map_outcome_raise {A B} (f : A → outcome B) xs e :
  map_outcome f xs = Raise e → ∃ x, x ∈ xs ∧ f x = Raise e.
Proof.
  induction xs as [|x xs IH]; [done|]. cbn. destruct (f x) as [y|e'] eqn:Ex; cbn.
  - destruct (map_outcome f xs) as [|e''] eqn:El; [done|]. intros [= ->].
    destruct (IH eq_refl) as (x' & Hx' & E). exists x'. split; [by right|done].
  - intros [= ->]. exists x. split; [by left|done].
Qed.
Lemma update_all_ok {A} (f : A → outcome A) (g : A → A) (t : gmap string A) :
  (∀ k v, t !! k = Some v → f v = Ok (g v)) → update_all f t = Ok (g <$> t).
Proof.
  intros H. unfold update_all. rewrite (map_outcome_ok _ (prod_map id g)).
  - cbn. by rewrite list_to_map_fmap, list_to_map_to_list.
  - intros [k v] Hk%elem_of_map_to_list. cbn. by rewrite (H k v Hk).
Qed.
Lemma update_all_cases {A} (f : A → outcome A) (t : gmap string A) :
  match update_all f t with
  | Ok t' => ∃ g, (∀ k v, t !! k = Some v → f v = Ok (g v)) ∧ t' = g <$> t
  | Raise e => ∃ k v, t !! k = Some v ∧ f v = Raise e
  end.
Proof.
  destruct (update_all f t) as [t'|e] eqn:E.
  - pose (g v := match f v with Ok w => w | Raise _ => v end). exists g.
    assert (∀ k v, t !! k = Some v → f v = Ok (g v)) as Hg.
    { intros k v Hk. unfold g. destruct (f v) as [w|e] eqn:Ef; [done|]. exfalso. revert E. unfold update_all.
      destruct (map_outcome _ _) as [l|] eqn:El; [intros _|done].
      assert ((k, v) ∈ map_to_list t) as Hin by by apply elem_of_map_to_list.
      revert l El. induction (map_to_list t) as [|kv kvs IH]; intros l El; [by apply elem_of_nil in Hin|].
      apply elem_of_cons in Hin as [<-|Hin]; cbn in El; [by rewrite Ef in El|].
      destruct (f kv.2); [|done]. cbn in El. destruct (map_outcome _ kvs) as [l'|]; [|done]. by eapply IH. }
    split; [done|]. rewrite (update_all_ok f g t Hg) in E. by injection E.
  - unfold update_all in E. destruct (map_outcome _ _) as [l|e'] eqn:El; [done|]. injection E as ->.
    apply map_outcome_raise in El as ([k v] & Hk%elem_of_map_to_list & Ef). exists k, v. split; [done|].
    cbn in Ef. by destruct (f v) as [|e']; [|injection Ef as ->].
Qed.

(** C34: the downgrade undoes the upgrade: the tables it gives back are the tables of revision 0018 the
    upgrade started from, row for row and column for column. *)
Theorem upgrade_then_downgrade (uuid4 : nat → string) (d : db0018) (d' : db) :
  Inj (=) (=) uuid4 → (∀ n, uuid4 n ≠ "") → wf0018 d → upgrade uuid4 d = Ok d' → downgrade d' = Ok d.
Proof.
  intros Hinj Hne W Hup. unfold upgrade in Hup.
  assert (mappable d) as M.
  { apply refuse_spec. unfold upgrade_0019 in Hup. by destruct (refuse_unmappable_legacy_data d) as [[]|]. }
  destruct (upgrade_0019_spec uuid4 d W M) as (t & E & Ht). rewrite E in Hup. injection Hup as <-.
  set (devs := drop_release_columns <$> (add_release_columns <$> t)).
  assert (devs = t) as Hdevs.
  { unfold devs. rewrite <- map_fmap_compose. etrans; [|apply map_fmap_id]. apply map_fmap_ext. by intros k [] _. }
  unfold downgrade, downgrade_0019, refuse_lossy_downgrade. simpl. fold devs. rewrite Hdevs.
  assert (∀ k v, t !! k = Some v → D19_is_legacy_default v = true ∧ D19_deleted_at v = None) as Hlive
    by (intros k v (u & _ & _ & ->)%Ht; done).
  rewrite (proj2 (select_none _ t)) by (intros k v Hk; by rewrite (proj2 (Hlive k v Hk))).
  rewrite (proj2 (select_none _ t)) by (intros k v Hk; by rewrite (proj1 (Hlive k v Hk))).
  rewrite (proj2 (select_none _ (upgraded_peer uuid4 d <$> peers0018 d))).
  2:{ intros k p _. destruct (t !! Peer_device_id p) as [v|] eqn:Ev; [|done]. by rewrite (proj1 (Hlive _ v Ev)). }
  cbn [mbind outcome_bind].
  rewrite (update_all_ok _ id).
  2:{ intros k x. rewrite lookup_fmap. destruct (users0018 d !! k) as [u|] eqn:Hu; [|done]. intros [= <-].
      destruct (device_id_of_user uuid4 d W k u Hu) as [i Hi]. pose proof (w18_user_id _ W k u Hu) as Eu.
      unfold restore_user, live_defaults. rewrite (select_single _ _ i (default_device i u)).
      - cbn. by destruct u as [??????????[][][]].
      - apply Ht. exists u. by rewrite Eu.
      - cbn. by rewrite bool_decide_eq_true_2.
      - intros k' v' (u' & Hu' & Hk' & ->)%Ht C. cbn in C. rewrite !andb_true_r in C. apply bool_decide_eq_true in C.
        rewrite C, Eu in Hk'. congruence. }
  cbn [mbind outcome_bind]. rewrite bool_decide_eq_true_2.
  2:{ apply unique_rows. intros k1 k2 x1 x2. rewrite !lookup_fmap.
      destruct (peers0018 d !! k1) as [p1|] eqn:E1; [|done]. intros [= <-].
      destruct (peers0018 d !! k2) as [p2|] eqn:E2; [|done]. intros [= <-] [= En Eu].
      by apply (w18_peer_unique _ W k1 k2 p1 p2). }
  cbn [negb]. f_equal. clear Hdevs devs. rewrite map_fmap_id, <- !map_fmap_compose.
  destruct (w18_others _ W) as (Hus & Hds & Hps). destruct d as [us ps o]. cbn in *. f_equal.
  - etrans; [|apply map_fmap_id]. apply map_fmap_ext. by intros k [] _.
  - etrans; [|apply map_fmap_id]. apply map_fmap_ext. by intros k [] _.
  - destruct o. cbn in *. by subst.
Qed.

(** What the guard of the downgrade lets through. *)
Definition only_live_defaults (d : db) : Prop :=
  ∀ k v, devices d !! k = Some v → Device_deleted_at v = None ∧ Device_is_legacy_default v = true.
Definition two_defaults (d : db) : Prop :=
  ∃ k1 k2 v1 v2, k1 ≠ k2 ∧ devices d !! k1 = Some v1 ∧ devices d !! k2 = Some v2 ∧
    Device_user_id v1 = Device_user_id v2.

Lemma drop_release_lookup d k w :
  devices0019 (downgrade_0020 d) !! k = Some w → ∃ v, devices d !! k = Some v ∧ w = drop_release_columns v.
Proof.
  simpl. rewrite lookup_fmap. destruct (devices d !! k) as [v|]; [|done]. intros [= <-]. by exists v.
Qed.
Lemma lossy_spec d :
  match refuse_lossy_downgrade (downgrade_0020 d) with
  | Ok _ => only_live_defaults d
  | Raise e => ¬ only_live_defaults d ∧ ∃ m, e = RuntimeError m
  end.
Proof.
  unfold refuse_lossy_downgrade.
  destruct (select _ (devices0019 _)) as [|v l] eqn:Ed.
  2:{ split; [|by eexists]. intros L. assert (v ∈ v :: l) as Hv by left. rewrite <- Ed in Hv.
      apply elem_of_select in Hv as [[k (w & Hw & ->)%drop_release_lookup] Hp]. cbn in Hp.
      by rewrite (proj1 (L k w Hw)) in Hp. }
  destruct (select (fun v => negb (D19_is_legacy_default v)) _) as [|v l] eqn:Ef.
  - rewrite select_none in Ed, Ef.
    assert (only_live_defaults d) as L.
    { intros k v Hv. assert (devices0019 (downgrade_0020 d) !! k = Some (drop_release_columns v)) as Hw
        by (simpl; by rewrite lookup_fmap, Hv).
      apply Ed in Hw as Hd. apply Ef in Hw as Hl. cbn in Hd, Hl. apply negb_false_iff in Hl.
      by destruct (Device_deleted_at v). }
    rewrite (proj2 (select_none _ (peers0019 _))); [done|]. intros k p _.
    destruct (_ !! Peer_device_id p) as [w|] eqn:Ew; [|done]. apply drop_release_lookup in Ew as (v & Hv & ->).
    cbn. by rewrite (proj2 (L _ v Hv)).
  - assert (¬ only_live_defaults d) as NL; [|split; [done|by eexists]].
    intros L. assert (v ∈ v :: l) as Hv by left. rewrite <- Ef in Hv.
    apply elem_of_select in Hv as [[k (w & Hw & ->)%drop_release_lookup] Hp]. cbn in Hp.
    by rewrite (proj2 (L k w Hw)) in Hp.
Qed.

Lemma select_distinct {A B} (f : A → B) (p : A → bool) (t : gmap string A) :
  (∀ k1 k2 x1 x2, t !! k1 = Some x1 → t !! k2 = Some x2 → f x1 = f x2 → k1 = k2) → NoDup (f <$> select p t).
Proof.
  rewrite <- unique_rows. unfold select. induction (rows t) as [|x l IH]; [done|]. cbn.
  intros [Hx Hl]%NoDup_cons. destruct (p x); [|by apply IH]. cbn. apply NoDup_cons. split; [|by apply IH].
  intros (y & Ey & [Hy _]%elem_of_lfilter)%list_elem_of_fmap. apply Hx, list_elem_of_fmap. by exists y.
Qed.
(** The row of an account, restored from its device. *)
Lemma restore_user_cases d u :
  only_live_defaults d → db_wf d → 
  match restore_user (devices0019 (downgrade_0020 d)) u with
  | Ok u' =>
      User_id u' = User_id u ∧ (devices_of_user d (User_id u) = [] → u' = u) ∧
      ∀ k v, devices d !! k = Some v → Device_user_id v = User_id u →
        (∀ x, Device_public_key v = Some x → User_public_key u' = Some x) ∧
        (∀ x, Device_private_key v = Some x → User_private_key u' = Some x) ∧
        (∀ x, Device_vpn_ip v = Some x → User_vpn_ip u' = Some x)
  | Raise e => two_defaults d
  end.
Proof.
  intros L W. unfold restore_user. set (t := devices0019 (downgrade_0020 d)).
  assert (∀ k v, devices d !! k = Some v → Device_user_id v = User_id u →
    drop_release_columns v ∈ live_defaults t (User_id u)) as Hin.
  { intros k v Hv Eu. apply elem_of_select. split; [exists k; unfold t; simpl; by rewrite lookup_fmap, Hv|]. cbn.
    destruct (L k v Hv) as [-> ->]. by rewrite bool_decide_eq_true_2. }
  destruct (live_defaults t (User_id u)) as [|w [|w2 l]] eqn:El.
  - split_and!; [done|done|]. intros k v Hv Eu. exfalso. by eapply elem_of_nil, (Hin k v Hv).
  - split; [done|]. split.
    + intros E. exfalso. assert (w ∈ [w]) as Hw by left. rewrite <- El in Hw.
      apply elem_of_select in Hw as [[k (v & Hv & ->)%drop_release_lookup] Hp]. cbn in Hp.
      assert (v ∈ devices_of_user d (User_id u)) as H; [|rewrite E in H; by apply elem_of_nil in H].
      apply elem_of_select. split; [by exists k|]. by apply andb_true_iff in Hp as [[Hp _]%andb_true_iff _].
    + intros k v Hv Eu. pose proof (Hin k v Hv Eu) as E%list_elem_of_singleton. subst w. cbn.
      split_and!; by intros x ->.
  - assert (w :: w2 :: l ≡ₚ live_defaults t (User_id u)) as HP by by rewrite El.
    assert (NoDup (w :: w2 :: l)) as Hnd.
    { rewrite <- El. apply (NoDup_fmap_1 D19_id), select_distinct.
      intros k1 k2 x1 x2 (v1 & H1 & ->)%drop_release_lookup (v2 & H2 & ->)%drop_release_lookup.
      cbn. by destruct (wf_device_id _ W _ _ H1) as [-> _], (wf_device_id _ W _ _ H2) as [-> _]. }
    assert (w ∈ w :: w2 :: l) as Hw by left. assert (w2 ∈ w :: w2 :: l) as Hw2 by (right; left).
    rewrite <- El in Hw, Hw2.
    apply elem_of_select in Hw as [[k1 (v1 & H1 & ->)%drop_release_lookup] P1].
    apply elem_of_select in Hw2 as [[k2 (v2 & H2 & ->)%drop_release_lookup] P2]. cbn in P1, P2.
    apply andb_true_iff in P1 as [[P1 _]%andb_true_iff _], P2 as [[P2 _]%andb_true_iff _].
    apply bool_decide_eq_true in P1, P2. exists k1, k2, v1, v2. split_and!; [|done|done|congruence].
    intros ->. apply NoDup_cons in Hnd as [Hn _]. apply Hn. assert (v1 = v2) as -> by congruence. left.
Qed.

Lemma restored_wf d (g : User → User) :
  db_wf d → (∀ k u, users d !! k = Some u → User_id (g u) = k) →
  (∀ k1 k2 x1 x2, peers d !! k1 = Some x1 → peers d !! k2 = Some x2 →
     (Peer_node_id x1, Peer_user_id x1) = (Peer_node_id x2, Peer_user_id x2) → k1 = k2) →
  wf0018 (mkDb0018 (drop_device_limit <$> (g <$> users d)) (drop_device_id <$> peers d)
            (others0019 (downgrade_0020 d))).
Proof.
  intros W Hid Hnd.
  split; simpl; try apply W.
  - intros k x. rewrite !lookup_fmap. destruct (users d !! k) as [u|] eqn:Hu; [|done]. intros [= <-].
    by apply (Hid k u).
  - intros k x. rewrite lookup_fmap. destruct (peers d !! k) as [p|] eqn:Hp; [|done]. intros [= <-].
    by apply (wf_peer_id _ W).
  - intros k1 k2 x1 x2. rewrite !lookup_fmap.
    destruct (peers d !! k1) as [p1|] eqn:E1; [|done]. intros [= <-].
    destruct (peers d !! k2) as [p2|] eqn:E2; [|done]. intros [= <-] En Eu.
    apply (Hnd k1 k2 p1 p2 E1 E2). cbn in En, Eu. by rewrite En, Eu.
  - intros k x. rewrite lookup_fmap. destruct (peers d !! k) as [p|] eqn:Hp; [|done]. intros [= <-].
    by apply (wf_peer_node _ W k).
  - intros k r Hr. rewrite !lookup_fmap. by destruct (wf_rw_user _ W k r Hr) as [u ->].
  - done.
Qed.

(** C35: a downgrade never loses a credential silently. When it goes through, every device was a live
    migration default, its keys and address are now those of its account's row, an account without a
    device is as it was, every peer keeps its row, and the tables satisfy the constraints of revision
    0018. Otherwise the database is left alone: some device is deleted or is not a migration default
    and the migration says so in a [RuntimeError], or an account has two default devices. *)
Theorem downgrade_is_lossless (d : db) :
  db_inv d →
  match downgrade d with
  | Ok d0 =>
      wf0018 d0 ∧ only_live_defaults d ∧ peers0018 d0 = drop_device_id <$> peers d ∧
      (∀ k u, users d !! k = Some u → ∃ u0, users0018 d0 !! k = Some u0 ∧
         (devices_of_user d k = [] → u0 = drop_device_limit u) ∧
         ∀ id v, devices d !! id = Some v → Device_user_id v = k →
           (∀ x, Device_public_key v = Some x → U18_public_key u0 = Some x) ∧
           (∀ x, Device_private_key v = Some x → U18_private_key u0 = Some x) ∧
           (∀ x, Device_vpn_ip v = Some x → U18_vpn_ip u0 = Some x))
  | Raise e => (¬ only_live_defaults d ∧ ∃ m, e = RuntimeError m) ∨ two_defaults d
  end.
Proof.
  intros [W _]. unfold downgrade, downgrade_0019. pose proof (lossy_spec d) as HL.
  destruct (refuse_lossy_downgrade _) as [[]|e]; cbn [mbind outcome_bind]; [|by left].
  pose proof (update_all_cases (restore_user (devices0019 (downgrade_0020 d))) (users0019 (downgrade_0020 d))) as HU.
  destruct (update_all _ _) as [us|e]; cbn [mbind outcome_bind].
  2:{ destruct HU as (k & u & _ & Hr). right. pose proof (restore_user_cases d u HL W) as Hc. by rewrite Hr in Hc. }
  destruct HU as (g & Hg & ->). change (users0019 (downgrade_0020 d)) with (users d) in *.
  change (peers0019 (downgrade_0020 d)) with (peers d).
  assert (∀ k u, users d !! k = Some u → User_id (g u) = k) as Hid.
  { intros k u Hu. pose proof (restore_user_cases d u HL W) as Hc. rewrite (Hg k u Hu) in Hc.
    rewrite (proj1 Hc). by apply (wf_user_id _ W). }
  case_bool_decide as Hnd; cbn [negb].
  - rewrite unique_rows in Hnd. split; [|split; [done|split; [done|]]].
    + by apply restored_wf.
    + intros k u Hu. exists (drop_device_limit (g u)). cbn. rewrite !lookup_fmap, Hu. split; [done|].
      pose proof (restore_user_cases d u HL W) as Hc. rewrite (Hg k u Hu), (wf_user_id _ W k u Hu) in Hc.
      destruct Hc as (_ & He & Hv). split; [|exact Hv]. intros E. by rewrite (He E).
  - right. apply shared_rows in Hnd as (k1 & k2 & p1 & p2 & Hne & H1 & H2 & [= En Eu]).
    destruct (wf_peer_owner _ W _ _ H1) as (v1 & D1 & O1), (wf_peer_owner _ W _ _ H2) as (v2 & D2 & O2).
    exists (Peer_device_id p1), (Peer_device_id p2), v1, v2. split_and!; [|done|done|congruence].
    intros E. apply Hne. by apply (wf_peer_unique _ W k1 k2 p1 p2 H1 H2 En).
Qed.

(** ** A small deployment *)
(** One account with keys and an address, its migration device, and a peer on each of two nodes. *)
Definition legacy_user : User :=
  (sample_user "u" 0%Z) <| User_public_key := Some "pub" |> <| User_private_key := Some "priv" |>
                    <| User_vpn_ip := Some "10.8.0.2" |>.
Definition migrated_deployment : db :=
  sample_db
    <| users := list_to_map [("u", legacy_user); ("w", sample_user "w" 0)] |>
    <| devices := {["d" := (sample_device "d" "u" (Some "10.8.0.2") None)
                             <| Device_is_legacy_default := true |>]} |>
    <| peers := list_to_map
         [("p", sample_peer "p" "a" "u" "d" "active"); ("q", sample_peer "q" "b" "u" "d" "pending")] |>.
Definition legacy_deployment : db0018 :=
  mkDb0018 (drop_device_limit <$> users migrated_deployment) (drop_device_id <$> peers migrated_deployment)
    (others0019 (downgrade_0020 migrated_deployment)).

Lemma migrated_deployment_inv : db_inv migrated_deployment.
Proof. apply db_invb_sound. by vm_compute. Qed.
Lemma legacy_deployment_wf : wf0018 legacy_deployment.
Proof.
  unfold legacy_deployment. rewrite <- (map_fmap_id (users migrated_deployment)).
  apply (restored_wf migrated_deployment id).
  - apply migrated_deployment_inv.
  - intros k u Hu. by apply (wf_user_id _ (proj1 migrated_deployment_inv)).
  - apply unique_rows, (bool_decide_eq_true_1 _). by vm_compute.
Qed.
Lemma sample_uuid4_inj : Inj (=) (=) (@uuid4 sample_env).
Proof. intros a b H. apply str_app_inj_l in H. by apply (inj pretty) in H. Qed.

Lemma migration_succeeds_or_refuses_witness :
  match upgrade uuid4 legacy_deployment with Ok d' => db_inv d' | Raise _ => False end.
Proof.
  pose proof (migration_succeeds_or_refuses uuid4 legacy_deployment sample_uuid4_inj ltac:(done)
    legacy_deployment_wf) as H.
  destruct (upgrade uuid4 legacy_deployment) as [d'|e] eqn:E; [apply H|].
  assert (match upgrade uuid4 legacy_deployment with Ok _ => True | Raise _ => False end) as F by (vm_compute; exact I).
  by rewrite E in F.
Defined.
Lemma upgrade_then_downgrade_witness :
  ∃ d', upgrade uuid4 legacy_deployment = Ok d' ∧ downgrade d' = Ok legacy_deployment.
Proof.
  destruct (upgrade uuid4 legacy_deployment) as [d'|e] eqn:E.
  - exists d'. split; [done|].
    exact (upgrade_then_downgrade uuid4 legacy_deployment d' sample_uuid4_inj ltac:(done) legacy_deployment_wf E).
  - exfalso.
    assert (match upgrade uuid4 legacy_deployment with Ok _ => True | Raise _ => False end) as F by (vm_compute; exact I).
    by rewrite E in F.
Defined.
Lemma downgrade_is_lossless_witness :
  match downgrade migrated_deployment with Ok d0 => wf0018 d0 | Raise _ => False end.
Proof.
  pose proof (downgrade_is_lossless migrated_deployment migrated_deployment_inv) as H.
  destruct (downgrade migrated_deployment) as [d0|e] eqn:E; [apply H|].
  assert (match downgrade migrated_deployment with Ok _ => True | Raise _ => False end) as F by (vm_compute; exact I).
  by rewrite E in F.
Defined.
