(* ===== verification/Ddl.v ===== *)
(** * Tables as data, and the statements that change them

    What the migrations under [panel/backend/migrations/versions] and the ORM classes of
    [panel/backend/app/models.py] talk about: tables with their columns, keys, foreign keys and indexes
    (a schema), rows that map column names to values (an absent name is NULL), and the statements
    [op.create_table], [op.add_column], ... of a migration. A statement first changes the schema
    ([schema_op], which refuses what PostgreSQL refuses: unknown or duplicate objects, a foreign key
    without a key to refer to), then the rows ([data_op]), and raises [IntegrityError] when a declared
    constraint would not hold afterwards ([run_op]).

    The lemmas: a [safe] statement, which no content of the tables can make fail ([run_safe]), and a
    statement that leaves what the tables held before under an earlier schema as it was
    ([run_keeps]). *)
From S2P Require Import Prelude PyStr.

(** ** Values *)
Inductive sql_type := String_ | Integer | BigInteger | Boolean | DateTime | Date.
Inductive sql_value :=
  | VStr (s : string)
  | VInt (z : Z)
  | VBool (b : bool)
  (* an instant, in microseconds *)
  | VTime (t : Z)
  | VDate (day : Z).
#[export] Instance sql_type_eq_dec : EqDecision sql_type.
Proof. solve_decision. Defined.
#[export] Instance sql_value_eq_dec : EqDecision sql_value.
Proof. solve_decision. Defined.

Definition has_type (ty : sql_type) (v : sql_value) : bool :=
  match ty, v with
  | String_, VStr _ => true
  | Integer, VInt z => fits 32 z
  | BigInteger, VInt z => fits 64 z
  | Boolean, VBool _ => true
  | DateTime, VTime _ => true
  | Date, VDate _ => true
  | _, _ => false
  end.
(** The value a [server_default] text denotes for a column of a type. *)
Definition literal (ty : sql_type) (text : string) : option sql_value :=
  match ty with
  | String_ => Some (VStr text)
  | Integer | BigInteger => VInt <$> py_int text
  | Boolean =>
      if bool_decide (text ∈ ["0"; "false"]) then Some (VBool false)
      else if bool_decide (text ∈ ["1"; "true"]) then Some (VBool true) else None
  | DateTime | Date => None
  end.

(** ** Tables *)
Inductive action := NoAction | Cascade | SetNull.
#[export] Instance action_eq_dec : EqDecision action.
Proof. solve_decision. Defined.

Record column := mkColumn {
  col_name : string; col_type : sql_type; col_nullable : bool; col_default : option string }.
Record unique := mkUnique { un_name : option string; un_cols : list string }.
Record fkey := mkFkey {
  fk_name : option string; fk_cols : list string; fk_table : string; fk_tcols : list string;
  fk_ondelete : action }.
Record index := mkIndex { ix_name : string; ix_cols : list string; ix_unique : bool }.
Record table := mkTable {
  tb_columns : list column; tb_pk : list string; tb_uniques : list unique; tb_fkeys : list fkey;
  tb_indexes : list index }.
#[export] Instance column_eq_dec : EqDecision column.
Proof. solve_decision. Defined.
#[export] Instance unique_eq_dec : EqDecision unique.
Proof. solve_decision. Defined.
#[export] Instance fkey_eq_dec : EqDecision fkey.
Proof. solve_decision. Defined.
#[export] Instance index_eq_dec : EqDecision index.
Proof. solve_decision. Defined.
#[export] Instance table_eq_dec : EqDecision table.
Proof. solve_decision. Defined.
Abbreviation schema := (gmap string table).
Abbreviation row := (gmap string sql_value).
Abbreviation contents := (gmap string (list row)).
Record database := Db { db_schema : schema; db_rows : contents }.

Definition rows_of (R : contents) (name : string) : list row := default [] (R !! name).
Definition column_names (t : table) : list string := col_name <$> tb_columns t.
Definition find_column (t : table) (name : string) : option column :=
  List.find (fun c => col_name c == name) (tb_columns t).
(** The column lists whose values no two rows share. *)
Definition keys (t : table) : list (list string) :=
  tb_pk t :: (un_cols <$> tb_uniques t) ++ (ix_cols <$> List.filter ix_unique (tb_indexes t)).
(** Every column list a constraint or an index of the table names. *)
Definition constrained (t : table) : list (list string) :=
  tb_pk t :: (un_cols <$> tb_uniques t) ++ (ix_cols <$> tb_indexes t) ++ (fk_cols <$> tb_fkeys t).
Definition among (names cols : list string) : bool := forallb (fun c => bool_decide (c ∈ names)) cols.

(** ** A schema that PostgreSQL accepts *)
Definition column_types (t : table) (cols : list string) : option (list sql_type) :=
  mapM (fun c => col_type <$> find_column t c) cols.
Definition fkey_wf (s : schema) (t : table) (fk : fkey) : bool :=
  match s !! fk_table fk with
  | Some target =>
      bool_decide (fk_tcols fk ∈ keys target) &&
      bool_decide (column_types t (fk_cols fk) = column_types target (fk_tcols fk))
  | None => false
  end.
Definition table_wf (s : schema) (t : table) : bool :=
  bool_decide (NoDup (column_names t)) &&
  forallb (among (column_names t)) (constrained t) &&
  negb (bool_decide (tb_pk t = [])) &&
  forallb (fun c => negb (bool_decide (col_name c ∈ tb_pk t) && col_nullable c)) (tb_columns t) &&
  forallb (fkey_wf s t) (tb_fkeys t).
(** Tables, indexes and named unique constraints share one name space. *)
Definition relation_names (s : schema) : list string :=
  concat ((fun nt : string * table =>
    nt.1 :: (ix_name <$> tb_indexes nt.2) ++ omap un_name (tb_uniques nt.2)) <$> map_to_list s).
Definition schema_wf (s : schema) : bool :=
  bool_decide (map_Forall (fun _ t => table_wf s t = true) s) && bool_decide (NoDup (relation_names s)).

(** ** Rows that satisfy a schema *)
Definition cell_ok (r : row) (c : column) : bool :=
  match r !! col_name c with
  | Some v => has_type (col_type c) v
  | None => col_nullable c
  end.
Definition row_ok (t : table) (r : row) : bool :=
  forallb (cell_ok r) (tb_columns t) && bool_decide (dom r ⊆ list_to_set (column_names t)).
(** The values of some columns, none of them NULL. *)
Definition project (cols : list string) (r : row) : option (list sql_value) := mapM (fun c => r !! c) cols.
Definition distinct_on (rs : list row) (cols : list string) : bool := bool_decide (NoDup (omap (project cols) rs)).
Definition reference_ok (R : contents) (fk : fkey) (r : row) : bool :=
  match project (fk_cols fk) r with
  | None => true
  | Some k => bool_decide (k ∈ omap (project (fk_tcols fk)) (rows_of R (fk_table fk)))
  end.
Definition table_holds (R : contents) (name : string) (t : table) : bool :=
  forallb (row_ok t) (rows_of R name) &&
  forallb (distinct_on (rows_of R name)) (keys t) &&
  forallb (fun fk => forallb (reference_ok R fk) (rows_of R name)) (tb_fkeys t).
Definition contents_hold (s : schema) (R : contents) : bool :=
  bool_decide (dom R = dom s) && bool_decide (map_Forall (fun name t => table_holds R name t = true) s).
Definition valid (d : database) : Prop :=
  schema_wf (db_schema d) = true ∧ contents_hold (db_schema d) (db_rows d) = true.

(** ** Tables as SQLAlchemy writes them

    [sa.Column] and [mapped_column] with their arguments, the table level constraints; [default=] and
    [onupdate=], which the ORM applies, are not part of the table. *)
Inductive attr :=
  | NotNull
  | PrimaryKey
  | Unique
  | Index
  | ServerDefault (text : string)
  | ForeignKey (target column : string) (ondelete : action).
#[export] Instance attr_eq_dec : EqDecision attr.
Proof. solve_decision. Defined.
Inductive item :=
  | Column (name : string) (type : sql_type) (attrs : list attr)
  | PrimaryKeyConstraint (cols : list string)
  | UniqueConstraint (name : option string) (cols : list string)
  | ForeignKeyConstraint (name : option string) (cols : list string) (target : string)
      (tcols : list string) (ondelete : action).

Definition has_attr (a : attr) (l : list attr) : bool := bool_decide (a ∈ l).
Definition attr_default (a : attr) : option string := match a with ServerDefault text => Some text | _ => None end.
Definition make_column (name : string) (type : sql_type) (attrs : list attr) : column :=
  mkColumn name type (negb (has_attr NotNull attrs || has_attr PrimaryKey attrs)) (head (omap attr_default attrs)).
Definition item_column (i : item) : list column :=
  match i with Column name type attrs => [make_column name type attrs] | _ => [] end.
Definition item_pk (i : item) : list string :=
  match i with
  | Column name _ attrs => if has_attr PrimaryKey attrs then [name] else []
  | PrimaryKeyConstraint cols => cols
  | _ => []
  end.
(** [unique=True] with [index=True] is one unique index. *)
Definition item_unique (i : item) : list unique :=
  match i with
  | Column name _ attrs => if has_attr Unique attrs && negb (has_attr Index attrs) then [mkUnique None [name]] else []
  | UniqueConstraint name cols => [mkUnique name cols]
  | _ => []
  end.
Definition item_fkeys (i : item) : list fkey :=
  match i with
  | Column name _ attrs =>
      omap (fun a => match a with
        | ForeignKey target c od => Some (mkFkey None [name] target [c] od)
        | _ => None
        end) attrs
  | ForeignKeyConstraint name cols target tcols od => [mkFkey name cols target tcols od]
  | _ => []
  end.
Definition item_index (table_name : string) (i : item) : list index :=
  match i with
  | Column name _ attrs =>
      if has_attr Index attrs then [mkIndex ("ix_" +:+ table_name +:+ "_" +:+ name) [name] (has_attr Unique attrs)] else []
  | _ => []
  end.
Definition make_table (table_name : string) (items : list item) : table :=
  mkTable (mjoin (item_column <$> items)) (mjoin (item_pk <$> items)) (mjoin (item_unique <$> items))
    (mjoin (item_fkeys <$> items)) (mjoin (item_index table_name <$> items)).

(** ** Statements *)
(** The [USING] clause of a change of type; [int4_of_text] is the database's [text::integer]. *)
Inductive conversion := AsIs | AsText | FirstPartAsInteger.
Class Casts := int4_of_text : string → option Z.

Inductive statement :=
  (* INSERT INTO target (...) VALUES (...) *)
  | InsertRow (target : string) (r : row)
  (* UPDATE target SET c = source WHERE c IS NULL *)
  | FillNulls (target c source : string)
  (* DELETE FROM target WHERE id NOT IN (SELECT MIN(id) FROM target GROUP BY cols) *)
  | DeleteDuplicates (target id : string) (cols : list string).
Inductive op :=
  | CreateTable (name : string) (items : list item)
  | DropTable (name : string)
  | AddColumn (target name : string) (type : sql_type) (attrs : list attr)
  | DropColumn (target name : string)
  | AlterType (target name : string) (existing_type type : sql_type) (conv : conversion)
  | SetNotNull (target name : string)
  | DropServerDefault (target name : string)
  | CreateIndex (name target : string) (cols : list string) (is_unique : bool)
  | DropIndex (name target : string)
  | CreateUnique (name target : string) (cols : list string)
  | CreateForeignKey (name target referent : string) (cols rcols : list string)
  | DropConstraint (name target : string)
  | Execute (st : statement).

(** ** On the schema *)
Definition update_table (name : string) (f : table → outcome table) (s : schema) : outcome schema :=
  match s !! name with
  | Some t => t' ← f t; Ok (<[name := t']> s)
  | None => Raise (DBAPIError ("relation does not exist: " +:+ name))
  end.
Definition update_column (name : string) (f : column → column) (t : table) : outcome table :=
  if bool_decide (name ∈ column_names t)
  then Ok (mkTable ((fun c => if col_name c == name then f c else c) <$> tb_columns t) (tb_pk t)
             (tb_uniques t) (tb_fkeys t) (tb_indexes t))
  else Raise (DBAPIError ("column does not exist: " +:+ name)).
Definition names_column (name : string) (cols : list string) : bool := bool_decide (name ∈ cols).
(** The constraints and indexes that name the column go with it. *)
Definition without_column (name : string) (t : table) : outcome table :=
  if bool_decide (name ∈ column_names t)
  then Ok (mkTable (List.filter (fun c => negb (col_name c == name)) (tb_columns t))
    (if names_column name (tb_pk t) then [] else tb_pk t)
    (List.filter (fun u => negb (names_column name (un_cols u))) (tb_uniques t))
    (List.filter (fun fk => negb (names_column name (fk_cols fk))) (tb_fkeys t))
    (List.filter (fun ix => negb (names_column name (ix_cols ix))) (tb_indexes t)))
  else Raise (DBAPIError ("column does not exist: " +:+ name)).
Definition without_index (name : string) (t : table) : outcome table :=
  if bool_decide (name ∈ ix_name <$> tb_indexes t)
  then Ok (mkTable (tb_columns t) (tb_pk t) (tb_uniques t) (tb_fkeys t)
             (List.filter (fun ix => negb (ix_name ix == name)) (tb_indexes t)))
  else Raise (DBAPIError ("index does not exist: " +:+ name)).
Definition without_constraint (name : string) (t : table) : outcome table :=
  if bool_decide (Some name ∈ un_name <$> tb_uniques t) || bool_decide (Some name ∈ fk_name <$> tb_fkeys t)
  then Ok (mkTable (tb_columns t) (tb_pk t)
             (List.filter (fun u => negb (bool_decide (un_name u = Some name))) (tb_uniques t))
             (List.filter (fun fk => negb (bool_decide (fk_name fk = Some name))) (tb_fkeys t)) (tb_indexes t))
  else Raise (DBAPIError ("constraint does not exist: " +:+ name)).
Definition alter_schema (o : op) (s : schema) : outcome schema :=
  match o with
  | CreateTable name items =>
      match s !! name with
      | Some _ => Raise (DBAPIError ("relation already exists: " +:+ name))
      | None => Ok (<[name := make_table name items]> s)
      end
  | DropTable name =>
      match s !! name with
      | Some _ => Ok (delete name s)
      | None => Raise (DBAPIError ("relation does not exist: " +:+ name))
      end
  | AddColumn target name type attrs =>
      update_table target (fun t => Ok (mkTable (tb_columns t ++ [make_column name type attrs]) (tb_pk t)
        (tb_uniques t) (tb_fkeys t) (tb_indexes t))) s
  | DropColumn target name => update_table target (without_column name) s
  | AlterType target name _ type _ =>
      update_table target (update_column name (fun c =>
        mkColumn (col_name c) type (col_nullable c) (col_default c))) s
  | SetNotNull target name =>
      update_table target (update_column name (fun c =>
        mkColumn (col_name c) (col_type c) false (col_default c))) s
  | DropServerDefault target name =>
      update_table target (update_column name (fun c =>
        mkColumn (col_name c) (col_type c) (col_nullable c) None)) s
  | CreateIndex name target cols is_unique =>
      update_table target (fun t => Ok (mkTable (tb_columns t) (tb_pk t) (tb_uniques t) (tb_fkeys t)
        (tb_indexes t ++ [mkIndex name cols is_unique]))) s
  | DropIndex name target => update_table target (without_index name) s
  | CreateUnique name target cols =>
      update_table target (fun t => Ok (mkTable (tb_columns t) (tb_pk t)
        (tb_uniques t ++ [mkUnique (Some name) cols]) (tb_fkeys t) (tb_indexes t))) s
  | CreateForeignKey name target referent cols rcols =>
      update_table target (fun t => Ok (mkTable (tb_columns t) (tb_pk t) (tb_uniques t)
        (tb_fkeys t ++ [mkFkey (Some name) cols referent rcols NoAction]) (tb_indexes t))) s
  | DropConstraint name target => update_table target (without_constraint name) s
  | Execute _ => Ok s
  end.
Definition schema_op (o : op) (s : schema) : outcome schema :=
  s' ← alter_schema o s;
  if schema_wf s' then Ok s' else Raise (DBAPIError "the statement leaves an ill-formed schema").
Fixpoint schema_run (ops : list op) (s : schema) : outcome schema :=
  match ops with
  | [] => Ok s
  | o :: ops => s' ← schema_op o s; schema_run ops s'
  end.

(** ** On the rows *)
Definition reference_kept (R : contents) (r : row) (fk : fkey) : bool :=
  negb (bool_decide (fk_ondelete fk = Cascade)) || reference_ok R fk r.
(** [ON DELETE CASCADE]: the rows whose reference is gone go as well. *)
Definition sweep (s : schema) (R : contents) : contents :=
  map_imap (fun name rs => Some match s !! name with
    | Some t => List.filter (fun r => forallb (reference_kept R r) (tb_fkeys t)) rs
    | None => rs
    end) R.
Definition cascade (s : schema) (R : contents) : contents := Nat.iter (size s) (sweep s) R.
Definition text_leb (a b : option sql_value) : bool :=
  match a, b with Some (VStr a), Some (VStr b) => String.leb a b | _, _ => false end.
Definition group_of (cols : list string) (r : row) : list (option sql_value) := (fun c => r !! c) <$> cols.
Definition least_of_group (id : string) (cols : list string) (rs : list row) (r : row) : bool :=
  forallb (fun q => negb (bool_decide (group_of cols q = group_of cols r)) || text_leb (r !! id) (q !! id)) rs.
Definition fill_null (c source : string) (r : row) : row :=
  match r !! c, r !! source with
  | None, Some v => <[c := v]> r
  | _, _ => r
  end.
Definition run_statement (st : statement) (s : schema) (R : contents) : contents :=
  match st with
  | InsertRow target r => alter (fun rs => rs ++ [r]) target R
  | FillNulls target c source => alter (fmap (fill_null c source)) target R
  | DeleteDuplicates target id cols =>
      cascade s (alter (fun rs => List.filter (least_of_group id cols rs) rs) target R)
  end.

Definition convert `{Casts} (type : sql_type) (conv : conversion) (v : sql_value) : outcome (option sql_value) :=
  match conv, v with
  | AsText, VInt z => Ok (Some (VStr (pretty z)))
  | FirstPartAsInteger, VStr text =>
      let part := (partition text "-").1.1 in
      if part == "" then Ok None
      else match int4_of_text part with
           | Some z => Ok (Some (VInt z))
           | None => Raise (DBAPIError ("invalid input syntax for type integer: " +:+ part))
           end
  | AsIs, v => if has_type type v then Ok (Some v) else Raise (DBAPIError "integer out of range")
  | _, _ => Raise (DBAPIError "cannot cast")
  end.
Definition convert_cell `{Casts} (name : string) (type : sql_type) (conv : conversion) (r : row) : outcome row :=
  match r !! name with
  | None => Ok r
  | Some v => w ← convert type conv v; Ok (match w with Some w => <[name := w]> r | None => delete name r end)
  end.
Definition add_default (c : column) (rs : list row) : outcome (list row) :=
  match col_default c with
  | None => Ok rs
  | Some text =>
      match literal (col_type c) text with
      | Some v => Ok (insert (col_name c) v <$> rs)
      | None => Raise (DBAPIError ("invalid default: " +:+ text))
      end
  end.
Definition data_op `{Casts} (o : op) (s : schema) (R : contents) : outcome contents :=
  match o with
  | CreateTable name _ => Ok (<[name := []]> R)
  | DropTable name => Ok (delete name R)
  | AddColumn target name type attrs =>
      rs ← add_default (make_column name type attrs) (rows_of R target); Ok (<[target := rs]> R)
  | DropColumn target name => Ok (alter (fmap (delete name)) target R)
  | AlterType target name _ type conv =>
      rs ← map_outcome (convert_cell name type conv) (rows_of R target); Ok (<[target := rs]> R)
  | Execute st => Ok (run_statement st s R)
  | _ => Ok R
  end.
Definition run_op `{Casts} (o : op) (d : database) : outcome database :=
  s' ← schema_op o (db_schema d);
  R' ← data_op o (db_schema d) (db_rows d);
  if contents_hold s' R' then Ok (Db s' R') else Raise (IntegrityError "a constraint of the table").
Fixpoint run `{Casts} (ops : list op) (d : database) : outcome database :=
  match ops with
  | [] => Ok d
  | o :: ops => d' ← run_op o d; run ops d'
  end.

(** ** Statements that cannot fail on any rows *)
Definition widens (t : table) (name : string) (old new : sql_type) (conv : conversion) : bool :=
  match old, new, conv with
  | Integer, BigInteger, AsIs => true
  | Integer, String_, AsText => forallb (fun cols => negb (bool_decide (name ∈ cols))) (constrained t)
  | _, _, _ => false
  end.
Definition typed_default (c : column) : bool :=
  match col_default c with
  | None => col_nullable c
  | Some text => match literal (col_type c) text with Some v => has_type (col_type c) v | None => false end
  end.
Definition safe (o : op) (s : schema) : bool :=
  match o with
  | CreateTable _ _ | DropTable _ | DropColumn _ _ | DropServerDefault _ _ | DropIndex _ _ | DropConstraint _ _ => true
  | AddColumn _ name type attrs => typed_default (make_column name type attrs)
  | AlterType target name _ type conv =>
      match t ← s !! target; c ← find_column t name; Some (t, c) with
      | Some (t, c) => widens t name (col_type c) type conv
      | None => false
      end
  | CreateIndex _ _ _ is_unique => negb is_unique
  | _ => false
  end.
Fixpoint safe_run (ops : list op) (s : schema) : bool :=
  match ops with
  | [] => true
  | o :: ops => safe o s && match schema_op o s with Ok s' => safe_run ops s' | Raise _ => false end
  end.

(** ** Lemmas on projections and on valid contents *)
Lemma project_ext cols (r r' : row) : (∀ c, c ∈ cols → r !! c = r' !! c) → project cols r = project cols r'.
Proof.
  unfold project. induction cols as [|c cols IH]; intros H; [done|]. simpl.
  rewrite (H c) by left. destruct (r' !! c); [simpl|done]. by rewrite IH by (intros; apply H; by right).
Qed.
Lemma project_frame c f cols (r : row) :
  (∀ k, k ≠ c → f r !! k = r !! k) → c ∉ cols → project cols (f r) = project cols r.
Proof. intros Hf Hc. apply project_ext. intros k Hk. apply Hf. by intros ->. Qed.
Lemma omap_project_map cols (g : row → row) (rs : list row) :
  (∀ r, project cols (g r) = project cols r) → omap (project cols) (g <$> rs) = omap (project cols) rs.
Proof.
  intros H. induction rs as [|r rs IH]; [done|]. cbn. rewrite H.
  destruct (project cols r); [f_equal|]; apply IH.
Qed.

Lemma elem_keys t cols : cols ∈ keys t → cols ∈ constrained t.
Proof.
  unfold keys, constrained. rewrite !elem_of_cons, !elem_of_app.
  intros [?|[?|H]]; [by left|by right; left|]. right; right; left.
  apply list_elem_of_fmap in H as (ix & -> & H). apply list_elem_of_fmap. exists ix. split; [done|].
  apply list_elem_of_In in H. apply List.filter_In in H as [H _]. by apply list_elem_of_In.
Qed.
Lemma elem_fk_cols t fk : fk ∈ tb_fkeys t → fk_cols fk ∈ constrained t.
Proof. intros H. unfold constrained. right. rewrite !elem_of_app. right; right. by apply list_elem_of_fmap_2. Qed.

Lemma contents_hold_spec s R :
  contents_hold s R = true ↔ dom R = dom s ∧ ∀ n t, s !! n = Some t → table_holds R n t = true.
Proof. unfold contents_hold. by rewrite andb_true_iff, !bool_decide_eq_true. Qed.
Lemma forallb_elem {A} (p : A → bool) (l : list A) : forallb p l = true ↔ ∀ x, x ∈ l → p x = true.
Proof. rewrite List.forallb_forall. by setoid_rewrite list_elem_of_In. Qed.
Lemma table_holds_spec R n t :
  table_holds R n t = true ↔
  (∀ r, r ∈ rows_of R n → row_ok t r = true) ∧
  (∀ cols, cols ∈ keys t → distinct_on (rows_of R n) cols = true) ∧
  (∀ fk r, fk ∈ tb_fkeys t → r ∈ rows_of R n → reference_ok R fk r = true).
Proof.
  unfold table_holds. rewrite !andb_true_iff, !forallb_elem. setoid_rewrite forallb_elem.
  split; [intros [[H1 H2] H3]|intros (H1 & H2 & H3)]; split_and?; eauto.
Qed.
Lemma schema_wf_spec s : schema_wf s = true → ∀ n t, s !! n = Some t → table_wf s t = true.
Proof. unfold schema_wf. rewrite andb_true_iff, bool_decide_eq_true. intros [H _] n t. apply H. Qed.
Lemma wf_names s n t : schema_wf s = true → s !! n = Some t → NoDup (column_names t).
Proof.
  intros Hs Ht. pose proof (schema_wf_spec s Hs n t Ht) as H. unfold table_wf in H.
  rewrite !andb_true_iff, bool_decide_eq_true in H. tauto.
Qed.
Lemma wf_constrained s n t cols c :
  schema_wf s = true → s !! n = Some t → cols ∈ constrained t → c ∈ cols → c ∈ column_names t.
Proof.
  intros Hs Ht Hcols Hc. pose proof (schema_wf_spec s Hs n t Ht) as H. unfold table_wf in H.
  rewrite !andb_true_iff in H. destruct H as [[[[_ H] _] _] _]. rewrite forallb_elem in H.
  specialize (H cols Hcols). unfold among in H. rewrite forallb_elem in H.
  by specialize (H c Hc); rewrite bool_decide_eq_true in H.
Qed.
Lemma wf_pk s n t : schema_wf s = true → s !! n = Some t → tb_pk t ≠ [].
Proof.
  intros Hs Ht. pose proof (schema_wf_spec s Hs n t Ht) as H. unfold table_wf in H.
  rewrite !andb_true_iff, negb_true_iff, bool_decide_eq_false in H. tauto.
Qed.
Lemma wf_fkey s n t fk :
  schema_wf s = true → s !! n = Some t → fk ∈ tb_fkeys t →
  ∃ u, s !! fk_table fk = Some u ∧ fk_tcols fk ∈ keys u.
Proof.
  intros Hs Ht Hfk. pose proof (schema_wf_spec s Hs n t Ht) as H. unfold table_wf in H.
  rewrite !andb_true_iff in H. destruct H as [_ H]. rewrite forallb_elem in H. specialize (H fk Hfk).
  unfold fkey_wf in H. destruct (s !! fk_table fk) as [u|]; [|done].
  rewrite andb_true_iff, !bool_decide_eq_true in H. exists u. tauto.
Qed.

(** ** One table changes *)
Lemma rows_of_insert R n rs : rows_of (<[n := rs]> R) n = rs.
Proof. unfold rows_of. by rewrite lookup_insert_eq. Qed.
Lemma rows_of_insert_ne R n m rs : n ≠ m → rows_of (<[n := rs]> R) m = rows_of R m.
Proof. intros H. unfold rows_of. by rewrite lookup_insert_ne. Qed.
Lemma distinct_on_map cols (g : row → row) rs :
  (∀ r, project cols (g r) = project cols r) → distinct_on (g <$> rs) cols = distinct_on rs cols.
Proof. intros H. unfold distinct_on. by rewrite omap_project_map. Qed.

Section table_change.
Context (s : schema) (R : contents) (target : string) (t t' : table) (f : row → row).
Context (holds : contents_hold s R = true) (found : s !! target = Some t)
  (wf : schema_wf (<[target := t']> s) = true).
Context (typed : ∀ r, r ∈ rows_of R target → row_ok t' (f r) = true)
  (frame : ∀ cols, cols ∈ constrained t' → ∀ r, project cols (f r) = project cols r)
  (more_keys : ∀ cols, cols ∈ keys t' → cols ∈ keys t ∨ distinct_on (rows_of R target) cols = true)
  (no_more_fkeys : ∀ fk, fk ∈ tb_fkeys t' → fk ∈ tb_fkeys t).
Local Abbreviation R' := (<[target := f <$> rows_of R target]> R).

Lemma referenced_rows n u fk :
  <[target := t']> s !! n = Some u → fk ∈ tb_fkeys u →
  omap (project (fk_tcols fk)) (rows_of R' (fk_table fk)) = omap (project (fk_tcols fk)) (rows_of R (fk_table fk)).
Proof.
  intros Hu Hfk. destruct (wf_fkey _ _ _ _ wf Hu Hfk) as (v & Hv & Hkey).
  destruct (decide (target = fk_table fk)) as [E|E]; [|by rewrite rows_of_insert_ne].
  rewrite <- E, rows_of_insert. rewrite <- E, lookup_insert_eq in Hv. injection Hv as <-.
  apply omap_project_map. apply frame. by apply elem_keys.
Qed.
Lemma table_change : contents_hold (<[target := t']> s) R' = true.
Proof.
  apply contents_hold_spec in holds as [Hdom Hold]. apply contents_hold_spec. split.
  { rewrite !dom_insert_L. by rewrite Hdom. }
  intros n u Hu. pose proof (referenced_rows n u) as Href. apply table_holds_spec.
  assert (∀ fk r, fk ∈ tb_fkeys u → reference_ok R fk r = true → reference_ok R' fk r = true) as Hkeep.
  { intros fk r Hfk. unfold reference_ok. by rewrite Href by done. }
  destruct (decide (target = n)) as [<-|E].
  - pose proof (Hold _ _ found) as Ht. apply table_holds_spec in Ht as (H1 & H2 & H3).
    rewrite lookup_insert_eq in Hu. injection Hu as <-. rewrite rows_of_insert. split_and!.
    + intros r (r0 & -> & Hr)%list_elem_of_fmap. by apply typed.
    + intros cols Hcols. rewrite distinct_on_map by by apply frame, elem_keys.
      destruct (more_keys cols Hcols); auto.
    + intros fk r Hfk (r0 & -> & Hr)%list_elem_of_fmap. apply Hkeep; [done|].
      unfold reference_ok. rewrite frame by by apply elem_fk_cols. apply H3; auto.
  - rewrite lookup_insert_ne in Hu by done. rewrite rows_of_insert_ne by done.
    pose proof (Hold _ _ Hu) as Ht. apply table_holds_spec in Ht as (H1 & H2 & H3).
    split_and!; [done..|]. intros fk r Hfk Hr. apply Hkeep; auto.
Qed.
End table_change.

Lemma rows_hold s R n t r :
  contents_hold s R = true → s !! n = Some t → r ∈ rows_of R n → row_ok t r = true.
Proof. intros [_ H]%contents_hold_spec Ht Hr. apply (H n t) in Ht. apply table_holds_spec in Ht as (? & _). auto. Qed.
Lemma row_ok_spec t r :
  row_ok t r = true ↔
  (∀ c, c ∈ tb_columns t → cell_ok r c = true) ∧ (∀ k, is_Some (r !! k) → k ∈ column_names t).
Proof.
  unfold row_ok. rewrite andb_true_iff, forallb_elem, bool_decide_eq_true.
  setoid_rewrite <- elem_of_dom. split; intros [H1 H2]; (split; [done|]).
  - intros k Hk. apply H2 in Hk. by apply elem_of_list_to_set in Hk.
  - intros k Hk. apply elem_of_list_to_set. auto.
Qed.
Lemma row_lacks t r k : row_ok t r = true → k ∉ column_names t → r !! k = None.
Proof. intros [_ H]%row_ok_spec Hk. apply eq_None_not_Some. intros ?%H. done. Qed.
Lemma insert_rows_same (R : contents) n : is_Some (R !! n) → <[n := rows_of R n]> R = R.
Proof. intros [rs E]. unfold rows_of. rewrite E. by apply insert_id. Qed.
Lemma alter_rows (R : contents) n g : is_Some (R !! n) → alter g n R = <[n := g (rows_of R n)]> R.
Proof.
  intros [rs E]. unfold rows_of. rewrite E. apply map_eq. intros m. destruct (decide (n = m)) as [<-|].
  - by rewrite lookup_alter_eq, lookup_insert_eq, E.
  - by rewrite lookup_alter_ne, lookup_insert_ne.
Qed.
Lemma held_table s R n t : contents_hold s R = true → s !! n = Some t → is_Some (R !! n).
Proof.
  intros [H _]%contents_hold_spec Ht. apply elem_of_dom. rewrite H. apply elem_of_dom. eauto.
Qed.
(** Only the definition of the table changes, and less is asked of its rows. *)
Lemma table_relaxed s R target t t' :
  contents_hold s R = true → s !! target = Some t → schema_wf (<[target := t']> s) = true →
  (∀ r, r ∈ rows_of R target → row_ok t r = true → row_ok t' r = true) →
  (∀ cols, cols ∈ keys t' → cols ∈ keys t ∨ distinct_on (rows_of R target) cols = true) →
  (∀ fk, fk ∈ tb_fkeys t' → fk ∈ tb_fkeys t) →
  contents_hold (<[target := t']> s) R = true.
Proof.
  intros Hold Ht Hwf Hrow Hkeys Hfk.
  pose proof (table_change s R target t t' id Hold Ht Hwf) as H. rewrite list_fmap_id in H.
  rewrite insert_rows_same in H by by eapply held_table. apply H; try done.
  intros r Hr. apply Hrow; [done|]. by eapply rows_hold.
Qed.

(** ** Every safe statement succeeds *)
Lemma schema_op_ok o s s' : schema_op o s = Ok s' ↔ alter_schema o s = Ok s' ∧ schema_wf s' = true.
Proof.
  unfold schema_op. destruct (alter_schema o s) as [w|]; simpl; [|by split; [|intros [] ]].
  destruct (schema_wf w) eqn:E; split; [by intros [= ->]|by intros [[= ->] ?]|done|intros [[= ->] ?]; congruence].
Qed.
Lemma update_table_ok n f s s' :
  update_table n f s = Ok s' ↔ ∃ t t', s !! n = Some t ∧ f t = Ok t' ∧ s' = <[n := t']> s.
Proof.
  unfold update_table. destruct (s !! n) as [t|]; [|split; [done|by intros (t & t' & ? & _)] ].
  destruct (f t) as [t'|] eqn:E; simpl; split.
  - intros [= <-]. by exists t, t'.
  - intros (u & u' & [= <-] & E' & ->). congruence.
  - done.
  - intros (u & u' & [= <-] & E' & _). congruence.
Qed.
Lemma elem_filter {A} (p : A → bool) l x : x ∈ List.filter p l ↔ x ∈ l ∧ p x = true.
Proof. by rewrite !list_elem_of_In, List.filter_In. Qed.
Lemma elem_keys_spec t cols :
  cols ∈ keys t ↔ cols = tb_pk t ∨ (∃ u, u ∈ tb_uniques t ∧ cols = un_cols u) ∨
    ∃ ix, ix ∈ tb_indexes t ∧ ix_unique ix = true ∧ cols = ix_cols ix.
Proof.
  unfold keys. rewrite elem_of_cons, elem_of_app, !list_elem_of_fmap. setoid_rewrite elem_filter. naive_solver.
Qed.

Lemma created_holds s R name t :
  contents_hold s R = true → s !! name = None → schema_wf (<[name := t]> s) = true →
  contents_hold (<[name := t]> s) (<[name := []]> R) = true.
Proof.
  intros [Hdom Hold]%contents_hold_spec Hnew Hwf. apply contents_hold_spec. split; [by rewrite !dom_insert_L, Hdom|].
  assert (rows_of R name = []) as Hnone.
  { unfold rows_of. replace (R !! name) with (@None (list row)); [done|]. symmetry. apply not_elem_of_dom.
    rewrite Hdom. by apply not_elem_of_dom. }
  assert (∀ n, rows_of (<[name := []]> R) n = rows_of R n) as Hrows.
  { intros n. destruct (decide (name = n)) as [<-|]; [by rewrite rows_of_insert|by apply rows_of_insert_ne]. }
  intros n u Hu. apply table_holds_spec. unfold reference_ok. setoid_rewrite Hrows.
  destruct (decide (name = n)) as [<-|E].
  - rewrite Hnone. split_and!; [set_solver| |set_solver]. intros cols _. unfold distinct_on. apply bool_decide_eq_true. constructor.
  - rewrite lookup_insert_ne in Hu by done. apply Hold in Hu. apply table_holds_spec in Hu as (H1 & H2 & H3).
    split_and!; [done..|]. intros fk r Hfk Hr. specialize (H3 fk r Hfk Hr). unfold reference_ok in H3. by rewrite Hrows.
Qed.
Lemma dropped_holds s R name :
  contents_hold s R = true → schema_wf (delete name s) = true →
  contents_hold (delete name s) (delete name R) = true.
Proof.
  intros [Hdom Hold]%contents_hold_spec Hwf. apply contents_hold_spec. split; [by rewrite !dom_delete_L, Hdom|].
  intros n u Hu. destruct (decide (name = n)) as [<-|E]; [by rewrite lookup_delete_eq in Hu|].
  pose proof (λ fk, wf_fkey _ _ _ fk Hwf Hu) as Hfk.
  rewrite lookup_delete_ne in Hu by done. apply Hold in Hu. apply table_holds_spec in Hu as (H1 & H2 & H3).
  assert (∀ m, m ≠ name → rows_of (delete name R) m = rows_of R m) as Hrows.
  { intros m Hm. unfold rows_of. by rewrite lookup_delete_ne. }
  apply table_holds_spec. rewrite Hrows by done. split_and!; [done..|]. intros fk r Hf Hr.
  specialize (H3 fk r Hf Hr). unfold reference_ok in *. destruct (Hfk fk Hf) as (v & Hv & _).
  rewrite Hrows; [done|]. intros E'. by rewrite E', lookup_delete_eq in Hv.
Qed.
Lemma insert_cell_row t c v r :
  row_ok t r = true → col_name c ∉ column_names t → has_type (col_type c) v = true →
  row_ok (mkTable (tb_columns t ++ [c]) (tb_pk t) (tb_uniques t) (tb_fkeys t) (tb_indexes t)) (<[col_name c := v]> r) = true.
Proof.
  intros Hr Hnew Hv. apply row_ok_spec in Hr as [H1 H2]. apply row_ok_spec. unfold column_names. simpl. split.
  - intros c' [Hc' | ->%list_elem_of_singleton]%elem_of_app; unfold cell_ok.
    + rewrite lookup_insert_ne; [by apply H1|]. intros E. apply Hnew. rewrite E. by apply list_elem_of_fmap_2.
    + by rewrite lookup_insert_eq.
  - intros k Hk. rewrite fmap_app, elem_of_app. destruct (decide (k = col_name c)) as [->|E]; [right; by left|].
    left. apply H2. by rewrite lookup_insert_ne in Hk.
Qed.
Lemma null_cell_row t c r :
  row_ok t r = true → col_name c ∉ column_names t → col_nullable c = true →
  row_ok (mkTable (tb_columns t ++ [c]) (tb_pk t) (tb_uniques t) (tb_fkeys t) (tb_indexes t)) r = true.
Proof.
  intros Hr Hnew Hn. pose proof (row_lacks _ _ _ Hr Hnew) as Hnone.
  apply row_ok_spec in Hr as [H1 H2]. apply row_ok_spec. unfold column_names. simpl. split.
  - intros c' [Hc' | ->%list_elem_of_singleton]%elem_of_app; [by apply H1|]. unfold cell_ok. by rewrite Hnone.
  - intros k Hk. rewrite fmap_app, elem_of_app. left. by apply H2.
Qed.
Lemma add_column_safe s R target name type attrs s' :
  schema_wf s = true → contents_hold s R = true → schema_op (AddColumn target name type attrs) s = Ok s' →
  typed_default (make_column name type attrs) = true →
  ∃ rs, add_default (make_column name type attrs) (rows_of R target) = Ok rs ∧
    contents_hold s' (<[target := rs]> R) = true.
Proof.
  intros Hs Hold [(t & t' & Ht & [= <-] & ->)%update_table_ok Hwf]%schema_op_ok Hdef.
  set (c := make_column name type attrs) in *.
  assert (col_name c ∉ column_names t) as Hnew.
  { pose proof (wf_names _ target _ Hwf ltac:(by rewrite lookup_insert_eq)) as Hn.
    unfold column_names in Hn. simpl in Hn. rewrite fmap_app in Hn. apply NoDup_app in Hn as (_ & Hn & _).
    intros Hc. apply (Hn _ Hc). by left. }
  unfold typed_default in Hdef. unfold add_default. destruct (col_default c) as [text|].
  - destruct (literal (col_type c) text) as [v|]; [|done]. eexists. split; [done|].
    apply table_change with t; auto.
    + intros r Hr. apply insert_cell_row; auto. by eapply rows_hold.
    + intros cols Hcols r. apply project_frame with (col_name c).
      * intros k Hk. by rewrite lookup_insert_ne.
      * intros Hc. apply Hnew. by eapply (wf_constrained s).
  - eexists. split; [done|]. rewrite insert_rows_same by by eapply held_table.
    apply table_relaxed with t; auto. intros r _ Hr. by apply null_cell_row.
Qed.

Lemma find_column_spec t name c :
  NoDup (column_names t) → c ∈ tb_columns t → col_name c = name → find_column t name = Some c.
Proof.
  unfold find_column, column_names. intros Hn Hc <-. induction (tb_columns t) as [|x l IH]; [by apply elem_of_nil in Hc|].
  cbn [List.find]. rewrite fmap_cons in Hn. apply NoDup_cons in Hn as [Hx Hn]. case_bool_decide as E.
  - apply elem_of_cons in Hc as [->|Hc]; [done|]. exfalso. apply Hx. rewrite E. by apply list_elem_of_fmap_2.
  - apply elem_of_cons in Hc as [->|Hc]; [done|]. auto.
Qed.
Lemma delete_cell_row t t' name r :
  row_ok t r = true → without_column name t = Ok t' → row_ok t' (delete name r) = true.
Proof.
  intros [H1 H2]%row_ok_spec. unfold without_column. case_bool_decide; [|done]. intros [= <-].
  apply row_ok_spec. unfold column_names. simpl. split.
  - intros c [Hc Hne]%elem_filter. py_bool. unfold cell_ok. rewrite lookup_delete_ne by done. by apply H1.
  - intros k Hk. destruct (decide (k = name)) as [->|E]; [rewrite lookup_delete_eq in Hk; by destruct Hk|].
    rewrite lookup_delete_ne in Hk by done. apply H2 in Hk. unfold column_names in Hk.
    apply list_elem_of_fmap in Hk as (c & -> & Hc). apply list_elem_of_fmap_2, elem_filter. split; [done|].
    by rewrite bool_decide_eq_false_2.
Qed.
Lemma drop_column_safe s R target name s' :
  contents_hold s R = true → schema_op (DropColumn target name) s = Ok s' →
  contents_hold s' (alter (fmap (delete name)) target R) = true.
Proof.
  intros Hold [(t & t' & Ht & Hdrop & ->)%update_table_ok Hwf]%schema_op_ok.
  rewrite alter_rows by by eapply held_table.
  pose proof (wf_pk _ target t' Hwf ltac:(by rewrite lookup_insert_eq)) as Hpk.
  apply table_change with t; auto.
  - intros r Hr. eapply delete_cell_row; [|done]. by eapply rows_hold.
  - intros cols Hcols r. apply project_frame with name; [intros k Hk; by rewrite lookup_delete_ne|].
    unfold without_column in Hdrop. case_bool_decide; [|done]. injection Hdrop as <-. unfold constrained in Hcols.
    cbn in Hcols, Hpk. unfold names_column in *. rewrite elem_of_cons, !elem_of_app, !list_elem_of_fmap in Hcols.
    setoid_rewrite elem_filter in Hcols.
    destruct Hcols as [->|[(u & -> & _ & Hu)|[(u & -> & _ & Hu)|(u & -> & _ & Hu)]]]; py_bool; try done.
    case_bool_decide; [by apply not_elem_of_nil|done].
  - unfold without_column in Hdrop. case_bool_decide; [|done]. injection Hdrop as <-. intros cols Hcols. left.
    rewrite elem_keys_spec in Hcols |- *. cbn in *. setoid_rewrite elem_filter in Hcols.
    destruct Hcols as [->|[(u & [? _] & ->)|(ix & [? _] & ? & ->)]]; [|by eauto|by eauto 6].
    left. by destruct (names_column name (tb_pk t)).
  - unfold without_column in Hdrop. case_bool_decide; [|done]. injection Hdrop as <-. cbn.
    intros fk [? _]%elem_filter. done.
Qed.

Definition retype (name : string) (type : sql_type) (c : column) : column :=
  if col_name c == name then mkColumn (col_name c) type (col_nullable c) (col_default c) else c.
Lemma retyped_row t t' name type r r' :
  row_ok t r = true → NoDup (column_names t) → tb_columns t' = retype name type <$> tb_columns t →
  (∀ k, k ≠ name → r' !! k = r !! k) → (is_Some (r' !! name) ↔ is_Some (r !! name)) →
  (∀ c v, find_column t name = Some c → r' !! name = Some v → has_type type v = true) →
  row_ok t' r' = true.
Proof.
  intros [H1 H2]%row_ok_spec Hn Hcols Hframe Hsome Htyped. apply row_ok_spec. unfold column_names. rewrite Hcols. split.
  - intros c' (c & -> & Hc)%list_elem_of_fmap. specialize (H1 c Hc). unfold cell_ok, retype in *.
    case_bool_decide as E; cbn.
    + pose proof (find_column_spec t name c Hn Hc E) as Hf. rewrite E in *. destruct (r' !! name) as [v|] eqn:E'; [by eapply Htyped|].
      destruct (r !! name); [|done]. destruct (proj2 Hsome ltac:(eauto)). congruence.
    + by rewrite Hframe.
  - intros k Hk. rewrite <- list_fmap_compose.
    rewrite (list_fmap_ext _ col_name) by (intros _ c _; unfold retype; cbn; by case_bool_decide).
    apply H2. destruct (decide (k = name)) as [->|]; [by apply Hsome|by rewrite Hframe in Hk].
Qed.
Lemma row_cell t name c r v :
  row_ok t r = true → find_column t name = Some c → r !! name = Some v → has_type (col_type c) v = true.
Proof.
  intros [H1 _]%row_ok_spec Hf Hv. unfold find_column in Hf. apply List.find_some in Hf as [Hc E].
  py_bool. subst name. apply list_elem_of_In in Hc. specialize (H1 c Hc). unfold cell_ok in H1. by rewrite Hv in H1.
Qed.
Lemma fits_wider z : fits 32 z = true → fits 64 z = true.
Proof. unfold fits. lia. Qed.
(** The other parts of the table are as they were, and so is every projection the constraints use. *)
Lemma alter_type_ok target name type s s' o :
  schema_op o s = Ok s' → (∃ old conv, o = AlterType target name old type conv) →
  ∃ t t', s !! target = Some t ∧ s' = <[target := t']> s ∧ schema_wf s' = true ∧
    tb_columns t' = retype name type <$> tb_columns t ∧ keys t' = keys t ∧ tb_fkeys t' = tb_fkeys t ∧
    constrained t' = constrained t ∧ name ∈ column_names t.
Proof.
  intros Hop (old & conv & ->). apply schema_op_ok in Hop as [Ha Hwf]. apply update_table_ok in Ha as (t & t' & Ht & Hu & ->).
  unfold update_column in Hu. case_bool_decide as Hin; [|done]. injection Hu as <-. by eexists t, _.
Qed.
Lemma same_rows s R target t t' name type :
  schema_wf s = true → contents_hold s R = true → s !! target = Some t → schema_wf (<[target := t']> s) = true →
  tb_columns t' = retype name type <$> tb_columns t → keys t' = keys t → tb_fkeys t' = tb_fkeys t →
  (∀ r v, r ∈ rows_of R target → r !! name = Some v → has_type type v = true) →
  contents_hold (<[target := t']> s) R = true.
Proof.
  intros Hs Hold Ht Hwf Hcols Hkeys Hfks Htyped. apply table_relaxed with t; auto.
  - intros r Hr Hok. apply (retyped_row t t' name type r r); [done|exact (wf_names s target t Hs Ht)|done..|].
    intros c v _ Hv. by eapply Htyped.
  - intros cols. rewrite Hkeys. auto.
  - intros fk. by rewrite Hfks.
Qed.
Definition as_text (name : string) (r : row) : row :=
  match r !! name with Some (VInt z) => <[name := VStr (pretty z)]> r | _ => r end.
Lemma as_text_frame name r k : k ≠ name → as_text name r !! k = r !! k.
Proof. intros Hk. unfold as_text. repeat case_match; try done. by rewrite lookup_insert_ne. Qed.

Lemma alter_type_safe `{Casts} s R target name old type conv s' t c :
  schema_wf s = true → contents_hold s R = true → schema_op (AlterType target name old type conv) s = Ok s' →
  s !! target = Some t → find_column t name = Some c → widens t name (col_type c) type conv = true →
  ∃ R', data_op (AlterType target name old type conv) s R = Ok R' ∧ contents_hold s' R' = true.
Proof.
  intros Hs Hold Hop Ht Hc Hw.
  destruct (alter_type_ok target name type s s' _ Hop ltac:(eauto)) as (t0 & t' & Ht0 & -> & Hwf & Hcols & Hkeys & Hfks & Hcons & Hin).
  rewrite Ht in Ht0. injection Ht0 as <-. simpl.
  assert (∀ r, r ∈ rows_of R target → row_ok t r = true) as Hrows by (intros; by eapply rows_hold).
  assert (∀ r v, r ∈ rows_of R target → r !! name = Some v → has_type (col_type c) v = true) as Hcell
    by (intros r v Hr; apply (row_cell t); auto).
  destruct (col_type c) eqn:Ety; try done. destruct type; try done; destruct conv; try done.
  - rewrite (map_outcome_ok _ (as_text name)).
    2:{ intros r Hr. unfold convert_cell, as_text. destruct (r !! name) as [v|] eqn:Ev; [|done].
        specialize (Hcell r v Hr Ev). by destruct v. }
    eexists. split; [done|]. apply table_change with t; auto.
    + intros r Hr. apply retyped_row with t name String_ r; [auto|exact (wf_names s target t Hs Ht)|done|apply as_text_frame| |].
      * unfold as_text. destruct (r !! name) as [v|] eqn:Ev; [|by rewrite Ev].
        specialize (Hcell r v Hr Ev). destruct v; try done. rewrite lookup_insert_eq. by split; intros _.
      * intros c' v' _. unfold as_text. destruct (r !! name) as [v|] eqn:Ev; [|by rewrite Ev].
        specialize (Hcell r v Hr Ev). destruct v; try done. rewrite lookup_insert_eq. by intros [= <-].
    + intros cols Hc' r. apply project_frame with name; [by apply as_text_frame|]. rewrite Hcons in Hc'.
      change (forallb (fun cols => negb (bool_decide (name ∈ cols))) (constrained t) = true) in Hw.
      rewrite forallb_elem in Hw. specialize (Hw cols Hc'). by py_bool.
    + intros cols. rewrite Hkeys. auto.
    + intros fk. by rewrite Hfks.
  - rewrite (map_outcome_ok _ id).
    2:{ intros r Hr. unfold convert_cell. destruct (r !! name) as [v|] eqn:Ev; [|done].
        specialize (Hcell r v Hr Ev). destruct v; try done. simpl in *. rewrite fits_wider by done. simpl.
        by rewrite insert_id. }
    eexists. split; [done|]. rewrite list_fmap_id, insert_rows_same by by eapply held_table.
    apply (same_rows s R target t t' name BigInteger); auto. intros r v Hr Hv. specialize (Hcell r v Hr Hv). destruct v; try done. by apply fits_wider.
Qed.
Lemma constraint_dropped t t' (fu : unique → bool) (ff : fkey → bool) (fi : index → bool) :
  t' = mkTable (tb_columns t) (tb_pk t) (List.filter fu (tb_uniques t)) (List.filter ff (tb_fkeys t))
         (List.filter fi (tb_indexes t)) →
  (∀ cols, cols ∈ keys t' → cols ∈ keys t) ∧ (∀ fk, fk ∈ tb_fkeys t' → fk ∈ tb_fkeys t) ∧
  (∀ r, row_ok t r = true → row_ok t' r = true).
Proof.
  intros ->. split_and!; [|by intros fk [? _]%elem_filter|done].
  intros cols. rewrite !elem_keys_spec. cbn. setoid_rewrite elem_filter. naive_solver.
Qed.
Lemma filter_all {A} (l : list A) : List.filter (fun _ => true) l = l.
Proof. induction l as [|x l IH]; [done|]. simpl. by rewrite IH. Qed.
Lemma drop_index_safe s R name target s' :
  contents_hold s R = true → schema_op (DropIndex name target) s = Ok s' → contents_hold s' R = true.
Proof.
  intros Hold [(t & t' & Ht & Hd & ->)%update_table_ok Hwf]%schema_op_ok. unfold without_index in Hd.
  case_bool_decide; [|done]. injection Hd as Hd. symmetry in Hd.
  destruct (constraint_dropped t t' (fun _ => true) (fun _ => true) (fun ix => negb (ix_name ix == name)))
    as (? & ? & ?); [by rewrite !filter_all|].
  apply table_relaxed with t; auto.
Qed.
Lemma drop_constraint_safe s R name target s' :
  contents_hold s R = true → schema_op (DropConstraint name target) s = Ok s' → contents_hold s' R = true.
Proof.
  intros Hold [(t & t' & Ht & Hd & ->)%update_table_ok Hwf]%schema_op_ok. unfold without_constraint in Hd.
  destruct (_ || _) in Hd; [|done]. injection Hd as Hd. symmetry in Hd.
  destruct (constraint_dropped t t' (fun u => negb (bool_decide (un_name u = Some name)))
    (fun fk => negb (bool_decide (fk_name fk = Some name))) (fun _ => true)) as (? & ? & ?); [by rewrite filter_all|].
  apply table_relaxed with t; auto.
Qed.
Lemma drop_default_safe s R target name s' :
  contents_hold s R = true → schema_op (DropServerDefault target name) s = Ok s' → contents_hold s' R = true.
Proof.
  intros Hold [(t & t' & Ht & Hd & ->)%update_table_ok Hwf]%schema_op_ok. unfold update_column in Hd.
  case_bool_decide; [|done]. injection Hd as <-. apply table_relaxed with t; auto.
  intros r _ [H1 H2]%row_ok_spec. apply row_ok_spec. unfold column_names. cbn. split.
  - intros c' (c & -> & Hc)%list_elem_of_fmap. specialize (H1 c Hc). unfold cell_ok in *. by case_bool_decide.
  - intros k Hk. rewrite <- list_fmap_compose.
    rewrite (list_fmap_ext _ col_name) by (intros _ c _; cbn; by case_bool_decide). by apply H2.
Qed.
Lemma create_index_holds s R name target cols is_unique s' :
  contents_hold s R = true → schema_op (CreateIndex name target cols is_unique) s = Ok s' →
  (is_unique = true → distinct_on (rows_of R target) cols = true) → contents_hold s' R = true.
Proof.
  intros Hold [(t & t' & Ht & [= <-] & ->)%update_table_ok Hwf]%schema_op_ok Huniq. apply table_relaxed with t; auto.
  intros k. rewrite !elem_keys_spec. cbn. setoid_rewrite elem_of_app. setoid_rewrite list_elem_of_singleton.
  intros [->|[H|(ix & [H| ->] & Hu & ->)]]; [left; by left|left; right; by left| |right; auto].
  left. right. right. by exists ix.
Qed.
Lemma create_unique_holds s R name target cols s' :
  contents_hold s R = true → schema_op (CreateUnique name target cols) s = Ok s' →
  distinct_on (rows_of R target) cols = true → contents_hold s' R = true.
Proof.
  intros Hold [(t & t' & Ht & [= <-] & ->)%update_table_ok Hwf]%schema_op_ok Huniq. apply table_relaxed with t; auto.
  intros k. rewrite !elem_keys_spec. cbn. setoid_rewrite elem_of_app. setoid_rewrite list_elem_of_singleton.
  intros [->|[(u & [H| ->] & ->)|H] ]; [left; by left| |by right|left; right; by right].
  left. right. left. by exists u.
Qed.

Lemma safe_step `{Casts} o s R s' :
  schema_wf s = true → contents_hold s R = true → schema_op o s = Ok s' → safe o s = true →
  ∃ R', data_op o s R = Ok R' ∧ contents_hold s' R' = true.
Proof.
  intros Hs Hold Hop Hsafe. destruct o; try done; simpl in Hsafe.
  - eexists. split; [done|]. apply schema_op_ok in Hop as [Ha Hwf]. simpl in Ha.
    destruct (s !! name) eqn:E; [done|]. injection Ha as <-. by apply created_holds.
  - eexists. split; [done|]. apply schema_op_ok in Hop as [Ha Hwf]. simpl in Ha.
    destruct (s !! name) eqn:E; [|done]. injection Ha as <-. by apply dropped_holds.
  - destruct (add_column_safe _ _ _ _ _ _ _ Hs Hold Hop Hsafe) as (rs & E & ?). simpl. rewrite E. eauto.
  - eexists. split; [done|]. by eapply drop_column_safe.
  - destruct (s !! target) as [t|] eqn:Et; [simpl in Hsafe|done].
    destruct (find_column t name) as [c|] eqn:Ec; [|done]. by eapply alter_type_safe.
  - eexists. split; [done|]. by eapply drop_default_safe.
  - eexists. split; [done|]. eapply create_index_holds; [done..|]. intros ->. done.
  - eexists. split; [done|]. by eapply drop_index_safe.
  - eexists. split; [done|]. by eapply drop_constraint_safe.
Qed.
Lemma run_op_ok `{Casts} o d d' :
  run_op o d = Ok d' ↔ schema_op o (db_schema d) = Ok (db_schema d') ∧
    data_op o (db_schema d) (db_rows d) = Ok (db_rows d') ∧ contents_hold (db_schema d') (db_rows d') = true.
Proof.
  unfold run_op. destruct (schema_op _ _) as [s'|]; simpl; [|by split; [|intros [] ]].
  destruct (data_op _ _ _) as [R'|]; simpl; [|by split; [|intros (_ & ? & _)]].
  destruct (contents_hold s' R') eqn:E; destruct d' as [s2 R2]; simpl; split.
  - intros [= <- <-]. done.
  - by intros ([= ->] & [= ->] & _).
  - done.
  - intros ([= ->] & [= ->] & ?). congruence.
Qed.
(** A run ends in a valid database. *)
Lemma run_op_valid `{Casts} o d d' : run_op o d = Ok d' → valid d'.
Proof. intros (H1%schema_op_ok & _ & H3)%run_op_ok. split; [tauto|done]. Qed.
Lemma run_ops_app `{Casts} ops1 ops2 d : run (ops1 ++ ops2) d = d' ← run ops1 d; run ops2 d'.
Proof.
  revert d. induction ops1 as [|o ops1 IH]; intros d; [done|]. simpl. destruct (run_op o d); simpl; [apply IH|done].
Qed.
Lemma run_valid `{Casts} ops d d' : valid d → run ops d = Ok d' → valid d'.
Proof.
  revert d. induction ops as [|o ops IH]; simpl; intros d Hd; [by intros [= <-]|].
  destruct (run_op o d) as [d1|] eqn:E; [|done]. simpl. apply IH. by eapply run_op_valid.
Qed.
Lemma run_schema `{Casts} ops d d' : run ops d = Ok d' → schema_run ops (db_schema d) = Ok (db_schema d').
Proof.
  revert d. induction ops as [|o ops IH]; simpl; intros d; [by intros [= <-]|].
  destruct (run_op o d) as [d1|] eqn:E; [|done]. simpl. apply run_op_ok in E as (-> & _). simpl. apply IH.
Qed.
Lemma run_safe `{Casts} ops d : valid d → safe_run ops (db_schema d) = true → ∃ d', run ops d = Ok d' ∧ valid d'.
Proof.
  revert d. induction ops as [|o ops IH]; intros d Hd Hsafe; [by exists d|].
  simpl in Hsafe. apply andb_true_iff in Hsafe as [Ho Hsafe].
  destruct (schema_op o (db_schema d)) as [s'|] eqn:E; [|done].
  destruct (safe_step o _ (db_rows d) s' (proj1 Hd) (proj2 Hd) E Ho) as (R' & ER & HR').
  assert (run_op o d = Ok (Db s' R')) as Hrun by by apply run_op_ok.
  simpl. rewrite Hrun. simpl. apply IH; [by eapply run_op_valid|done].
Qed.

(** ** What a schema shows of the rows *)
Definition view_row (t : table) (r : row) : row := filter (fun kv : string * sql_value => kv.1 ∈ column_names t) r.
(** The contents through an earlier schema: its tables, its columns. *)
Definition view (s : schema) (R : contents) : contents :=
  map_imap (fun n t => Some (view_row t <$> rows_of R n)) s.
Definition outside_column (s : schema) (target name : string) : bool :=
  match s !! target with
  | Some t => negb (bool_decide (name ∈ column_names t))
  | None => true
  end.
(** Statements that only write tables and columns the schema does not have. *)
Definition outside (s : schema) (o : op) : bool :=
  match o with
  | CreateTable n _ | DropTable n | Execute (InsertRow n _) => bool_decide (s !! n = None)
  | AddColumn target name _ _ | DropColumn target name | Execute (FillNulls target name _) => outside_column s target name
  | AlterType _ _ _ _ conv => match conv with AsIs => true | _ => false end
  | Execute (DeleteDuplicates _ _ _) => false
  | _ => true
  end.

Lemma view_row_same t r : row_ok t r = true → view_row t r = r.
Proof.
  intros [_ H]%row_ok_spec. unfold view_row. apply map_filter_id. intros k v Hk. apply H. eauto.
Qed.
Lemma view_row_frame t r r' : (∀ k, k ∈ column_names t → r !! k = r' !! k) → view_row t r = view_row t r'.
Proof.
  intros H. unfold view_row. apply map_eq. intros k. rewrite !map_lookup_filter.
  destruct (decide (k ∈ column_names t)) as [Hk|Hk]; [by rewrite H|].
  destruct (r !! k), (r' !! k); simpl; rewrite ?option_guard_False by done; done.
Qed.
Lemma view_holds s R : contents_hold s R = true → view s R = R.
Proof.
  intros Hold. pose proof Hold as [Hdom _]%contents_hold_spec. apply map_eq. intros n. unfold view.
  rewrite map_lookup_imap. destruct (s !! n) as [t|] eqn:E; simpl.
  - destruct (held_table _ _ _ _ Hold E) as [rs Ers]. rewrite Ers. f_equal.
    assert (rows_of R n = rs) as Hrs by (unfold rows_of; by rewrite Ers). rewrite Hrs.
    rewrite (list_fmap_ext _ id); [apply list_fmap_id|]. intros i r Hr. apply view_row_same.
    eapply rows_hold; [done..|]. rewrite Hrs. by eapply list_elem_of_lookup_2.
  - symmetry. apply not_elem_of_dom. rewrite Hdom. by apply not_elem_of_dom.
Qed.
Lemma view_ext s R R' :
  (∀ n t, s !! n = Some t → view_row t <$> rows_of R' n = view_row t <$> rows_of R n) → view s R' = view s R.
Proof.
  intros H. unfold view. apply map_eq. intros n. rewrite !map_lookup_imap.
  destruct (s !! n) as [t|] eqn:E; simpl; [|done]. by rewrite (H n t E).
Qed.
Lemma view_map s R R' target f :
  (∀ m, m ≠ target → rows_of R' m = rows_of R m) → rows_of R' target = f <$> rows_of R target →
  (∀ t, s !! target = Some t → ∀ r k, k ∈ column_names t → f r !! k = r !! k) → view s R' = view s R.
Proof.
  intros Hne Heq Hf. apply view_ext. intros n t Ht. destruct (decide (n = target)) as [->|E]; [|by rewrite Hne].
  rewrite Heq, <- list_fmap_compose. apply list_fmap_ext. intros _ r _. simpl. apply view_row_frame. eauto.
Qed.
Lemma outside_column_spec s target name t :
  outside_column s target name = true → s !! target = Some t → name ∉ column_names t.
Proof. unfold outside_column. intros H Ht. rewrite Ht in H. by py_bool. Qed.
Lemma rows_of_alter (R : contents) n (g : row → row) : rows_of (alter (fmap g) n R) n = g <$> rows_of R n.
Proof. unfold rows_of. rewrite lookup_alter_eq. by destruct (R !! n). Qed.
Lemma rows_of_alter_ne (R : contents) n m g : m ≠ n → rows_of (alter g n R) m = rows_of R m.
Proof. intros H. unfold rows_of. by rewrite lookup_alter_ne. Qed.
Lemma convert_as_is `{Casts} name type rs rs' :
  map_outcome (convert_cell name type AsIs) rs = Ok rs' → rs' = rs.
Proof.
  revert rs'. induction rs as [|r rs IH]; simpl; intros rs'; [by intros [= <-]|].
  assert (∀ r', convert_cell name type AsIs r = Ok r' → r' = r) as Hr.
  { unfold convert_cell. intros r'. destruct (r !! name) as [v|] eqn:E; [|by intros [= <-]]. simpl.
    destruct (has_type type v); [|done]. simpl. intros [= <-]. by rewrite insert_id. }
  destruct (convert_cell _ _ _ r) as [r'|]; [|done]. rewrite (Hr r') by done. simpl.
  destruct (map_outcome _ rs) as [rs1|]; [|done]. simpl. intros [= <-]. by rewrite (IH rs1).
Qed.
Lemma view_new s R R' n : s !! n = None → (∀ m, m ≠ n → rows_of R' m = rows_of R m) → view s R' = view s R.
Proof. intros Hn H. apply view_ext. intros m t Ht. rewrite H; [done|]. intros ->. congruence. Qed.
Lemma data_op_keeps `{Casts} s0 o s R R' :
  outside s0 o = true → data_op o s R = Ok R' → view s0 R' = view s0 R.
Proof.
  intros Hout. destruct o; try (by intros [= <-]); simpl in *; py_bool.
  - intros [= <-]. eapply view_new; [done|]. intros m Hm. by rewrite rows_of_insert_ne.
  - intros [= <-]. eapply view_new; [done|]. intros m Hm. unfold rows_of. by rewrite lookup_delete_ne.
  - destruct (add_default _ _) as [rs|] eqn:E; [|done]. simpl. intros [= <-].
    unfold add_default in E. assert (∃ f, rs = f <$> rows_of R target ∧ ∀ r k, k ≠ name → f r !! k = r !! k) as (f & -> & Hf).
    { destruct (col_default _); [destruct (literal _ _) as [v|]; [|done]|]; injection E as <-.
      - exists (insert name v). split; [done|]. intros r k Hk. by rewrite lookup_insert_ne.
      - exists id. by rewrite list_fmap_id. }
    apply (view_map _ _ _ target f); [intros; by rewrite rows_of_insert_ne|by rewrite rows_of_insert|].
    intros t Ht r k Hk. apply Hf. intros ->. by eapply outside_column_spec.
  - intros [= <-]. apply (view_map _ _ _ target (delete name)); [intros m Hm; by apply rows_of_alter_ne|by apply rows_of_alter|].
    intros t Ht r k Hk. apply lookup_delete_ne. intros ->. by eapply outside_column_spec.
  - destruct conv; try done. destruct (map_outcome _ _) as [rs|] eqn:E; [|done]. simpl. intros [= <-].
    apply convert_as_is in E as ->. apply view_ext. intros n t Ht.
    destruct (decide (target = n)) as [<-|]; [by rewrite rows_of_insert|by rewrite rows_of_insert_ne].
  - destruct st; simpl in *; try done; intros [= <-].
    + py_bool. eapply view_new; [done|]. intros m Hm. by apply rows_of_alter_ne.
    + apply (view_map _ _ _ target (fill_null c source)); [intros m Hm; by apply rows_of_alter_ne|by apply rows_of_alter|].
      intros t Ht r k Hk. unfold fill_null. repeat case_match; try done. apply lookup_insert_ne. intros ->.
      by eapply outside_column_spec.
Qed.
Lemma run_keeps `{Casts} s0 ops d d' :
  forallb (outside s0) ops = true → run ops d = Ok d' → view s0 (db_rows d') = view s0 (db_rows d).
Proof.
  revert d. induction ops as [|o ops IH]; simpl; intros d Hout; [by intros [= <-]|]. apply andb_true_iff in Hout as [Ho Hops].
  destruct (run_op o d) as [d1|] eqn:E; [|done]. simpl. intros Hrun. rewrite (IH d1 Hops Hrun).
  apply run_op_ok in E as (_ & E & _). by eapply data_op_keeps.
Qed.
(** Statements outside a schema that lead back to it lead back to the same rows. *)
Lemma run_restores `{Casts} ops d d' :
  valid d → run ops d = Ok d' → forallb (outside (db_schema d)) ops = true → db_schema d' = db_schema d → d' = d.
Proof.
  intros Hd Hrun Hout Hs. pose proof (run_valid _ _ _ Hd Hrun) as [_ Hd']. apply (run_keeps (db_schema d)) in Hrun; [|done].
  destruct Hd as [_ Hd]. destruct d as [s R], d' as [s' R']. simpl in *. subst s'. by rewrite !view_holds in Hrun by done; subst.
Qed.

(** ** Deleting rows *)
Definition cascading (t : table) : bool := existsb (fun fk => bool_decide (fk_ondelete fk = Cascade)) (tb_fkeys t).
Definition cascades_at (s : schema) (name : string) : bool :=
  match s !! name with Some t => cascading t | None => false end.
(** Every reference to [target] cascades, and no table that is referred to depends on another by a
    cascading reference: one sweep is enough. *)
Definition one_sweep (s : schema) (target : string) : bool :=
  negb (cascades_at s target) &&
  forallb (fun nt : string * table => forallb (fun fk =>
    negb (cascades_at s (fk_table fk)) &&
    (negb (bool_decide (fk_table fk = target)) || bool_decide (fk_ondelete fk = Cascade))) (tb_fkeys nt.2)) (map_to_list s).

Lemma sublist_lfilter {A} (p : A → bool) (l : list A) : List.filter p l `sublist_of` l.
Proof. induction l as [|x l IH]; simpl; [done|]. destruct (p x); by constructor. Qed.
Lemma omap_sublist {A B} (f : A → option B) (l1 l2 : list A) : l1 `sublist_of` l2 → omap f l1 `sublist_of` omap f l2.
Proof. induction 1 as [|x l1 l2 _ IH|x l1 l2 _ IH]; cbn; [done| |]; destruct (f x); by try constructor. Qed.
Lemma distinct_on_sublist cols rs1 rs2 : rs1 `sublist_of` rs2 → distinct_on rs2 cols = true → distinct_on rs1 cols = true.
Proof.
  unfold distinct_on. rewrite !bool_decide_eq_true. intros H Hn. eapply sublist_NoDup; [done|by apply omap_sublist].
Qed.
Lemma rows_of_sweep s R n :
  rows_of (sweep s R) n = match s !! n with
    | Some t => List.filter (fun r => forallb (reference_kept R r) (tb_fkeys t)) (rows_of R n)
    | None => rows_of R n
    end.
Proof. unfold rows_of, sweep. rewrite map_lookup_imap. by destruct (R !! n), (s !! n). Qed.
Lemma filter_true {A} (p : A → bool) l : (∀ x, x ∈ l → p x = true) → List.filter p l = l.
Proof.
  induction l as [|x l IH]; intros H; [done|]. simpl. rewrite (H x) by left.
  by rewrite IH by (intros; apply H; by right).
Qed.
Lemma sweep_id s R : contents_hold s R = true → sweep s R = R.
Proof.
  intros [_ Hold]%contents_hold_spec. unfold sweep. apply map_eq. intros n. rewrite map_lookup_imap.
  destruct (R !! n) as [rs|] eqn:ER; simpl; [|done]. destruct (s !! n) as [t|] eqn:E; [|done]. f_equal.
  apply filter_true. intros r Hr. apply forallb_elem. intros fk Hfk. unfold reference_kept. apply orb_true_iff. right.
  apply Hold in E. apply table_holds_spec in E as (_ & _ & H). apply H; [done|]. unfold rows_of. by rewrite ER.
Qed.
Lemma one_sweep_spec s target :
  one_sweep s target = true →
  cascades_at s target = false ∧ ∀ n t fk, s !! n = Some t → fk ∈ tb_fkeys t →
    cascades_at s (fk_table fk) = false ∧ (fk_table fk = target → fk_ondelete fk = Cascade).
Proof.
  unfold one_sweep. rewrite andb_true_iff, negb_true_iff, forallb_elem. intros [H1 H2]. split; [done|].
  intros n t fk Ht Hfk. specialize (H2 (n, t) ltac:(by apply elem_of_map_to_list)). rewrite forallb_elem in H2.
  specialize (H2 fk Hfk). rewrite andb_true_iff, negb_true_iff in H2. destruct H2 as [H2 H3]. split; [done|].
  intros E. rewrite bool_decide_eq_true_2 in H3 by done. simpl in H3. by py_bool.
Qed.

Section delete.
Context (s : schema) (R : contents) (target : string) (p : row → bool).
Context (holds : contents_hold s R = true) (once : one_sweep s target = true) (found : is_Some (s !! target)).
Local Abbreviation R1 := (alter (List.filter p) target R).

Lemma not_swept n : cascades_at s n = false → rows_of (sweep s R1) n = rows_of R1 n.
Proof.
  unfold cascades_at. rewrite rows_of_sweep. destruct (s !! n) as [t|]; [|done]. intros Hc.
  apply filter_true. intros r _. apply forallb_elem. intros fk Hfk. unfold reference_kept.
  unfold cascading in Hc. destruct (bool_decide (fk_ondelete fk = Cascade)) eqn:E; [|done].
  assert (existsb (fun fk => bool_decide (fk_ondelete fk = Cascade)) (tb_fkeys t) = true); [|congruence].
  apply List.existsb_exists. exists fk. split; [by apply list_elem_of_In|done].
Qed.
Lemma deleted_rows n : rows_of R1 n = if decide (n = target) then List.filter p (rows_of R target) else rows_of R n.
Proof.
  destruct (decide (n = target)) as [->|]; [|by apply rows_of_alter_ne].
  unfold rows_of. rewrite lookup_alter_eq. by destruct (R !! target).
Qed.
Lemma swept_sublist n : rows_of (sweep s R1) n `sublist_of` rows_of R n.
Proof.
  trans (rows_of R1 n).
  - rewrite rows_of_sweep. destruct (s !! n); [apply sublist_lfilter|done].
  - rewrite deleted_rows. destruct (decide _) as [->|]; [apply sublist_lfilter|done].
Qed.
Lemma swept_holds : contents_hold s (sweep s R1) = true.
Proof.
  pose proof holds as [Hdom Hold]%contents_hold_spec. destruct (one_sweep_spec _ _ once) as [_ Hfks].
  apply contents_hold_spec. split.
  { rewrite <- Hdom. unfold sweep. apply set_eq. intros n. rewrite !elem_of_dom, map_lookup_imap.
    destruct (decide (n = target)) as [->|]; [rewrite lookup_alter_eq|rewrite lookup_alter_ne by done];
      destruct (R !! _); simpl; rewrite ?is_Some_alt; done. }
  intros n t Ht. pose proof (Hold n t Ht) as (H1 & H2 & H3)%table_holds_spec. pose proof (swept_sublist n) as Hsub.
  apply table_holds_spec. split_and!.
  - intros r Hr. apply H1. by eapply elem_of_sublist.
  - intros cols Hcols. eapply distinct_on_sublist; [done|auto].
  - intros fk r Hfk Hr. destruct (Hfks n t fk Ht Hfk) as [Hc Hcasc].
    assert (reference_ok R1 fk r = true) as H; [|unfold reference_ok in *; by rewrite not_swept].
    destruct (decide (fk_table fk = target)) as [E|E].
    + rewrite rows_of_sweep, Ht in Hr. apply elem_filter in Hr as [_ Hr]. rewrite forallb_elem in Hr.
      specialize (Hr fk Hfk). unfold reference_kept in Hr. rewrite Hcasc in Hr by done. done.
    + specialize (H3 fk r Hfk ltac:(by eapply elem_of_sublist)). unfold reference_ok in *.
      by rewrite rows_of_alter_ne.
Qed.
(** Deleting rows of the table deletes what refers to them, and nothing else is left dangling. *)
Lemma delete_cascades :
  contents_hold s (cascade s R1) = true ∧ rows_of (cascade s R1) target = List.filter p (rows_of R target) ∧
  (∀ n, rows_of (cascade s R1) n `sublist_of` rows_of R n).
Proof.
  assert (cascade s R1 = sweep s R1) as ->.
  { unfold cascade. destruct (size s) as [|k] eqn:E.
    - apply map_size_empty_inv in E. destruct found as [t Ht]. by rewrite E, lookup_empty in Ht.
    - rewrite Nat.iter_succ_r. clear E. induction k as [|k IH]; [done|]. simpl. rewrite IH. apply sweep_id, swept_holds. }
  split_and!; [apply swept_holds| |apply swept_sublist].
  rewrite not_swept by by destruct (one_sweep_spec _ _ once). rewrite deleted_rows. by rewrite decide_True.
Qed.
End delete.

(** ** Narrowing a column *)
Lemma as_is_iff `{Casts} name type rs :
  map_outcome (convert_cell name type AsIs) rs =
    if forallb (fun r : row => match r !! name with Some v => has_type type v | None => true end) rs
    then Ok rs else Raise (DBAPIError "integer out of range").
Proof.
  assert (∀ r, convert_cell name type AsIs r = if match r !! name with Some v => has_type type v | None => true end
    then Ok r else Raise (DBAPIError "integer out of range")) as Hc.
  { intros r. unfold convert_cell. destruct (r !! name) as [v|] eqn:E; [|done]. simpl.
    destruct (has_type type v); simpl; [by rewrite insert_id|done]. }
  induction rs as [|r rs IH]; [done|]. cbn [map_outcome forallb]. rewrite Hc, IH.
  destruct (match r !! name with Some v => has_type type v | None => true end); simpl; [|done].
  by destruct (forallb _ rs).
Qed.
Definition column_fits (R : contents) (target : string) (type : sql_type) (name : string) : bool :=
  forallb (fun r : row => match r !! name with Some v => has_type type v | None => true end) (rows_of R target).
Lemma narrow_step `{Casts} d target name old type s' :
  valid d → schema_op (AlterType target name old type AsIs) (db_schema d) = Ok s' →
  run_op (AlterType target name old type AsIs) d =
    if column_fits (db_rows d) target type name then Ok (Db s' (db_rows d)) else Raise (DBAPIError "integer out of range").
Proof.
  intros [Hs Hold] Hop. unfold run_op. rewrite Hop. simpl. rewrite as_is_iff. unfold column_fits.
  destruct (forallb _ _) eqn:E; simpl; [|done].
  destruct (alter_type_ok target name type _ s' _ Hop ltac:(eauto)) as (t & t' & Ht & -> & Hwf & Hcols & Hkeys & Hfks & _ & _).
  rewrite insert_rows_same by by eapply held_table.
  assert (contents_hold (<[target := t']> (db_schema d)) (db_rows d) = true) as ->; [|done].
  apply (same_rows _ _ target t t' name type); auto. intros r v Hr Hv. rewrite forallb_elem in E.
  specialize (E r Hr). by rewrite Hv in E.
Qed.
Definition narrowing (target : string) (type : sql_type) (o : op) : bool :=
  match o with
  | AlterType u _ _ ty AsIs => (u == target) && bool_decide (ty = type)
  | _ => false
  end.
Definition retyped_column (o : op) : option string := match o with AlterType _ name _ _ _ => Some name | _ => None end.
(** A run of such statements is decided by the rows as they are, and leaves them. *)
Lemma narrow_run `{Casts} target type ops d s' :
  valid d → forallb (narrowing target type) ops = true → schema_run ops (db_schema d) = Ok s' →
  run ops d = if forallb (column_fits (db_rows d) target type) (omap retyped_column ops)
              then Ok (Db s' (db_rows d)) else Raise (DBAPIError "integer out of range").
Proof.
  revert d. induction ops as [|o ops IH]; intros d Hd Hn Hrun; simpl in *; [injection Hrun as <-; by destruct d|].
  apply andb_true_iff in Hn as [Ho Hn]. unfold narrowing in Ho. destruct o as [| | | |u name old ty conv| | | | | | | |]; try done.
  destruct conv; try done. py_bool. subst u ty. simpl in Hrun.
  destruct (schema_op _ (db_schema d)) as [s1|] eqn:E; [|done]. simpl in Hrun.
  pose proof (narrow_step d target name old type s1 Hd E) as Hstep. rewrite Hstep. cbn.
  destruct (column_fits (db_rows d) target type name) eqn:Ef; [|done]. simpl.
  assert (valid (Db s1 (db_rows d))) as Hd1 by by eapply run_op_valid.
  apply (IH _ Hd1 Hn Hrun).
Qed.

(** ** Groups and their least member *)
Lemma NoDup_omap_via {A B C} (f : A → option B) (g : A → option C) (l : list A) :
  NoDup (omap g l) → (∀ x, x ∈ l → is_Some (g x)) →
  (∀ x y b, x ∈ l → y ∈ l → f x = Some b → f y = Some b → g x = g y) → NoDup (omap f l).
Proof.
  induction l as [|x l IH]; intros Hn Hs Hf; [constructor|]. cbn in *.
  destruct (Hs x) as [c Hc]; [by left|]. rewrite Hc in Hn. apply NoDup_cons in Hn as [Hx Hn].
  assert (NoDup (omap f l)) as Hl by (apply IH; [done|intros; apply Hs; by right|intros; eapply Hf; eauto using list_elem_of_further]).
  destruct (f x) as [b|] eqn:Eb; [|done]. apply NoDup_cons. split; [|done]. intros (y & Hy & Ey)%list_elem_of_omap.
  apply Hx, list_elem_of_omap. exists y. split; [done|]. rewrite <- Hc. symmetry. apply (Hf x y b); [by left|by right|done|done].
Qed.
Lemma project_group cols r k : project cols r = Some k → group_of cols r = Some <$> k.
Proof.
  unfold project, group_of. revert k. induction cols as [|c cols IH]; intros k; [by intros [= <-]|].
  cbn [mapM]. rewrite fmap_cons. destruct (r !! c) as [v|]; [simpl|done].
  destruct (mapM _ cols) as [k'|] eqn:E; [simpl|done]. intros [= <-]. by rewrite (IH k') by done.
Qed.
Lemma text_leb_antisym a b : text_leb a b = true → text_leb b a = true → a = b.
Proof.
  destruct a as [ [] | ], b as [ [] | ]; try done. simpl. intros H1 H2. do 2 f_equal.
  apply (anti_symm String.le); by apply Is_true_true.
Qed.
Lemma least_of_group_distinct id cols rs :
  distinct_on rs [id] = true → (∀ r, r ∈ rs → is_Some (r !! id)) →
  distinct_on (List.filter (least_of_group id cols rs) rs) cols = true.
Proof.
  intros Hd Hid. unfold distinct_on. rewrite bool_decide_eq_true.
  apply (NoDup_omap_via _ (project [id])).
  - pose proof (distinct_on_sublist [id] _ _ (sublist_lfilter (least_of_group id cols rs) rs) Hd) as H.
    unfold distinct_on in H. by rewrite bool_decide_eq_true in H.
  - intros r [Hr _]%elem_filter. unfold project. simpl. destruct (Hid r Hr) as [v ->]. by eexists.
  - intros x y b [Hx Lx]%elem_filter [Hy Ly]%elem_filter Ex Ey. apply project_group in Ex, Ey.
    unfold least_of_group in Lx, Ly. rewrite forallb_elem in Lx, Ly. specialize (Lx y Hy). specialize (Ly x Hx).
    rewrite bool_decide_eq_true_2 in Lx by congruence. rewrite bool_decide_eq_true_2 in Ly by congruence.
    unfold project. simpl. by rewrite (text_leb_antisym _ _ Lx Ly).
Qed.

(** ** Data statements that hold *)
Lemma schema_op_execute st s : schema_wf s = true → schema_op (Execute st) s = Ok s.
Proof. intros H. unfold schema_op. simpl. by rewrite H. Qed.
(** The first row of a table that refers to nothing. *)
Lemma first_row_holds s R n t r :
  contents_hold s R = true → s !! n = Some t → rows_of R n = [] → row_ok t r = true →
  (∀ fk, fk ∈ tb_fkeys t → project (fk_cols fk) r = None) →
  contents_hold s (alter (fun rs => rs ++ [r]) n R) = true.
Proof.
  intros Hold Ht Hnone Hr Hfk. destruct (held_table _ _ _ _ Hold Ht) as [rs0 ER].
  pose proof Hold as [Hdom Hall]%contents_hold_spec. apply contents_hold_spec. split; [by rewrite dom_alter_L|].
  assert (rows_of (alter (fun rs => rs ++ [r]) n R) n = [r]) as Hn.
  { unfold rows_of in *. rewrite lookup_alter_eq, ER in *. simpl in *. by rewrite Hnone. }
  intros m u Hu. pose proof (Hall m u Hu) as (H1 & H2 & H3)%table_holds_spec. apply table_holds_spec.
  assert (∀ fk q, reference_ok R fk q = true → reference_ok (alter (fun rs => rs ++ [r]) n R) fk q = true) as Hmono.
  { intros fk q. unfold reference_ok. destruct (project _ q) as [k|]; [|done]. rewrite !bool_decide_eq_true.
    destruct (decide (fk_table fk = n)) as [->|E]; [|by rewrite rows_of_alter_ne].
    rewrite Hnone. by intros ?%elem_of_nil. }
  destruct (decide (m = n)) as [->|E].
  - rewrite Ht in Hu. injection Hu as <-. rewrite Hn. split_and!.
    + by intros q ->%list_elem_of_singleton.
    + intros cols _. unfold distinct_on. apply bool_decide_eq_true. cbn. destruct (project cols r); [|constructor].
      apply NoDup_singleton.
    + intros fk q Hf ->%list_elem_of_singleton. unfold reference_ok. by rewrite Hfk.
  - rewrite rows_of_alter_ne by done. split_and!; auto.
Qed.
Lemma key_distinct s R n t cols :
  contents_hold s R = true → s !! n = Some t → cols ∈ keys t → distinct_on (rows_of R n) cols = true.
Proof. intros [_ H]%contents_hold_spec Ht. apply (H n t) in Ht as (_ & Hk & _)%table_holds_spec. apply Hk. Qed.
Lemma row_present t name c r :
  row_ok t r = true → find_column t name = Some c → col_nullable c = false → ∃ v, r !! name = Some v ∧ has_type (col_type c) v = true.
Proof.
  intros Hr Hf Hn. pose proof (row_cell t name c r) as Hcell. apply row_ok_spec in Hr as Hr'. destruct Hr' as [H1 _].
  pose proof Hf as Hc. unfold find_column in Hc. apply List.find_some in Hc as [Hc E]. py_bool. apply list_elem_of_In in Hc.
  specialize (H1 c Hc). unfold cell_ok in H1. rewrite E, Hn in H1. destruct (r !! name) as [v|]; [|done]. by exists v.
Qed.
(** DELETE of all but the least of each group, and then the unique constraint on the groups. *)
Lemma deduplicated_run `{Casts} d target t c nm cols s' :
  valid d → db_schema d !! target = Some t → ["id"] ∈ keys t → find_column t "id" = Some c → col_nullable c = false →
  one_sweep (db_schema d) target = true → schema_run [CreateUnique nm target cols] (db_schema d) = Ok s' →
  ∃ d', run [Execute (DeleteDuplicates target "id" cols); CreateUnique nm target cols] d = Ok d'.
Proof.
  intros Hd Ht Hpk Hc Hnn Honce Hrun. destruct Hd as [Hs Hold].
  destruct (delete_cascades _ (db_rows d) target (least_of_group "id" cols (rows_of (db_rows d) target)) Hold Honce ltac:(eauto))
    as (Hdel & Hrows & _).
  set (R1 := cascade _ _) in *.
  assert (run_op (Execute (DeleteDuplicates target "id" cols)) d = Ok (Db (db_schema d) R1)) as Hop.
  { apply run_op_ok. rewrite schema_op_execute by done. split_and!; [done| |done]. simpl. f_equal. unfold R1, cascade. f_equal.
    destruct (held_table _ _ _ _ Hold Ht) as [rs ER]. apply map_eq. intros m.
    destruct (decide (m = target)) as [->|E]; [|by rewrite !lookup_alter_ne].
    rewrite !lookup_alter_eq, ER. unfold rows_of. by rewrite ER. }
  simpl in Hrun. destruct (schema_op (CreateUnique nm target cols) (db_schema d)) as [s1|] eqn:E; [|done].
  exists (Db s1 R1). cbn [run]. rewrite Hop. cbn [mbind outcome_bind].
  assert (run_op (CreateUnique nm target cols) (Db (db_schema d) R1) = Ok (Db s1 R1)) as ->; [|done].
  apply run_op_ok. simpl. split_and!; [done..|]. eapply create_unique_holds; [exact Hdel|exact E|].
  rewrite Hrows. apply least_of_group_distinct.
  - by apply (key_distinct (db_schema d) (db_rows d) target t).
  - intros r Hr. destruct (row_present t "id" c r) as (v & Hv & _); [by apply (rows_hold (db_schema d) (db_rows d) target t)|done..|by eexists].
Qed.
(** A new column filled from a key, made NOT NULL and unique. *)
Lemma fill_null_frame c source r k : k ≠ c → fill_null c source r !! k = r !! k.
Proof. intros Hk. unfold fill_null. repeat case_match; try done. by rewrite lookup_insert_ne. Qed.
Lemma filled_cell c source r v : r !! c = None → r !! source = Some v → fill_null c source r = <[c := v]> r.
Proof. intros H1 H2. unfold fill_null. by rewrite H1, H2. Qed.
Lemma distinct_on_projected (g : row → row) cols cols' rs :
  (∀ r, r ∈ rs → project cols' (g r) = project cols r) → distinct_on (g <$> rs) cols' = distinct_on rs cols.
Proof.
  intros H. unfold distinct_on. f_equal. assert (omap (project cols') (g <$> rs) = omap (project cols) rs) as ->; [|done].
  induction rs as [|r rs IH]; [done|]. cbn. rewrite H by left.
  destruct (project cols r); [f_equal|]; apply IH; intros; apply H; by right.
Qed.
Section fill.
Context `{Casts} (d : database) (target c source nm : string) (t : table) (cs : column).
Context (Hd : valid d) (Ht : db_schema d !! target = Some t) (Hkey : [source] ∈ keys t)
  (Hcs : find_column t source = Some cs) (Hnn : col_nullable cs = false) (Hty : col_type cs = String_).
Local Abbreviation R := (db_rows d).
Local Abbreviation R1 := (<[target := fill_null c source <$> rows_of R target]> R).
Local Abbreviation t1 := (mkTable (tb_columns t ++ [make_column c String_ []]) (tb_pk t) (tb_uniques t) (tb_fkeys t) (tb_indexes t)).
Local Abbreviation new := (make_column c String_ []).

Lemma filled_row r : c ∉ column_names t → r ∈ rows_of R target →
  ∃ v, r !! source = Some (VStr v) ∧ fill_null c source r = <[c := VStr v]> r.
Proof.
  intros Hc Hr. assert (row_ok t r = true) as Hok by (eapply rows_hold; [apply Hd|done..]).
  destruct (row_present t source cs r Hok Hcs Hnn) as (v & Hv & Htv). rewrite Hty in Htv. destruct v; try done.
  exists s. split; [done|]. apply filled_cell; [|done]. by apply row_lacks with t.
Qed.
Lemma added_null s1 :
  schema_op (AddColumn target c String_ []) (db_schema d) = Ok s1 →
  s1 = <[target := t1]> (db_schema d) ∧ schema_wf s1 = true ∧ c ∉ column_names t ∧ contents_hold s1 R = true ∧
  run_op (AddColumn target c String_ []) d = Ok (Db s1 R).
Proof.
  intros E. destruct Hd as [Hs Hold]. pose proof E as [Ha Hwf]%schema_op_ok.
  destruct (add_column_safe _ _ _ _ _ _ _ Hs Hold E eq_refl) as (rs & Ers & Hrs). cbn in Ers. injection Ers as <-.
  rewrite insert_rows_same in Hrs by by eapply held_table.
  apply update_table_ok in Ha as (u & u' & Hu & [= <-] & ->). rewrite Ht in Hu. injection Hu as <-.
  split_and!; [done|done| |done|].
  - pose proof (wf_names _ target _ Hwf ltac:(by rewrite lookup_insert_eq)) as Hn. unfold column_names in Hn.
    cbn [tb_columns] in Hn. rewrite fmap_app in Hn. apply NoDup_app in Hn as (_ & Hn & _). intros Hc. apply (Hn _ Hc). by left.
  - apply run_op_ok. split_and!; [done| |done]. cbn. by rewrite insert_rows_same by exact (held_table _ _ _ _ Hold Ht).
Qed.
Lemma filled_holds : c ∉ column_names t → schema_wf (<[target := t1]> (db_schema d)) = true →
  contents_hold (<[target := t1]> (db_schema d)) R = true → contents_hold (<[target := t1]> (db_schema d)) R1 = true.
Proof.
  intros Hc Hwf Hold. rewrite <- (insert_insert_eq (db_schema d) target t1 t1).
  apply table_change with t1; [done|by rewrite lookup_insert_eq|by rewrite insert_insert_eq| | |by left|done].
  - intros r Hr. destruct (filled_row r Hc Hr) as (v & _ & ->). apply (insert_cell_row t new (VStr v)); [|exact Hc|done].
    apply (rows_hold (db_schema d) (db_rows d) target t); [apply Hd|done..].
  - intros cols Hcols r. apply project_frame with c; [apply fill_null_frame|]. intros Hin. apply Hc.
    by apply (wf_constrained (db_schema d) target t cols); [apply Hd|..].
Qed.
Lemma filled_run s' :
  schema_run [AddColumn target c String_ []; SetNotNull target c; CreateIndex nm target [c] true] (db_schema d) = Ok s' →
  run [AddColumn target c String_ []; Execute (FillNulls target c source); SetNotNull target c; CreateIndex nm target [c] true] d
    = Ok (Db s' R1).
Proof.
  intros Hrun. cbn [schema_run mbind outcome_bind] in Hrun.
  destruct (schema_op (AddColumn target c String_ []) (db_schema d)) as [s1|] eqn:E1; [|done]. cbn [mbind outcome_bind] in Hrun.
  destruct (schema_op (SetNotNull target c) s1) as [s2|] eqn:E2; [|done]. cbn [mbind outcome_bind] in Hrun.
  destruct (schema_op (CreateIndex nm target [c] true) s2) as [s3|] eqn:E3; [|done]. injection Hrun as <-.
  destruct (added_null s1 E1) as (-> & Hwf1 & Hc & Hold1 & Hop1). pose proof (filled_holds Hc Hwf1 Hold1) as Hold2.
  assert (contents_hold s2 R1 = true) as Hold3.
  { apply schema_op_ok in E2 as [Ha Hwf2]. apply update_table_ok in Ha as (u & u' & Hu & Hup & ->).
    rewrite lookup_insert_eq in Hu. injection Hu as <-. unfold update_column in Hup. case_bool_decide; [|done].
    injection Hup as <-. apply table_relaxed with t1; [done|by rewrite lookup_insert_eq|done| |by left|done].
    rewrite rows_of_insert. intros r' (r & -> & Hr)%list_elem_of_fmap [H1 H2]%row_ok_spec.
    destruct (filled_row r Hc Hr) as (v & _ & Efill). apply row_ok_spec. split.
    - intros k' (k & -> & Hk)%list_elem_of_fmap. specialize (H1 k Hk). unfold cell_ok in *. case_bool_decide as Ek; [|done].
      cbn [col_name col_type col_nullable]. rewrite Ek, Efill, lookup_insert_eq in *. done.
    - intros k Hk. unfold column_names. cbn [tb_columns]. rewrite <- list_fmap_compose.
      rewrite (list_fmap_ext _ col_name) by (intros _ k' _; cbn; by case_bool_decide). by apply H2. }
  assert (contents_hold s3 R1 = true) as Hold4.
  { eapply create_index_holds; [exact Hold3|exact E3|]. intros _. rewrite rows_of_insert, (distinct_on_projected _ [source]).
    - eapply key_distinct; [apply Hd|done..].
    - intros r Hr. destruct (filled_row r Hc Hr) as (v & Hv & ->). unfold project. cbn. by rewrite lookup_insert_eq, Hv. }
  cbn [run]. rewrite Hop1. cbn [mbind outcome_bind].
  assert (run_op (Execute (FillNulls target c source)) (Db (<[target:=t1]> (db_schema d)) R) = Ok (Db (<[target:=t1]> (db_schema d)) R1)) as ->.
  { apply run_op_ok. cbn [db_schema db_rows]. rewrite schema_op_execute by done. split_and!; [done| |done].
    cbn. f_equal. apply alter_rows. eapply held_table; [apply Hd|done]. }
  cbn [mbind outcome_bind].
  assert (run_op (SetNotNull target c) (Db (<[target:=t1]> (db_schema d)) R1) = Ok (Db s2 R1)) as -> by by apply run_op_ok.
  cbn [mbind outcome_bind].
  by assert (run_op (CreateIndex nm target [c] true) (Db s2 R1) = Ok (Db s3 R1)) as -> by by apply run_op_ok.
Qed.
End fill.

(** ** Facts about a schema that make the lemmas above apply *)
Definition text_key (s : schema) (target c : string) : bool :=
  match t ← s !! target; col ← find_column t c; Some (t, col) with
  | Some (t, col) => bool_decide ([c] ∈ keys t) && negb (col_nullable col) && bool_decide (col_type col = String_)
  | None => false
  end.
Definition typed_columns (s : schema) (target : string) (type : sql_type) (cols : list string) : bool :=
  forallb (fun c => bool_decide ((t ← s !! target; col_type <$> find_column t c) = Some type)) cols.
Lemma text_key_spec s target c : text_key s target c = true →
  ∃ t col, s !! target = Some t ∧ find_column t c = Some col ∧ [c] ∈ keys t ∧ col_nullable col = false ∧ col_type col = String_.
Proof.
  unfold text_key. destruct (s !! target) as [t|]; cbn; [|done]. destruct (find_column t c) as [col|] eqn:E; cbn; [|done].
  rewrite !andb_true_iff, negb_true_iff, !bool_decide_eq_true. intros [[? ?] ?]. by exists t, col.
Qed.
Lemma typed_columns_spec s target type cols c : typed_columns s target type cols = true → c ∈ cols →
  ∃ t col, s !! target = Some t ∧ find_column t c = Some col ∧ col_type col = type.
Proof.
  unfold typed_columns. rewrite forallb_elem. intros H Hc. specialize (H c Hc). rewrite bool_decide_eq_true in H.
  destruct (s !! target) as [t|]; cbn in H; [|done]. destruct (find_column t c) as [col|] eqn:E; cbn in H; [|done].
  injection H as <-. by exists t, col.
Qed.
Lemma typed_value d target type cols c r v :
  valid d → typed_columns (db_schema d) target type cols = true → c ∈ cols → r ∈ rows_of (db_rows d) target →
  r !! c = Some v → has_type type v = true.
Proof.
  intros [_ Hold] Hty Hc Hr Hv. destruct (typed_columns_spec _ _ _ _ _ Hty Hc) as (t & col & Ht & Hf & <-).
  apply (row_cell t c col r v); [by eapply rows_hold|done..].
Qed.
Lemma columns_fit d target type cols :
  valid d → typed_columns (db_schema d) target type cols = true →
  forallb (column_fits (db_rows d) target type) cols = true.
Proof.
  intros Hd Hty. apply forallb_elem. intros c Hc. apply forallb_elem. intros r Hr.
  destruct (r !! c) as [v|] eqn:E; [|done]. by eapply typed_value.
Qed.
Lemma schema_run_app ops1 ops2 s : schema_run (ops1 ++ ops2) s = s' ← schema_run ops1 s; schema_run ops2 s'.
Proof.
  revert s. induction ops1 as [|o ops1 IH]; intros s; [done|]. cbn [app schema_run].
  destruct (schema_op o s); [apply IH|done].
Qed.
(** A data statement does not show in the schema. *)
Lemma schema_run_execute o st ops s s' : schema_run (o :: Execute st :: ops) s = Ok s' → schema_run (o :: ops) s = Ok s'.
Proof.
  cbn [schema_run]. destruct (schema_op o s) as [s1|] eqn:E; [|done]. cbn [mbind outcome_bind].
  rewrite schema_op_execute by by apply schema_op_ok in E as []. done.
Qed.
Lemma insert_first_row `{Casts} d n t r :
  valid d → db_schema d !! n = Some t → rows_of (db_rows d) n = [] → row_ok t r = true →
  (∀ fk, fk ∈ tb_fkeys t → project (fk_cols fk) r = None) →
  run [Execute (InsertRow n r)] d = Ok (Db (db_schema d) (alter (fun rs => rs ++ [r]) n (db_rows d))).
Proof.
  intros [Hs Hold] Ht Hnone Hr Hfk. cbn [run].
  assert (run_op (Execute (InsertRow n r)) d = Ok (Db (db_schema d) (alter (fun rs => rs ++ [r]) n (db_rows d)))) as ->; [|done].
  apply run_op_ok. cbn [db_schema db_rows]. rewrite schema_op_execute by done. split_and!; [done|done|].
  by eapply first_row_holds.
Qed.
