(* ===== verification/SchemaHistory.v ===== *)
(** * Every revision of the schema

    The migrations [panel/backend/migrations/versions/0001_initial.py] to [0020_device_ip_release.py]
    as lists of the statements of [Ddl], in the order alembic runs them, and the tables the ORM classes
    of [app/models.py] declare. Revision 0019 also rewrites rows; that part is [Migrations], and only its
    statements on the tables are here. *)
From S2P Require Import Prelude PyStr Ddl.

(** ** The revisions *)
Definition upgrade_0001 : list op := [
    CreateTable "nodes" [
      Column "id" String_ [NotNull; PrimaryKey]; Column "name" String_ [NotNull];
      Column "url" String_ [NotNull]; Column "token" String_ [NotNull]; Column "created_at" DateTime [NotNull]];
    CreateTable "users" [
      Column "id" String_ [NotNull; PrimaryKey]; Column "name" String_ [NotNull; Unique];
      Column "is_blocked" Boolean [NotNull]; Column "created_at" DateTime [NotNull]];
    CreateTable "peers" [
      Column "id" String_ [NotNull; PrimaryKey];
      Column "node_id" String_ [NotNull; ForeignKey "nodes" "id" NoAction];
      Column "user_id" String_ [NotNull; ForeignKey "users" "id" NoAction];
      Column "public_key" String_ [NotNull]; Column "private_key" String_ [NotNull];
      Column "allowed_ip" String_ [NotNull]; Column "created_at" DateTime [NotNull]]].
Definition downgrade_0001 : list op := [
    DropTable "peers"; DropTable "users"; DropTable "nodes"].
Definition upgrade_0002 : list op := [
    AddColumn "nodes" "server_public_key" String_ []; AddColumn "nodes" "server_endpoint" String_ [];
    AddColumn "nodes" "listen_port" Integer []; AddColumn "nodes" "jc" Integer [];
    AddColumn "nodes" "jmin" Integer []; AddColumn "nodes" "jmax" Integer []; AddColumn "nodes" "s1" Integer [];
    AddColumn "nodes" "s2" Integer []; AddColumn "nodes" "h1" Integer []; AddColumn "nodes" "h2" Integer [];
    AddColumn "nodes" "h3" Integer []; AddColumn "nodes" "h4" Integer [];
    AddColumn "users" "public_key" String_ []; AddColumn "users" "private_key" String_ [];
    AddColumn "users" "vpn_ip" String_ []; AddColumn "peers" "status" String_ [NotNull; ServerDefault "active"];
    DropColumn "peers" "public_key"; DropColumn "peers" "private_key"; DropColumn "peers" "allowed_ip"].
Definition downgrade_0002 : list op := [
    AddColumn "peers" "allowed_ip" String_ []; AddColumn "peers" "private_key" String_ [];
    AddColumn "peers" "public_key" String_ []; DropColumn "peers" "status"; DropColumn "users" "vpn_ip";
    DropColumn "users" "private_key"; DropColumn "users" "public_key"] ++
    (DropColumn "nodes" <$> ["h4"; "h3"; "h2"; "h1"; "s2"; "s1"; "jmax"; "jmin"; "jc"; "listen_port"; "server_endpoint";
      "server_public_key"]).
Definition upgrade_0003 : list op := [
    AddColumn "peers" "raw_rx" BigInteger []; AddColumn "peers" "raw_tx" BigInteger [];
    AddColumn "peers" "last_handshake" DateTime [];
    CreateTable "peer_traffic_samples" [
      Column "id" String_ [NotNull; PrimaryKey]; Column "peer_id" String_ [NotNull];
      Column "sampled_at" DateTime [NotNull]; Column "rx_bytes" BigInteger [NotNull; ServerDefault "0"];
      Column "tx_bytes" BigInteger [NotNull; ServerDefault "0"];
      ForeignKeyConstraint None ["peer_id"] "peers" ["id"] Cascade];
    CreateIndex "ix_pts_peer_sampled" "peer_traffic_samples" ["peer_id"; "sampled_at"] false].
Definition downgrade_0003 : list op := [
    DropIndex "ix_pts_peer_sampled" "peer_traffic_samples"; DropTable "peer_traffic_samples";
    DropColumn "peers" "last_handshake"; DropColumn "peers" "raw_tx"; DropColumn "peers" "raw_rx"].
Definition upgrade_0004 : list op := [
    AddColumn "nodes" "private_key" String_ []].
Definition downgrade_0004 : list op := [
    DropColumn "nodes" "private_key"].
Definition upgrade_0005 : list op := [
    AddColumn "nodes" "s3" Integer []; AddColumn "nodes" "s4" Integer []].
Definition downgrade_0005 : list op := [
    DropColumn "nodes" "s4"; DropColumn "nodes" "s3"].
Definition upgrade_0006 : list op :=
    ((fun col => AlterType "nodes" col Integer String_ AsText) <$> ["h1"; "h2"; "h3"; "h4"]) ++ [
    AddColumn "nodes" "i1" String_ []; AddColumn "nodes" "i2" String_ []; AddColumn "nodes" "i3" String_ [];
    AddColumn "nodes" "i4" String_ []; AddColumn "nodes" "i5" String_ []; AddColumn "nodes" "mtu" String_ [];
    AddColumn "peers" "psk_key" String_ []].
Definition downgrade_0006 : list op := [
    DropColumn "peers" "psk_key"; DropColumn "nodes" "mtu"] ++
    (DropColumn "nodes" <$> ["i5"; "i4"; "i3"; "i2"; "i1"]) ++
    ((fun col => AlterType "nodes" col String_ Integer FirstPartAsInteger) <$> ["h1"; "h2"; "h3"; "h4"]).
Definition upgrade_0007 : list op := [
    AddColumn "nodes" "last_error" String_ []].
Definition downgrade_0007 : list op := [
    DropColumn "nodes" "last_error"].
Definition upgrade_0008 : list op := [
    AddColumn "nodes" "health_status" String_ [NotNull; ServerDefault "unknown"];
    AddColumn "nodes" "last_seen_at" DateTime [];
    AddColumn "nodes" "provision_status" String_ [NotNull; ServerDefault "pending"];
    CreateTable "async_operations" [
      Column "id" String_ [NotNull; PrimaryKey]; Column "kind" String_ [NotNull];
      Column "target_type" String_ []; Column "target_id" String_ []; Column "status" String_ [NotNull];
      Column "error" String_ []; Column "result" String_ []; Column "attempts" Integer [NotNull];
      Column "idempotency_key" String_ [NotNull]; Column "created_at" DateTime [NotNull];
      Column "updated_at" DateTime [NotNull]; Column "finished_at" DateTime []]].
Definition downgrade_0008 : list op := [
    DropTable "async_operations"; DropColumn "nodes" "provision_status"; DropColumn "nodes" "last_seen_at";
    DropColumn "nodes" "health_status"].
Definition upgrade_0009 : list op := [
    CreateTable "remnawave_settings" [
      Column "id" String_ [NotNull; PrimaryKey]; Column "base_url" String_ [];
      Column "enabled" Boolean [NotNull; ServerDefault "0"];
      Column "polling_enabled" Boolean [NotNull; ServerDefault "0"];
      Column "polling_interval_seconds" Integer [NotNull; ServerDefault "300"]; Column "api_token" String_ [];
      Column "webhook_secret" String_ []; Column "subscription_url" String_ [];
      Column "last_tested_at" DateTime []; Column "last_test_status" String_ [];
      Column "last_test_error" String_ []; Column "last_synced_at" DateTime [];
      Column "created_at" DateTime [NotNull]; Column "updated_at" DateTime [NotNull]];
    CreateTable "remnawave_users" [
      Column "id" String_ [NotNull; PrimaryKey]; Column "user_id" String_ [NotNull];
      Column "remnawave_uuid" String_ [NotNull]; Column "remnawave_id" Integer [];
      Column "short_uuid" String_ []; Column "username" String_ [NotNull]; Column "status" String_ [NotNull];
      Column "expire_at" DateTime []; Column "email" String_ []; Column "tag" String_ [];
      Column "telegram_id" Integer []; Column "description" String_ [];
      Column "traffic_limit_bytes" Integer [NotNull; ServerDefault "0"];
      Column "traffic_limit_strategy" String_ [NotNull; ServerDefault "NO_RESET"];
      Column "traffic_used_bytes" Integer [NotNull; ServerDefault "0"];
      Column "lifetime_used_traffic_bytes" Integer [NotNull; ServerDefault "0"];
      Column "last_traffic_reset_at" DateTime []; Column "online_at" DateTime [];
      Column "first_connected_at" DateTime []; Column "last_connected_node_uuid" String_ [];
      Column "hwid_device_limit" Integer []; Column "external_squad_uuid" String_ [];
      Column "active_internal_squads_json" String_ []; Column "subscription_url_encrypted" String_ [];
      Column "last_seen_at" DateTime []; Column "last_synced_at" DateTime []; Column "sync_error" String_ [];
      Column "delete_requested_at" DateTime []; Column "created_at" DateTime [NotNull];
      Column "updated_at" DateTime [NotNull]; ForeignKeyConstraint None ["user_id"] "users" ["id"] Cascade;
      UniqueConstraint None ["user_id"]; UniqueConstraint None ["remnawave_uuid"]];
    CreateIndex "ix_remnawave_users_remnawave_uuid" "remnawave_users" ["remnawave_uuid"] false;
    CreateTable "remnawave_webhook_events" [
      Column "id" String_ [NotNull; PrimaryKey]; Column "event_key" String_ [NotNull; Unique];
      Column "event_type" String_ [NotNull]; Column "remnawave_user_uuid" String_ [];
      Column "received_at" DateTime [NotNull]; Column "processed_at" DateTime []]].
Definition downgrade_0009 : list op := [
    DropTable "remnawave_webhook_events"; DropIndex "ix_remnawave_users_remnawave_uuid" "remnawave_users";
    DropTable "remnawave_users"; DropTable "remnawave_settings"].
Definition upgrade_0010 : list op := [
    AddColumn "remnawave_users" "sync_status" String_ [NotNull; ServerDefault "synced"];
    AddColumn "remnawave_users" "sync_reason" String_ []].
Definition downgrade_0010 : list op := [
    DropColumn "remnawave_users" "sync_reason"; DropColumn "remnawave_users" "sync_status"].
Definition upgrade_0011 : list op := [
    CreateTable "local_amneziawg_traffic_deltas" [
      Column "id" String_ [NotNull; PrimaryKey]; Column "peer_id" String_ [NotNull];
      Column "node_id" String_ [NotNull]; Column "user_id" String_ [NotNull];
      Column "observed_at" DateTime [NotNull]; Column "source_sync_id" String_ [];
      Column "previous_rx_bytes" BigInteger [NotNull; ServerDefault "0"];
      Column "previous_tx_bytes" BigInteger [NotNull; ServerDefault "0"];
      Column "current_rx_bytes" BigInteger [NotNull; ServerDefault "0"];
      Column "current_tx_bytes" BigInteger [NotNull; ServerDefault "0"];
      Column "rx_delta_bytes" BigInteger [NotNull; ServerDefault "0"];
      Column "tx_delta_bytes" BigInteger [NotNull; ServerDefault "0"];
      Column "total_delta_bytes" BigInteger [NotNull; ServerDefault "0"];
      Column "rx_reset_detected" Boolean [NotNull; ServerDefault "0"];
      Column "tx_reset_detected" Boolean [NotNull; ServerDefault "0"]; Column "created_at" DateTime [NotNull];
      ForeignKeyConstraint None ["peer_id"] "peers" ["id"] Cascade;
      ForeignKeyConstraint None ["node_id"] "nodes" ["id"] Cascade;
      ForeignKeyConstraint None ["user_id"] "users" ["id"] Cascade];
    CreateIndex "ix_local_awg_deltas_peer_observed" "local_amneziawg_traffic_deltas" ["peer_id"; "observed_at"] false;
    CreateIndex "ix_local_awg_deltas_user_observed" "local_amneziawg_traffic_deltas" ["user_id"; "observed_at"] false;
    CreateIndex "ix_local_awg_deltas_node_observed" "local_amneziawg_traffic_deltas" ["node_id"; "observed_at"] false;
    CreateTable "local_amneziawg_user_daily_traffic" [
      Column "id" String_ [NotNull; PrimaryKey]; Column "user_id" String_ [NotNull];
      Column "day" Date [NotNull]; Column "rx_bytes" BigInteger [NotNull; ServerDefault "0"];
      Column "tx_bytes" BigInteger [NotNull; ServerDefault "0"];
      Column "total_bytes" BigInteger [NotNull; ServerDefault "0"]; Column "updated_at" DateTime [NotNull];
      ForeignKeyConstraint None ["user_id"] "users" ["id"] Cascade; UniqueConstraint None ["user_id"; "day"]];
    CreateIndex "ix_local_awg_user_daily_user_day" "local_amneziawg_user_daily_traffic" ["user_id"; "day"] false;
    CreateTable "local_amneziawg_user_node_daily_traffic" [
      Column "id" String_ [NotNull; PrimaryKey]; Column "user_id" String_ [NotNull];
      Column "node_id" String_ [NotNull]; Column "day" Date [NotNull];
      Column "rx_bytes" BigInteger [NotNull; ServerDefault "0"];
      Column "tx_bytes" BigInteger [NotNull; ServerDefault "0"];
      Column "total_bytes" BigInteger [NotNull; ServerDefault "0"]; Column "updated_at" DateTime [NotNull];
      ForeignKeyConstraint None ["user_id"] "users" ["id"] Cascade;
      ForeignKeyConstraint None ["node_id"] "nodes" ["id"] Cascade;
      UniqueConstraint None ["user_id"; "node_id"; "day"]];
    CreateIndex "ix_local_awg_user_node_daily_user_node_day" "local_amneziawg_user_node_daily_traffic" ["user_id"; "node_id"; "day"] false;
    CreateTable "local_amneziawg_user_lifetime_traffic" [
      Column "id" String_ [NotNull; PrimaryKey]; Column "user_id" String_ [NotNull; Unique];
      Column "rx_bytes" BigInteger [NotNull; ServerDefault "0"];
      Column "tx_bytes" BigInteger [NotNull; ServerDefault "0"];
      Column "total_bytes" BigInteger [NotNull; ServerDefault "0"]; Column "updated_at" DateTime [NotNull];
      ForeignKeyConstraint None ["user_id"] "users" ["id"] Cascade];
    CreateTable "local_amneziawg_user_node_lifetime_traffic" [
      Column "id" String_ [NotNull; PrimaryKey]; Column "user_id" String_ [NotNull];
      Column "node_id" String_ [NotNull]; Column "rx_bytes" BigInteger [NotNull; ServerDefault "0"];
      Column "tx_bytes" BigInteger [NotNull; ServerDefault "0"];
      Column "total_bytes" BigInteger [NotNull; ServerDefault "0"]; Column "updated_at" DateTime [NotNull];
      ForeignKeyConstraint None ["user_id"] "users" ["id"] Cascade;
      ForeignKeyConstraint None ["node_id"] "nodes" ["id"] Cascade;
      UniqueConstraint None ["user_id"; "node_id"]];
    CreateIndex "ix_local_awg_user_node_lifetime_user_node" "local_amneziawg_user_node_lifetime_traffic" ["user_id"; "node_id"] false;
    CreateTable "local_amneziawg_traffic_settings" [
      Column "id" String_ [NotNull; PrimaryKey];
      Column "raw_sample_retention_days" Integer [NotNull; ServerDefault "90"];
      Column "created_at" DateTime [NotNull]; Column "updated_at" DateTime [NotNull]]].
Definition downgrade_0011 : list op := [
    DropTable "local_amneziawg_traffic_settings";
    DropIndex "ix_local_awg_user_node_lifetime_user_node" "local_amneziawg_user_node_lifetime_traffic";
    DropTable "local_amneziawg_user_node_lifetime_traffic"; DropTable "local_amneziawg_user_lifetime_traffic";
    DropIndex "ix_local_awg_user_node_daily_user_node_day" "local_amneziawg_user_node_daily_traffic";
    DropTable "local_amneziawg_user_node_daily_traffic";
    DropIndex "ix_local_awg_user_daily_user_day" "local_amneziawg_user_daily_traffic";
    DropTable "local_amneziawg_user_daily_traffic";
    DropIndex "ix_local_awg_deltas_node_observed" "local_amneziawg_traffic_deltas";
    DropIndex "ix_local_awg_deltas_user_observed" "local_amneziawg_traffic_deltas";
    DropIndex "ix_local_awg_deltas_peer_observed" "local_amneziawg_traffic_deltas";
    DropTable "local_amneziawg_traffic_deltas"].
Definition upgrade_0012 : list op := [
    AddColumn "peers" "endpoint" String_ [];
    CreateTable "peer_endpoint_sessions" [
      Column "id" String_ [NotNull; PrimaryKey]; Column "peer_id" String_ [NotNull];
      Column "node_id" String_ [NotNull]; Column "user_id" String_ [NotNull];
      Column "endpoint" String_ [NotNull]; Column "first_seen_at" DateTime [NotNull];
      Column "last_seen_at" DateTime [NotNull]; Column "last_handshake" DateTime [];
      Column "created_at" DateTime [NotNull]; Column "updated_at" DateTime [NotNull];
      ForeignKeyConstraint None ["peer_id"] "peers" ["id"] Cascade;
      ForeignKeyConstraint None ["node_id"] "nodes" ["id"] Cascade;
      ForeignKeyConstraint None ["user_id"] "users" ["id"] Cascade];
    CreateIndex "ix_peer_endpoint_sessions_peer_seen" "peer_endpoint_sessions" ["peer_id"; "last_seen_at"] false;
    CreateIndex "ix_peer_endpoint_sessions_user_seen" "peer_endpoint_sessions" ["user_id"; "last_seen_at"] false;
    CreateIndex "ix_peer_endpoint_sessions_node_seen" "peer_endpoint_sessions" ["node_id"; "last_seen_at"] false;
    AddColumn "local_amneziawg_traffic_settings" "peer_online_threshold_seconds" Integer [NotNull; ServerDefault "180"]].
Definition downgrade_0012 : list op := [
    DropColumn "local_amneziawg_traffic_settings" "peer_online_threshold_seconds";
    DropIndex "ix_peer_endpoint_sessions_node_seen" "peer_endpoint_sessions";
    DropIndex "ix_peer_endpoint_sessions_user_seen" "peer_endpoint_sessions";
    DropIndex "ix_peer_endpoint_sessions_peer_seen" "peer_endpoint_sessions";
    DropTable "peer_endpoint_sessions"; DropColumn "peers" "endpoint"].
Definition upgrade_0013 : list op := [
    AddColumn "nodes" "reachability_status" String_ [NotNull; ServerDefault "unknown"];
    AddColumn "nodes" "last_heartbeat_at" DateTime []; AddColumn "nodes" "last_heartbeat_error" String_ [];
    AddColumn "nodes" "sync_status" String_ [NotNull; ServerDefault "pending"];
    AddColumn "nodes" "sync_error" String_ []; AddColumn "nodes" "last_synced_at" DateTime [];
    Execute (DeleteDuplicates "peers" "id" ["node_id"; "user_id"]);
    CreateUnique "uq_peers_node_user" "peers" ["node_id"; "user_id"]].
Definition downgrade_0013 : list op := [
    DropConstraint "uq_peers_node_user" "peers"; DropColumn "nodes" "last_synced_at";
    DropColumn "nodes" "sync_error"; DropColumn "nodes" "sync_status";
    DropColumn "nodes" "last_heartbeat_error"; DropColumn "nodes" "last_heartbeat_at";
    DropColumn "nodes" "reachability_status"].
Definition upgrade_0014 : list op := [
    AddColumn "users" "lifecycle_status" String_ [NotNull; ServerDefault "active"];
    AddColumn "users" "expire_at" DateTime [];
    AddColumn "users" "traffic_limit_bytes" BigInteger [NotNull; ServerDefault "0"];
    AddColumn "users" "traffic_reset_policy" String_ [NotNull; ServerDefault "manual"];
    AddColumn "users" "traffic_reset_at" DateTime []; AddColumn "users" "public_token" String_ [];
    Execute (FillNulls "users" "public_token" "id");
    SetNotNull "users" "public_token";
    CreateIndex "ix_users_public_token" "users" ["public_token"] true].
Definition downgrade_0014 : list op := [
    DropIndex "ix_users_public_token" "users"; DropColumn "users" "public_token";
    DropColumn "users" "traffic_reset_at"; DropColumn "users" "traffic_reset_policy";
    DropColumn "users" "traffic_limit_bytes"; DropColumn "users" "expire_at";
    DropColumn "users" "lifecycle_status"].
Definition upgrade_0015 : list op := [
    AlterType "remnawave_users" "traffic_limit_bytes" Integer BigInteger AsIs;
    AlterType "remnawave_users" "traffic_used_bytes" Integer BigInteger AsIs;
    AlterType "remnawave_users" "lifetime_used_traffic_bytes" Integer BigInteger AsIs].
Definition downgrade_0015 : list op := [
    AlterType "remnawave_users" "lifetime_used_traffic_bytes" BigInteger Integer AsIs;
    AlterType "remnawave_users" "traffic_used_bytes" BigInteger Integer AsIs;
    AlterType "remnawave_users" "traffic_limit_bytes" BigInteger Integer AsIs].
Definition upgrade_0016 : list op := [
    AlterType "remnawave_users" "telegram_id" Integer BigInteger AsIs].
Definition downgrade_0016 : list op := [
    AlterType "remnawave_users" "telegram_id" BigInteger Integer AsIs].
Definition upgrade_0017 (now : Z) : list op := [
    CreateTable "telegram_proxy_settings" [
      Column "id" String_ [NotNull; PrimaryKey]; Column "enabled" Boolean [NotNull; ServerDefault "0"];
      Column "port" Integer [NotNull; ServerDefault "443"]; Column "secret_encrypted" String_ [];
      Column "primary_node_id" String_ []; Column "last_rotation_at" DateTime [];
      Column "last_rotation_reason" String_ []; Column "last_rotation_error" String_ [];
      Column "created_at" DateTime [NotNull]; Column "updated_at" DateTime [NotNull];
      ForeignKeyConstraint None ["primary_node_id"] "nodes" ["id"] SetNull];
    CreateTable "telegram_proxy_node_states" [
      Column "node_id" String_ [NotNull; PrimaryKey];
      Column "status" String_ [NotNull; ServerDefault "unknown"]; Column "public_host" String_ [];
      Column "public_port" Integer []; Column "last_applied_at" DateTime [];
      Column "last_checked_at" DateTime []; Column "last_error" String_ [];
      Column "created_at" DateTime [NotNull]; Column "updated_at" DateTime [NotNull];
      ForeignKeyConstraint None ["node_id"] "nodes" ["id"] Cascade];
    Execute (InsertRow "telegram_proxy_settings"
      (list_to_map [("id", VStr "default"); ("enabled", VBool false); ("port", VInt 443);
                    ("created_at", VTime now); ("updated_at", VTime now)]))].
Definition downgrade_0017 : list op := [
    DropTable "telegram_proxy_node_states"; DropTable "telegram_proxy_settings"].
Definition upgrade_0018 : list op := [
    AddColumn "telegram_proxy_settings" "tls_domain" String_ [NotNull; ServerDefault "cloudsyncpro.net"];
    DropServerDefault "telegram_proxy_settings" "tls_domain"].
Definition downgrade_0018 : list op := [
    DropColumn "telegram_proxy_settings" "tls_domain"].
(** The statements of 0019; what it does with the rows is [Migrations.upgrade_0019]. *)
Definition upgrade_0019_ddl : list op := [
    CreateTable "devices" [
      Column "id" String_ [NotNull]; Column "user_id" String_ [NotNull]; Column "name" String_ [NotNull];
      Column "public_key" String_ []; Column "private_key" String_ []; Column "vpn_ip" String_ [];
      Column "is_legacy_default" Boolean [NotNull; ServerDefault "false"]; Column "deleted_at" DateTime [];
      Column "created_at" DateTime [NotNull]; ForeignKeyConstraint None ["user_id"] "users" ["id"] Cascade;
      PrimaryKeyConstraint ["id"]; UniqueConstraint (Some "uq_devices_id_user_id") ["id"; "user_id"];
      UniqueConstraint (Some "uq_devices_public_key") ["public_key"];
      UniqueConstraint (Some "uq_devices_vpn_ip") ["vpn_ip"]];
    CreateIndex "ix_devices_user_id" "devices" ["user_id"] false;
    AddColumn "users" "device_limit" Integer [NotNull; ServerDefault "0"];
    AddColumn "peers" "device_id" String_ [];
    DropConstraint "uq_peers_node_user" "peers";
    SetNotNull "peers" "device_id";
    CreateUnique "uq_peers_node_device" "peers" ["node_id"; "device_id"];
    CreateForeignKey "fk_peers_device_owner" "peers" "devices" ["device_id"; "user_id"] ["id"; "user_id"]].
Definition downgrade_0019_ddl : list op := [
    DropConstraint "fk_peers_device_owner" "peers";
    DropConstraint "uq_peers_node_device" "peers"; DropColumn "peers" "device_id";
    CreateUnique "uq_peers_node_user" "peers" ["node_id"; "user_id"]; DropIndex "ix_devices_user_id" "devices";
    DropTable "devices"; DropColumn "users" "device_limit"].
Definition upgrade_0020 : list op := [
    AddColumn "devices" "released_vpn_ip" String_ []; AddColumn "devices" "ip_released_at" DateTime []].
Definition downgrade_0020 : list op := [
    DropColumn "devices" "released_vpn_ip"; DropColumn "devices" "ip_released_at"].

(** ** The ORM classes *)
Inductive annotation := Required | Optional.
(** [name: Mapped[T] = mapped_column(type, ...)]: without [nullable=] the annotation decides. *)
Definition mapped_column (a : annotation) (name : string) (type : sql_type) (attrs : list attr) : item :=
  Column name type match a with Required => NotNull :: attrs | Optional => attrs end.
Definition Node_table : list item := [
    mapped_column Required "id" String_ [PrimaryKey]; mapped_column Required "name" String_ [NotNull];
    mapped_column Required "url" String_ [NotNull]; mapped_column Required "token" String_ [NotNull];
    mapped_column Required "created_at" DateTime []; mapped_column Required "health_status" String_ [NotNull];
    mapped_column Optional "last_seen_at" DateTime [];
    mapped_column Required "reachability_status" String_ [NotNull];
    mapped_column Optional "last_heartbeat_at" DateTime [];
    mapped_column Optional "last_heartbeat_error" String_ [];
    mapped_column Required "sync_status" String_ [NotNull]; mapped_column Optional "sync_error" String_ [];
    mapped_column Optional "last_synced_at" DateTime [];
    mapped_column Required "provision_status" String_ [NotNull];
    mapped_column Optional "private_key" String_ []; mapped_column Optional "server_public_key" String_ [];
    mapped_column Optional "server_endpoint" String_ []; mapped_column Optional "listen_port" Integer [];
    mapped_column Optional "jc" Integer []; mapped_column Optional "jmin" Integer [];
    mapped_column Optional "jmax" Integer []; mapped_column Optional "s1" Integer [];
    mapped_column Optional "s2" Integer []; mapped_column Optional "s3" Integer [];
    mapped_column Optional "s4" Integer []; mapped_column Optional "h1" String_ [];
    mapped_column Optional "h2" String_ []; mapped_column Optional "h3" String_ [];
    mapped_column Optional "h4" String_ []; mapped_column Optional "i1" String_ [];
    mapped_column Optional "i2" String_ []; mapped_column Optional "i3" String_ [];
    mapped_column Optional "i4" String_ []; mapped_column Optional "i5" String_ [];
    mapped_column Optional "mtu" String_ []; mapped_column Optional "last_error" String_ []].
Definition User_table : list item := [
    mapped_column Required "id" String_ [PrimaryKey]; mapped_column Required "name" String_ [NotNull; Unique];
    mapped_column Required "is_blocked" Boolean [NotNull];
    mapped_column Required "lifecycle_status" String_ [NotNull]; mapped_column Optional "expire_at" DateTime [];
    mapped_column Required "traffic_limit_bytes" BigInteger [NotNull];
    mapped_column Required "traffic_reset_policy" String_ [NotNull];
    mapped_column Optional "traffic_reset_at" DateTime [];
    mapped_column Required "public_token" String_ [NotNull; Unique; Index];
    mapped_column Required "created_at" DateTime []; mapped_column Required "device_limit" Integer [NotNull];
    mapped_column Optional "public_key" String_ []; mapped_column Optional "private_key" String_ [];
    mapped_column Optional "vpn_ip" String_ []].
Definition Device_table : list item := [
    mapped_column Required "id" String_ [PrimaryKey];
    mapped_column Required "user_id" String_ [NotNull; Index; ForeignKey "users" "id" Cascade];
    mapped_column Required "name" String_ [NotNull]; mapped_column Optional "public_key" String_ [];
    mapped_column Optional "private_key" String_ []; mapped_column Optional "vpn_ip" String_ [];
    mapped_column Optional "released_vpn_ip" String_ []; mapped_column Optional "ip_released_at" DateTime [];
    mapped_column Required "is_legacy_default" Boolean [NotNull];
    mapped_column Optional "deleted_at" DateTime []; mapped_column Required "created_at" DateTime [];
    UniqueConstraint (Some "uq_devices_id_user_id") ["id"; "user_id"];
    UniqueConstraint (Some "uq_devices_vpn_ip") ["vpn_ip"];
    UniqueConstraint (Some "uq_devices_public_key") ["public_key"]].
Definition Peer_table : list item := [
    mapped_column Required "id" String_ [PrimaryKey];
    mapped_column Required "node_id" String_ [NotNull; ForeignKey "nodes" "id" NoAction];
    mapped_column Required "user_id" String_ [NotNull; ForeignKey "users" "id" NoAction];
    mapped_column Required "device_id" String_ [NotNull]; mapped_column Required "created_at" DateTime [];
    mapped_column Required "status" String_ [NotNull]; mapped_column Optional "psk_key" String_ [];
    mapped_column Optional "raw_rx" BigInteger []; mapped_column Optional "raw_tx" BigInteger [];
    mapped_column Optional "last_handshake" DateTime []; mapped_column Optional "endpoint" String_ [];
    UniqueConstraint (Some "uq_peers_node_device") ["node_id"; "device_id"];
    ForeignKeyConstraint (Some "fk_peers_device_owner") ["device_id"; "user_id"] "devices" ["id"; "user_id"] NoAction].
Definition PeerTrafficSample_table : list item := [
    mapped_column Required "id" String_ [PrimaryKey];
    mapped_column Required "peer_id" String_ [NotNull; ForeignKey "peers" "id" Cascade];
    mapped_column Required "sampled_at" DateTime [NotNull];
    mapped_column Required "rx_bytes" BigInteger [NotNull];
    mapped_column Required "tx_bytes" BigInteger [NotNull]].
Definition PeerEndpointSession_table : list item := [
    mapped_column Required "id" String_ [PrimaryKey];
    mapped_column Required "peer_id" String_ [NotNull; ForeignKey "peers" "id" Cascade];
    mapped_column Required "node_id" String_ [NotNull; ForeignKey "nodes" "id" Cascade];
    mapped_column Required "user_id" String_ [NotNull; ForeignKey "users" "id" Cascade];
    mapped_column Required "endpoint" String_ [NotNull];
    mapped_column Required "first_seen_at" DateTime [NotNull];
    mapped_column Required "last_seen_at" DateTime [NotNull];
    mapped_column Optional "last_handshake" DateTime []; mapped_column Required "created_at" DateTime [];
    mapped_column Required "updated_at" DateTime []].
Definition LocalAmneziawgTrafficDelta_table : list item := [
    mapped_column Required "id" String_ [PrimaryKey];
    mapped_column Required "peer_id" String_ [NotNull; ForeignKey "peers" "id" Cascade];
    mapped_column Required "node_id" String_ [NotNull; ForeignKey "nodes" "id" Cascade];
    mapped_column Required "user_id" String_ [NotNull; ForeignKey "users" "id" Cascade];
    mapped_column Required "observed_at" DateTime [NotNull]; mapped_column Optional "source_sync_id" String_ [];
    mapped_column Required "previous_rx_bytes" BigInteger [NotNull];
    mapped_column Required "previous_tx_bytes" BigInteger [NotNull];
    mapped_column Required "current_rx_bytes" BigInteger [NotNull];
    mapped_column Required "current_tx_bytes" BigInteger [NotNull];
    mapped_column Required "rx_delta_bytes" BigInteger [NotNull];
    mapped_column Required "tx_delta_bytes" BigInteger [NotNull];
    mapped_column Required "total_delta_bytes" BigInteger [NotNull];
    mapped_column Required "rx_reset_detected" Boolean [NotNull];
    mapped_column Required "tx_reset_detected" Boolean [NotNull];
    mapped_column Required "created_at" DateTime [NotNull]].
Definition LocalAmneziawgUserDailyTraffic_table : list item := [
    mapped_column Required "id" String_ [PrimaryKey];
    mapped_column Required "user_id" String_ [NotNull; ForeignKey "users" "id" Cascade];
    mapped_column Required "day" Date [NotNull]; mapped_column Required "rx_bytes" BigInteger [NotNull];
    mapped_column Required "tx_bytes" BigInteger [NotNull];
    mapped_column Required "total_bytes" BigInteger [NotNull];
    mapped_column Required "updated_at" DateTime [NotNull]; UniqueConstraint None ["user_id"; "day"]].
Definition LocalAmneziawgUserNodeDailyTraffic_table : list item := [
    mapped_column Required "id" String_ [PrimaryKey];
    mapped_column Required "user_id" String_ [NotNull; ForeignKey "users" "id" Cascade];
    mapped_column Required "node_id" String_ [NotNull; ForeignKey "nodes" "id" Cascade];
    mapped_column Required "day" Date [NotNull]; mapped_column Required "rx_bytes" BigInteger [NotNull];
    mapped_column Required "tx_bytes" BigInteger [NotNull];
    mapped_column Required "total_bytes" BigInteger [NotNull];
    mapped_column Required "updated_at" DateTime [NotNull];
    UniqueConstraint None ["user_id"; "node_id"; "day"]].
Definition LocalAmneziawgUserLifetimeTraffic_table : list item := [
    mapped_column Required "id" String_ [PrimaryKey];
    mapped_column Required "user_id" String_ [NotNull; Unique; ForeignKey "users" "id" Cascade];
    mapped_column Required "rx_bytes" BigInteger [NotNull];
    mapped_column Required "tx_bytes" BigInteger [NotNull];
    mapped_column Required "total_bytes" BigInteger [NotNull];
    mapped_column Required "updated_at" DateTime [NotNull]].
Definition LocalAmneziawgUserNodeLifetimeTraffic_table : list item := [
    mapped_column Required "id" String_ [PrimaryKey];
    mapped_column Required "user_id" String_ [NotNull; ForeignKey "users" "id" Cascade];
    mapped_column Required "node_id" String_ [NotNull; ForeignKey "nodes" "id" Cascade];
    mapped_column Required "rx_bytes" BigInteger [NotNull];
    mapped_column Required "tx_bytes" BigInteger [NotNull];
    mapped_column Required "total_bytes" BigInteger [NotNull];
    mapped_column Required "updated_at" DateTime [NotNull]; UniqueConstraint None ["user_id"; "node_id"]].
Definition LocalAmneziawgTrafficSettings_table : list item := [
    mapped_column Required "id" String_ [PrimaryKey];
    mapped_column Required "raw_sample_retention_days" Integer [NotNull];
    mapped_column Required "peer_online_threshold_seconds" Integer [NotNull];
    mapped_column Required "created_at" DateTime [NotNull];
    mapped_column Required "updated_at" DateTime [NotNull]].
Definition AsyncOperation_table : list item := [
    mapped_column Required "id" String_ [PrimaryKey]; mapped_column Required "kind" String_ [NotNull];
    mapped_column Optional "target_type" String_ []; mapped_column Optional "target_id" String_ [];
    mapped_column Required "status" String_ [NotNull]; mapped_column Optional "error" String_ [];
    mapped_column Optional "result" String_ []; mapped_column Required "attempts" Integer [NotNull];
    mapped_column Required "idempotency_key" String_ [NotNull]; mapped_column Required "created_at" DateTime [];
    mapped_column Required "updated_at" DateTime []; mapped_column Optional "finished_at" DateTime []].
Definition RemnawaveSettings_table : list item := [
    mapped_column Required "id" String_ [PrimaryKey]; mapped_column Optional "base_url" String_ [];
    mapped_column Required "enabled" Boolean [NotNull];
    mapped_column Required "polling_enabled" Boolean [NotNull];
    mapped_column Required "polling_interval_seconds" Integer [NotNull];
    mapped_column Optional "api_token" String_ []; mapped_column Optional "webhook_secret" String_ [];
    mapped_column Optional "subscription_url" String_ []; mapped_column Optional "last_tested_at" DateTime [];
    mapped_column Optional "last_test_status" String_ []; mapped_column Optional "last_test_error" String_ [];
    mapped_column Optional "last_synced_at" DateTime []; mapped_column Required "created_at" DateTime [];
    mapped_column Required "updated_at" DateTime []].
Definition TelegramProxySettings_table : list item := [
    mapped_column Required "id" String_ [PrimaryKey]; mapped_column Required "enabled" Boolean [NotNull];
    mapped_column Required "port" Integer [NotNull]; mapped_column Required "tls_domain" String_ [NotNull];
    mapped_column Optional "secret_encrypted" String_ [];
    mapped_column Optional "primary_node_id" String_ [ForeignKey "nodes" "id" SetNull];
    mapped_column Optional "last_rotation_at" DateTime [];
    mapped_column Optional "last_rotation_reason" String_ [];
    mapped_column Optional "last_rotation_error" String_ [];
    mapped_column Required "created_at" DateTime [NotNull];
    mapped_column Required "updated_at" DateTime [NotNull]].
Definition TelegramProxyNodeState_table : list item := [
    mapped_column Required "node_id" String_ [PrimaryKey; ForeignKey "nodes" "id" Cascade];
    mapped_column Required "status" String_ [NotNull]; mapped_column Optional "public_host" String_ [];
    mapped_column Optional "public_port" Integer []; mapped_column Optional "last_applied_at" DateTime [];
    mapped_column Optional "last_checked_at" DateTime []; mapped_column Optional "last_error" String_ [];
    mapped_column Required "created_at" DateTime [NotNull];
    mapped_column Required "updated_at" DateTime [NotNull]].
Definition RemnawaveUser_table : list item := [
    mapped_column Required "id" String_ [PrimaryKey];
    mapped_column Required "user_id" String_ [NotNull; Unique; ForeignKey "users" "id" Cascade];
    mapped_column Required "remnawave_uuid" String_ [NotNull; Unique; Index];
    mapped_column Optional "remnawave_id" Integer []; mapped_column Optional "short_uuid" String_ [];
    mapped_column Required "username" String_ [NotNull]; mapped_column Required "status" String_ [NotNull];
    mapped_column Optional "expire_at" DateTime []; mapped_column Optional "email" String_ [];
    mapped_column Optional "tag" String_ []; mapped_column Optional "telegram_id" BigInteger [];
    mapped_column Optional "description" String_ [];
    mapped_column Required "traffic_limit_bytes" BigInteger [NotNull];
    mapped_column Required "traffic_limit_strategy" String_ [NotNull];
    mapped_column Required "traffic_used_bytes" BigInteger [NotNull];
    mapped_column Required "lifetime_used_traffic_bytes" BigInteger [NotNull];
    mapped_column Optional "last_traffic_reset_at" DateTime []; mapped_column Optional "online_at" DateTime [];
    mapped_column Optional "first_connected_at" DateTime [];
    mapped_column Optional "last_connected_node_uuid" String_ [];
    mapped_column Optional "hwid_device_limit" Integer [];
    mapped_column Optional "external_squad_uuid" String_ [];
    mapped_column Optional "active_internal_squads_json" String_ [];
    mapped_column Optional "subscription_url_encrypted" String_ [];
    mapped_column Optional "last_seen_at" DateTime []; mapped_column Optional "last_synced_at" DateTime [];
    mapped_column Required "sync_status" String_ [NotNull]; mapped_column Optional "sync_reason" String_ [];
    mapped_column Optional "sync_error" String_ []; mapped_column Optional "delete_requested_at" DateTime [];
    mapped_column Required "created_at" DateTime []; mapped_column Required "updated_at" DateTime []].
Definition RemnawaveWebhookEvent_table : list item := [
    mapped_column Required "id" String_ [PrimaryKey];
    mapped_column Required "event_key" String_ [NotNull; Unique];
    mapped_column Required "event_type" String_ [NotNull];
    mapped_column Optional "remnawave_user_uuid" String_ []; mapped_column Required "received_at" DateTime [];
    mapped_column Optional "processed_at" DateTime []].
Definition tables : list (string * list item) := [
    ("nodes", Node_table);
    ("users", User_table);
    ("devices", Device_table);
    ("peers", Peer_table);
    ("peer_traffic_samples", PeerTrafficSample_table);
    ("peer_endpoint_sessions", PeerEndpointSession_table);
    ("local_amneziawg_traffic_deltas", LocalAmneziawgTrafficDelta_table);
    ("local_amneziawg_user_daily_traffic", LocalAmneziawgUserDailyTraffic_table);
    ("local_amneziawg_user_node_daily_traffic", LocalAmneziawgUserNodeDailyTraffic_table);
    ("local_amneziawg_user_lifetime_traffic", LocalAmneziawgUserLifetimeTraffic_table);
    ("local_amneziawg_user_node_lifetime_traffic", LocalAmneziawgUserNodeLifetimeTraffic_table);
    ("local_amneziawg_traffic_settings", LocalAmneziawgTrafficSettings_table);
    ("async_operations", AsyncOperation_table);
    ("remnawave_settings", RemnawaveSettings_table);
    ("telegram_proxy_settings", TelegramProxySettings_table);
    ("telegram_proxy_node_states", TelegramProxyNodeState_table);
    ("remnawave_users", RemnawaveUser_table);
    ("remnawave_webhook_events", RemnawaveWebhookEvent_table)].

(** ** The history

    [revision] and [down_revision] of each file; alembic follows them, in one transaction
    ([migrations/env.py]). *)
Record Revision := mkRevision {
  revision : string; down_revision : option string; rev_upgrade : list op; rev_downgrade : list op }.
Definition script (now : Z) : list Revision := [
    mkRevision "0001" None upgrade_0001 downgrade_0001;
    mkRevision "0002" (Some "0001") upgrade_0002 downgrade_0002;
    mkRevision "0003" (Some "0002") upgrade_0003 downgrade_0003;
    mkRevision "0004" (Some "0003") upgrade_0004 downgrade_0004;
    mkRevision "0005" (Some "0004") upgrade_0005 downgrade_0005;
    mkRevision "0006" (Some "0005") upgrade_0006 downgrade_0006;
    mkRevision "0007" (Some "0006") upgrade_0007 downgrade_0007;
    mkRevision "0008" (Some "0007") upgrade_0008 downgrade_0008;
    mkRevision "0009" (Some "0008") upgrade_0009 downgrade_0009;
    mkRevision "0010" (Some "0009") upgrade_0010 downgrade_0010;
    mkRevision "0011" (Some "0010") upgrade_0011 downgrade_0011;
    mkRevision "0012" (Some "0011") upgrade_0012 downgrade_0012;
    mkRevision "0013" (Some "0012") upgrade_0013 downgrade_0013;
    mkRevision "0014" (Some "0013") upgrade_0014 downgrade_0014;
    mkRevision "0015" (Some "0014") upgrade_0015 downgrade_0015;
    mkRevision "0016" (Some "0015") upgrade_0016 downgrade_0016;
    mkRevision "0017" (Some "0016") (upgrade_0017 now) downgrade_0017;
    mkRevision "0018" (Some "0017") upgrade_0018 downgrade_0018;
    mkRevision "0019" (Some "0018") upgrade_0019_ddl downgrade_0019_ddl;
    mkRevision "0020" (Some "0019") upgrade_0020 downgrade_0020].
Definition upgrade_of (now : Z) (k : nat) : list op := default [] (rev_upgrade <$> script now !! k).
Definition downgrade_of (k : nat) : list op := default [] (rev_downgrade <$> script 0 !! k).
(** The statements from the schema after [i] revisions to the one after [j], and back. *)
Definition upgrade_ops (now : Z) (i j : nat) : list op := mjoin (upgrade_of now <$> seq i (j - i)).
Definition downgrade_ops (j i : nat) : list op := mjoin (downgrade_of <$> reverse (seq i (j - i))).
(** [with context.begin_transaction(): context.run_migrations()]: a failed statement leaves the
    database as it was. *)
Definition run_migrations `{Casts} (ops : list op) (d : database) : database * option exn :=
  match run ops d with Ok d' => (d', None) | Raise e => (d, Some e) end.
Definition schema_at (k : nat) : schema :=
  match schema_run (upgrade_ops 0 0 k) ∅ with Ok s => s | Raise _ => ∅ end.
Definition models_schema : schema :=
  list_to_map ((fun nt => (nt.1, make_table nt.1 nt.2)) <$> tables).

(** ** What a schema enforces

    Columns with their type and nullability, the primary key, the sets of columns no two rows share, and
    the references; not the order or the names of any of them, nor server defaults. *)
Record shape := mkShape {
  sh_columns : gmap string (sql_type * bool); sh_pk : gset string; sh_keys : gset (gset string);
  sh_references : gmap (gset (string * string) * string) action }.
#[export] Instance shape_eq_dec : EqDecision shape.
Proof. solve_decision. Defined.
Definition shape_of (t : table) : shape :=
  mkShape (list_to_map ((fun c => (col_name c, (col_type c, col_nullable c))) <$> tb_columns t))
    (list_to_set (tb_pk t)) (list_to_set ((fun k => list_to_set k) <$> keys t))
    (list_to_map ((fun fk => ((list_to_set (zip (fk_cols fk) (fk_tcols fk)), fk_table fk), fk_ondelete fk)) <$> tb_fkeys t)).
Definition enforced (s : schema) : gmap string shape := shape_of <$> s.
Definition index_names (s : schema) : gset string :=
  list_to_set (mjoin ((fun nt : string * table => ix_name <$> tb_indexes nt.2) <$> map_to_list s)).

(** ** Lemmas *)
Lemma history_is_linear now :
  down_revision <$> script now = None :: (Some ∘ revision <$> take 19 (script now)) ∧ NoDup (revision <$> script now).
Proof.
  split; [done|].
  apply (bool_decide_unpack _). vm_compute. done.
Qed.

Lemma upgrade_ops_snoc now i j : i ≤ j → upgrade_ops now i (S j) = upgrade_ops now i j ++ upgrade_of now j.
Proof.
  intros H. unfold upgrade_ops. rewrite Nat.sub_succ_l by done. rewrite seq_S, fmap_app, join_app.
  cbn. rewrite app_nil_r. by replace (i + (j - i)) with j by lia.
Qed.
(** The row of 0017 is the only thing that depends on the clock. *)
Lemma schema_run_now now k s : schema_run (upgrade_of now k) s = schema_run (upgrade_of 0 k) s.
Proof.
  destruct (decide (k = 16)) as [->|Hk]; [|by do 20 (destruct k as [|k]; [done|])].
  assert (∃ pre st st0, upgrade_of now 16 = pre ++ [Execute st] ∧ upgrade_of 0 16 = pre ++ [Execute st0])
    as (pre & st & st0 & -> & ->).
  { eexists [_; _], _, _. split; reflexivity. }
  rewrite !schema_run_app. by destruct (schema_run pre s).
Qed.

(** One pass over a list of statements: the schema after it and whether all of them are safe. *)
Fixpoint survey (ops : list op) (s : schema) : outcome (schema * bool) :=
  match ops with
  | [] => Ok (s, true)
  | o :: ops => s' ← schema_op o s; r ← survey ops s'; Ok (r.1, safe o s && r.2)
  end.
Lemma survey_spec ops s s' b :
  survey ops s = Ok (s', b) → schema_run ops s = Ok s' ∧ (b = true → safe_run ops s = true).
Proof.
  revert s s' b. induction ops as [|o ops IH]; intros s s' b; cbn [survey schema_run safe_run]; [by intros [= <- <-]|].
  destruct (schema_op o s) as [s1|]; cbn [mbind outcome_bind]; [|done].
  destruct (survey ops s1) as [[s2 b2]|] eqn:E; cbn [mbind outcome_bind]; [|done]. intros [= <- <-].
  destruct (IH _ _ _ E) as [H1 H2]. split; [done|]. rewrite !andb_true_iff. tauto.
Qed.

(** Revisions, counted from 0, whose upgrade the rows could make fail, whose downgrade they could make
    fail, and whose upgrade drops or rewrites what was there. *)
Definition data_upgrades : list nat := [12; 13; 16; 18].
Definition data_downgrades : list nat := [5; 14; 15; 18].
Definition lossy : list nat := [1; 5; 12; 18].
(** What the revisions that rewrite rows need of the schema they meet: keys of [peers] and [users], the
    types of the counters. *)
Definition counters : list string := ["lifetime_used_traffic_bytes"; "traffic_used_bytes"; "traffic_limit_bytes"].
Definition met (k : nat) (s : schema) : bool :=
  match k with
  | 12 => match survey (take 6 upgrade_0013) s with
      | Ok (s, true) => one_sweep s "peers" && text_key s "peers" "id"
      | _ => false
      end
  | 13 => match survey (take 5 upgrade_0014) s with Ok (s, true) => text_key s "users" "id" | _ => false end
  | 14 => typed_columns s "remnawave_users" Integer counters
  | 15 => typed_columns s "remnawave_users" Integer ["telegram_id"]
  | 16 =>
      typed_columns s "remnawave_users" BigInteger ("telegram_id" :: counters) &&
      match survey (take 2 (upgrade_0017 0)) s with Ok (_, b) => b | _ => false end
  | _ => true
  end.
Definition step_ok (k : nat) (s s' : schema) (safe_up : bool) : bool :=
  match survey (downgrade_of k) s' with
  | Ok (s0, safe_down) =>
      (bool_decide (k ∈ data_upgrades) || safe_up) && (bool_decide (k ∈ data_downgrades) || safe_down) &&
      (bool_decide (k = 1) || bool_decide (s0 = s)) && met k s
  | Raise _ => false
  end && (bool_decide (k ∈ lossy) || forallb (outside s) (upgrade_of 0 k ++ downgrade_of k)).
(** Indexes the migrations create and the classes do not mention. *)
Definition undeclared_indexes : gset string := list_to_set [
    "ix_pts_peer_sampled"; "ix_local_awg_deltas_peer_observed"; "ix_local_awg_deltas_user_observed";
    "ix_local_awg_deltas_node_observed"; "ix_local_awg_user_daily_user_day";
    "ix_local_awg_user_node_daily_user_node_day"; "ix_local_awg_user_node_lifetime_user_node";
    "ix_peer_endpoint_sessions_peer_seen"; "ix_peer_endpoint_sessions_user_seen";
    "ix_peer_endpoint_sessions_node_seen"].
Definition same_enforcement (s : schema) : bool :=
  bool_decide (enforced s = enforced models_schema) &&
  bool_decide (index_names s = index_names models_schema ∪ undeclared_indexes) &&
  bool_decide (index_names models_schema ## undeclared_indexes).
Fixpoint survey_history (n k : nat) (s : schema) : bool :=
  match n with
  | O => same_enforcement s
  | S n =>
      match survey (upgrade_of 0 k) s with
      | Ok (s', safe_up) => step_ok k s s' safe_up && survey_history n (S k) s'
      | Raise _ => false
      end
  end.
Lemma history_surveyed : survey_history 20 0 ∅ = true.
Proof. vm_compute. reflexivity. Qed.
Lemma survey_history_spec n k s :
  survey_history n k s = true → schema_run (upgrade_ops 0 0 k) ∅ = Ok s →
  (∃ s', schema_run (upgrade_ops 0 0 (k + n)) ∅ = Ok s' ∧ same_enforcement s' = true) ∧
  ∀ j, k ≤ j < k + n → ∃ s s' safe_up, schema_run (upgrade_ops 0 0 j) ∅ = Ok s ∧
    survey (upgrade_of 0 j) s = Ok (s', safe_up) ∧ schema_run (upgrade_ops 0 0 (S j)) ∅ = Ok s' ∧
    step_ok j s s' safe_up = true.
Proof.
  revert k s. induction n as [|n IH]; cbn [survey_history]; intros k s H Hs.
  { rewrite Nat.add_0_r. split; [by exists s|lia]. }
  destruct (survey (upgrade_of 0 k) s) as [[s' b]|] eqn:E; [|done]. apply andb_true_iff in H as [Hk H].
  assert (schema_run (upgrade_ops 0 0 (S k)) ∅ = Ok s') as Hs'.
  { rewrite upgrade_ops_snoc by lia. rewrite schema_run_app, Hs. cbn [mbind outcome_bind].
    by destruct (survey_spec _ _ _ _ E). }
  destruct (IH (S k) s' H Hs') as [Hend Hall]. split; [by rewrite Nat.add_succ_r|].
  intros j Hj. destruct (decide (j = k)) as [->|]; [exists s, s', b; split_and!; assumption|]. apply Hall. lia.
Qed.
Lemma schema_at_ok k s : schema_run (upgrade_ops 0 0 k) ∅ = Ok s → schema_at k = s.
Proof. unfold schema_at. by intros ->. Qed.
Lemma history_facts :
  (∃ s', schema_run (upgrade_ops 0 0 20) ∅ = Ok s' ∧ same_enforcement s' = true) ∧
  ∀ j, 0 ≤ j < 20 → ∃ s s' safe_up, schema_run (upgrade_ops 0 0 j) ∅ = Ok s ∧
    survey (upgrade_of 0 j) s = Ok (s', safe_up) ∧ schema_run (upgrade_ops 0 0 (S j)) ∅ = Ok s' ∧
    step_ok j s s' safe_up = true.
Proof. refine (survey_history_spec 20 0 ∅ history_surveyed _). reflexivity. Qed.
Lemma schema_step now k : k < 20 →
  schema_run (upgrade_of now k) (schema_at k) = Ok (schema_at (S k)) ∧
  (k ∉ data_upgrades → safe_run (upgrade_of 0 k) (schema_at k) = true) ∧
  (∃ s0, schema_run (downgrade_of k) (schema_at (S k)) = Ok s0 ∧ (k ≠ 1 → s0 = schema_at k)) ∧
  (k ∉ data_downgrades → safe_run (downgrade_of k) (schema_at (S k)) = true) ∧
  (k ∉ lossy → forallb (outside (schema_at k)) (upgrade_of 0 k ++ downgrade_of k) = true) ∧ met k (schema_at k) = true.
Proof.
  intros Hk. destruct history_facts as [_ H].
  destruct (H k) as (s & s' & b & Hs & Hup & Hs' & Hok); [lia|]. rewrite (schema_at_ok _ _ Hs), (schema_at_ok _ _ Hs').
  rewrite schema_run_now. destruct (survey_spec _ _ _ _ Hup) as [Hrun Hsafe]. unfold step_ok in Hok.
  destruct (survey (downgrade_of k) s') as [[s0 b']|] eqn:E; [|done].
  destruct (survey_spec _ _ _ _ E) as [Hrun' Hsafe'].
  rewrite !andb_true_iff, !orb_true_iff, !bool_decide_eq_true in Hok. destruct Hok as [[[[H1 H2] H3] H4] H5].
  split_and!; [done|tauto| |tauto|tauto|done]. exists s0. tauto.
Qed.

(** ** Each upgrade on a database with rows *)
#[local] Opaque schema_at.
Lemma ok_inj {A} (a b : A) : Ok a = Ok b → a = b.
Proof. by intros [= ->]. Qed.
Lemma upgrade_0013_runs `{Casts} d :
  valid d → db_schema d = schema_at 12 → ∃ d', run upgrade_0013 d = Ok d'.
Proof.
  intros Hd Hs. destruct (schema_step 0 12) as (Hrun & _ & _ & _ & _ & Hmet); [lia|]. rewrite <- Hs in Hrun, Hmet.
  change (upgrade_of 0 12) with (take 6 upgrade_0013 ++ drop 6 upgrade_0013) in Hrun. rewrite schema_run_app in Hrun.
  cbn [met] in Hmet. destruct (survey (take 6 upgrade_0013) (db_schema d)) as [[s6 []]|] eqn:E; [|discriminate|discriminate].
  apply survey_spec in E as [E Hsafe]. rewrite E in Hrun. destruct (run_safe _ d Hd (Hsafe eq_refl)) as (d6 & Hrun6 & Hd6).
  pose proof (run_schema _ _ _ Hrun6) as Hs6. rewrite E in Hs6. injection Hs6 as ->.
  apply andb_true_iff in Hmet as [Honce (t & c & Ht & Hc & Hk & Hn & _)%text_key_spec].
  change upgrade_0013 with (take 6 upgrade_0013 ++ drop 6 upgrade_0013). rewrite run_ops_app, Hrun6. cbn [mbind outcome_bind].
  change (drop 6 upgrade_0013) with
    [Execute (DeleteDuplicates "peers" "id" ["node_id"; "user_id"]); CreateUnique "uq_peers_node_user" "peers" ["node_id"; "user_id"]] in *.
  cbn [schema_run mbind outcome_bind] in Hrun. rewrite schema_op_execute in Hrun by apply Hd6. cbn [mbind outcome_bind] in Hrun.
  apply (deduplicated_run d6 "peers" t c "uq_peers_node_user" _ (schema_at 13));
    [exact Hd6|exact Ht|exact Hk|exact Hc|exact Hn|exact Honce|exact Hrun].
Qed.
Lemma upgrade_0014_runs `{Casts} d :
  valid d → db_schema d = schema_at 13 → ∃ d', run upgrade_0014 d = Ok d'.
Proof.
  intros Hd Hs. destruct (schema_step 0 13) as (Hrun & _ & _ & _ & _ & Hmet); [lia|]. rewrite <- Hs in Hrun, Hmet.
  change (upgrade_of 0 13) with (take 5 upgrade_0014 ++ drop 5 upgrade_0014) in Hrun. rewrite schema_run_app in Hrun.
  cbn [met] in Hmet. destruct (survey (take 5 upgrade_0014) (db_schema d)) as [[s5 []]|] eqn:E; [|discriminate|discriminate].
  apply survey_spec in E as [E Hsafe]. rewrite E in Hrun. destruct (run_safe _ d Hd (Hsafe eq_refl)) as (d5 & Hrun5 & Hd5).
  pose proof (run_schema _ _ _ Hrun5) as Hs5. rewrite E in Hs5. injection Hs5 as ->.
  apply text_key_spec in Hmet as (t & c & Ht & Hc & Hk & Hn & Hty).
  change upgrade_0014 with (take 5 upgrade_0014 ++ drop 5 upgrade_0014). rewrite run_ops_app, Hrun5. cbn [mbind outcome_bind].
  eexists. apply (filled_run d5 "users" "public_token" "id" "ix_users_public_token" t c Hd5 Ht Hk Hc Hn Hty (schema_at 14)).
  apply (schema_run_execute _ (FillNulls "users" "public_token" "id")). exact Hrun.
Qed.
Lemma two_created `{Casts} n1 i1 n2 i2 d d' :
  run [CreateTable n1 i1; CreateTable n2 i2] d = Ok d' →
  n1 ≠ n2 → rows_of (db_rows d') n1 = [] ∧ db_schema d' !! n1 = Some (make_table n1 i1).
Proof.
  intros Hrun Hne. cbn [run] in Hrun. destruct (run_op _ d) as [d1|] eqn:E1; [|done]. cbn [mbind outcome_bind] in Hrun.
  destruct (run_op _ d1) as [d2|] eqn:E2; [|done]. cbn [mbind outcome_bind] in Hrun. injection Hrun as <-.
  apply run_op_ok in E1 as ([Hs1 _]%schema_op_ok & [= HR1] & _), E2 as ([Hs2 _]%schema_op_ok & [= HR2] & _).
  cbn [alter_schema] in Hs1, Hs2. destruct (db_schema d !! n1); [done|]. injection Hs1 as Hs1.
  destruct (db_schema d1 !! n2); [done|]. injection Hs2 as Hs2.
  rewrite <- HR2, <- HR1, <- Hs2, <- Hs1, rows_of_insert_ne, rows_of_insert, lookup_insert_ne, lookup_insert_eq by done. done.
Qed.
Lemma upgrade_0017_runs `{Casts} now d :
  valid d → db_schema d = schema_at 16 → ∃ d', run (upgrade_0017 now) d = Ok d'.
Proof.
  intros Hd Hs. destruct (schema_step 0 16) as (_ & _ & _ & _ & _ & Hmet); [lia|]. rewrite <- Hs in Hmet.
  cbn [met] in Hmet. apply andb_true_iff in Hmet as [_ Hmet].
  destruct (survey (take 2 (upgrade_0017 0)) (db_schema d)) as [[s2 []]|] eqn:E; [|discriminate|discriminate].
  apply survey_spec in E as [E Hsafe]. destruct (run_safe _ d Hd (Hsafe eq_refl)) as (d2 & Hrun2 & Hd2).
  change (upgrade_0017 now) with (take 2 (upgrade_0017 0) ++ drop 2 (upgrade_0017 now)). rewrite run_ops_app, Hrun2.
  destruct (two_created _ _ _ _ d d2 Hrun2) as [Hnone Ht]; [done|]. cbn [mbind outcome_bind].
  change (drop 2 (upgrade_0017 now)) with [Execute (InsertRow "telegram_proxy_settings"
    (list_to_map [("id", VStr "default"); ("enabled", VBool false); ("port", VInt 443); ("created_at", VTime now); ("updated_at", VTime now)]))].
  eexists. eapply insert_first_row; [exact Hd2|exact Ht|exact Hnone|reflexivity|].
  intros fk Hfk. apply list_elem_of_singleton in Hfk as ->. reflexivity.
Qed.
Lemma upgrade_of_now now k : k ≠ 16 → upgrade_of now k = upgrade_of 0 k.
Proof. intros Hk. by do 20 (destruct k as [|k]; [done|]). Qed.
Lemma upgrade_runs `{Casts} now k d :
  k < 20 → k ≠ 18 → valid d → db_schema d = schema_at k →
  ∃ d', run (upgrade_of now k) d = Ok d' ∧ valid d' ∧ db_schema d' = schema_at (S k).
Proof.
  intros Hk Hk18 Hd Hs. destruct (schema_step now k Hk) as (Hrun & Hsafe & _).
  assert (∃ d', run (upgrade_of now k) d = Ok d') as (d' & Hd').
  { destruct (decide (k = 16)) as [->|H16]; [by apply (upgrade_0017_runs now)|]. rewrite upgrade_of_now by done.
    destruct (decide (k = 12)) as [->|H12]; [by apply upgrade_0013_runs|].
    destruct (decide (k = 13)) as [->|H13]; [by apply upgrade_0014_runs|].
    rewrite <- Hs in Hsafe. destruct (run_safe (upgrade_of 0 k) d Hd) as (d' & ? & _); [|by exists d'].
    apply Hsafe. unfold data_upgrades. rewrite !elem_of_cons, elem_of_nil. tauto. }
  exists d'. split_and!; [done|by eapply run_valid|]. apply run_schema in Hd'. rewrite Hs, Hrun in Hd'. symmetry. exact (ok_inj _ _ Hd').
Qed.

(** ** Properties *)
Lemma upgrade_ops_now now i j s : schema_run (upgrade_ops now i j) s = schema_run (upgrade_ops 0 i j) s.
Proof.
  unfold upgrade_ops. revert s. induction (seq i (j - i)) as [|k l IH]; intros s; [done|].
  rewrite !fmap_cons. cbn [mjoin list_join]. rewrite !schema_run_app, schema_run_now.
  destruct (schema_run (upgrade_of 0 k) s); [apply IH|done].
Qed.

(** C28: the twenty migrations, run from an empty database, succeed, and the tables they leave enforce
    exactly what the classes of [app/models.py] declare: every column with its type and nullability, every
    primary key, every set of columns that must be unique, every reference with its action on delete. The
    indexes are those of the classes and ten more. *)
Theorem migrations_build_models (now : Z) :
  ∃ s, schema_run (upgrade_ops now 0 20) ∅ = Ok s ∧ enforced s = enforced models_schema ∧
    index_names s = index_names models_schema ∪ undeclared_indexes ∧ index_names models_schema ## undeclared_indexes.
Proof.
  destruct history_facts as [(s & Hs & Hsame) _]. exists s. rewrite upgrade_ops_now. split; [exact Hs|].
  unfold same_enforcement in Hsame. rewrite !andb_true_iff, !bool_decide_eq_true in Hsame. tauto.
Qed.

(** C29: whatever rows a database of some revision holds, upgrading it to any later revision up to 0018
    succeeds: no statement meets a value it cannot convert, a NULL where a column becomes NOT NULL, or a
    duplicate under a new unique constraint; and the outcome is a database of that revision in which
    every declared constraint holds. *)
Theorem upgrades_never_fail `{Casts} (now : Z) (i j : nat) (d : database) :
  i ≤ j ≤ 18 → valid d → db_schema d = schema_at i →
  ∃ d', run_migrations (upgrade_ops now i j) d = (d', None) ∧ valid d' ∧ db_schema d' = schema_at j.
Proof.
  intros [Hij Hj] Hd Hs. assert (∃ d', run (upgrade_ops now i j) d = Ok d' ∧ valid d' ∧ db_schema d' = schema_at j) as H1.
  { revert Hj. induction Hij as [|j Hij IH]; intros Hj.
    - exists d. unfold upgrade_ops. rewrite Nat.sub_diag. split_and!; [reflexivity|exact Hd|exact Hs].
    - destruct IH as (d1 & Hrun & Hd1 & Hs1); [lia|]. destruct (upgrade_runs now j d1) as (d2 & Hrun2 & Hd2 & Hs2); [lia|lia|exact Hd1|exact Hs1|].
      exists d2. rewrite upgrade_ops_snoc by done. rewrite run_ops_app, Hrun. split_and!; [exact Hrun2|exact Hd2|exact Hs2]. }
  destruct H1 as (d' & Hrun & ?). exists d'. unfold run_migrations. rewrite Hrun. by split.
Qed.

Lemma widened_back `{Casts} k d d1 :
  k < 20 → k ≠ 1 → valid d → db_schema d = schema_at k →
  forallb (narrowing "remnawave_users" BigInteger) (upgrade_of 0 k) = true →
  forallb (narrowing "remnawave_users" Integer) (downgrade_of k) = true →
  typed_columns (schema_at k) "remnawave_users" Integer (omap retyped_column (downgrade_of k)) = true →
  run (upgrade_of 0 k) d = Ok d1 → run (downgrade_of k) d1 = Ok d.
Proof.
  intros Hk H1 Hd Hs Hup Hdown Hty Hrun. destruct (schema_step 0 k Hk) as (Hsup & _ & (s0 & Hsdown & Hs0) & _).
  rewrite (Hs0 H1) in Hsdown. clear Hs0.
  rewrite <- Hs in Hsup, Hsdown, Hty. pose proof (run_valid _ _ _ Hd Hrun) as Hd1.
  rewrite (narrow_run _ _ _ _ _ Hd Hup Hsup) in Hrun. destruct (forallb _ _) in Hrun; [|discriminate].
  apply ok_inj in Hrun as <-. rewrite (narrow_run _ _ _ _ _ Hd1 Hdown Hsdown). cbn [db_rows].
  rewrite (columns_fit d) by assumption. by destruct d.
Qed.

(** C30: an upgrade and its downgrade leave the database as it was: for every revision but the four whose
    upgrade drops, converts or deletes what was there (0002, 0006, 0013, 0019), and every database of the
    revision before, both succeed and the second returns the very tables and rows the first started
    from. *)
Theorem downgrade_restores `{Casts} (now : Z) (k : nat) (d : database) :
  k < 20 → k ∉ lossy → valid d → db_schema d = schema_at k →
  ∃ d1, run (upgrade_of now k) d = Ok d1 ∧ db_schema d1 = schema_at (S k) ∧ run (downgrade_of k) d1 = Ok d.
Proof.
  intros Hk Hl Hd Hs. assert (k ≠ 1 ∧ k ≠ 5 ∧ k ≠ 12 ∧ k ≠ 18) as (H1 & H5 & H12 & H18) by (
    unfold lossy in Hl; rewrite !not_elem_of_cons in Hl; tauto).
  destruct (upgrade_runs now k d Hk H18 Hd Hs) as (d1 & Hrun & Hd1 & Hs1). exists d1. split_and!; [exact Hrun|exact Hs1|].
  destruct (schema_step 0 k Hk) as (_ & _ & (s0 & Hback & Hs0) & Hsafe & Hout & Hmet).
  destruct (decide (k = 14 ∨ k = 15)) as [Hk14|Hk14].
  - rewrite upgrade_of_now in Hrun by lia. apply (widened_back k d d1 Hk H1 Hd Hs); [| | |exact Hrun];
      destruct Hk14 as [-> | ->]; [reflexivity..|exact Hmet|exact Hmet].
  - destruct (run_safe (downgrade_of k) d1 Hd1) as (d2 & Hrun2 & _).
    { rewrite Hs1. apply Hsafe. unfold data_downgrades. rewrite !elem_of_cons, elem_of_nil. tauto. }
    rewrite Hrun2. f_equal. apply (run_restores (upgrade_of now k ++ downgrade_of k) d d2 Hd).
    + rewrite run_ops_app, Hrun. exact Hrun2.
    + rewrite Hs. destruct (decide (k = 16)) as [->|H16]; [exact (Hout Hl)|rewrite upgrade_of_now by done; exact (Hout Hl)].
    + apply run_schema in Hrun2. rewrite Hs1, Hback in Hrun2. apply ok_inj in Hrun2 as <-. rewrite Hs. auto.
Qed.

(** C31: taking a database of revision 0016 back to 0014 turns the account's Telegram number and the
    three traffic counters of a Remnawave profile from 64 into 32 bits. It succeeds exactly when each of
    them, where present, lies between -2^31 and 2^31 - 1, and then leaves every row as it was; otherwise the
    database reports that an integer is out of range and nothing changes. *)
Theorem narrowing_needs_32_bits `{Casts} (d : database) :
  valid d → db_schema d = schema_at 16 →
  let small := ∀ r c z, r ∈ rows_of (db_rows d) "remnawave_users" → c ∈ "telegram_id" :: counters →
    r !! c = Some (VInt z) → (- 2 ^ 31 <= z < 2 ^ 31)%Z in
  (small → run_migrations (downgrade_ops 16 14) d = (Db (schema_at 14) (db_rows d), None)) ∧
  (¬ small → run_migrations (downgrade_ops 16 14) d = (d, Some (DBAPIError "integer out of range"))).
Proof.
  intros Hd Hs. set (cols := "telegram_id" :: counters). intros small.
  destruct (schema_step 0 15) as (_ & _ & (s15 & H15 & E15) & _); [lia|]. destruct (schema_step 0 14) as (_ & _ & (s14 & H14 & E14) & _); [lia|].
  destruct (schema_step 0 16) as (_ & _ & _ & _ & _ & Hmet); [lia|]. cbn [met] in Hmet. apply andb_true_iff in Hmet as [Hmet _].
  rewrite E15 in H15 by lia. rewrite E14 in H14 by lia.
  assert (schema_run (downgrade_ops 16 14) (db_schema d) = Ok (schema_at 14)) as Hrun.
  { change (downgrade_ops 16 14) with (downgrade_of 15 ++ downgrade_of 14). rewrite schema_run_app, Hs, H15. exact H14. }
  unfold run_migrations. rewrite (narrow_run "remnawave_users" Integer (downgrade_ops 16 14) d _ Hd eq_refl Hrun).
  change (omap retyped_column (downgrade_ops 16 14)) with cols.
  assert (forallb (column_fits (db_rows d) "remnawave_users" Integer) cols = true ↔ small) as Hiff.
  { rewrite <- Hs in Hmet. rewrite forallb_elem. unfold column_fits. setoid_rewrite forallb_elem. split.
    - intros H0 r c z Hr Hc Hv. specialize (H0 c Hc r Hr). rewrite Hv in H0. cbn in H0. unfold fits in H0. lia.
    - intros H0 c Hc r Hr. destruct (r !! c) as [v|] eqn:Ev; [|reflexivity].
      pose proof (typed_value d _ _ _ _ _ _ Hd Hmet Hc Hr Ev) as Hv. destruct v as [| z | | |]; [discriminate| |discriminate..].
      specialize (H0 r c z Hr Hc Ev). cbn. unfold fits. lia. }
  destruct (forallb _ cols); split; intros Hsm; [reflexivity| | |reflexivity].
  - destruct Hsm. apply (proj1 Hiff). reflexivity.
  - apply Hiff in Hsm. discriminate.
Qed.

(** ** Concrete databases *)
#[local] Transparent schema_at.
Definition sample_casts : Casts := py_int.
(** Revision 0002, with two peers of one account on one node. *)
Definition deployment_0002 : database := Db (schema_at 2) (list_to_map [
    ("nodes", [list_to_map [("id", VStr "n1"); ("name", VStr "Node"); ("url", VStr "http://n1"); ("token", VStr "t");
      ("created_at", VTime 0); ("h1", VInt 5)]]);
    ("users", [list_to_map [("id", VStr "u1"); ("name", VStr "alice"); ("is_blocked", VBool false); ("created_at", VTime 0);
      ("vpn_ip", VStr "10.8.0.2")]]);
    ("peers", [
      list_to_map [("id", VStr "p1"); ("node_id", VStr "n1"); ("user_id", VStr "u1"); ("created_at", VTime 0); ("status", VStr "active")];
      list_to_map [("id", VStr "p2"); ("node_id", VStr "n1"); ("user_id", VStr "u1"); ("created_at", VTime 1); ("status", VStr "active")]])]).
(** Revision 0016, with one profile that used 3 GiB. *)
Definition profile_0016 : row := list_to_map [
    ("id", VStr "r1"); ("user_id", VStr "u1"); ("remnawave_uuid", VStr "uuid"); ("username", VStr "alice"); ("status", VStr "ACTIVE");
    ("traffic_limit_bytes", VInt 0); ("traffic_limit_strategy", VStr "NO_RESET"); ("traffic_used_bytes", VInt 3221225472);
    ("lifetime_used_traffic_bytes", VInt 3221225472); ("created_at", VTime 0); ("updated_at", VTime 0); ("sync_status", VStr "synced")].
Definition deployment_0016 : database := Db (schema_at 16)
    (<["users" := [list_to_map [("id", VStr "u1"); ("name", VStr "alice"); ("is_blocked", VBool false); ("created_at", VTime 0);
        ("lifecycle_status", VStr "active"); ("traffic_limit_bytes", VInt 0); ("traffic_reset_policy", VStr "manual");
        ("public_token", VStr "u1")]]]>
      (<["remnawave_users" := [profile_0016]]> ((fun _ => []) <$> schema_at 16))).
Definition valid_bool (d : database) : bool := schema_wf (db_schema d) && contents_hold (db_schema d) (db_rows d).
Lemma valid_bool_valid d : valid_bool d = true → valid d.
Proof. apply andb_true_iff. Qed.

Lemma upgrades_never_fail_witness :
  ∃ d', run_migrations (H:=sample_casts) (upgrade_ops 0 2 18) deployment_0002 = (d', None) ∧ valid d' ∧ db_schema d' = schema_at 18.
Proof.
  refine (upgrades_never_fail (H:=sample_casts) 0 2 18 deployment_0002 _ (valid_bool_valid _ _) _);
    [lia|vm_compute; reflexivity|reflexivity].
Defined.
Lemma downgrade_restores_witness :
  ∃ d1, run (H:=sample_casts) (upgrade_of 0 2) deployment_0002 = Ok d1 ∧ db_schema d1 = schema_at 3 ∧
    run (H:=sample_casts) (downgrade_of 2) d1 = Ok deployment_0002.
Proof.
  refine (downgrade_restores (H:=sample_casts) 0 2 deployment_0002 _ _ (valid_bool_valid _ _) _);
    [lia|apply (bool_decide_unpack (¬ 2 ∈ lossy)); exact I|vm_compute; reflexivity|reflexivity].
Defined.
Lemma narrowing_needs_32_bits_witness :
  run_migrations (H:=sample_casts) (downgrade_ops 16 14) deployment_0016 =
    (deployment_0016, Some (DBAPIError "integer out of range")).
Proof.
  refine (proj2 (narrowing_needs_32_bits (H:=sample_casts) deployment_0016 (valid_bool_valid _ _) eq_refl) _);
    [vm_compute; reflexivity|].
  intros H. specialize (H profile_0016 "traffic_used_bytes" 3221225472%Z).
  assert (- 2 ^ 31 <= 3221225472 < 2 ^ 31)%Z; [|lia]. apply H.
  - unfold rows_of, deployment_0016. cbn [db_rows]. rewrite lookup_insert_ne, lookup_insert_eq by discriminate. left.
  - right. right. left.
  - reflexivity.
Defined.
