(* ===== verification/Secrets.v ===== *)
(** * Secrets at rest

    [panel/backend/app/remnawave_crypto.py] and [mtproxy_secret_crypto.py]: the Fernet key derived
    from an environment variable, and encryption and decryption of optional values. The hash, the
    cipher and the two environment variables are what the code takes from outside: the class
    [Vault]. *)
From S2P Require Import Prelude PyStr Bytes Models Session Sample.

Class Vault := {
  (* the digest of the encoded text *)
  sha256 : string → bytes;
  (* a Fernet token under a key; each draw has its own timestamp and vector *)
  fernet_encrypt : string → string → nat → string;
  fernet_decrypt : string → string → option string;
  REMNAWAVE_SECRET_KEY : option string;
  SECRET_KEY : option string }.

(** A token decrypts under its own key. *)
Class VaultLaws `{Vault} := {
  fernet_decrypt_encrypt : ∀ key v n, fernet_decrypt key (fernet_encrypt key v n) = Some v }.

Definition MIN_SECRET_LENGTH : nat := 32.

Section secrets.
Context `{Vault}.

(** The Fernet key of the secret [secret], the value of the variable [name]. *)
Definition get_fernet (name : string) (secret : option string) : outcome string :=
  match secret with
  | None => Raise (RuntimeError (name +:+ " must be at least 32 characters"))
  | Some s =>
      if negb (truthy_str s) || (str_len s <? MIN_SECRET_LENGTH)
      then Raise (RuntimeError (name +:+ " must be at least 32 characters"))
      else Ok (urlsafe_b64encode (sha256 s))
  end.

Definition encrypt_with (fernet : outcome string) (value : option string) : M (option string) :=
  match value with
  | None => retM None
  | Some v =>
      let* key := lift fernet in
      let* token := draw (fernet_encrypt key v) in
      retM (Some token)
  end.

Definition decrypt_with (fernet : outcome string) (value : option string)
    : outcome (option string) :=
  match value with
  | None => Ok None
  | Some token =>
      key ← fernet;
      match fernet_decrypt key token with
      | Some v => Ok (Some v)
      | None => Raise InvalidToken
      end
  end.
End secrets.

Module RemnawaveCrypto.
Section remnawave.
Context `{Vault}.
Definition fernet : outcome string := get_fernet "REMNAWAVE_SECRET_KEY" REMNAWAVE_SECRET_KEY.
Definition encrypt (value : option string) : M (option string) := encrypt_with fernet value.
Definition decrypt (value : option string) : outcome (option string) :=
  decrypt_with fernet value.
End remnawave.
End RemnawaveCrypto.

Module MtproxyCrypto.
Section mtproxy.
Context `{Vault}.
Definition fernet : outcome string := get_fernet "SECRET_KEY" SECRET_KEY.
Definition encrypt (value : option string) : M (option string) := encrypt_with fernet value.
Definition decrypt (value : option string) : outcome (option string) :=
  decrypt_with fernet value.
End mtproxy.
End MtproxyCrypto.

(** A vault for the witnesses: the token is the key, the text and the draw. *)
#[export] Instance sample_vault : Vault := {
  sha256 s := encode_ascii s;
  fernet_encrypt key v n := key +:+ v;
  fernet_decrypt key token := if startswith token key then Some (removeprefix token key) else None;
  REMNAWAVE_SECRET_KEY := Some "0123456789abcdef0123456789abcdef";
  SECRET_KEY := Some "short" }.
#[export] Instance sample_vault_laws : VaultLaws.
Proof. split. intros key v n. simpl. by rewrite startswith_app, removeprefix_app. Qed.

Section lemmas.
Context `{Vault}.

Lemma get_fernet_ok name secret :
  is_ok (get_fernet name secret) = true ↔
  ∃ s, secret = Some s ∧ MIN_SECRET_LENGTH ≤ str_len s.
Proof.
  unfold get_fernet. destruct secret as [s|]; [|split; [done|by intros (s & ? & _)]].
  destruct (truthy_str s) eqn:Et; cbn [negb orb].
  - destruct (str_len s <? MIN_SECRET_LENGTH) eqn:El.
    + apply Nat.ltb_lt in El. split; [done|]. intros (s' & [= <-] & ?). lia.
    + apply Nat.ltb_ge in El. split; [|done]. intros _. by exists s.
  - split; [done|]. intros (s' & [= <-] & Hl). exfalso. unfold truthy_str in Et. py_bool.
    subst. vm_compute in Hl. lia.
Qed.

Lemma encrypt_preserves (I : db → Prop) fernet v : preserves (holds I) (encrypt_with fernet v).
Proof. unfold encrypt_with. session_steps. Qed.
End lemmas.
#[export] Hint Resolve encrypt_preserves : preserves.

(** ** Properties *)

(** A stored secret reads back, and never under a weak key. Encrypting a value succeeds exactly
    when the secret of the environment has at least 32 characters - otherwise it raises and stores
    nothing - and a value that was encrypted decrypts to itself; the tables are not touched. *)
Lemma stored_secret_reads_back `{VaultLaws} name secret v s :
  let fernet := get_fernet name secret in
  let '(r, s') := encrypt_with fernet (Some v) s in
  work s' = work s ∧ committed s' = committed s ∧
  ((∃ x, secret = Some x ∧ MIN_SECRET_LENGTH ≤ str_len x) →
     ∃ token, r = Ok (Some token) ∧ decrypt_with fernet (Some token) = Ok (Some v)) ∧
  (¬ (∃ x, secret = Some x ∧ MIN_SECRET_LENGTH ≤ str_len x) →
     r = Raise (RuntimeError (name +:+ " must be at least 32 characters")) ∧
     ∀ token, decrypt_with fernet (Some token) =
       Raise (RuntimeError (name +:+ " must be at least 32 characters"))).
Proof.
  intros fernet. pose proof (get_fernet_ok name secret) as Hok.
  assert (is_ok fernet = false → fernet = Raise (RuntimeError (name +:+ " must be at least 32 characters")))
    as Hbad.
  { unfold fernet, get_fernet. destruct secret as [x|]; [|done]. by case_match. }
  unfold encrypt_with. rewrite bind_run. unfold lift. fold fernet in Hok.
  destruct fernet as [key|e] eqn:E; simpl in Hok |- *.
  - split_and!; [done..| |].
    + intros _. eexists. split; [done|]. unfold decrypt_with. simpl. by rewrite fernet_decrypt_encrypt.
    + intros Hn. exfalso. by apply Hn, Hok.
  - injection (Hbad eq_refl) as ->. split_and!; [done..| |done].
    intros Hy. by apply Hok in Hy.
Qed.

Lemma stored_secret_reads_back_witness :
  (∃ token, (encrypt_with (get_fernet "REMNAWAVE_SECRET_KEY" REMNAWAVE_SECRET_KEY) (Some "api-key")
               (start empty_db 0)).1 = Ok (Some token) ∧
     RemnawaveCrypto.decrypt (Some token) = Ok (Some "api-key")) ∧
  MtproxyCrypto.decrypt (Some "x") = Raise (RuntimeError "SECRET_KEY must be at least 32 characters").
Proof.
  split; [|reflexivity].
  pose proof (stored_secret_reads_back "REMNAWAVE_SECRET_KEY" REMNAWAVE_SECRET_KEY "api-key"
    (start empty_db 0)) as H.
  destruct H as (_ & _ & Hok & _). apply Hok. eexists. split; [reflexivity|]. vm_compute. lia.
Defined.
