(* ===== verification/Accounts.v ===== *)
(** * Accounts

    [panel/backend/app/services/users.py]: creating local accounts and local mirrors of Remnawave
    profiles; [services/public_access.py]: who a public link is about; and the constraints the
    database checks when an account, a profile or a node is inserted. *)
From S2P Require Import Prelude PyStr Models Session Sample.

Definition user_violation (d : db) (u : User) : option string :=
  if bool_decide (is_Some (users d !! User_id u)) then Some "users_pkey"
  else if existsb (fun w => User_name w == User_name u) (rows (users d)) then Some "users_name_key"
  else if existsb (fun w => User_public_token w == User_public_token u) (rows (users d))
  then Some "users_public_token_key"
  else None.

Definition rw_violation (d : db) (r : RemnawaveUser) : option string :=
  if bool_decide (is_Some (rw_users d !! Rw_id r)) then Some "remnawave_users_pkey"
  else if existsb (fun x => Rw_user_id x == Rw_user_id r) (rows (rw_users d))
  then Some "remnawave_users_user_id_key"
  else if existsb (fun x => Rw_remnawave_uuid x == Rw_remnawave_uuid r) (rows (rw_users d))
  then Some "ix_remnawave_users_remnawave_uuid"
  else if bool_decide (is_Some (users d !! Rw_user_id r)) then None
  else Some "remnawave_users_user_id_fkey".

(** [scalar_one_or_none] on the rows of a query. *)
Definition one_or_none {A} (l : list A) : outcome (option A) :=
  match l with
  | [] => Ok None
  | [x] => Ok (Some x)
  | _ => Raise MultipleResultsFound
  end.

Section with_env.
Context `{Env}.

Definition insert_user (user : User) : M unit :=
  do* race in
  let* violation := reads (fun d => user_violation d user) in
  match violation with
  | Some constraint => raise (IntegrityError constraint)
  | None => modify (update_user user)
  end.
Definition insert_rw (row : RemnawaveUser) : M unit :=
  do* race in
  let* violation := reads (fun d => rw_violation d row) in
  match violation with
  | Some constraint => raise (IntegrityError constraint)
  | None => modify (update_rw row)
  end.

(** The defaults of the mapping. *)
Definition new_user (name : string) (is_blocked : bool) (device_limit : Z) : M User :=
  let* id := new_uuid in
  let* public_token := draw random_token in
  let* created_at := now in
  retM {| User_id := id; User_name := name; User_is_blocked := is_blocked;
          User_lifecycle_status := "active"; User_expire_at := None; User_traffic_limit_bytes := 0;
          User_traffic_reset_policy := "manual"; User_traffic_reset_at := None;
          User_public_token := public_token; User_created_at := created_at;
          User_device_limit := device_limit; User_public_key := None; User_private_key := None;
          User_vpn_ip := None |}.

Definition create_local_user (name : string) (is_blocked : bool) (device_limit : Z) : M User :=
  let* user := new_user name is_blocked device_limit in
  do* lift (int_column 32 device_limit) in
  do* insert_user user in
  retM user.

Definition resolve_remnawave_username (desired : string) (short_uuid : option string) : M string :=
  let* existing := reads (fun d => one_or_none (select (fun u => User_name u == desired) (users d))) in
  let* existing := lift existing in
  match existing with
  | None => retM desired
  | Some _ =>
      let* suffix := match short_uuid with
        | Some s => if truthy_str s then retM s
                    else let* u := new_uuid in retM (str_take 8 u)
        | None => let* u := new_uuid in retM (str_take 8 u)
        end in
      retM (desired +:+ "__rw_" +:+ suffix)
  end.

Definition create_remnawave_local_user (username : string) (short_uuid : option string)
    (is_blocked : bool) : M (User * gset string) :=
  let* name := resolve_remnawave_username username short_uuid in
  let* user := new_user name is_blocked 0 in
  do* insert_user user in
  retM (user, ∅).
End with_env.

Definition resolve_public_user (d : db) (token_or_id : string) : outcome (option User) :=
  one_or_none (select (fun u => (User_public_token u == token_or_id) || (User_id u == token_or_id))
                 (users d)).

(** ** The inserts keep the invariants *)
Lemma insert_user_wf d u : db_wf d → user_violation d u = None → db_wf (update_user u d).
Proof.
  intros [] H. unfold user_violation in H. do 3 (py_case_in H; [discriminate|]). py_bool.
  assert (∀ k, is_Some (users d !! k) → is_Some (<[User_id u:=u]> (users d) !! k)) as Hsome.
  { intros k Hk. rewrite lookup_insert. by case_decide. }
  split; simpl; try assumption; eauto.
  intros k r. rewrite lookup_insert. case_decide; [|eauto]. by intros [= <-].
Qed.

Lemma insert_user_db_inv d u : db_inv d → user_violation d u = None → db_inv (update_user u d).
Proof. intros [Hwf HT] H. split; [by apply insert_user_wf|done]. Qed.

Lemma insert_rw_db_inv d r : db_inv d → rw_violation d r = None → db_inv (update_rw r d).
Proof.
  intros [[] HT] H. split; [|done]. unfold rw_violation in H.
  do 4 (py_case_in H; [discriminate || idtac|]); [|discriminate]. py_bool.
  pose proof (existsb_false_rows _ _ Hb0) as Hu. cbv beta in Hu.
  assert (∀ k x, rw_users d !! k = Some x → Rw_user_id x ≠ Rw_user_id r) as Hne.
  { intros k x Hx. specialize (Hu k x Hx). by py_bool. }
  split; simpl; try assumption.
  - intros k x. rewrite lookup_insert. case_decide; [|eauto]. by intros [= <-].
  - intros k x. rewrite lookup_insert. case_decide; [|eauto]. by intros [= <-].
  - intros k1 k2 x1 x2. rewrite !lookup_insert. do 2 case_decide; [congruence| | |eauto].
    + intros [= <-] Hx2 E. exfalso. by apply (Hne _ _ Hx2).
    + intros Hx1 [= <-] E. exfalso. by apply (Hne _ _ Hx1).
Qed.

Section invariants.
Context `{EnvLaws}.

Lemma insert_user_inv u : preserves (holds db_inv) (insert_user u).
Proof.
  apply preserves_bind; [apply holds_race, raced_inv|intros _].
  apply preserves_bind_reads. intros s [Hw Hc].
  destruct (user_violation (work s) u) eqn:E; [done|]. split; [|done]. by apply insert_user_db_inv.
Qed.
Lemma insert_rw_inv r : preserves (holds db_inv) (insert_rw r).
Proof.
  apply preserves_bind; [apply holds_race, raced_inv|intros _].
  apply preserves_bind_reads. intros s [Hw Hc].
  destruct (rw_violation (work s) r) eqn:E; [done|]. split; [|done]. by apply insert_rw_db_inv.
Qed.
Lemma new_user_pure name b l : pure_draw (new_user name b l).
Proof. unfold new_user, new_uuid, now. eauto 8 with preserves. Qed.
Lemma create_local_user_inv name b l : preserves (holds db_inv) (create_local_user name b l).
Proof.
  unfold create_local_user, new_user, new_uuid, now. session_steps. apply insert_user_inv.
Qed.
Lemma create_remnawave_local_user_inv name short b :
  preserves (holds db_inv) (create_remnawave_local_user name short b).
Proof.
  unfold create_remnawave_local_user, resolve_remnawave_username, new_user, new_uuid, now.
  session_steps. apply insert_user_inv.
Qed.
End invariants.
#[export] Hint Resolve insert_user_inv insert_rw_inv create_local_user_inv
  create_remnawave_local_user_inv : preserves.
