(* ===== verification/Crypto.v ===== *)
(** * Keys, VPN addresses and client configurations

    [panel/backend/app/crypto.py]: key generation, the allocation of the next free host address of
    the VPN subnet, the AmneziaWG client configuration text, its JSON form, the [vpn://] link and
    the QR chunks. The key generator is the environment's; the deflate compressor of [zlib] is a
    parameter. *)
From S2P Require Import Prelude PyStr Json Bytes Models Session.
From Stdlib Require Import Ascii.

(** ** Keys *)
Section keys.
Context `{Env}.

Definition generate_keypair : M (string * string) :=
  let* kp := draw x25519_generate in
  retM (b64encode kp.1, b64encode kp.2).

Definition generate_psk : M string :=
  let* key := draw (fun n => urandom n 32) in
  retM (b64encode key).
End keys.

(** ** IPv4 networks

    What the code uses of [ipaddress] for an IPv4 [VPN_SUBNET] in prefix notation. *)
Record network := mkNetwork { net_address : Z; net_prefixlen : Z }.

Definition parse_octet (s : string) : option Z :=
  if isdigit s && (str_len s <=? 3) &&
     (if startswith s "0" then s == "0" else true) && (int_of_digits s <=? 255)%Z
  then Some (int_of_digits s) else None.

Definition parse_ipv4 (s : string) : option Z :=
  match split_char s "." with
  | [a; b; c; d] =>
      a ← parse_octet a; b ← parse_octet b; c ← parse_octet c; d ← parse_octet d;
      Some (((a * 256 + b) * 256 + c) * 256 + d)%Z
  | _ => None
  end.

Definition parse_prefixlen (s : string) : option Z :=
  if isdigit s && (int_of_digits s <=? 32)%Z then Some (int_of_digits s) else None.

(** [ip_network(s, strict=False)]: host bits are cleared. *)
Definition ip_network (s : string) : outcome network :=
  let parsed :=
    match split_char s "/" with
    | [a] => addr ← parse_ipv4 a; Some (addr, 32)%Z
    | [a; p] => addr ← parse_ipv4 a; len ← parse_prefixlen p; Some (addr, len)
    | _ => None
    end in
  match parsed with
  | Some (addr, len) => Ok (mkNetwork (addr - addr mod 2 ^ (32 - len))%Z len)
  | None => Raise (ValueError (s +:+ " does not appear to be an IPv4 or IPv6 network"))
  end.

(** [network.hosts()]: network and broadcast addresses are left out, except for /31 and /32. *)
Definition net_hosts (n : network) : list Z :=
  let size := (2 ^ (32 - net_prefixlen n))%Z in
  if (net_prefixlen n <? 31)%Z then seqZ (net_address n + 1) (size - 2)
  else seqZ (net_address n) size.

(** [str(address)]. *)
Definition octet (z : Z) (i : nat) : Z := ((z / 256 ^ Z.of_nat i) mod 256)%Z.
Definition ip_str (z : Z) : string :=
  join "." [pretty (octet z 3); pretty (octet z 2); pretty (octet z 1); pretty (octet z 0)].

Fixpoint first_free (used : gset string) (hosts : list Z) : option string :=
  match hosts with
  | [] => None
  | host :: hosts =>
      let ip := ip_str host in
      if decide (ip ∈ used) then first_free used hosts else Some ip
  end.

Definition vpn_hosts (subnet : string) : outcome (list string) :=
  network ← ip_network subnet; Ok (ip_str <$> drop 1 (net_hosts network)).

Definition allocate_ip (subnet : string) (used_ips : gset string) : outcome string :=
  network ← ip_network subnet;
  match first_free used_ips (drop 1 (net_hosts network)) with
  | Some ip => Ok ip
  | None => Raise (RuntimeError ("VPN subnet " +:+ subnet +:+ " is exhausted"))
  end.

(** ** Client configuration *)
Record AWGClientConfig := mkAWGClientConfig {
  private_key : string;
  vpn_ip : string;
  node_public_key : string;
  node_endpoint : string;
  public_key : string;
  jc : Z; jmin : Z; jmax : Z;
  s1 : Z; s2 : Z; s3 : Z; s4 : Z;
  h1 : string; h2 : string; h3 : string; h4 : string;
  i1 : string; i2 : string; i3 : string; i4 : string; i5 : string;
  psk_key : string;
  dns : string;
  mtu : string;
  description : string }.

Definition line (key value : string) : string := key +:+ " = " +:+ value.

Definition build_client_config (config : AWGClientConfig) (dns_override : option string) : string :=
  let lines :=
    ["[Interface]";
     line "Address" (vpn_ip config +:+ "/32");
     line "DNS" (default (dns config) dns_override);
     line "PrivateKey" (private_key config);
     line "Jc" (pretty (jc config));
     line "Jmin" (pretty (jmin config));
     line "Jmax" (pretty (jmax config));
     line "S1" (pretty (s1 config));
     line "S2" (pretty (s2 config));
     line "S3" (pretty (s3 config));
     line "S4" (pretty (s4 config));
     line "H1" (h1 config);
     line "H2" (h2 config);
     line "H3" (h3 config);
     line "H4" (h4 config)]
    ++ ((fun kv => line kv.1 kv.2) <$>
         List.filter (fun kv => truthy_str kv.2)
           [("I1", i1 config); ("I2", i2 config); ("I3", i3 config);
            ("I4", i4 config); ("I5", i5 config)])
    ++ [""; "[Peer]"; line "PublicKey" (node_public_key config)]
    ++ (if truthy_str (psk_key config) then [line "PresharedKey" (psk_key config)] else [])
    ++ ["AllowedIPs = 0.0.0.0/0, ::/0";
        line "Endpoint" (node_endpoint config);
        "PersistentKeepalive = 25"] in
  join newline lines +:+ newline.

(** The parameters both JSON objects carry. *)
Definition awg_params (config : AWGClientConfig) : list (string * json) :=
  [("H1", JStr (h1 config)); ("H2", JStr (h2 config)); ("H3", JStr (h3 config));
   ("H4", JStr (h4 config)); ("I1", JStr (i1 config)); ("I2", JStr (i2 config));
   ("I3", JStr (i3 config)); ("I4", JStr (i4 config)); ("I5", JStr (i5 config));
   ("Jc", JStr (pretty (jc config))); ("Jmax", JStr (pretty (jmax config)));
   ("Jmin", JStr (pretty (jmin config))); ("S1", JStr (pretty (s1 config)));
   ("S2", JStr (pretty (s2 config))); ("S3", JStr (pretty (s3 config)));
   ("S4", JStr (pretty (s4 config)))].

Definition build_amnezia_config_json (config : AWGClientConfig) (compact : bool) : bytes :=
  let '(host, _, port_str) := rpartition (node_endpoint config) ":" in
  let port := if isdigit port_str then int_of_digits port_str else 51820%Z in
  let conf := build_client_config config (Some "$PRIMARY_DNS, $SECONDARY_DNS") in
  let parts := split_char (vpn_ip config) "." in
  let subnet_address := join "." (take 3 parts ++ ["0"]) in
  let last_config := JObj (awg_params config ++
    [("allowed_ips", JArr [JStr "0.0.0.0/0"; JStr "::/0"]);
     ("clientId", JStr (public_key config));
     ("client_ip", JStr (vpn_ip config));
     ("client_priv_key", JStr (private_key config));
     ("client_pub_key", JStr (public_key config));
     ("config", JStr conf);
     ("hostName", JStr host);
     ("mtu", JStr (mtu config));
     ("persistent_keep_alive", JStr "25");
     ("port", JInt port);
     ("psk_key", JStr (psk_key config));
     ("server_pub_key", JStr (node_public_key config))]) in
  let outer := JObj
    [("containers", JArr [JObj
       [("awg", JObj (awg_params config ++
          [("last_config", JStr (if compact then dumps_default last_config
                                 else dumps_indent4 last_config));
           ("port", JStr (pretty port));
           ("protocol_version", JStr "2");
           ("subnet_address", JStr subnet_address);
           ("transport_proto", JStr "udp")]));
        ("container", JStr "amnezia-awg2")]]);
     ("defaultContainer", JStr "amnezia-awg2");
     ("description", JStr (description config));
     ("dns1", JStr (dns config));
     ("dns2", JStr "1.0.0.1");
     ("hostName", JStr host)] in
  encode_ascii (if compact then dumps_compact outer else dumps_indent4 outer).

Definition AMNEZIA_QR_MAGIC : Z := 1984.
Definition AMNEZIA_QR_CHUNK_SIZE : nat := 850.

(** [[data[i : i + size] for i in range(0, len(data), size)]]; the fuel is the length, and each
    chunk takes at least one byte when [size] is positive. *)
Fixpoint chunks_go (fuel size : nat) (data : bytes) : list bytes :=
  match fuel, data with
  | 0, _ => []
  | _, [] => []
  | S fuel, _ => take size data :: chunks_go fuel size (drop size data)
  end.
Definition chunks_of (size : nat) (data : bytes) : list bytes := chunks_go (length data) size data.

(** [struct.pack('>hBBI', magic, total, id, length) + chunk]. *)
Definition qr_packet (total idx : nat) (chunk : bytes) : outcome bytes :=
  magic ← pack_be 2 AMNEZIA_QR_MAGIC;
  total ← pack_be 1 (Z.of_nat total);
  idx ← pack_be 1 (Z.of_nat idx);
  len ← pack_be 4 (Z.of_nat (length chunk));
  Ok (magic ++ total ++ idx ++ len ++ chunk).

Section amnezia.
Context (zlib_compress : bytes → bytes).

Definition framed (json_bytes : bytes) : outcome bytes :=
  len ← pack_be 4 (Z.of_nat (length json_bytes)); Ok (len ++ zlib_compress json_bytes).

Definition build_amnezia_vpn_uri (config : AWGClientConfig) : outcome string :=
  let json_bytes := build_amnezia_config_json config false in
  data ← framed json_bytes; Ok ("vpn://" +:+ urlsafe_b64encode_nopad data).

Definition build_amnezia_qr_chunks (config : AWGClientConfig) : outcome (list string) :=
  let json_bytes := build_amnezia_config_json config true in
  compressed ← framed json_bytes;
  let chunks := chunks_of AMNEZIA_QR_CHUNK_SIZE compressed in
  let total := length chunks in
  map_outcome
    (fun ic => packet ← qr_packet total ic.1 ic.2; Ok (urlsafe_b64encode_nopad packet))
    (imap pair chunks).
End amnezia.

(** ** Address allocation *)
Lemma first_free_spec used hosts :
  match first_free used hosts with
  | Some ip => ∃ pre h post, hosts = pre ++ h :: post ∧ ip = ip_str h ∧ ip ∉ used ∧
                 ∀ x, x ∈ pre → ip_str x ∈ used
  | None => ∀ x, x ∈ hosts → ip_str x ∈ used
  end.
Proof.
  induction hosts as [|h hosts IH]; simpl; [by intros x ?%elem_of_nil|].
  destruct (decide (ip_str h ∈ used)) as [Hin|Hout].
  - destruct (first_free used hosts) as [ip|].
    + destruct IH as (pre & h' & post & -> & -> & Hn & Hpre).
      exists (h :: pre), h', post. split_and!; try done.
      intros x [->|?]%elem_of_cons; auto.
    + intros x [->|?]%elem_of_cons; auto.
  - exists [], h, hosts. split_and!; try done. by intros x ?%elem_of_nil.
Qed.

Lemma allocate_ip_vpn_hosts subnet used ip :
  allocate_ip subnet used = Ok ip →
  ∃ hosts, vpn_hosts subnet = Ok hosts ∧ ip ∈ hosts ∧ ip ∉ used.
Proof.
  unfold allocate_ip, vpn_hosts. destruct (ip_network subnet) as [n|e]; simpl; [|done].
  pose proof (first_free_spec used (drop 1 (net_hosts n))) as Hs.
  destruct (first_free _ _) as [a|]; [|done]. intros [= <-].
  destruct Hs as (pre & h & post & E & -> & Hn & _).
  eexists. split_and!; [done| |done]. rewrite E. apply list_elem_of_fmap_2.
  apply elem_of_app. right. left.
Qed.

(** *** [ip_str] is injective on 32-bit addresses *)
Lemma octet_bound z i : (0 <= octet z i < 256)%Z.
Proof. apply Z.mod_pos_bound. lia. Qed.

Lemma pretty_octet_no_dot z : (0 <= z < 256)%Z → "."%char ∉ of_str (pretty z).
Proof.
  intros Hz. assert (forallb (fun n => negb (existsb (fun c => c == "."%char)
    (of_str (pretty (Z.of_nat n))))) (seq 0 256) = true) as H by (vm_compute; reflexivity).
  rewrite forallb_forall in H. specialize (H (Z.to_nat z)). rewrite in_seq, Z2Nat.id in H by lia.
  specialize (H ltac:(lia)). intros Hin. apply negb_true_iff in H.
  assert (existsb (fun c => c == "."%char) (of_str (pretty z)) = true); [|congruence].
  apply existsb_exists. exists "."%char. split; [by apply list_elem_of_In|].
  by apply bool_decide_eq_true_2.
Qed.

Lemma app_sep_inj (c : ascii) (a b x y : chars) :
  c ∉ a → c ∉ b → a ++ c :: x = b ++ c :: y → a = b ∧ x = y.
Proof.
  revert b. induction a as [|h a IH]; intros b Ha Hb E.
  - destruct b as [|h' b]; simpl in E; [by injection E|]. injection E as <- _.
    by rewrite not_elem_of_cons in Hb; destruct Hb.
  - destruct b as [|h' b]; simpl in E; injection E as <- E.
    + by rewrite not_elem_of_cons in Ha; destruct Ha.
    + rewrite not_elem_of_cons in Ha, Hb.
      destruct (IH b) as [-> ->]; [naive_solver..|done].
Qed.

Lemma of_str_join_cons p q ps :
  of_str (join "." (p :: q :: ps)) = of_str p ++ "."%char :: of_str (join "." (q :: ps)).
Proof. rewrite join_cons by done. by rewrite !of_str_app. Qed.

Lemma ip_str_inj a b :
  (0 <= a < 2 ^ 32)%Z → (0 <= b < 2 ^ 32)%Z → ip_str a = ip_str b → a = b.
Proof.
  intros Ha Hb H%(f_equal of_str). unfold ip_str in H.
  rewrite !of_str_join_cons in H.
  apply app_sep_inj in H as [H3 H]; [|apply pretty_octet_no_dot, octet_bound..].
  apply app_sep_inj in H as [H2 H]; [|apply pretty_octet_no_dot, octet_bound..].
  apply app_sep_inj in H as [H1 H0]; [|apply pretty_octet_no_dot, octet_bound..].
  simpl in H0. apply (inj of_str), (inj pretty) in H0, H1, H2, H3.
  unfold octet in *. change (Z.of_nat 0) with 0%Z in *. change (Z.of_nat 1) with 1%Z in *.
  change (Z.of_nat 2) with 2%Z in *. change (Z.of_nat 3) with 3%Z in *.
  rewrite !Z.pow_1_r, Z.pow_0_r, ?Z.div_1_r in *.
  change (256 ^ 2)%Z with 65536%Z in *. change (256 ^ 3)%Z with 16777216%Z in *.
  Z.div_mod_to_equations. lia.
Qed.

Lemma int_of_digits_nonneg s : (0 <= int_of_digits s)%Z.
Proof.
  unfold int_of_digits. apply (foldl_invariant (fun z => 0 <= z)%Z); [lia|].
  intros z c _ Hz. unfold digit_value. lia.
Qed.

Lemma parse_ipv4_bound s z : parse_ipv4 s = Some z → (0 <= z < 2 ^ 32)%Z.
Proof.
  assert (∀ s z, parse_octet s = Some z → (0 <= z < 256)%Z) as Ho.
  { clear. intros s z. unfold parse_octet. destruct (_ && _)%Z eqn:E; [|done]. intros [= <-].
    apply andb_true_iff in E as [_ E%Z.leb_le]. pose proof (int_of_digits_nonneg s). lia. }
  unfold parse_ipv4. intros H.
  destruct (split_char s ".") as [|a [|b [|c [|d [|]]]]]; try done.
  repeat match type of H with
  | parse_octet ?x ≫= _ = _ =>
      let E := fresh "E" in destruct (parse_octet x) eqn:E; simpl in H; [apply Ho in E|done]
  end.
  injection H as <-. lia.
Qed.

Lemma ip_network_bounds s n :
  ip_network s = Ok n →
  (0 <= net_prefixlen n <= 32 ∧ 0 <= net_address n ∧
   net_address n + 2 ^ (32 - net_prefixlen n) <= 2 ^ 32)%Z.
Proof.
  assert (∀ a len, (0 <= len <= 32 → 0 <= a < 2 ^ 32 →
    0 <= a - a mod 2 ^ (32 - len) ∧ a - a mod 2 ^ (32 - len) + 2 ^ (32 - len) <= 2 ^ 32)%Z) as Hb.
  { intros a len Hlen Ha.
    assert (2 ^ 32 = 2 ^ len * 2 ^ (32 - len))%Z as Hp
      by (rewrite <- Z.pow_add_r by lia; f_equal; lia).
    assert (0 < 2 ^ (32 - len))%Z as Hpos by (apply Z.pow_pos_nonneg; lia).
    rewrite Z.mod_eq by lia. set (q := (a / 2 ^ (32 - len))%Z).
    assert (0 <= q < 2 ^ len)%Z as Hq.
    { split; [apply Z.div_pos; lia|]. apply Z.div_lt_upper_bound; lia. }
    split; nia. }
  unfold ip_network. intros H.
  destruct (split_char s "/") as [|a [|p [|]]]; try done.
  - destruct (parse_ipv4 a) as [addr|] eqn:Ea; simpl in H; [|done].
    injection H as <-. apply parse_ipv4_bound in Ea. cbn [net_prefixlen net_address].
    split; [lia|]. by apply Hb.
  - destruct (parse_ipv4 a) as [addr|] eqn:Ea; simpl in H; [|done].
    destruct (parse_prefixlen p) as [len|] eqn:Ep; simpl in H; [|done].
    injection H as <-. apply parse_ipv4_bound in Ea. cbn [net_prefixlen net_address].
    unfold parse_prefixlen in Ep. destruct (_ && _)%Z eqn:E; [|done]. injection Ep as <-.
    apply andb_true_iff in E as [_ E%Z.leb_le]. pose proof (int_of_digits_nonneg p).
    split; [lia|]. apply Hb; lia.
Qed.

Lemma net_hosts_bound s n z :
  ip_network s = Ok n → z ∈ net_hosts n → (0 <= z < 2 ^ 32)%Z.
Proof.
  intros Hn%ip_network_bounds. unfold net_hosts.
  case_match; rewrite elem_of_seqZ; lia.
Qed.

Lemma vpn_hosts_NoDup subnet hosts : vpn_hosts subnet = Ok hosts → NoDup hosts.
Proof.
  unfold vpn_hosts. destruct (ip_network subnet) as [n|e] eqn:En; simpl; [|done].
  intros [= <-]. apply NoDup_fmap_2_strong.
  - intros x y Hx Hy. apply ip_str_inj; eapply net_hosts_bound; try done;
      rewrite <- (take_drop 1 (net_hosts n)); apply elem_of_app; by right.
  - assert (NoDup (net_hosts n)) as Hnd by (unfold net_hosts; case_match; apply NoDup_seqZ).
    rewrite <- (take_drop 1 (net_hosts n)) in Hnd. by apply NoDup_app in Hnd as (_ & _ & ?).
Qed.

(** The addresses the allocation walks through. *)
Lemma drop_net_hosts n :
  (0 <= net_prefixlen n <= 30)%Z →
  drop 1 (net_hosts n) = seqZ (net_address n + 2) (2 ^ (32 - net_prefixlen n) - 3).
Proof.
  intros Hp. unfold net_hosts. destruct (Z.ltb_spec (net_prefixlen n) 31); [|lia].
  assert (4 <= 2 ^ (32 - net_prefixlen n))%Z as H4.
  { change 4%Z with (2 ^ 2)%Z. apply Z.pow_le_mono_r; lia. }
  rewrite seqZ_cons by lia. cbn [drop]. replace (Z.succ (net_address n + 1)) with (net_address n + 2)%Z by lia.
  replace (Z.pred (2 ^ (32 - net_prefixlen n) - 2)) with (2 ^ (32 - net_prefixlen n) - 3)%Z by lia.
  done.
Qed.

(** ** QR chunks *)
Lemma chunks_go_concat fuel size data :
  0 < size → length data ≤ fuel → concat (chunks_go fuel size data) = data.
Proof.
  intros Hs. revert data. induction fuel as [|fuel IH]; intros data Hd.
  - destruct data; simpl in *; [done|lia].
  - destruct data as [|b data]; [done|]. cbn [chunks_go concat].
    rewrite IH; [apply take_drop|]. rewrite length_drop. simpl in *. lia.
Qed.

Lemma chunks_go_sizes fuel size data :
  Forall (fun c => length c ≤ size) (chunks_go fuel size data).
Proof.
  revert data. induction fuel as [|fuel IH]; intros data; [constructor|].
  destruct data as [|b data]; [constructor|]. constructor; [|apply IH].
  rewrite length_take. lia.
Qed.

Lemma chunks_of_spec size data :
  0 < size →
  concat (chunks_of size data) = data ∧ Forall (fun c => length c ≤ size) (chunks_of size data).
Proof. intros. split; [by apply chunks_go_concat|apply chunks_go_sizes]. Qed.

Lemma pack_be_ok n v :
  (0 <= v < 256 ^ Z.of_nat n)%Z → pack_be n v = Ok (be_bytes n v).
Proof.
  intros [H1 H2]. unfold pack_be.
  destruct (Z.leb_spec 0 v); [|lia]. by destruct (Z.ltb_spec v (256 ^ Z.of_nat n)); [|lia].
Qed.

Lemma pack_be_error n v :
  (256 ^ Z.of_nat n <= v)%Z →
  pack_be n v = Raise (StructError "integer out of range for format").
Proof.
  intros H. unfold pack_be. destruct (Z.ltb_spec v (256 ^ Z.of_nat n)); [lia|].
  by rewrite andb_false_r.
Qed.

(** The reader of the format [app/crypto.py] documents: magic, total, id, data length, data. *)
Definition qr_read (s : string) : option (Z * Z * Z * Z * bytes) :=
  packet ← urlsafe_b64decode_padded s;
  Some (unpack_be (take 2 packet), unpack_be (take 1 (drop 2 packet)),
        unpack_be (take 1 (drop 3 packet)), unpack_be (take 4 (drop 4 packet)), drop 8 packet).

Lemma qr_packet_read total idx chunk :
  is_bytes chunk → (length chunk ≤ AMNEZIA_QR_CHUNK_SIZE)%nat → total < 256 → idx < 256 →
  ∃ packet, qr_packet total idx chunk = Ok packet ∧
    qr_read (urlsafe_b64encode_nopad packet)
    = Some (AMNEZIA_QR_MAGIC, Z.of_nat total, Z.of_nat idx, Z.of_nat (length chunk), chunk).
Proof.
  intros Hc Hlen Ht Hi. unfold qr_packet, AMNEZIA_QR_CHUNK_SIZE in *.
  rewrite (pack_be_ok 2), (pack_be_ok 1 (Z.of_nat total)), (pack_be_ok 1 (Z.of_nat idx)),
    (pack_be_ok 4) by (unfold AMNEZIA_QR_MAGIC; lia).
  cbn [mbind outcome_bind]. eexists. split; [done|]. unfold qr_read.
  rewrite urlsafe_nopad_roundtrip; [|by repeat (apply Forall_app; split; [apply be_bytes_bytes|])].
  change (be_bytes 2 AMNEZIA_QR_MAGIC) with [7; 192]%Z.
  assert (∀ n v, (0 <= v < 256 ^ Z.of_nat n)%Z → unpack_be (be_bytes n v) = v) as Hu.
  { intros n v Hv. unfold unpack_be. rewrite unpack_be_bytes_acc by lia.
    by rewrite Z.mod_small. }
  assert (∀ v l, (0 <= v < 256)%Z → unpack_be (take 1 (be_bytes 1 v ++ l)) = v) as H1.
  { intros v l Hv. etrans; [|apply (Hu 1 v); lia]. done. }
  assert (∀ v l, (0 <= v < 256 ^ 4)%Z → unpack_be (take 4 (be_bytes 4 v ++ l)) = v) as H4.
  { intros v l Hv. etrans; [|apply (Hu 4 v); lia]. done. }
  cbn [mbind option_bind]. apply (f_equal Some). rewrite !pair_equal_spec. split_and!.
  - done.
  - apply (H1 _ (be_bytes 1 (Z.of_nat idx) ++ be_bytes 4 (Z.of_nat (length chunk)) ++ chunk)). lia.
  - apply (H1 _ (be_bytes 4 (Z.of_nat (length chunk)) ++ chunk)). lia.
  - apply (H4 _ chunk). lia.
  - done.
Qed.

(** Reading a scanned set of codes: every header agrees on the total, the ids count up, the lengths
    are those of the data; the data are concatenated. *)
Definition qr_reassemble (codes : list string) : option bytes :=
  parts ← mapM qr_read codes;
  if forallb (fun ip => let '(i, (magic, total, idx, len, data)) := ip in
        (magic == AMNEZIA_QR_MAGIC) && (total == Z.of_nat (length codes)) &&
        (idx == Z.of_nat i) && (len == Z.of_nat (length data))) (imap pair parts)
  then Some (concat (snd <$> parts)) else None.

Lemma qr_encode_ok total chunks :
  total < 256 → length chunks ≤ total →
  Forall is_bytes chunks → Forall (fun c => length c ≤ AMNEZIA_QR_CHUNK_SIZE) chunks →
  ∀ k, k + length chunks ≤ total →
  ∃ codes,
    map_outcome
      (fun ic => packet ← qr_packet total ic.1 ic.2; Ok (urlsafe_b64encode_nopad packet))
      (imap (fun i c => (k + i, c)) chunks) = Ok codes ∧
    mapM qr_read codes = Some (imap (fun i c =>
      (AMNEZIA_QR_MAGIC, Z.of_nat total, Z.of_nat (k + i), Z.of_nat (length c), c)) chunks).
Proof.
  intros Ht _ Hb Hl. induction chunks as [|c chunks IH]; intros k Hk; [by exists []|].
  apply Forall_cons in Hb as [Hc Hb]. apply Forall_cons in Hl as [Hc' Hl].
  destruct (IH Hb Hl (S k)) as (codes & Hm & Hr); [simpl in *; lia|].
  destruct (qr_packet_read total k c) as (packet & Hp & Hrd); [done..|simpl in Hk; lia|].
  exists (urlsafe_b64encode_nopad packet :: codes). cbn [imap map_outcome fst snd].
  rewrite Nat.add_0_r, Hp. cbn [mbind outcome_bind].
  assert (∀ {B} (f g : nat → bytes → B), (∀ i c, f i c = g i c) → imap f chunks = imap g chunks)
    as Hext by (intros B f g Hfg; by apply imap_ext).
  rewrite (Hext _ _ (fun i c => (S k + i, c))) by (intros; simpl; f_equal; lia).
  rewrite Hm. split; [done|]. cbn [mapM mret option_ret mbind option_bind].
  rewrite Hrd. cbn [mbind option_bind]. rewrite Hr. cbn [mbind option_bind mret option_ret].
  apply (f_equal Some). f_equal. apply Hext. intros; simpl. by rewrite Nat.add_succ_r.
Qed.

Section amnezia_theorems.
Context (zlib_compress : bytes → bytes).
Hypothesis zlib_bytes : ∀ l, is_bytes l → is_bytes (zlib_compress l).

Lemma framed_spec json_bytes :
  is_bytes json_bytes →
  framed zlib_compress json_bytes =
    (if (Z.of_nat (length json_bytes) <? 2 ^ 32)%Z
     then Ok (be_bytes 4 (Z.of_nat (length json_bytes)) ++ zlib_compress json_bytes)
     else Raise (StructError "integer out of range for format")) ∧
  is_bytes (be_bytes 4 (Z.of_nat (length json_bytes)) ++ zlib_compress json_bytes).
Proof.
  intros Hj. split.
  - unfold framed. destruct (Z.ltb_spec (Z.of_nat (length json_bytes)) (2 ^ 32)).
    + by rewrite pack_be_ok by lia.
    + by rewrite pack_be_error by lia.
  - apply Forall_app. split; [apply be_bytes_bytes|]. by apply zlib_bytes.
Qed.
End amnezia_theorems.

(** ** Properties *)

Definition sample_config : AWGClientConfig :=
  {| private_key := "cHJpdmF0ZQ=="; vpn_ip := "10.8.0.2"; node_public_key := "bm9kZQ==";
     node_endpoint := "vpn.example.net:443"; public_key := "cHVibGlj"; jc := 4; jmin := 40; jmax := 70;
     s1 := 0; s2 := 0; s3 := 0; s4 := 0; h1 := "1"; h2 := "2"; h3 := "3"; h4 := "4";
     i1 := ""; i2 := ""; i3 := ""; i4 := ""; i5 := ""; psk_key := "cHNr"; dns := "1.1.1.1";
     mtu := "1376"; description := "phone" |}.

(** An address is allocated whenever the VPN subnet has a free one. For a subnet with at least
    four addresses, the allocation returns the lowest host address that is not used, never the
    network address, the first host (the node's own) or the broadcast address; it raises only when
    every one of the [2 ^ (32 - prefix) - 3] addresses is used, so in particular any smaller set of
    used addresses leaves room. *)
Lemma allocate_ip_correct subnet n used :
  ip_network subnet = Ok n → (net_prefixlen n <= 30)%Z →
  let hosts := ip_str <$> seqZ (net_address n + 2) (2 ^ (32 - net_prefixlen n) - 3) in
  NoDup hosts ∧
  match allocate_ip subnet used with
  | Ok ip => ∃ pre post, hosts = pre ++ ip :: post ∧ ip ∉ used ∧ (∀ x, x ∈ pre → x ∈ used)
  | Raise e => (∀ x, x ∈ hosts → x ∈ used) ∧
      e = RuntimeError ("VPN subnet " +:+ subnet +:+ " is exhausted") ∧
      (2 ^ (32 - net_prefixlen n) - 3 <= Z.of_nat (size used))%Z
  end.
Proof.
  intros Hn Hp hosts. pose proof (ip_network_bounds _ _ Hn) as (Hp0 & _).
  assert (vpn_hosts subnet = Ok hosts) as Hv.
  { unfold vpn_hosts. rewrite Hn. cbn [mbind outcome_bind]. by rewrite drop_net_hosts by lia. }
  pose proof (vpn_hosts_NoDup _ _ Hv) as Hnd. split; [done|].
  unfold allocate_ip. rewrite Hn. cbn [mbind outcome_bind]. rewrite drop_net_hosts by lia.
  pose proof (first_free_spec used (seqZ (net_address n + 2) (2 ^ (32 - net_prefixlen n) - 3))) as Hs.
  destruct (first_free _ _) as [ip|].
  - destruct Hs as (pre & h & post & E & -> & Hu & Hpre).
    exists (ip_str <$> pre), (ip_str <$> post). unfold hosts. rewrite E, fmap_app. split_and!; [done..|].
    intros x (y & -> & Hy)%list_elem_of_fmap. by apply Hpre.
  - assert (∀ x, x ∈ hosts → x ∈ used) as Hall.
    { intros x (y & -> & Hy)%list_elem_of_fmap. by apply Hs. }
    split_and!; [done..|].
    assert ((list_to_set hosts : gset string) ⊆ used) as Hsub by set_solver.
    apply subseteq_size in Hsub. rewrite size_list_to_set in Hsub by done.
    unfold hosts in Hsub. rewrite length_fmap, length_seqZ in Hsub. lia.
Qed.

Lemma allocate_ip_correct_witness :
  ip_network "10.8.0.0/29" = Ok (mkNetwork 168296448 29) ∧
  NoDup (ip_str <$> seqZ 168296450 5) ∧
  allocate_ip "10.8.0.0/29" {["10.8.0.2"; "10.8.0.3"]} = Ok "10.8.0.4" ∧
  allocate_ip "10.8.0.0/29" (list_to_set (ip_str <$> seqZ 168296450 5)) = Raise (RuntimeError "VPN subnet 10.8.0.0/29 is exhausted").
Proof.
  assert (ip_network "10.8.0.0/29" = Ok (mkNetwork 168296448 29)) as Hn by (vm_compute; reflexivity).
  split; [exact Hn|]. split; [|split; vm_compute; reflexivity].
  assert (29 <= 30)%Z as Hp by lia.
  exact (proj1 (allocate_ip_correct "10.8.0.0/29" (mkNetwork 168296448 29)
    {["10.8.0.2"; "10.8.0.3"]} Hn Hp)).
Defined.

(** QR codes of a configuration are produced exactly when the framed and compressed configuration
    fits 255 chunks (the total is one byte of the header; past that packing raises), and scanning the
    codes, checking each header and joining the data, gives the framed configuration back byte for
    byte. The compressor is any function from bytes to bytes. *)
Lemma qr_chunks_scan_back zlib_compress config data :
  (∀ l, is_bytes l → is_bytes (zlib_compress l)) →
  framed zlib_compress (build_amnezia_config_json config true) = Ok data →
  (length (chunks_of AMNEZIA_QR_CHUNK_SIZE data) ≤ 255 →
   ∃ codes, build_amnezia_qr_chunks zlib_compress config = Ok codes ∧
     qr_reassemble codes = Some data ∧
     length codes = length (chunks_of AMNEZIA_QR_CHUNK_SIZE data)) ∧
  (255 < length (chunks_of AMNEZIA_QR_CHUNK_SIZE data) →
   build_amnezia_qr_chunks zlib_compress config
   = Raise (StructError "integer out of range for format")).
Proof.
  intros zlib_bytes Hf. pose proof (encode_ascii_bytes) as Henc.
  assert (is_bytes data) as Hdata.
  { destruct (framed_spec zlib_compress zlib_bytes (build_amnezia_config_json config true)) as [E Hb].
    - unfold build_amnezia_config_json. destruct (rpartition _ _) as [[? ?] ?]. apply Henc.
    - rewrite E in Hf. case_match; [|done]. by injection Hf as <-. }
  destruct (chunks_of_spec AMNEZIA_QR_CHUNK_SIZE data) as [Hcat Hsz];
    [unfold AMNEZIA_QR_CHUNK_SIZE; lia|].
  assert (Forall is_bytes (chunks_of AMNEZIA_QR_CHUNK_SIZE data)) as Hbs.
  { apply Forall_forall. intros c Hc. unfold is_bytes. apply Forall_forall. intros b Hb.
    rewrite <- Hcat in Hdata. unfold is_bytes in Hdata. rewrite Forall_forall in Hdata.
    apply Hdata. apply list_elem_of_In, in_concat. exists c.
    by rewrite <- !list_elem_of_In. }
  unfold build_amnezia_qr_chunks. rewrite Hf. cbn [mbind outcome_bind].
  set (chunks := chunks_of AMNEZIA_QR_CHUNK_SIZE data) in *. split; intros Hn.
  - destruct (qr_encode_ok (length chunks) chunks ltac:(lia) ltac:(lia) Hbs Hsz 0 ltac:(lia))
      as (codes & Hm & Hr).
    exists codes. split; [exact Hm|].
    assert (length codes = length chunks) as Hlen.
    { apply length_mapM in Hr. by rewrite length_imap in Hr. }
    split; [|done]. unfold qr_reassemble. rewrite Hr. cbn [mbind option_bind].
    match goal with |- context [forallb ?f ?l] => assert (forallb f l = true) as -> end.
    + apply forallb_forall. intros [i p] Hin%list_elem_of_In.
      apply elem_of_lookup_imap in Hin as (i' & q & [= <- <-] & Hq).
      rewrite list_lookup_imap in Hq. apply fmap_Some in Hq as (c & Hc & ->).
      simpl. rewrite !bool_decide_eq_true_2; [done|by rewrite ?Hlen..].
    + apply (f_equal Some). rewrite <- Hcat. fold chunks. f_equal. rewrite fmap_imap. unfold compose. simpl.
      clear. generalize 0. intros k. induction chunks as [|c cs IH] using rev_ind; [done|].
      by rewrite imap_app, IH.
  - destruct chunks as [|c cs]; [simpl in Hn; lia|]. cbn [imap map_outcome fst snd].
    unfold qr_packet. rewrite (pack_be_ok 2) by (unfold AMNEZIA_QR_MAGIC; lia).
    cbn [mbind outcome_bind]. by rewrite pack_be_error by lia.
Qed.

(** A [vpn://] link carries its configuration: decoding what follows the scheme as URL-safe
    base64 with the padding restored gives the length of the indented JSON configuration in four
    big-endian bytes followed by the compressed configuration. *)
Lemma vpn_uri_decodes zlib_compress config uri :
  (∀ l, is_bytes l → is_bytes (zlib_compress l)) →
  build_amnezia_vpn_uri zlib_compress config = Ok uri →
  let json_bytes := build_amnezia_config_json config false in
  urlsafe_b64decode_padded (removeprefix uri "vpn://")
  = Some (be_bytes 4 (Z.of_nat (length json_bytes)) ++ zlib_compress json_bytes).
Proof.
  intros zlib_bytes. unfold build_amnezia_vpn_uri. set (json_bytes := build_amnezia_config_json config false).
  assert (is_bytes json_bytes) as Hj.
  { unfold json_bytes, build_amnezia_config_json. destruct (rpartition _ _) as [[? ?] ?].
    apply encode_ascii_bytes. }
  destruct (framed_spec zlib_compress zlib_bytes json_bytes Hj) as [-> Hb]. case_match; [|done].
  cbn [mbind outcome_bind]. intros [= <-]. cbv zeta.
  by rewrite removeprefix_app, urlsafe_nopad_roundtrip.
Qed.

Definition sample_framed : bytes :=
  match framed id (build_amnezia_config_json sample_config true) with Ok data => data | Raise _ => [] end.

Lemma qr_chunks_scan_back_witness :
  (∃ codes, build_amnezia_qr_chunks id sample_config = Ok codes ∧
     qr_reassemble codes = Some sample_framed) ∧
  length (chunks_of AMNEZIA_QR_CHUNK_SIZE sample_framed) = 2.
Proof.
  assert (length (chunks_of AMNEZIA_QR_CHUNK_SIZE sample_framed) = 2) as Hlen
    by (vm_compute; reflexivity).
  split; [|exact Hlen].
  destruct (qr_chunks_scan_back id sample_config sample_framed) as [Hok _].
  - intros l Hl. exact Hl.
  - vm_compute. reflexivity.
  - destruct Hok as (codes & H1 & H2 & _); [rewrite Hlen; lia|]. exists codes. split; assumption.
Defined.

Lemma vpn_uri_decodes_witness :
  ∃ uri, build_amnezia_vpn_uri id sample_config = Ok uri ∧
    (let json_bytes := build_amnezia_config_json sample_config false in
     urlsafe_b64decode_padded (removeprefix uri "vpn://")
     = Some (be_bytes 4 (Z.of_nat (length json_bytes)) ++ json_bytes)).
Proof.
  assert (is_ok (build_amnezia_vpn_uri id sample_config) = true) as Hok by (vm_compute; reflexivity).
  destruct (build_amnezia_vpn_uri id sample_config) as [uri|e] eqn:E; [|discriminate Hok].
  exists uri. split; [reflexivity|].
  apply (vpn_uri_decodes id sample_config uri); [intros l Hl; exact Hl|exact E].
Defined.
