(* ===== verification/NodeConfig.v ===== *)
(** * Client configurations, archives and node snapshots

    [panel/backend/app/services/node_config.py]: the builders of client configurations from a
    credential-bearing owner and a node, the names of archive entries, the archive itself as the
    list of its entries, the attachment header, and the desired state sent to a node. *)
From S2P Require Import Prelude PyStr Json Bytes Models Session Sample Crypto.
From Stdlib Require Import Ascii.

(** The protocol [ClientIdentity]: both a [Device] and the legacy key columns of a [User] have it. *)
Class ClientIdentity (A : Type) := {
  ident_id : A → string;
  ident_name : A → string;
  ident_public_key : A → option string;
  ident_private_key : A → option string;
  ident_vpn_ip : A → option string }.

#[export] Instance device_identity : ClientIdentity Device := {
  ident_id := Device_id; ident_name := Device_name; ident_public_key := Device_public_key;
  ident_private_key := Device_private_key; ident_vpn_ip := Device_vpn_ip }.
#[export] Instance user_identity : ClientIdentity User := {
  ident_id := User_id; ident_name := User_name; ident_public_key := User_public_key;
  ident_private_key := User_private_key; ident_vpn_ip := User_vpn_ip }.

Definition NODE_VPN_ADDRESS : string := "10.8.0.1/24".
Definition POST_UP : string :=
  "iptables -t nat -A POSTROUTING -s 10.8.0.0/24 -j MASQUERADE; "
  +:+ "iptables -A FORWARD -i %i -j ACCEPT; iptables -A FORWARD -o %i -j ACCEPT".
Definition POST_DOWN : string :=
  "iptables -t nat -D POSTROUTING -s 10.8.0.0/24 -j MASQUERADE; "
  +:+ "iptables -D FORWARD -i %i -j ACCEPT; iptables -D FORWARD -o %i -j ACCEPT".

(** The AmneziaWG parameters of a node, with their defaults. *)
Record NodeKwargs := mkNodeKwargs {
  kw_jc : Z; kw_jmin : Z; kw_jmax : Z;
  kw_s1 : Z; kw_s2 : Z; kw_s3 : Z; kw_s4 : Z;
  kw_h1 : string; kw_h2 : string; kw_h3 : string; kw_h4 : string;
  kw_i1 : string; kw_i2 : string; kw_i3 : string; kw_i4 : string; kw_i5 : string }.
#[export] Instance NodeKwargs_eq_dec : EqDecision NodeKwargs.
Proof. solve_decision. Defined.

Definition node_kwargs (node : Node) : NodeKwargs := {|
  kw_jc := int_or (Node_jc node) 4;
  kw_jmin := int_or (Node_jmin node) 40;
  kw_jmax := int_or (Node_jmax node) 70;
  kw_s1 := int_or (Node_s1 node) 0;
  kw_s2 := int_or (Node_s2 node) 0;
  kw_s3 := int_or (Node_s3 node) 0;
  kw_s4 := int_or (Node_s4 node) 0;
  kw_h1 := str_or (Node_h1 node) "1";
  kw_h2 := str_or (Node_h2 node) "2";
  kw_h3 := str_or (Node_h3 node) "3";
  kw_h4 := str_or (Node_h4 node) "4";
  kw_i1 := str_or (Node_i1 node) "";
  kw_i2 := str_or (Node_i2 node) "";
  kw_i3 := str_or (Node_i3 node) "";
  kw_i4 := str_or (Node_i4 node) "";
  kw_i5 := str_or (Node_i5 node) "" |}.

Definition node_mtu (node : Node) : string := str_or (Node_mtu node) "1376".

(** [AWGClientConfig(..., **node_kwargs(node))] *)
Definition client_config_with (kw : NodeKwargs)
    (private_key vpn_ip node_public_key node_endpoint public_key psk_key dns mtu description
       : string) : AWGClientConfig :=
  mkAWGClientConfig private_key vpn_ip node_public_key node_endpoint public_key
    (kw_jc kw) (kw_jmin kw) (kw_jmax kw) (kw_s1 kw) (kw_s2 kw) (kw_s3 kw) (kw_s4 kw)
    (kw_h1 kw) (kw_h2 kw) (kw_h3 kw) (kw_h4 kw)
    (kw_i1 kw) (kw_i2 kw) (kw_i3 kw) (kw_i4 kw) (kw_i5 kw)
    psk_key dns mtu description.

Section builders.
Context {I : Type} `{ClientIdentity I}.

(** The credentials both builders need; [None] when one of them is missing or empty. *)
Definition credentials (identity : I) (node : Node) : option (string * string * string * string) :=
  match Node_server_public_key node, Node_server_endpoint node,
        ident_private_key identity, ident_vpn_ip identity with
  | Some spk, Some sep, Some pk, Some ip =>
      if truthy_str spk && truthy_str sep && truthy_str pk && truthy_str ip
      then Some (spk, sep, pk, ip) else None
  | _, _, _, _ => None
  end.

Definition build_awg_client_config (identity : I) (node : Node) (psk_key : string)
    : option string :=
  '(spk, sep, pk, ip) ← credentials identity node;
  Some (build_client_config
    (client_config_with (node_kwargs node) pk ip spk sep "" psk_key "1.1.1.1" "1376" "AmneziaVPN")
    None).

Definition build_amnezia_client_config (identity : I) (node : Node)
    (description psk_key dns : string) : option AWGClientConfig :=
  '(spk, sep, pk, ip) ← credentials identity node;
  Some (client_config_with (node_kwargs node) pk ip spk sep
          (str_or (ident_public_key identity) "") psk_key dns (node_mtu node) description).

Section compressed.
Context (zlib_compress : bytes → bytes).

Definition build_user_amnezia_qr_chunks (identity : I) (node : Node)
    (description psk_key : string) : outcome (option (list string)) :=
  match build_amnezia_client_config identity node description psk_key "1.1.1.1" with
  | Some config => Some <$> build_amnezia_qr_chunks zlib_compress config
  | None => Ok None
  end.

Definition build_user_amnezia_vpn_uri (identity : I) (node : Node)
    (description psk_key : string) : outcome (option string) :=
  match build_amnezia_client_config identity node description psk_key "1.1.1.1" with
  | Some config => Some <$> build_amnezia_vpn_uri zlib_compress config
  | None => Ok None
  end.
End compressed.

Definition build_user_amnezia_config_json (identity : I) (node : Node)
    (description psk_key : string) : option bytes :=
  config ← build_amnezia_client_config identity node description psk_key "1.1.1.1";
  Some (build_amnezia_config_json config false).
End builders.

(** ** Archive entry names *)
Definition archive_safe (c : ascii) : bool :=
  is_upper c || is_lower c || is_digit c || (c isin ["."; "_"; "-"]%char).

(** [re.sub('[^A-Za-z0-9._-]+', '_', raw)]: every maximal run of unsafe characters becomes one
    underscore. *)
Fixpoint collapse_unsafe (in_run : bool) (l : chars) : chars :=
  match l with
  | [] => []
  | c :: l =>
      if archive_safe c then c :: collapse_unsafe false l
      else if in_run then collapse_unsafe true l
      else "_"%char :: collapse_unsafe true l
  end.
Definition sub_unsafe (raw : string) : string := to_str (collapse_unsafe false (of_str raw)).

Definition MAX_ARCHIVE_COMPONENT : nat := 64.
Definition MIN_LOOP_GUARD : nat := 2.

Definition archive_component (raw fallback : string) : string :=
  let cleaned :=
    str_take MAX_ARCHIVE_COMPONENT
      (strip_with (fun c => c isin ["."; "_"]%char) (sub_unsafe raw)) in
  if truthy_str cleaned then cleaned else fallback.

(** The candidate with the given counter: [{stem}-{counter}.{extension}], or [{stem}-{counter}]
    when the preferred name has no dot. *)
Definition archive_candidate (preferred : string) (counter : nat) : string :=
  let '(stem, dot, extension) := rpartition preferred "." in
  if truthy_str dot then stem +:+ "-" +:+ pretty counter +:+ dot +:+ extension
  else preferred +:+ "-" +:+ pretty counter.

(** The [while True] loop. *)
Fixpoint first_candidate (fuel : nat) (used : gset string) (preferred : string) (counter : nat)
    : option string :=
  match fuel with
  | 0 => None
  | S fuel =>
      let candidate := archive_candidate preferred counter in
      if decide (candidate ∈ used) then first_candidate fuel used preferred (S counter)
      else Some candidate
  end.

(** The name and the updated set. The loop meets at most [size used] taken candidates, so
    [size used + 1] rounds are enough ([unique_archive_name_terminates]). *)
Definition unique_archive_name (used : gset string) (preferred : string)
    : option (string * gset string) :=
  if decide (preferred ∈ used) then
    candidate ← first_candidate (S (size used)) used preferred MIN_LOOP_GUARD;
    Some (candidate, {[candidate]} ∪ used)
  else Some (preferred, {[preferred]} ∪ used).

Section entries.
Context {I : Type} `{ClientIdentity I}.

Definition device_archive_folder (device : I) : string :=
  archive_component (ident_name device) "device" +:+ "-" +:+ str_take 8 (ident_id device).

Definition config_entry_name (device : I) (node : Node) (folder : option string) : string :=
  let filename := archive_component (ident_name device) "device" +:+ "-"
                  +:+ archive_component (Node_name node) "node" +:+ ".conf" in
  if truthy folder then default "" folder +:+ "/" +:+ filename else filename.
End entries.

Record ConfigZipEntry := mkConfigZipEntry {
  Entry_device : Device;
  Entry_node : Node;
  Entry_peer : Peer;
  Entry_name : string }.

Definition entry_config (entry : ConfigZipEntry) : option string :=
  build_awg_client_config (Entry_device entry) (Entry_node entry)
    (str_or (Peer_psk_key (Entry_peer entry)) "").

(** One round of the loop over the entries: the names used so far and the archive written so far,
    or [None] if the naming loop never returned. *)
Definition zip_step (acc : option (gset string * list (string * string))) (entry : ConfigZipEntry)
    : option (gset string * list (string * string)) :=
  '(used, archive) ← acc;
  match entry_config entry with
  | Some config =>
      if truthy_str config then
        '(name, used) ← unique_archive_name used (Entry_name entry);
        Some (used, archive ++ [(name, config)])
      else Some (used, archive)
  | None => Some (used, archive)
  end.

Definition build_configs_zip (entries : list ConfigZipEntry) : option (list (string * string)) :=
  snd <$> foldl zip_step (Some (∅, [])) entries.

(** ** Attachment header *)
Definition hex_upper (n : nat) : ascii :=
  if (n <? 10)%nat then ascii_of_nat (48 + n) else ascii_of_nat (55 + n).
Definition percent_byte (n : nat) : chars := ["%"%char; hex_upper (n / 16); hex_upper (n mod 16)].
(** [urllib.parse.quote(s, safe='')]: the UTF-8 bytes of the character, escaped. *)
Definition quote_char (c : ascii) : chars :=
  let n := code c in
  if archive_safe c || (c == "~"%char) then [c]
  else if (n <? 128)%nat then percent_byte n
  else percent_byte (192 + n / 64) ++ percent_byte (128 + n mod 64).
Definition quote (s : string) : string := to_str (concat (quote_char <$> of_str s)).

Definition attachment_headers (filename : string) : string :=
  let stripped := strip_with (fun c => c == "_"%char) (sub_unsafe filename) in
  let fallback := if truthy_str stripped then stripped else "config" in
  "attachment; filename=" +:+ quote_mark +:+ fallback +:+ quote_mark
  +:+ "; filename*=UTF-8''" +:+ quote filename.

(** ** Desired state of a node *)
Record NodeInterface := mkNodeInterface {
  Interface_private_key : option string;
  Interface_address : string;
  Interface_listen_port : Z;
  Interface_kwargs : NodeKwargs;
  Interface_mtu : string;
  Interface_post_up : string;
  Interface_post_down : string }.

Definition node_interface (node : Node) : NodeInterface := {|
  Interface_private_key := Node_private_key node;
  Interface_address := NODE_VPN_ADDRESS;
  Interface_listen_port := int_or (Node_listen_port node) 51820;
  Interface_kwargs := node_kwargs node;
  Interface_mtu := node_mtu node;
  Interface_post_up := POST_UP;
  Interface_post_down := POST_DOWN |}.

Record PeerPayload := mkPeerPayload {
  PP_peer_id : string;
  PP_user_id : string;
  PP_user_name : string;
  PP_device_id : string;
  PP_device_name : string;
  PP_public_key : string;
  PP_allowed_ip : string;
  PP_psk_key : string;
  PP_status : string;
  PP_is_blocked : bool }.
#[export] Instance PeerPayload_eq_dec : EqDecision PeerPayload.
Proof. solve_decision. Defined.

(** [peer_payload(peer)] with the user and the device of the peer. *)
Definition peer_payload (user : User) (device : Device) (peer : Peer) : option PeerPayload :=
  match Device_public_key device, Device_vpn_ip device with
  | Some key, Some ip =>
      if truthy_str key && truthy_str ip then
        Some {| PP_peer_id := Peer_id peer; PP_user_id := User_id user;
                PP_user_name := User_name user; PP_device_id := Device_id device;
                PP_device_name := Device_name device; PP_public_key := key;
                PP_allowed_ip := ip; PP_psk_key := str_or (Peer_psk_key peer) "";
                PP_status := Peer_status peer; PP_is_blocked := User_is_blocked user |}
      else None
  | _, _ => None
  end.

Record NodeSnapshot := mkNodeSnapshot {
  Snapshot_id : string;
  Snapshot_name : string;
  Snapshot_url : string;
  Snapshot_token : string;
  Snapshot_provision_status : string;
  Snapshot_interface : NodeInterface;
  Snapshot_peers : list PeerPayload }.

(** The payload of a peer row: its user and device are the rows its foreign keys name, which
    [db_wf] provides. *)
Definition db_peer_payload (d : db) (peer : Peer) : option PeerPayload :=
  user ← users d !! Peer_user_id peer;
  device ← devices d !! Peer_device_id peer;
  peer_payload user device peer.

Definition node_snapshot (d : db) (node : Node) (peers : list Peer) : NodeSnapshot := {|
  Snapshot_id := Node_id node;
  Snapshot_name := Node_name node;
  Snapshot_url := Node_url node;
  Snapshot_token := Node_token node;
  Snapshot_provision_status := Node_provision_status node;
  Snapshot_interface := node_interface node;
  Snapshot_peers := omap (db_peer_payload d) peers |}.

(** ** Archive names are safe *)
Lemma collapse_unsafe_safe b l : Forall (fun c => archive_safe c = true) (collapse_unsafe b l).
Proof.
  revert b. induction l as [|c l IH]; intros b; simpl; [constructor|].
  destruct (archive_safe c) eqn:E; [by constructor|].
  destruct b; [done|]. constructor; [reflexivity|done].
Qed.

Lemma Forall_rstrip (P : ascii → Prop) f l : Forall P l → Forall P (rstrip_with f l).
Proof.
  intros H. unfold rstrip_with. destruct (lstrip_with_suffix f (rev l)) as (k & E & _).
  apply Forall_forall. intros x Hx. rewrite Forall_forall in H. apply H.
  rewrite list_elem_of_In, in_rev, E, <- list_elem_of_In.
  apply elem_of_app. right. by rewrite list_elem_of_In, in_rev, <- list_elem_of_In.
Qed.
Lemma Forall_lstrip (P : ascii → Prop) f l : Forall P l → Forall P (lstrip_with f l).
Proof.
  intros H. destruct (lstrip_with_suffix f l) as (k & E & _).
  rewrite E in H. by apply Forall_app in H as [_ ?].
Qed.

(** Right-stripping keeps the first character of what it does not empty. *)
Lemma head_rstrip f l a k : rstrip_with f l = a :: k → head l = Some a.
Proof.
  unfold rstrip_with. intros H. destruct (lstrip_with_suffix f (rev l)) as (p & E & _).
  apply (f_equal (@rev _)) in E. rewrite rev_involutive, rev_app_distr, H in E.
  by rewrite E.
Qed.

(** What an archive component looks like: at most 64 safe characters, starting with neither a dot
    nor an underscore, so it is not empty, not [.] or [..] and has no separator. *)
Definition safe_component (s : string) : Prop :=
  Forall (fun c => archive_safe c = true) (of_str s) ∧ str_len s ≤ MAX_ARCHIVE_COMPONENT ∧
  ∃ c k, of_str s = c :: k ∧ c ≠ "."%char ∧ c ≠ "_"%char.

Lemma archive_component_spec raw fallback :
  safe_component fallback → safe_component (archive_component raw fallback).
Proof.
  intros Hf. unfold archive_component. py_case; [|done].
  unfold str_take, strip_with, sub_unsafe, safe_component in *. rewrite !of_to_str in *.
  pose proof (collapse_unsafe_safe false (of_str raw)) as Hs.
  set (l := collapse_unsafe false (of_str raw)) in *.
  set (f := fun c => c isin ["."; "_"]%char) in *.
  split_and!.
  - apply Forall_take. apply Forall_rstrip, Forall_lstrip, Hs.
  - unfold str_len. rewrite of_to_str, length_take. lia.
  - destruct (rstrip_with f (lstrip_with f l)) as [|c k] eqn:E; [done|].
    apply head_rstrip in E. destruct (lstrip_with f l) as [|c' k'] eqn:E'; [done|].
    injection E as ->. apply lstrip_with_head in E'. unfold f in E'. py_bool.
    rewrite !not_elem_of_cons in E'. exists c, (take 63 k). naive_solver.
Qed.

Lemma safe_device : safe_component "device".
Proof.
  split; [repeat constructor|]. split; [unfold str_len; simpl; unfold MAX_ARCHIVE_COMPONENT; lia|].
  by eexists _, _.
Qed.
Lemma safe_node : safe_component "node".
Proof.
  split; [repeat constructor|]. split; [unfold str_len; simpl; unfold MAX_ARCHIVE_COMPONENT; lia|].
  by eexists _, _.
Qed.

Lemma archive_safe_no_slash l : Forall (fun c => archive_safe c = true) l → "/"%char ∉ l.
Proof. intros H Hin. rewrite Forall_forall in H. by apply H in Hin. Qed.

Lemma archive_component_no_slash raw fallback :
  safe_component fallback → "/"%char ∉ of_str (archive_component raw fallback).
Proof. intros H. by apply archive_safe_no_slash, archive_component_spec. Qed.

(** ** Unique names *)
Lemma archive_candidate_inj preferred : Inj (=) (=) (archive_candidate preferred).
Proof.
  intros a b. unfold archive_candidate. destruct (rpartition preferred ".") as [[stem dot] ext].
  destruct (truthy_str dot); intros H.
  - do 2 apply str_app_inj_l in H. apply str_app_inj_r in H. by apply (inj pretty) in H.
  - do 2 apply str_app_inj_l in H. by apply (inj pretty) in H.
Qed.

Lemma first_candidate_spec fuel used preferred counter :
  match first_candidate fuel used preferred counter with
  | Some name => name ∉ used ∧ ∃ n, counter ≤ n ∧ name = archive_candidate preferred n ∧
                   ∀ m, counter ≤ m < n → archive_candidate preferred m ∈ used
  | None => ∀ m, counter ≤ m < counter + fuel → archive_candidate preferred m ∈ used
  end.
Proof.
  revert counter. induction fuel as [|fuel IH]; intros counter; simpl; [lia|].
  destruct (decide (archive_candidate preferred counter ∈ used)) as [Hin|Hout].
  - specialize (IH (S counter)). destruct (first_candidate fuel used preferred (S counter)).
    + destruct IH as (Hn & n & Hle & -> & Hm). split; [done|]. exists n. split_and!; [lia|done|].
      intros m Hm'. destruct (decide (m = counter)) as [->|]; [done|]. apply Hm. lia.
    + intros m Hm. destruct (decide (m = counter)) as [->|]; [done|]. apply IH. lia.
  - split; [done|]. exists counter. split_and!; [lia|done|lia].
Qed.

Lemma first_candidate_total used preferred counter :
  is_Some (first_candidate (S (size used)) used preferred counter).
Proof.
  pose proof (first_candidate_spec (S (size used)) used preferred counter) as H.
  destruct (first_candidate _ _ _ _) as [name|]; [by eexists|]. exfalso.
  assert ((list_to_set (archive_candidate preferred <$> seq counter (S (size used)))
    : gset string) ⊆ used) as Hsub.
  { intros x Hx. apply elem_of_list_to_set, list_elem_of_fmap in Hx as (m & -> & Hm).
    apply elem_of_seq in Hm. apply H. lia. }
  apply subseteq_size in Hsub. rewrite size_list_to_set in Hsub.
  - rewrite length_fmap, length_seq in Hsub. lia.
  - apply NoDup_fmap_2; [apply archive_candidate_inj|apply NoDup_seq].
Qed.

Lemma unique_archive_name_spec used preferred :
  ∃ name, unique_archive_name used preferred = Some (name, {[name]} ∪ used) ∧ name ∉ used ∧
    (preferred ∉ used → name = preferred).
Proof.
  unfold unique_archive_name. destruct (decide (preferred ∈ used)) as [Hin|Hout].
  - destruct (first_candidate_total used preferred MIN_LOOP_GUARD) as [name Hname].
    pose proof (first_candidate_spec (S (size used)) used preferred MIN_LOOP_GUARD) as H.
    rewrite Hname in H |- *. simpl. exists name. split_and!; [done|by destruct H|done].
  - by exists preferred.
Qed.

(** ** The archive *)
Lemma build_client_config_nonempty config o : truthy_str (build_client_config config o) = true.
Proof. done. Qed.

Lemma build_awg_client_config_nonempty {A : Type} `{!ClientIdentity A} (identity : A) node psk config :
  build_awg_client_config identity node psk = Some config → truthy_str config = true.
Proof.
  unfold build_awg_client_config. destruct (credentials identity node) as [[[[? ?] ?] ?]|]; [|done].
  cbn [mbind option_bind]. by intros [= <-].
Qed.

Lemma build_configs_zip_gen entries used archive :
  list_to_set archive.*1 = used → NoDup archive.*1 →
  ∃ used' added, foldl zip_step (Some (used, archive)) entries = Some (used', archive ++ added) ∧
    NoDup (archive ++ added).*1 ∧ added.*2 = omap entry_config entries ∧
    (NoDup (Entry_name <$> entries) → (∀ e, e ∈ entries → Entry_name e ∉ used) →
     added = omap (fun e => (Entry_name e,.) <$> entry_config e) entries).
Proof.
  revert used archive. induction entries as [|e entries IH]; intros used archive Hu Hn; simpl.
  { exists used, []. rewrite app_nil_r. done. }
  destruct (entry_config e) as [config|] eqn:Ec; cbn [mbind option_bind].
  - pose proof (build_awg_client_config_nonempty _ _ _ _ Ec) as ->.
    destruct (unique_archive_name_spec used (Entry_name e)) as (name & -> & Hnew & Hpref).
    cbn [mbind option_bind].
    destruct (IH ({[name]} ∪ used) (archive ++ [(name, config)])) as (u' & added & -> & Hnd & Hc & Hi).
    { rewrite fmap_app, list_to_set_app_L, Hu. simpl. set_solver. }
    { rewrite fmap_app. simpl. apply NoDup_app. split_and!; [done| |apply NoDup_singleton].
      intros x Hx ->%list_elem_of_singleton. apply Hnew. rewrite <- Hu. set_solver. }
    exists u', ((name, config) :: added). rewrite <- !app_assoc in *. simpl in *.
    split_and!; [done|done|by f_equal|].
    intros Hnd' Hfresh. apply NoDup_cons in Hnd' as [Hni Hnd'].
    rewrite <- (Hpref ltac:(apply Hfresh; left)). f_equal. apply Hi; [done|].
    intros x Hx. rewrite not_elem_of_union, not_elem_of_singleton. split.
    + intros E. apply Hni. rewrite <- (Hpref ltac:(apply Hfresh; left)), <- E.
      by apply list_elem_of_fmap_2.
    + apply Hfresh. by right.
  - destruct (IH used archive Hu Hn) as (u' & added & E & Hnd & Hc & Hi).
    exists u', added. split_and!; [done..|]. intros Hnd' Hfresh.
    apply NoDup_cons in Hnd' as [_ Hnd']. apply Hi; [done|]. intros x Hx. apply Hfresh. by right.
Qed.

(** A configuration is built exactly when the four credentials are there. *)
Lemma credentials_Some {A : Type} `{!ClientIdentity A} (identity : A) node :
  is_Some (credentials identity node) ↔
  truthy (Node_server_public_key node) = true ∧ truthy (Node_server_endpoint node) = true ∧
  truthy (ident_private_key identity) = true ∧ truthy (ident_vpn_ip identity) = true.
Proof.
  unfold credentials, truthy.
  destruct (Node_server_public_key node) as [a|], (Node_server_endpoint node) as [b|],
    (ident_private_key identity) as [c|], (ident_vpn_ip identity) as [e|];
    try (split; [by intros [? ?]|by intros (? & ? & ? & ?)]).
  destruct (truthy_str a), (truthy_str b), (truthy_str c), (truthy_str e); simpl;
    split; try done; try (by intros [? ?]); by intros (? & ? & ? & ?).
Qed.

Lemma build_awg_client_config_is_Some {A : Type} `{!ClientIdentity A} (identity : A) node psk :
  is_Some (build_awg_client_config identity node psk) ↔ is_Some (credentials identity node).
Proof.
  unfold build_awg_client_config. destruct (credentials identity node) as [[[[? ?] ?] ?]|];
    cbn [mbind option_bind]; split; intros [? ?]; try done; by eexists.
Qed.

(** A component followed by anything still starts with a character that is neither a dot nor an
    underscore. *)
Definition confined (s : string) : Prop :=
  "/"%char ∉ of_str s ∧ ∃ c k, of_str s = c :: k ∧ c ≠ "."%char.

Lemma component_confined raw fallback rest :
  safe_component fallback → "/"%char ∉ of_str rest →
  confined (archive_component raw fallback +:+ rest).
Proof.
  intros Hf Hr. destruct (archive_component_spec raw fallback Hf) as (Hs & _ & c & k & E & Hdot & _).
  split; rewrite of_str_app.
  - rewrite not_elem_of_app. split; [by apply archive_safe_no_slash|done].
  - exists c, (k ++ of_str rest). by rewrite E.
Qed.

(** ** Properties *)

(** The archive of configurations is complete and has no duplicate entry. Building it always
    terminates; it holds, in order, exactly one entry per configuration that can be built from its
    rows (the others are skipped, none is empty), all entry names differ, and when the requested
    names already differ they are used as they are. *)
Lemma configs_zip_complete entries :
  ∃ archive, build_configs_zip entries = Some archive ∧ NoDup archive.*1 ∧
    archive.*2 = omap entry_config entries ∧ (∀ name, (name, "") ∉ archive) ∧
    (NoDup (Entry_name <$> entries) →
     archive = omap (fun e => (Entry_name e,.) <$> entry_config e) entries).
Proof.
  destruct (build_configs_zip_gen entries ∅ []) as (u & added & E & Hnd & Hc & Hi);
    [done|constructor|].
  exists added. unfold build_configs_zip. rewrite E. split_and!; [done..| |].
  - intros name Hin. assert ("" ∈ added.*2) as H by (apply list_elem_of_fmap; by exists (name, "")).
    rewrite Hc in H. apply list_elem_of_omap in H as (e & _ & He).
    by apply build_awg_client_config_nonempty in He.
  - intros H. apply Hi; [done|]. set_solver.
Qed.

(** An archive entry can only land directly inside its own device's folder, whatever the device
    and the node are called. The file name and the folder have no separator and do not start with a
    dot; inside a folder the entry is that folder, one separator, and the same file name; and two
    devices share a folder only when the first eight characters of their ids agree. *)
Lemma archive_entry_confined `{ClientIdentity A} (device other : A) (node : Node) :
  "/"%char ∉ of_str (str_take 8 (ident_id device)) →
  let folder := device_archive_folder device in
  let file := config_entry_name device node None in
  confined file ∧ confined folder ∧
  config_entry_name device node (Some folder) = folder +:+ "/" +:+ file ∧
  (8 ≤ str_len (ident_id device) → 8 ≤ str_len (ident_id other) →
   device_archive_folder other = folder →
   str_take 8 (ident_id other) = str_take 8 (ident_id device)).
Proof.
  intros Hid folder file.
  assert (confined folder) as Hfold.
  { apply component_confined; [apply safe_device|]. rewrite of_str_app, not_elem_of_app.
    split; [by apply (bool_decide_eq_true_1 _)|done]. }
  split_and!.
  - apply component_confined; [apply safe_device|]. rewrite !of_str_app.
    rewrite !not_elem_of_app. split_and!; [by apply (bool_decide_eq_true_1 _)| |].
    + by apply archive_component_no_slash, safe_node.
    + by apply (bool_decide_eq_true_1 _).
  - done.
  - unfold config_entry_name at 1. destruct (truthy (Some folder)) eqn:E; [done|]. exfalso.
    destruct Hfold as (_ & c & k & E' & _). unfold truthy in E. by destruct folder.
  - intros H1 H2 E%(f_equal of_str). unfold folder, device_archive_folder in E.
    rewrite !of_str_app, !app_assoc in E. apply app_inj_2 in E as [_ E].
    + by apply (inj of_str).
    + unfold str_take. rewrite !of_to_str, !length_take. unfold str_len in *. lia.
Qed.

Definition hostile_device : Device :=
  (sample_device "dev-1234-abcd" "u" None None) <| Device_name := "../e" |>.

Lemma archive_entry_confined_witness :
  config_entry_name hostile_device ((sample_node "n") <| Node_name := "a/b" |>) None = "e-a_b.conf" ∧
  confined (device_archive_folder hostile_device) ∧
  device_archive_folder hostile_device = "e-dev-1234".
Proof.
  split; [vm_compute; reflexivity|]. split; [|vm_compute; reflexivity].
  assert ("/"%char ∉ of_str (str_take 8 (ident_id hostile_device))) as Hid
    by (apply (bool_decide_eq_true_1 _); vm_compute; reflexivity).
  exact (proj1 (proj2 (archive_entry_confined hostile_device hostile_device (sample_node "n") Hid))).
Defined.
