(* ===== verification/AccountPolicy.v ===== *)
(** * Standing of an account

    [panel/backend/app/services/account_policy.py] and the read side of
    [services/local_lifecycle.py]: whether an account may use its devices. [now()] is an argument of
    the pure functions; the operations read it from the environment. *)
From S2P Require Import Prelude PyStr Models Session.

(** ** Local lifecycle *)
Definition aware (value : option datetime) : option datetime :=
  match value with
  | Some t => if dt_offset t == None then Some (replace_utc t) else Some t
  | None => None
  end.

(** [a <= b] on aware datetimes. *)
Definition dt_le (a b : datetime) : bool := (instant a <=? instant b)%Z.

Definition local_user_expired (user : User) (observed_at : datetime) : bool :=
  match aware (User_expire_at user) with
  | None => false
  | Some expire_at => dt_le expire_at observed_at
  end.

Definition local_user_limited (user : User) (local_total_bytes : Z) : bool :=
  (0 <? User_traffic_limit_bytes user)%Z && (User_traffic_limit_bytes user <=? local_total_bytes)%Z.

Definition local_user_blocked_reason (at_ : datetime) (user : User) (local_total_bytes : Z)
    : option string :=
  if local_user_expired user at_ then Some "expired"
  else if local_user_limited user local_total_bytes then Some "limited"
  else if (User_lifecycle_status user == "blocked") || User_is_blocked user then Some "blocked"
  else None.

(** [int(total or 0)] of the owner's lifetime aggregate. *)
Definition load_local_total_bytes (d : db) (user_id : string) : Z :=
  match user_lifetime d !! user_id with
  | Some row => UserLifetime_total_bytes row
  | None => 0
  end.

(** ** Account status *)
Record AccountStatus := mkStatus { Status_code : string; Status_reason : option string }.
#[export] Instance AccountStatus_eq_dec : EqDecision AccountStatus.
Proof. solve_decision. Defined.

Definition REMNAWAVE_STATUS_CODES : list (string * AccountStatus) :=
  [("DISABLED", mkStatus "blocked" (Some "disabled"));
   ("LIMITED", mkStatus "limited" (Some "limited"));
   ("EXPIRED", mkStatus "expired" (Some "expired"))].
Definition LOCAL_REASON_CODES : list (string * string) :=
  [("blocked", "blocked"); ("limited", "limited"); ("expired", "expired")].
Definition ACTIVE_STATUS : AccountStatus := mkStatus "active" None.

Definition local_account_status (at_ : datetime) (user : User) (local_total_bytes : Z)
    : AccountStatus :=
  match local_user_blocked_reason at_ user local_total_bytes with
  | None => ACTIVE_STATUS
  | Some r => mkStatus (default "blocked" (dict_get LOCAL_REASON_CODES r)) (Some r)
  end.

Definition remnawave_account_status (at_ : datetime) (row : RemnawaveUser)
    (local_total_bytes : Z) : AccountStatus :=
  if (Rw_delete_requested_at row != None) || (Rw_sync_status row isin ["missing"; "stale"])
  then mkStatus "blocked" (Some "deleted")
  else match dict_get REMNAWAVE_STATUS_CODES (Rw_status row) with
  | Some status => status
  | None =>
      if (0 <? Rw_traffic_limit_bytes row)%Z &&
         (Rw_traffic_limit_bytes row <=? Rw_traffic_used_bytes row + local_total_bytes)%Z
      then mkStatus "limited" (Some "limited")
      else match aware (Rw_expire_at row) with
      | Some expire_at =>
          if dt_le expire_at at_ then mkStatus "expired" (Some "expired") else ACTIVE_STATUS
      | None => ACTIVE_STATUS
      end
  end.

Definition account_status (at_ : datetime) (user : User) (local_total_bytes : Z)
    (remnawave : option RemnawaveUser) : AccountStatus :=
  match remnawave with
  | None => local_account_status at_ user local_total_bytes
  | Some row =>
      let status := remnawave_account_status at_ row local_total_bytes in
      if Status_code status != "active" then status
      else if User_is_blocked user then mkStatus "blocked" (Some "blocked")
      else status
  end.

(** The status the tables give an owner at an instant. *)
Definition db_account_status (at_ : datetime) (d : db) (user : User) : AccountStatus :=
  account_status at_ user (load_local_total_bytes d (User_id user)) (remnawave_of d (User_id user)).

Section with_env.
Context `{Env}.

Definition fresh_account_status (user_id : string) : M AccountStatus :=
  let* user := reads (fun d => users d !! user_id) in
  match user with
  | None => raise (ValueError ("user " +:+ user_id +:+ " not found"))
  | Some user => let* t := now in reads (fun d => db_account_status t d user)
  end.

Definition require_active_owner (user_id : string) : M unit :=
  let* status := fresh_account_status user_id in
  if Status_code status != "active" then raise (AccountInactiveError (Status_code status) (Status_reason status))
  else retM tt.
End with_env.

(** ** What the status says *)

(** A profile's status restricts an account, with a reason, or is [active]. *)
Lemma remnawave_account_status_code at_ row total :
  let status := remnawave_account_status at_ row total in
  Status_code status ∈ ["active"; "blocked"; "limited"; "expired"] ∧
  (status ≠ ACTIVE_STATUS → is_Some (Status_reason status)) ∧
  (Status_code status = "active" → status = ACTIVE_STATUS).
Proof.
  cbv zeta. unfold remnawave_account_status, REMNAWAVE_STATUS_CODES. cbn [dict_get].
  repeat py_case; split_and!; try done; try (by intros _; eexists); apply (bool_decide_eq_true_1 _);
    simplify_eq; reflexivity.
Qed.

Lemma remnawave_account_status_active at_ row total :
  remnawave_account_status at_ row total = ACTIVE_STATUS ↔
  Rw_delete_requested_at row = None ∧ Rw_sync_status row ∉ ["missing"; "stale"] ∧
  Rw_status row ∉ ["DISABLED"; "LIMITED"; "EXPIRED"] ∧
  ¬ (0 < Rw_traffic_limit_bytes row <= Rw_traffic_used_bytes row + total)%Z ∧
  match aware (Rw_expire_at row) with Some t => dt_le t at_ = false | None => True end.
Proof.
  unfold remnawave_account_status, REMNAWAVE_STATUS_CODES. cbn [dict_get].
  destruct (bool_decide_reflect (Rw_delete_requested_at row = None)) as [->|]; [|naive_solver].
  destruct (bool_decide_reflect (Rw_sync_status row ∈ ["missing"; "stale"])); [naive_solver|].
  cbn [negb orb].
  assert (∀ x (l : list string), x = Rw_status row → x ∈ l → Rw_status row ∉ l → False) as Hin by (intros x l <-; auto).
  do 3 (case_bool_decide;
        [split; [done|]; intros (_ & _ & Hn & _); exfalso; eapply Hin; [done| |exact Hn];
         apply (bool_decide_eq_true_1 _); reflexivity|]).
  assert (Rw_status row ∉ ["DISABLED"; "LIMITED"; "EXPIRED"]) as Hs
    by (rewrite !not_elem_of_cons; split_and!; auto using not_elem_of_nil).
  destruct (Z.ltb_spec 0 (Rw_traffic_limit_bytes row)),
    (Z.leb_spec (Rw_traffic_limit_bytes row) (Rw_traffic_used_bytes row + total));
    cbn [andb]; try (split; [done|]; intros (_ & _ & _ & ? & _); lia).
  all: assert (¬ (0 < Rw_traffic_limit_bytes row <= Rw_traffic_used_bytes row + total)%Z) as Hl by lia.
  all: destruct (aware (Rw_expire_at row)) as [t|]; [destruct (dt_le t at_)|]; split; try done.
  all: intros (_ & _ & _ & _ & ?); done.
Qed.

(** The block flag of a Remnawave-managed account is never lost: the account is active only if the
    profile is and the flag is not set. *)
Lemma account_status_remnawave at_ user total row :
  Status_code (account_status at_ user total (Some row)) = "active" ↔
  Status_code (remnawave_account_status at_ row total) = "active" ∧ User_is_blocked user = false.
Proof.
  unfold account_status.
  destruct (bool_decide_reflect (Status_code (remnawave_account_status at_ row total) = "active")) as [E|E];
    simpl.
  - destruct (User_is_blocked user); simpl; naive_solver.
  - naive_solver.
Qed.

(** The block flag always makes an account inactive. *)
Lemma account_active_not_blocked at_ user total remnawave :
  Status_code (account_status at_ user total remnawave) = "active" → User_is_blocked user = false.
Proof.
  destruct remnawave as [row|]; [by rewrite account_status_remnawave; intros [_ ?]|].
  unfold account_status, local_account_status, local_user_blocked_reason.
  destruct (local_user_expired user at_), (local_user_limited user total); try done.
  by destruct (User_lifecycle_status user == "blocked"), (User_is_blocked user).
Qed.

Lemma require_active_owner_inv `{Env} (P : db → Prop) uid :
  preserves (holds P) (require_active_owner uid).
Proof.
  unfold require_active_owner, fresh_account_status, now.
  apply preserves_bind; [|intros st; destruct (_ != _); eauto with preserves].
  apply preserves_bind; [eauto with preserves|]. intros [u|]; eauto with preserves.
Qed.
#[export] Hint Resolve require_active_owner_inv : preserves.

(** ** Properties *)

