(* ===== verification/Devices.v ===== *)
(** * Devices and peers

    [panel/backend/app/services/devices.py]: device creation under the owner lock, the device
    limit, address allocation and release, deletion by tombstone, provisioning of pending peers, and
    the readiness rules of the admin API and the public page. Reads are functions of the tables,
    writes return the changed tables, and the operations that draw keys or may raise run in a
    session. *)
From S2P Require Import Prelude PyStr Json Bytes Models Session Sample Crypto AccountPolicy.

Definition DEFAULT_DEVICE_NAME : string := "Default".
Definition MAX_IP_ALLOCATION_ATTEMPTS : nat := 5.
Definition PENDING_CONFIG_DETAIL : string := "Configuration not yet available".
Definition DELETING_DEVICE_STATUS : string := "deleting".

(** ** Limits *)
Definition resolve_effective_device_limit (local_device_limit imported_hwid_device_limit : option Z)
    (is_remnawave_managed : bool) : option Z :=
  if is_remnawave_managed then
    let imported := default 0%Z imported_hwid_device_limit in
    if (0 <? imported)%Z then Some imported else None
  else
    let local := default 0%Z local_device_limit in
    if (0 <? local)%Z then Some local else None.

(** The limit of an owner whose profile is already loaded. *)
Definition owner_effective_device_limit (user : User) (remnawave : option RemnawaveUser)
    : option Z :=
  resolve_effective_device_limit (Some (User_device_limit user))
    (match remnawave with Some r => Rw_hwid_device_limit r | None => None end)
    (match remnawave with Some _ => true | None => false end).

(** The same limit read with an outer join; [None] also when the owner does not exist. *)
Definition effective_device_limit (d : db) (user_id : string) : option Z :=
  match users d !! user_id with
  | None => None
  | Some user =>
      let joined := remnawave_of d user_id in
      resolve_effective_device_limit (Some (User_device_limit user))
        (r ← joined; Rw_hwid_device_limit r) (bool_decide (is_Some (Rw_id <$> joined)))
  end.

Definition is_live (v : Device) : bool := Device_deleted_at v == None.

Definition count_live_devices (d : db) (user_id : string) : Z :=
  Z.of_nat (length (select (fun v => (Device_user_id v == user_id) && is_live v) (devices d))).

Definition assert_device_capacity (d : db) (user_id : string) : outcome unit :=
  match effective_device_limit d user_id with
  | None => Ok tt
  | Some limit =>
      let current := count_live_devices d user_id in
      if (limit <=? current)%Z then Raise (DeviceLimitExceededError limit current) else Ok tt
  end.

Definition list_live_devices (d : db) (user_id : string) : list Device :=
  order_by (fun v => instant (Device_created_at v)) Device_id
    (select (fun v => (Device_user_id v == user_id) && is_live v) (devices d)).

(** The in-memory twin of the count, on loaded rows. *)
Definition live_devices (devs : list Device) : list Device := List.filter is_live devs.

Definition get_legacy_default_device (d : db) (user_id : string) : option Device :=
  head (order_by (fun v => instant (Device_created_at v)) Device_id
    (select (fun v => (Device_user_id v == user_id) && Device_is_legacy_default v) (devices d))).

Definition tombstoned_device_ids (d : db) (device_ids : list string) : gset string :=
  list_to_set (List.filter (fun did =>
    match devices d !! did with Some v => negb (is_live v) | None => false end)
    (List.filter truthy_str device_ids)).

(** ** Addresses *)
Definition reserved_ips (d : db) : gset string :=
  list_to_set (omap (fun v =>
    match Device_vpn_ip v with Some ip => if truthy_str ip then Some ip else None | None => None end)
    (rows (devices d))).

Definition catch_exhausted (subnet : string) (o : outcome string) : outcome string :=
  match o with
  | Raise (RuntimeError _) => Raise (DeviceIpPoolExhaustedError subnet)
  | o => o
  end.

Definition release_device_ip (at_ : datetime) (device : Device) (d : db) : bool * db :=
  match Device_vpn_ip device with
  | Some ip =>
      if negb (is_live device) && truthy_str ip then
        let statuses := Peer_status <$> peers_of_device d (Device_id device) in
        if forallb (fun s => s == "deleted") statuses then
          (true, update_device (device <| Device_released_vpn_ip := Some ip |>
                                       <| Device_ip_released_at := Some at_ |>
                                       <| Device_vpn_ip := None |>) d)
        else (false, d)
      else (false, d)
  | None => (false, d)
  end.

(** The devices with one of the ids, in id order, each released if that is safe. *)
Definition release_one (at_ : datetime) (acc : gset string * db) (did : string)
    : gset string * db :=
  match devices acc.2 !! did with
  | Some device =>
      let '(released, d) := release_device_ip at_ device acc.2 in
      (if released then {[did]} ∪ acc.1 else acc.1, d)
  | None => acc
  end.
Definition release_rows (at_ : datetime) (ids : gset string) (d : db) : gset string * db :=
  foldl (release_one at_) (∅, d) (sorted_strings (List.filter truthy_str (elements ids))).

Definition is_vpn_ip_conflict (exc : exn) : bool :=
  contains (exn_text exc) "uq_devices_vpn_ip" || contains (exn_text exc) "devices.vpn_ip".

(** ** Deletion

    What [delete_device] writes once the owner, device and peer rows are locked. *)
Definition mark_removal (acc : gset string * db) (peer : Peer) : gset string * db :=
  if Peer_status peer isin ["pending"; "active"] then
    ({[Peer_node_id peer]} ∪ acc.1, update_peer (peer <| Peer_status := "pending_delete" |>) acc.2)
  else acc.

Definition delete_device_rows (deleted_at released_at : datetime) (device_id : string) (d : db)
    : gset string * db :=
  match devices d !! device_id with
  | None => (∅, d)
  | Some locked_device =>
      let locked_device :=
        if is_live locked_device then locked_device <| Device_deleted_at := Some deleted_at |>
        else locked_device in
      let d := update_device locked_device d in
      let locked_peers := order_by (fun _ => 0%Z) Peer_id (peers_of_device d device_id) in
      let '(affected_node_ids, d) := foldl mark_removal (∅, d) locked_peers in
      (affected_node_ids, (release_device_ip released_at locked_device d).2)
  end.

Section with_env.
Context `{Env}.

(** The owner row is locked: other sessions may commit before it is read. *)
Definition lock_user_row (user_id : string) : M (option User) :=
  do* lock_wait in reads (fun d => users d !! user_id).

Definition lock_owner (user_id : string) : M User :=
  let* user := lock_user_row user_id in
  match user with
  | None => raise (ValueError ("user " +:+ user_id +:+ " not found"))
  | Some user => retM user
  end.

Definition allocate_device_ip : M string :=
  let* reserving := reads reserved_ips in
  lift (catch_exhausted VPN_SUBNET (allocate_ip VPN_SUBNET reserving)).

Definition release_device_ips (ids : gset string) (at_ : option datetime) : M (gset string) :=
  if decide (ids = ∅) then retM ∅ else
  do* lock_wait in
  let* t := now in
  transact (release_rows (default t at_) ids).

(** [db.add(device); await db.flush()] in a savepoint. *)
Definition insert_device (device : Device) : M unit :=
  let* violation := reads (fun d => device_violation d device) in
  match violation with
  | Some constraint => raise (IntegrityError constraint)
  | None => modify (update_device device)
  end.

Fixpoint insert_device_attempts (attempts : nat) (user_id name public_key private_key : string)
    : M Device :=
  match attempts with
  | 0 => raise (DeviceIpAllocationError (Z.of_nat MAX_IP_ALLOCATION_ATTEMPTS))
  | S attempts =>
      let* vpn_ip := allocate_device_ip in
      let* device_id := new_uuid in
      let* created_at := now in
      let device := {|
        Device_id := device_id; Device_user_id := user_id; Device_name := name;
        Device_public_key := Some public_key; Device_private_key := Some private_key;
        Device_vpn_ip := Some vpn_ip; Device_released_vpn_ip := None;
        Device_ip_released_at := None; Device_is_legacy_default := false;
        Device_deleted_at := None; Device_created_at := created_at |} in
      do* race in
      let* inserted := try_except (do* savepoint (insert_device device) in retM true)
        (fun exc =>
           match exc with
           | IntegrityError _ => if is_vpn_ip_conflict exc then retM false else raise exc
           | _ => raise exc
           end) in
      if inserted then retM device
      else insert_device_attempts attempts user_id name public_key private_key
  end.
Definition insert_device_with_unique_ip : string → string → string → string → M Device :=
  insert_device_attempts MAX_IP_ALLOCATION_ATTEMPTS.

Definition insert_peer (peer : Peer) : M unit :=
  let* violation := reads (fun d => peer_violation d peer) in
  match violation with
  | Some constraint => raise (IntegrityError constraint)
  | None => modify (update_peer peer)
  end.

Definition create_pending_peer (node_id : string) (device : Device) : M bool :=
  if negb (is_live device) then retM false else
  let* existing := reads (fun d => existsb (fun p =>
    (Peer_node_id p == node_id) && (Peer_device_id p == Device_id device)) (rows (peers d))) in
  if (existing : bool) then retM false else
  if negb (truthy (Device_public_key device)) || negb (truthy (Device_vpn_ip device))
  then retM false else
  let* psk_key := generate_psk in
  let* peer_id := new_uuid in
  let* created_at := now in
  let peer := {|
    Peer_id := peer_id; Peer_node_id := node_id; Peer_user_id := Device_user_id device;
    Peer_device_id := Device_id device; Peer_created_at := created_at;
    Peer_status := "pending"; Peer_psk_key := Some psk_key; Peer_raw_rx := None;
    Peer_raw_tx := None; Peer_last_handshake := None; Peer_endpoint := None |} in
  do* race in
  try_except (do* savepoint (insert_peer peer) in retM true)
    (fun exc => match exc with IntegrityError _ => retM false | _ => raise exc end).

Definition create_pending_peers_for_device (device : Device) (node_ids : option (list string))
    : M (gset string) :=
  let* node_list := reads (fun d => default (Node_id <$> rows (nodes d)) node_ids) in
  for_fold (fun created node_id =>
    let* ok := create_pending_peer node_id device in
    retM (if (ok : bool) then {[node_id]} ∪ created else created)) ∅ node_list.

(** Live devices with usable material whose owner is not blocked. *)
Definition provisionable_devices (d : db) : list Device :=
  select (fun v =>
    is_live v && (Device_public_key v != None) && (Device_vpn_ip v != None) &&
    match users d !! Device_user_id v with
    | Some u => negb (User_is_blocked u)
    | None => false
    end) (devices d).

Definition create_pending_peers_for_node (node_id : string) : M (gset string) :=
  let* devs := reads provisionable_devices in
  for_fold (fun created device =>
    let* ok := create_pending_peer node_id device in
    retM (if (ok : bool) then {[Device_id device]} ∪ created else created)) ∅ devs.

Definition restore_missing_peers_for_user (user_id : string) : M (gset string) :=
  let* devs := reads (fun d => list_live_devices d user_id) in
  for_fold (fun created device =>
    let* more := create_pending_peers_for_device device None in
    retM (created ∪ more)) ∅ devs.

Definition create_device (user_id name : string) : M (Device * gset string) :=
  do* lock_owner user_id in
  do* require_active_owner user_id in
  let* capacity := reads (fun d => assert_device_capacity d user_id) in
  do* lift capacity in
  let* keys := generate_keypair in
  let '(private_key, public_key) := keys in
  let* device := insert_device_with_unique_ip user_id name public_key private_key in
  let* node_ids := create_pending_peers_for_device device None in
  retM (device, node_ids).

(** The locks are taken owner, device, peers; nothing is written before the last one. *)
Definition delete_device (device : Device) (at_ : option datetime) : M (gset string) :=
  do* lock_user_row (Device_user_id device) in
  do* lock_wait in
  do* lock_wait in
  let* t := now in
  let* t' := now in
  transact (delete_device_rows (default t at_) t' (Device_id device)).

Definition delete_device_by_id (device_id : string) : M (option Device * gset string) :=
  let* device := reads (fun d => devices d !! device_id) in
  match device with
  | None => retM (None, ∅)
  | Some device =>
      let* affected := delete_device device None in retM (Some device, affected)
  end.
End with_env.

(** ** Readiness *)
Definition get_device_peer (d : db) (device_id node_id : string) : option Peer :=
  head (select (fun p => (Peer_device_id p == device_id) && (Peer_node_id p == node_id)) (peers d)).

Definition node_metadata_cached (node : Node) : bool :=
  truthy (Node_server_public_key node) && truthy (Node_server_endpoint node).

Definition device_credentials_ready (device : Device) : bool :=
  truthy (Device_private_key device) && truthy (Device_public_key device) &&
  truthy (Device_vpn_ip device).

Definition peer_available (node : Node) (device : Device) (peer : option Peer) : bool :=
  is_live device &&
  match peer with
  | Some p => (Peer_status p == "active") && node_metadata_cached node &&
              device_credentials_ready device
  | None => false
  end.

Definition node_status (node : Node) (device : Device) (peer : option Peer) : string :=
  let deleting := match peer with Some p => Peer_status p isin DELETING_PEER_STATUSES
                  | None => false end in
  let waiting := match peer with Some p => Peer_status p == "pending" | None => true end in
  if deleting then DELETING_DEVICE_STATUS
  else if Node_sync_status node == "failed" then "error"
  else if waiting then "pending"
  else if peer_available node device peer then "ready"
  else "pending".

Definition aggregate_device_status (statuses : list string) (any_ready : bool) : string :=
  if any_ready then "ready"
  else if "ready" isin statuses then "ready"
  else if "error" isin statuses then "error"
  else if (statuses != []) && forallb (fun s => s == DELETING_DEVICE_STATUS) statuses
  then DELETING_DEVICE_STATUS
  else "pending".

(** Peers by device id, then node id; a later peer of the same pair replaces an earlier one. *)
Definition peers_by_device (ps : list Peer) : gmap string (gmap string Peer) :=
  foldl (fun grouped p =>
    <[Peer_device_id p := <[Peer_node_id p := p]> (default ∅ (grouped !! Peer_device_id p))]> grouped)
    ∅ ps.

Record DeviceNodeAvailability := mkAvailability {
  Availability_node_id : string;
  Availability_node_name : string;
  Availability_status : string;
  Availability_ready : bool }.

Definition device_node_availability (device : Device) (node_list : list Node)
    (peer_by_node_id : gmap string Peer) : list DeviceNodeAvailability :=
  (fun node =>
     let peer := peer_by_node_id !! Node_id node in
     {| Availability_node_id := Node_id node; Availability_node_name := Node_name node;
        Availability_status := node_status node device peer;
        Availability_ready := peer_available node device peer |}) <$> node_list.

Record AdminDevice := mkAdminDevice {
  AdminDevice_id : string;
  AdminDevice_name : string;
  AdminDevice_vpn_ip : option string;
  AdminDevice_is_legacy_default : bool;
  AdminDevice_created_at : datetime;
  AdminDevice_status : string;
  AdminDevice_nodes : list DeviceNodeAvailability }.

Definition device_view (node_list : list Node) (grouped : gmap string (gmap string Peer))
    (device : Device) : AdminDevice :=
  let entries :=
    device_node_availability device node_list (default ∅ (grouped !! Device_id device)) in
  {| AdminDevice_id := Device_id device; AdminDevice_name := Device_name device;
     AdminDevice_vpn_ip := Device_vpn_ip device;
     AdminDevice_is_legacy_default := Device_is_legacy_default device;
     AdminDevice_created_at := Device_created_at device;
     AdminDevice_status := aggregate_device_status (Availability_status <$> entries)
                             (existsb Availability_ready entries);
     AdminDevice_nodes := entries |}.

Definition device_views (devs : list Device) (node_list : list Node) (ps : list Peer)
    : list AdminDevice :=
  let grouped := peers_by_device ps in device_view node_list grouped <$> devs.

Definition live_device_views (d : db) (user_id : string) : list AdminDevice :=
  let devs := list_live_devices d user_id in
  match devs with
  | [] => []
  | _ =>
      device_views devs (order_by_str Node_name Node_id (rows (nodes d)))
        (select (fun p => Peer_device_id p isin (Device_id <$> devs)) (peers d))
  end.

(** ** Release of addresses *)
Lemma elem_of_peers_of_device d did p :
  p ∈ peers_of_device d did ↔ (∃ k, peers d !! k = Some p) ∧ Peer_device_id p = did.
Proof. unfold peers_of_device. rewrite elem_of_select. by rewrite bool_decide_eq_true. Qed.

Lemma is_live_false v : is_live v = false ↔ Device_deleted_at v ≠ None.
Proof. unfold is_live. by rewrite bool_decide_eq_false. Qed.
Lemma is_live_true v : is_live v = true ↔ Device_deleted_at v = None.
Proof. unfold is_live. by rewrite bool_decide_eq_true. Qed.

(** The condition under which an address may go back to the pool. *)
Definition releasable (d : db) (v : Device) : Prop :=
  Device_deleted_at v ≠ None ∧ truthy (Device_vpn_ip v) = true ∧
  ∀ k p, peers d !! k = Some p → Peer_device_id p = Device_id v → Peer_status p = "deleted".

Definition released (at_ : datetime) (v : Device) : Device :=
  v <| Device_released_vpn_ip := Device_vpn_ip v |> <| Device_ip_released_at := Some at_ |>
    <| Device_vpn_ip := None |>.

Lemma release_device_ip_cases at_ v d :
  (releasable d v ∧ release_device_ip at_ v d = (true, update_device (released at_ v) d)) ∨
  (¬ releasable d v ∧ release_device_ip at_ v d = (false, d)).
Proof.
  unfold release_device_ip, releasable, released.
  destruct (Device_vpn_ip v) as [ip|] eqn:Ev; [|right; simpl; split; [naive_solver|done]].
  destruct (is_live v) eqn:El; simpl.
  { right. split; [|done]. apply is_live_true in El. naive_solver. }
  destruct (truthy_str ip) eqn:Et; simpl; [|right; split; [naive_solver|done]].
  destruct (forallb _ _) eqn:Ef.
  - left. split; [|done]. split; [by apply is_live_false|]. split; [done|].
    intros k p Hp Hd. rewrite forallb_forall in Ef.
    assert (Peer_status p ∈ Peer_status <$> peers_of_device d (Device_id v)) as Hin.
    { apply list_elem_of_fmap_2, elem_of_peers_of_device. eauto. }
    apply list_elem_of_In, Ef in Hin. by py_bool.
  - right. split; [|done]. intros (_ & _ & Hall).
    assert (forallb (fun s => s == "deleted") (Peer_status <$> peers_of_device d (Device_id v))
            = true); [|congruence].
    apply forallb_forall. intros s Hs%list_elem_of_In.
    apply list_elem_of_fmap in Hs as (p & -> & [[k Hk] Hp]%elem_of_peers_of_device).
    apply bool_decide_eq_true. eauto.
Qed.

Lemma same_device_released at_ v : same_device v (released at_ v).
Proof. unfold same_device; simpl. auto. Qed.

Lemma update_device_inv d v w :
  db_inv d → devices d !! Device_id v = Some v → same_device v w →
  Device_deleted_at w = Device_deleted_at v → db_inv (update_device w d).
Proof.
  intros [Hwf HT] Hv Hs Hd. split; [by eapply update_device_wf|].
  eapply update_device_tombstones; try done. by destruct Hs.
Qed.

Lemma release_device_ip_inv at_ v d :
  db_inv d → devices d !! Device_id v = Some v → db_inv (release_device_ip at_ v d).2.
Proof.
  intros Hd Hv. destruct (release_device_ip_cases at_ v d) as [[_ ->]|[_ ->]]; [|done].
  simpl. by eapply update_device_inv; [..|apply same_device_released|].
Qed.

Lemma release_one_inv at_ acc did : db_inv acc.2 → db_inv (release_one at_ acc did).2.
Proof.
  intros Hd. unfold release_one. destruct (devices acc.2 !! did) as [v|] eqn:Ev; [|done].
  assert (Device_id v = did) as Hid by (by apply (wf_device_id _ (proj1 Hd))).
  pose proof (release_device_ip_inv at_ v acc.2 Hd) as H. rewrite Hid in H.
  specialize (H Ev). by destruct (release_device_ip at_ v acc.2).
Qed.

Lemma release_rows_inv at_ ids d : db_inv d → db_inv (release_rows at_ ids d).2.
Proof.
  intros Hd. unfold release_rows.
  apply (foldl_invariant (fun acc => db_inv acc.2)); [done|]. intros; by apply release_one_inv.
Qed.

(** ** Deletion *)
Definition removal_status (p : Peer) : string :=
  if Peer_status p isin ["pending"; "active"] then "pending_delete" else Peer_status p.
Definition mark (p : Peer) : Peer := p <| Peer_status := removal_status p |>.

Lemma mark_id p : Peer_id (mark p) = Peer_id p.
Proof. done. Qed.
Lemma mark_device p : Peer_device_id (mark p) = Peer_device_id p.
Proof. done. Qed.
Lemma mark_same p : same_peer p (mark p).
Proof. done. Qed.
Lemma mark_not_live p : Peer_status (mark p) ∉ LIVE_PEER_STATUSES.
Proof.
  simpl. unfold removal_status. case_match; [literal_in|]. by py_bool.
Qed.
Lemma mark_dead p : Peer_status p ∉ LIVE_PEER_STATUSES → mark p = p.
Proof.
  intros H. unfold mark, removal_status. rewrite bool_decide_eq_false_2 by done. by destruct p.
Qed.

Lemma removal_status_live p : Peer_status p ≠ removal_status p ↔ Peer_status p ∈ LIVE_PEER_STATUSES.
Proof.
  unfold removal_status. case_bool_decide as H; [|tauto]. split; [done|].
  intros _ E. rewrite E in H. revert H. literal_in.
Qed.

Lemma mark_removal_eq acc p : mark_removal acc p = set_status removal_status acc p.
Proof.
  unfold mark_removal, set_status. pose proof (removal_status_live p) as H.
  unfold removal_status in *. destruct (bool_decide_reflect (Peer_status p ∈ ["pending"; "active"]))
    as [Hl|Hl].
  - rewrite bool_decide_eq_false_2; [done|]. by apply H.
  - by rewrite bool_decide_eq_true_2.
Qed.

Lemma mark_removal_fold (d : db) ps s0 :
  (∀ p, p ∈ ps → peers d !! Peer_id p = Some p) →
  let r := foldl mark_removal (s0, d) ps in
  r.2 = d <| peers := peers r.2 |> ∧
  (∀ k, peers r.2 !! k = if decide (k ∈ Peer_id <$> ps) then mark <$> peers d !! k
                         else peers d !! k) ∧
  (∀ nid, nid ∈ r.1 ↔ nid ∈ s0 ∨
     ∃ p, p ∈ ps ∧ Peer_status p ∈ LIVE_PEER_STATUSES ∧ Peer_node_id p = nid).
Proof.
  intros Hps. assert (∀ acc, foldl mark_removal acc ps = foldl (set_status removal_status) acc ps)
    as E by (clear; induction ps as [|p ps IH]; intros acc; simpl; [done|]; by rewrite mark_removal_eq).
  rewrite !E. destruct (set_status_fold removal_status d ps s0 Hps) as (H1 & H2 & H3).
  split_and!; [done|done|]. intros nid. rewrite H3. by setoid_rewrite removal_status_live.
Qed.

(** The tables after a deletion, in one equation per table. *)
Section delete_device_rows.
Context (d : db) (t t' : datetime) (did : string) (v : Device).
Hypothesis Hwf : db_wf d.
Hypothesis Hv : devices d !! did = Some v.

Definition tombstoned : Device :=
  if is_live v then v <| Device_deleted_at := Some t |> else v.
Definition marked_peers : gmap string Peer :=
  (fun p => if Peer_device_id p == did then mark p else p) <$> peers d.

Lemma tombstoned_facts :
  Device_id tombstoned = did ∧ Device_deleted_at tombstoned ≠ None ∧
  same_device v tombstoned ∧ Device_vpn_ip tombstoned = Device_vpn_ip v.
Proof.
  assert (Device_id v = did) by (by apply (wf_device_id _ Hwf)). unfold tombstoned, same_device.
  destruct (is_live v) eqn:E; simpl; [by auto 10|].
  apply is_live_false in E. by auto 10.
Qed.

Lemma delete_device_rows_eq :
  ∃ affected,
    delete_device_rows t t' did d =
    (affected, (release_device_ip t' tombstoned
                  (d <| devices := <[did := tombstoned]> (devices d) |>
                     <| peers := marked_peers |>)).2) ∧
    ∀ nid, nid ∈ affected ↔ ∃ k p, peers d !! k = Some p ∧ Peer_device_id p = did ∧
                              Peer_status p ∈ LIVE_PEER_STATUSES ∧ Peer_node_id p = nid.
Proof.
  unfold delete_device_rows. rewrite Hv. fold tombstoned.
  destruct tombstoned_facts as (Hid & _).
  set (d1 := update_device tombstoned d).
  set (ps := order_by (fun _ => 0%Z) Peer_id (peers_of_device d1 did)).
  assert (∀ p, p ∈ ps ↔ (∃ k, peers d !! k = Some p) ∧ Peer_device_id p = did) as Hps.
  { intros p. unfold ps. by rewrite elem_of_order_by, elem_of_peers_of_device. }
  destruct (mark_removal_fold d1 ps ∅) as (Hr & Hp & Hn).
  { intros p [[k Hk] _]%Hps. by rewrite (wf_peer_id _ Hwf _ _ Hk). }
  destruct (foldl mark_removal (∅, d1) ps) as [affected d2]. simpl in *.
  exists affected. split.
  - f_equal. f_equal. f_equal. rewrite Hr. unfold d1, update_device. rewrite Hid. simpl.
    enough (peers d2 = marked_peers) as -> by done.
    apply map_eq. intros k. rewrite Hp. unfold marked_peers. rewrite lookup_fmap.
    destruct (peers d !! k) as [p|] eqn:Ek; simpl; [|by case_decide].
    assert (k ∈ Peer_id <$> ps ↔ Peer_device_id p = did) as Hiff.
    { rewrite list_elem_of_fmap. split.
      - intros (q & -> & [[k' Hk'] <-]%Hps). rewrite (wf_peer_id _ Hwf _ _ Hk') in Ek. congruence.
      - intros Hd. exists p. split; [by rewrite (wf_peer_id _ Hwf _ _ Ek)|]. apply Hps. eauto. }
    case_decide; case_bool_decide; try done; tauto.
  - intros nid. rewrite Hn. split.
    + intros [?%elem_of_empty|(p & [[k Hk] Hd]%Hps & Hl & <-)]; [done|]. by exists k, p.
    + intros (k & p & Hk & Hd & Hl & <-). right. exists p. rewrite Hps. eauto.
Qed.
End delete_device_rows.

Lemma delete_device_rows_inv d t t' did : db_inv d → db_inv (delete_device_rows t t' did d).2.
Proof.
  intros [Hwf HT]. destruct (devices d !! did) as [v|] eqn:Hv;
    [|unfold delete_device_rows; by rewrite Hv].
  destruct (delete_device_rows_eq d t t' did v Hwf Hv) as (aff & -> & _). cbn [snd].
  destruct (tombstoned_facts d t did v Hwf Hv) as (Hid & Hdel & Hsame & _).
  assert (Device_id v = did) as Hvid by (by apply (wf_device_id _ Hwf)).
  apply release_device_ip_inv; [|simpl; rewrite Hid; apply lookup_insert_eq].
  split.
  - change (marked_peers d did) with
      ((fun p => if Peer_device_id p == did then mark p else p) <$>
        peers (d <| devices := <[did:=tombstoned t v]> (devices d) |>)).
    apply map_peers_wf.
    + rewrite <- Hid. eapply update_device_wf; [done| |done]. by rewrite Hvid.
    + intros p. case_match; [apply mark_same|done].
  - intros k p w. simpl. unfold marked_peers. rewrite lookup_fmap.
    intros (q & Hq & ->)%fmap_Some. case_bool_decide as Hd.
    + intros _ _. apply mark_not_live.
    + rewrite lookup_insert_ne by done. intros Hw Hwd. eauto.
Qed.

(** After a deletion: the device is tombstoned and keeps its keys, none of its peers is live, the
    nodes returned are those that had a live peer, and every other device and peer is unchanged. *)
Lemma delete_device_rows_effect d t t' did v :
  db_wf d → devices d !! did = Some v →
  let d' := (delete_device_rows t t' did d).2 in
  (∃ v', devices d' !! did = Some v' ∧ Device_deleted_at v' ≠ None ∧
     Device_public_key v' = Device_public_key v ∧ Device_private_key v' = Device_private_key v ∧
     Device_user_id v' = Device_user_id v) ∧
  (∀ k p, peers d' !! k = Some p → Peer_device_id p = did → Peer_status p ∉ LIVE_PEER_STATUSES) ∧
  (∀ k, k ≠ did → devices d' !! k = devices d !! k) ∧
  (∀ k p, peers d !! k = Some p → Peer_device_id p ≠ did → peers d' !! k = Some p) ∧
  (∀ k, is_Some (peers d' !! k) ↔ is_Some (peers d !! k)).
Proof.
  intros Hwf Hv. destruct (delete_device_rows_eq d t t' did v Hwf Hv) as (aff & -> & _). cbn [snd].
  destruct (tombstoned_facts d t did v Hwf Hv) as (Hid & Hdel & Hsame & Hip).
  set (d1 := _ <| peers := _ |>).
  assert (∃ v', (release_device_ip t' (tombstoned t v) d1).2
     = d1 <| devices := <[did := v']> (devices d1) |> ∧ Device_deleted_at v' ≠ None ∧
     Device_public_key v' = Device_public_key v ∧ Device_private_key v' = Device_private_key v ∧
     Device_user_id v' = Device_user_id v) as (v' & -> & Hv').
  { destruct (release_device_ip_cases t' (tombstoned t v) d1) as [[_ ->]|[_ ->]]; cbn [snd].
    - exists (released t' (tombstoned t v)). split; [unfold update_device; cbn; by rewrite Hid|].
      unfold tombstoned in *. destruct (is_live v); simpl; done.
    - exists (tombstoned t v). split.
      + unfold d1. cbn. by rewrite insert_insert_eq.
      + unfold tombstoned in *. destruct (is_live v); simpl; done. }
  simpl. split_and!.
  - exists v'. by rewrite lookup_insert_eq.
  - intros k p. unfold marked_peers. rewrite lookup_fmap. intros (q & Hq & ->)%fmap_Some.
    case_bool_decide; [|done]. intros _. apply mark_not_live.
  - intros k Hk. by rewrite !lookup_insert_ne.
  - intros k p Hp Hd. unfold marked_peers. rewrite lookup_fmap, Hp. simpl.
    by rewrite bool_decide_eq_false_2.
  - intros k. unfold marked_peers. by rewrite lookup_fmap, fmap_is_Some.
Qed.

(** Deleting a device a second time finds nothing left to do. *)
Lemma delete_device_rows_idempotent d t1 t1' t2 t2' did :
  db_wf d →
  let d' := (delete_device_rows t1 t1' did d).2 in
  db_wf d' → delete_device_rows t2 t2' did d' = (∅, d').
Proof.
  intros Hwf d' Hwf'. destruct (devices d !! did) as [v|] eqn:Hv; last first.
  { unfold d', delete_device_rows. rewrite !Hv. cbn [snd]. by rewrite Hv. }
  destruct (delete_device_rows_effect d t1 t1' did v Hwf Hv)
    as ((v' & Hv' & Hdel & _) & Hlive & _). fold d' in Hv', Hlive.
  destruct (delete_device_rows_eq d' t2 t2' did v' Hwf' Hv') as (aff & -> & Haff).
  assert (aff = ∅) as ->.
  { apply set_eq. intros nid. rewrite Haff, elem_of_empty. split; [|done].
    intros (k & p & Hp & Hd & Hl & _). by eapply Hlive. }
  f_equal. assert (tombstoned t2 v' = v') as ->.
  { unfold tombstoned. by rewrite (proj2 (is_live_false v') Hdel). }
  assert (marked_peers d' did = peers d') as ->.
  { apply map_eq. intros k. unfold marked_peers. rewrite lookup_fmap.
    destruct (peers d' !! k) as [p|] eqn:Ek; [|done]. simpl.
    case_bool_decide; [|done]. rewrite mark_dead; [done|]. eauto. }
  rewrite insert_id by done.
  assert (d' <| devices := devices d' |> <| peers := peers d' |> = d') as -> by (by destruct d').
  destruct (release_device_ip_cases t2' v' d') as [[Hrel _]|[_ ->]]; [|done]. exfalso.
  (* whatever could be released was released by the first deletion *)
  revert Hv' Hrel. unfold d'.
  destruct (delete_device_rows_eq d t1 t1' did v Hwf Hv) as (aff & -> & _). cbn [snd].
  destruct (tombstoned_facts d t1 did v Hwf Hv) as (Hid & _).
  set (d1 := _ <| peers := _ |>).
  destruct (release_device_ip_cases t1' (tombstoned t1 v) d1) as [[_ ->]|[Hn ->]]; cbn [snd].
  - unfold update_device. simpl. rewrite Hid, lookup_insert_eq.
    intros [= <-] (_ & Ht & _). done.
  - unfold d1 at 1. simpl. rewrite lookup_insert_eq. by intros [= <-].
Qed.

(** ** Provisioning keeps the invariants

    [J] is any further property of the tables that other sessions and peer inserts keep; a caller
    that needs none takes [fun _ => True]. *)
Section provisioning.
Context `{EnvLaws} (J : db → Prop).
Hypothesis J_raced : ∀ n d, J d → J (raced n d).
Hypothesis J_peer : ∀ p d, J d → J (update_peer p d).

(** The invariant, [J], and some devices this session knows to be in the tables. *)
Definition knows (devs : list Device) (s : session) : Prop :=
  holds db_inv s ∧ J (work s) ∧ ∀ v, v ∈ devs → devices (work s) !! Device_id v = Some v.

Lemma knows_draw {A} (f : nat → A) devs : preserves (knows devs) (draw f).
Proof. by intros s (? & ? & ?). Qed.
Lemma knows_race devs : preserves (knows devs) race.
Proof.
  intros s ([Hw Hc] & HJ & Hd). split_and!; [split; simpl; by apply raced_inv|by apply J_raced|].
  intros v Hv. simpl. by apply raced_devices, Hd.
Qed.
Lemma knows_savepoint {A} (m : M A) devs :
  preserves (knows devs) m → preserves (knows devs) (savepoint m).
Proof.
  intros Hm s Hs. unfold savepoint. pose proof (Hm s Hs) as ([Hw Hc] & HJ & Hd).
  destruct Hs as ([Hs _] & HJ' & Hd'). by destruct (m s) as [[a|e] s'].
Qed.

Lemma insert_peer_knows devs p :
  (∃ v, v ∈ devs ∧ Peer_device_id p = Device_id v ∧ is_live v = true) →
  preserves (knows devs) (insert_peer p).
Proof.
  intros (v & Hv & Hp & Hl). apply preserves_bind_reads. intros s ([Hw Hc] & HJ & Hd).
  destruct (peer_violation (work s) p) eqn:E; [done|].
  split_and!; [|by apply J_peer|done]. split; [|done]. simpl. destruct Hw as [Hwf HT].
  split; [by apply insert_peer_wf|]. apply insert_peer_tombstones; [done|].
  intros w. rewrite Hp, (Hd v Hv). intros [= <-]. by apply is_live_true.
Qed.

Lemma create_pending_peer_knows devs node_id v :
  v ∈ devs → preserves (knows devs) (create_pending_peer node_id v).
Proof.
  intros Hv. unfold create_pending_peer, generate_psk, new_uuid, now.
  destruct (is_live v) eqn:Hl; simpl; [|apply preserves_ret].
  apply preserves_bind; [apply preserves_reads|]. intros [|]; [apply preserves_ret|].
  case_match; [apply preserves_ret|].
  repeat (apply preserves_bind;
    [solve [apply knows_draw|apply preserves_ret|apply knows_race
           |apply preserves_bind; [apply knows_draw|intros; apply preserves_ret]]|intros ?]).
  apply preserves_try; [|intros []; eauto with preserves].
  apply preserves_bind; [|intros; apply preserves_ret].
  apply knows_savepoint, insert_peer_knows. by exists v.
Qed.

Lemma create_pending_peers_for_device_knows devs v ids :
  v ∈ devs → preserves (knows devs) (create_pending_peers_for_device v ids).
Proof.
  intros Hv. apply preserves_bind; [apply preserves_reads|]. intros ns.
  apply preserves_for_fold. intros b x _.
  apply preserves_bind; [by apply create_pending_peer_knows|]. intros; apply preserves_ret.
Qed.

(** The devices a query selects are known for the rest of the transaction. *)
Lemma for_selected_devices {B} (sel : db → list Device) (f : B → Device → M B) acc :
  (∀ d v, v ∈ sel d → ∃ k, devices d !! k = Some v) →
  (∀ devs b v, v ∈ devs → preserves (knows devs) (f b v)) →
  preserves (fun s => holds db_inv s ∧ J (work s)) (let* devs := reads sel in for_fold f acc devs).
Proof.
  intros Hsel Hf. apply preserves_bind_reads. intros s [Hs HJ].
  assert (knows (sel (work s)) s) as Hk.
  { split_and!; [done..|]. intros v Hv. destruct (Hsel _ _ Hv) as [k Hk].
    destruct Hs as [[Hwf _] _]. by rewrite (proj1 (wf_device_id _ Hwf _ _ Hk)). }
  eapply (preserves_for_fold (knows (sel (work s)))) in Hk as (? & ? & _); [done|].
  intros b v Hv. by apply Hf.
Qed.

Lemma create_pending_peers_for_node_gen nid :
  preserves (fun s => holds db_inv s ∧ J (work s)) (create_pending_peers_for_node nid).
Proof.
  apply for_selected_devices.
  - intros d v Hv. unfold provisionable_devices in Hv. by apply elem_of_select in Hv as [? _].
  - intros devs b v Hv. apply preserves_bind; [by apply create_pending_peer_knows|].
    intros; apply preserves_ret.
Qed.

Lemma restore_missing_peers_for_user_gen uid :
  preserves (fun s => holds db_inv s ∧ J (work s)) (restore_missing_peers_for_user uid).
Proof.
  apply for_selected_devices.
  - intros d v Hv. unfold list_live_devices in Hv.
    by apply elem_of_order_by, elem_of_select in Hv as [? _].
  - intros devs b v Hv. apply preserves_bind; [by apply create_pending_peers_for_device_knows|].
    intros; apply preserves_ret.
Qed.

(** What an inserted device is. *)
Definition fresh_device (uid name public_key private_key : string) (v : Device) : Prop :=
  Device_id v ≠ "" ∧ Device_user_id v = uid ∧ Device_name v = name ∧ is_live v = true ∧
  Device_public_key v = Some public_key ∧ Device_private_key v = Some private_key ∧
  Device_is_legacy_default v = false ∧
  ∃ ip hosts, Device_vpn_ip v = Some ip ∧ vpn_hosts VPN_SUBNET = Ok hosts ∧ ip ∈ hosts.

Lemma catch_exhausted_ok subnet o ip : catch_exhausted subnet o = Ok ip → o = Ok ip.
Proof. destruct o as [a|[]]; simpl; congruence. Qed.

(** [J0] before the insert, [J] after it. *)
Context (uid name public_key private_key : string) (J0 : db → Prop).
Hypothesis J0_raced : ∀ n d, J0 d → J0 (raced n d).
Hypothesis J0_insert : ∀ d v, J0 d → db_wf d → device_violation d v = None →
  Device_user_id v = uid → is_live v = true → J (update_device v d).

Definition ready_to_insert (s : session) : Prop := holds db_inv s ∧ J0 (work s).

Lemma insert_device_hoare v :
  fresh_device uid name public_key private_key v →
  hoare ready_to_insert (savepoint (insert_device v)) (fun _ => knows [v])
    (fun _ => ready_to_insert).
Proof.
  intros (Hne & Hu & _ & Hl & _) s [[[Hwf HT] Hc] HJ]. unfold savepoint, insert_device, bindM, reads.
  destruct (device_violation (work s) v) eqn:E; simpl; [by split; [split; [split|]|]|].
  split_and!; [split; [|done]; split|by apply J0_insert|].
  - by apply insert_device_wf.
  - apply insert_device_tombstones; [done|]. by apply is_live_true.
  - intros w ->%list_elem_of_singleton. simpl. by rewrite lookup_insert_eq.
Qed.

Lemma insert_device_attempts_hoare n :
  hoare ready_to_insert (insert_device_attempts n uid name public_key private_key)
    (fun v s => knows [v] s ∧ fresh_device uid name public_key private_key v)
    (fun _ => holds db_inv).
Proof.
  induction n as [|n IH]; [by apply hoare_raise; intros s []|]. cbn [insert_device_attempts].
  set (P ip s := ready_to_insert s ∧ ∃ hosts, vpn_hosts VPN_SUBNET = Ok hosts ∧ ip ∈ hosts).
  apply (hoare_bind _ _ _ P).
  { apply (hoare_bind _ _ _ (fun _ => ready_to_insert)); [by apply hoare_reads|]. intros reserving.
    apply hoare_lift. intros s Hs.
    destruct (catch_exhausted _ _) as [ip|e] eqn:E; [|by destruct Hs].
    apply catch_exhausted_ok, allocate_ip_vpn_hosts in E as (hosts & ? & ? & _).
    split; [done|]. by exists hosts. }
  intros ip. apply (hoare_bind _ _ _ (fun did s => did ≠ "" ∧ P ip s)).
  { apply hoare_draw. intros s Hs. split; [apply uuid4_nonempty|done]. }
  intros did. apply (hoare_bind _ _ _ (fun _ s => did ≠ "" ∧ P ip s)); [by apply hoare_draw|].
  intros created_at. set (v := mkDevice _ _ _ _ _ _ _ _ _ _ _).
  apply (hoare_bind _ _ _ (fun _ s => did ≠ "" ∧ P ip s)).
  { intros s [Hne [[[Hw Hc] HJ] Hh]]. split; [done|]. split; [|done]. split; [|by apply J0_raced].
    split; by apply raced_inv. }
  intros _. apply (hoare_bind _ _ _ (fun (b : bool) s => if b
    then knows [v] s ∧ fresh_device uid name public_key private_key v else ready_to_insert s)).
  - apply (hoare_try _ _ _ _ _ (fun _ => ready_to_insert)).
    + intros s (Hne & Hs & hosts & Hh & Hin).
      assert (fresh_device uid name public_key private_key v) as Hv
        by (repeat (split; [done|]); by exists ip, hosts).
      pose proof (insert_device_hoare v Hv s Hs) as Hi. unfold bindM.
      by destruct (savepoint (insert_device v) s) as [[[]|e] s'].
    + intros []; try (by apply hoare_raise; intros s []).
      case_match; [by apply hoare_ret|by apply hoare_raise; intros s []].
  - intros [|]; [by apply hoare_ret|apply IH].
Qed.
End provisioning.

Section create_device.
Context `{EnvLaws}.

Lemma create_pending_peers_for_node_inv nid :
  preserves (holds db_inv) (create_pending_peers_for_node nid).
Proof.
  intros s Hs.
  by apply (create_pending_peers_for_node_gen (fun _ => True) ltac:(done) ltac:(done) nid s).
Qed.
Lemma restore_missing_peers_for_user_inv uid :
  preserves (holds db_inv) (restore_missing_peers_for_user uid).
Proof.
  intros s Hs.
  by apply (restore_missing_peers_for_user_gen (fun _ => True) ltac:(done) ltac:(done) uid s).
Qed.

(** The tables [create_device] decides on: those committed while it waited for the owner lock. *)
Definition locked_view (s : session) : db := concurrent (draws s) (work s).

(** The guards, in order: the owner exists, is active and has a free slot. *)
Definition may_create (d : db) (uid : string) : Prop :=
  ∃ u t, users d !! uid = Some u ∧ Status_code (db_account_status t d u) = "active" ∧
    assert_device_capacity d uid = Ok tt.

Definition after_lock (s : session) : session :=
  s <| work := locked_view s |> <| committed := concurrent (draws s) (committed s) |>
    <| draws := S (draws s) |>.

Lemma lock_owner_run uid s :
  lock_owner uid s =
  (match users (locked_view s) !! uid with
   | None => Raise (ValueError ("user " +:+ uid +:+ " not found"))
   | Some u => Ok u
   end, after_lock s).
Proof.
  unfold lock_owner, lock_user_row. rewrite !bind_run. cbn -[concurrent].
  fold (locked_view s). by destruct (users (locked_view s) !! uid).
Qed.

Lemma require_active_owner_run uid s u :
  users (work s) !! uid = Some u →
  let st := db_account_status (utc (clock (draws s))) (work s) u in
  require_active_owner uid s =
  (if Status_code st == "active" then Ok tt
   else Raise (AccountInactiveError (Status_code st) (Status_reason st)),
   s <| draws := S (draws s) |>).
Proof.
  intros Hu. unfold require_active_owner, fresh_account_status. rewrite !bind_run.
  unfold reads at 1. rewrite Hu, !bind_run. cbn [now draw reads]. cbv zeta.
  by destruct (_ == "active").
Qed.

Lemma create_device_hoare (J J0 : db → Prop) uid name s :
  (∀ n d, J d → J (raced n d)) → (∀ p d, J d → J (update_peer p d)) →
  (∀ n d, J0 d → J0 (raced n d)) →
  (∀ d v, J0 d → db_wf d → device_violation d v = None →
     Device_user_id v = uid → is_live v = true → J (update_device v d)) →
  holds db_inv s → (may_create (locked_view s) uid → J0 (locked_view s)) →
  match create_device uid name s with
  | (Ok (v, nids), s') =>
      may_create (locked_view s) uid ∧ knows J [v] s' ∧
      ∃ public_key private_key, fresh_device uid name public_key private_key v
  | (Raise _, s') => holds db_inv s'
  end.
Proof.
  intros HJr HJp HJ0r HJ0i [Hw Hc] HJ0.
  assert (holds db_inv (after_lock s)) as Hs1 by (split; by apply concurrent_inv).
  unfold create_device. rewrite bind_run, lock_owner_run.
  destruct (users (locked_view s) !! uid) as [u|] eqn:Eu; [|done].
  rewrite bind_run, (require_active_owner_run uid (after_lock s) u Eu). cbv zeta.
  change (work (after_lock s)) with (locked_view s).
  set (t := utc _). destruct (_ == "active") eqn:Est; [|done].
  set (s1 := _ <| draws := _ |>). rewrite bind_run. unfold reads at 1.
  change (work s1) with (locked_view s). rewrite bind_run. cbn [lift].
  destruct (assert_device_capacity (locked_view s) uid) as [[]|e] eqn:Ecap; [|done].
  assert (may_create (locked_view s) uid) as Hmay.
  { exists u, t. apply bool_decide_eq_true in Est. split_and!; [exact Eu|exact Est|exact Ecap]. }
  rewrite bind_run. unfold generate_keypair at 1. rewrite bind_run. cbn [draw retM].
  set (s2 := s1 <| draws := S _ |>). set (kp := x25519_generate _). cbv beta iota zeta.
  assert (ready_to_insert J0 s2) as Hs2 by (split; [done|by apply HJ0]).
  rewrite bind_run. unfold insert_device_with_unique_ip.
  pose proof (insert_device_attempts_hoare J uid name (b64encode kp.2) (b64encode kp.1) J0 HJ0r
    HJ0i MAX_IP_ALLOCATION_ATTEMPTS s2 Hs2) as Hins.
  destruct (insert_device_attempts _ _ _ _ _ s2) as [[v|e] s3]; [|done].
  destruct Hins as [Hk Hv]. rewrite bind_run.
  pose proof (create_pending_peers_for_device_knows J HJr HJp [v] v None
    ltac:(by apply list_elem_of_singleton) s3 Hk) as Hk'.
  destruct (create_pending_peers_for_device v None s3) as [[nids|e] s4]; simpl in *;
    [|by destruct Hk'].
  split_and!; [done|done|]. by eexists _, _.
Qed.

Lemma create_device_inv uid name : preserves (holds db_inv) (create_device uid name).
Proof.
  intros s Hs. pose proof (create_device_hoare (fun _ => True) (fun _ => True) uid name s
    ltac:(done) ltac:(done) ltac:(done) ltac:(done) Hs ltac:(done)) as H'.
  destruct (create_device uid name s) as [[[v nids]|e] s']; [|done].
  by destruct H' as (_ & (? & _) & _).
Qed.

Lemma lock_user_row_inv uid : preserves (holds db_inv) (lock_user_row uid).
Proof. apply preserves_bind; [apply holds_lock_wait, concurrent_inv|]. eauto with preserves. Qed.

Lemma delete_device_inv v at_ : preserves (holds db_inv) (delete_device v at_).
Proof.
  apply preserves_bind; [apply lock_user_row_inv|intros _].
  do 2 (apply preserves_bind; [apply holds_lock_wait, concurrent_inv|intros _]).
  do 2 (apply preserves_bind; [apply holds_draw|intros ?]).
  apply holds_transact. intros d Hd. by apply delete_device_rows_inv.
Qed.

Lemma release_device_ips_inv ids at_ : preserves (holds db_inv) (release_device_ips ids at_).
Proof.
  unfold release_device_ips. case_decide; [apply preserves_ret|].
  apply preserves_bind; [apply holds_lock_wait, concurrent_inv|intros _].
  apply preserves_bind; [apply holds_draw|intros ?].
  apply holds_transact. intros d Hd. by apply release_rows_inv.
Qed.
End create_device.
#[export] Hint Resolve create_pending_peers_for_node_inv restore_missing_peers_for_user_inv
  create_device_inv lock_user_row_inv delete_device_inv release_device_ips_inv : preserves.

(** ** Properties *)
Lemma length_select_insert {A} (p : A → bool) (t : gmap string A) k x :
  t !! k = None →
  length (select p (<[k := x]> t)) = (if p x then 1 else 0) + length (select p t).
Proof. intros Hk. rewrite select_insert by done. rewrite length_app. by case_match. Qed.



(** C13: deleting a device leaves nothing live behind and is idempotent. The device keeps its row, its
    keys and its owner and is tombstoned; no peer of it is live on any node; the nodes reported are
    exactly those that held a live peer; every other device and peer is untouched; the invariants
    hold; and a second deletion, at any later time, reports no node and changes nothing. *)
Theorem delete_device_removes d t t' did v :
  db_inv d → devices d !! did = Some v →
  let affected := (delete_device_rows t t' did d).1 in
  let d' := (delete_device_rows t t' did d).2 in
  db_inv d' ∧
  (∃ v', devices d' !! did = Some v' ∧ Device_deleted_at v' ≠ None ∧
     Device_public_key v' = Device_public_key v ∧ Device_private_key v' = Device_private_key v ∧
     Device_user_id v' = Device_user_id v) ∧
  (∀ k p, peers d' !! k = Some p → Peer_device_id p = did → Peer_status p ∉ LIVE_PEER_STATUSES) ∧
  (∀ nid, nid ∈ affected ↔ ∃ k p, peers d !! k = Some p ∧ Peer_device_id p = did ∧
                             Peer_status p ∈ LIVE_PEER_STATUSES ∧ Peer_node_id p = nid) ∧
  (∀ k, k ≠ did → devices d' !! k = devices d !! k) ∧
  (∀ k p, peers d !! k = Some p → Peer_device_id p ≠ did → peers d' !! k = Some p) ∧
  (∀ t2 t2', delete_device_rows t2 t2' did d' = (∅, d')).
Proof.
  intros Hd Hv affected d'. pose proof (delete_device_rows_inv d t t' did Hd) as Hd'.
  destruct (delete_device_rows_effect d t t' did v (proj1 Hd) Hv) as (H1 & H2 & H3 & H4 & _).
  split_and!; [done..| |done|done|].
  - unfold affected. by destruct (delete_device_rows_eq d t t' did v (proj1 Hd) Hv) as (a & -> & ?).
  - intros t2 t2'. apply delete_device_rows_idempotent; [by destruct Hd|by destruct Hd'].
Qed.

Lemma delete_device_removes_witness :
  devices sample_db !! "d" = Some (sample_device "d" "u" (Some "10.8.0.2") None) ∧
  (∀ t2 t2', delete_device_rows t2 t2' "d" (delete_device_rows t0 t0 "d" sample_db).2
             = (∅, (delete_device_rows t0 t0 "d" sample_db).2)).
Proof.
  split; [vm_compute; reflexivity|].
  apply (delete_device_removes sample_db t0 t0 "d" (sample_device "d" "u" (Some "10.8.0.2") None));
    [apply sample_db_inv|vm_compute; reflexivity].
Defined.

(** An address goes back to the pool exactly when that is safe - the device is tombstoned, holds
    an address, and every peer row it has is confirmed [deleted] - and a release changes that one row
    only, keeping the address as history; otherwise nothing changes at all. *)
Lemma release_device_ip_iff at_ v d :
  ((release_device_ip at_ v d).1 = true ↔
     Device_deleted_at v ≠ None ∧ truthy (Device_vpn_ip v) = true ∧
     (∀ k p, peers d !! k = Some p → Peer_device_id p = Device_id v → Peer_status p = "deleted")) ∧
  (release_device_ip at_ v d).2 =
    (if (release_device_ip at_ v d).1
     then update_device (v <| Device_released_vpn_ip := Device_vpn_ip v |>
                           <| Device_ip_released_at := Some at_ |> <| Device_vpn_ip := None |>) d
     else d).
Proof.
  destruct (release_device_ip_cases at_ v d) as [[Hr ->]|[Hr ->]]; simpl; done.
Qed.

(** One rule for the device limit. The joined read and the in-memory rule agree; a
    Remnawave-managed owner is judged by the imported limit alone and a local owner by its own
    column, where an absent, zero or negative number means unlimited; and the in-memory count of live
    devices is the counted one. *)
Lemma effective_device_limit_agrees d uid u :
  users d !! uid = Some u →
  effective_device_limit d uid = owner_effective_device_limit u (remnawave_of d uid) ∧
  effective_device_limit d uid =
    (let n := match remnawave_of d uid with
              | Some r => default 0%Z (Rw_hwid_device_limit r)
              | None => User_device_limit u
              end in if (0 <? n)%Z then Some n else None) ∧
  count_live_devices d uid = Z.of_nat (length (live_devices (devices_of_user d uid))).
Proof.
  intros Hu. unfold effective_device_limit, owner_effective_device_limit. rewrite Hu.
  split_and!.
  - by destruct (remnawave_of d uid).
  - by destruct (remnawave_of d uid) as [r|].
  - unfold count_live_devices, live_devices, devices_of_user, select. do 2 f_equal.
    induction (rows (devices d)) as [|v l IH]; [done|]. simpl.
    destruct (Device_user_id v == uid); simpl; [|done]. case_match; [by f_equal|done].
Qed.

Lemma effective_device_limit_agrees_witness :
  effective_device_limit sample_db "u" = Some 2%Z ∧
  effective_device_limit sample_db "u"
  = owner_effective_device_limit (sample_user "u" 2) (remnawave_of sample_db "u").
Proof.
  split; [vm_compute; reflexivity|].
  by apply (effective_device_limit_agrees sample_db "u" (sample_user "u" 2)).
Defined.

(** ** Readiness *)
Lemma peers_by_device_lookup ps did nid p :
  (∀ p q, p ∈ ps → q ∈ ps → Peer_device_id p = Peer_device_id q → Peer_node_id p = Peer_node_id q →
     p = q) →
  default ∅ (peers_by_device ps !! did) !! nid = Some p ↔
  p ∈ ps ∧ Peer_device_id p = did ∧ Peer_node_id p = nid.
Proof.
  unfold peers_by_device. induction ps as [|q ps IH] using rev_ind; intros Hu.
  { simpl. rewrite lookup_empty. simpl. rewrite lookup_empty.
    split; [done|by intros [?%elem_of_nil _]]. }
  rewrite foldl_app. cbn [foldl]. set (g := foldl _ _ ps) in *.
  assert (IH' : default ∅ (g !! did) !! nid = Some p ↔
    p ∈ ps ∧ Peer_device_id p = did ∧ Peer_node_id p = nid).
  { apply IH. intros x y Hx Hy. apply Hu; apply elem_of_app; by left. }
  rewrite lookup_insert. rewrite elem_of_app, list_elem_of_singleton.
  case_decide as Hd; simpl.
  - rewrite lookup_insert. case_decide as Hn; simpl.
    + split; [intros [= <-]; auto|]. intros [[Hp| ->] [Hpd Hpn]]; [|done].
      f_equal. apply Hu; [apply elem_of_app; by right; left|apply elem_of_app; by left|congruence..].
    + rewrite Hd, IH'. naive_solver.
  - rewrite IH'. naive_solver.
Qed.

Lemma peer_available_true node v peer :
  peer_available node v peer = true ↔
  Device_deleted_at v = None ∧ ∃ p, peer = Some p ∧ Peer_status p = "active" ∧
    node_metadata_cached node = true ∧ device_credentials_ready v = true.
Proof.
  unfold peer_available. rewrite andb_true_iff, is_live_true.
  destruct peer as [p|]; [|naive_solver].
  rewrite !andb_true_iff, bool_decide_eq_true. naive_solver.
Qed.

Lemma node_status_ready node v peer :
  node_status node v peer = "ready" → peer_available node v peer = true.
Proof. unfold node_status. repeat case_match; try discriminate. done. Qed.

(** A tombstoned device is never served. *)
Lemma peer_available_live node v peer :
  Device_deleted_at v ≠ None → peer_available node v peer = false.
Proof. intros H. unfold peer_available. by rewrite (proj2 (is_live_false v) H). Qed.

Lemma aggregate_ready statuses any :
  aggregate_device_status statuses any = "ready" ↔ any = true ∨ "ready" ∈ statuses.
Proof.
  unfold aggregate_device_status. destruct any; [tauto|].
  case_bool_decide; [tauto|]. split; [|by intros [?|?]].
  by repeat case_match.
Qed.

(** The aggregate of a device is [ready] exactly when some node can serve its configuration right
    now - the device is live, its peer on that node is acknowledged [active], the node's metadata is
    cached and the device's credentials are complete - whatever the node's last sync reported; an
    available peer is diagnosed [ready] or, after a failed sync, [error]; and what is available is
    never a tombstoned device. *)
Lemma device_view_ready_iff node_list ps v :
  (∀ p q, p ∈ ps → q ∈ ps → Peer_device_id p = Peer_device_id q → Peer_node_id p = Peer_node_id q →
     p = q) →
  (AdminDevice_status (device_view node_list (peers_by_device ps) v) = "ready" ↔
   ∃ node p, node ∈ node_list ∧ p ∈ ps ∧ Peer_device_id p = Device_id v ∧
     Peer_node_id p = Node_id node ∧ Peer_status p = "active" ∧ Device_deleted_at v = None ∧
     node_metadata_cached node = true ∧ device_credentials_ready v = true) ∧
  (∀ node p, peer_available node v (Some p) = true →
     node_status node v (Some p) = if Node_sync_status node == "failed" then "error" else "ready").
Proof.
  intros Hu. split.
  - unfold device_view. simpl. rewrite aggregate_ready.
    set (mine := default ∅ (peers_by_device ps !! Device_id v)).
    assert (∀ node, peer_available node v (mine !! Node_id node) = true ↔
      ∃ p, p ∈ ps ∧ Peer_device_id p = Device_id v ∧ Peer_node_id p = Node_id node ∧
        Peer_status p = "active" ∧ Device_deleted_at v = None ∧
        node_metadata_cached node = true ∧ device_credentials_ready v = true) as Hav.
    { intros node. rewrite peer_available_true. split.
      - intros (Hl & p & Hp & ? & ? & ?). apply peers_by_device_lookup in Hp; [|done].
        exists p. naive_solver.
      - intros (p & Hp & Hpd & Hpn & ? & ? & ? & ?). split; [done|]. exists p.
        split; [by apply peers_by_device_lookup|done]. }
    rewrite existsb_exists. setoid_rewrite <- list_elem_of_In. split.
    + intros [(e & He & Hr)|Hr].
      * apply list_elem_of_fmap in He as (node & -> & Hn). simpl in Hr. apply Hav in Hr. naive_solver.
      * apply list_elem_of_fmap in Hr as (e & Hr & He).
        apply list_elem_of_fmap in He as (node & -> & Hn). simpl in Hr.
        symmetry in Hr. apply node_status_ready, Hav in Hr. naive_solver.
    + intros (node & p & Hn & Hp). left. eexists. split; [by apply list_elem_of_fmap_2|].
      simpl. apply Hav. by exists p.
  - intros node p Hav. pose proof (proj1 (peer_available_true _ _ _) Hav) as (_ & q & [= <-] & Hs & _).
    unfold node_status. rewrite Hav, Hs. simpl. done.
Qed.

Lemma device_view_ready_iff_witness :
  (∀ p q, p ∈ [sample_peer "p" "a" "u" "d" "active"] → q ∈ [sample_peer "p" "a" "u" "d" "active"] →
     Peer_device_id p = Peer_device_id q → Peer_node_id p = Peer_node_id q → p = q) ∧
  AdminDevice_status (device_view [sample_node "a"]
    (peers_by_device [sample_peer "p" "a" "u" "d" "active"])
    (sample_device "d" "u" (Some "10.8.0.2") None)) = "ready".
Proof.
  assert (∀ p q, p ∈ [sample_peer "p" "a" "u" "d" "active"] →
    q ∈ [sample_peer "p" "a" "u" "d" "active"] →
    Peer_device_id p = Peer_device_id q → Peer_node_id p = Peer_node_id q → p = q) as Hu.
  { intros p q ->%list_elem_of_singleton ->%list_elem_of_singleton. done. }
  split; [exact Hu|].
  apply (device_view_ready_iff [sample_node "a"] [sample_peer "p" "a" "u" "d" "active"]
    (sample_device "d" "u" (Some "10.8.0.2") None) Hu).
  exists (sample_node "a"), (sample_peer "p" "a" "u" "d" "active").
  rewrite !list_elem_of_singleton. done.
Defined.

(** The sample environment, except that another session deletes device [d] between this session's
    read and its insert. *)
Definition deleting_env : Env := {|
  uuid4 := uuid4; x25519_generate := x25519_generate; urandom := urandom;
  random_token := random_token; VPN_SUBNET := VPN_SUBNET; clock := clock;
  broker_error := broker_error; concurrent := concurrent;
  raced _ d := (delete_device_rows t0 t0 "d" d).2 |}.

(** Provisioning a new node races with a device deletion. [create_pending_peers_for_node] reads
    the live devices without locking their owners and checks the tombstone on the rows it read, so
    another session that deletes a device (keeping every invariant) between that read and the insert
    leaves a pending peer of a tombstoned device. *)
Lemma node_provisioning_race :
  (∀ n d, db_inv d → db_inv (@raced deleting_env n d)) ∧
  let d := update_node (sample_node "c") sample_db in
  db_inv d ∧
  ¬ tombstones_hold
      (work (@create_pending_peers_for_node deleting_env "c" (start d 0)).2).
Proof.
  split; [intros; by apply delete_device_rows_inv|].
  intros d. split; [apply db_invb_sound; vm_compute; reflexivity|].
  intros HT. set (d' := work _) in HT.
  assert ((peers d' !! "id-1" ≫= (fun p => Some (Peer_device_id p, Peer_status p)))
    = Some ("d", "pending")) as Hp by (vm_compute; reflexivity).
  assert ((Device_deleted_at <$> devices d' !! "d") = Some (Some t0)) as Hd
    by (vm_compute; reflexivity).
  destruct (peers d' !! "id-1") as [p|] eqn:Ep; [|done]. simpl in Hp. injection Hp as Hpd Hps.
  destruct (devices d' !! "d") as [v|] eqn:Ev; [|done]. simpl in Hd. injection Hd as Hd.
  apply (HT "id-1" p v); [done|by rewrite Hpd|by rewrite Hd|]. rewrite Hps. literal_in.
Qed.
