(* ===== verification/Lifecycle.v ===== *)
(** * Local lifecycle transitions

    The write side of [panel/backend/app/services/local_lifecycle.py]: deriving the state of a local
    account, blocking and restoring its peers, and resetting its traffic. *)
From S2P Require Import Prelude PyStr Json Bytes Models Session Sample Crypto AccountPolicy Devices.

Definition desired_lifecycle_status (at_ : datetime) (user : User) (total : Z) : string :=
  if local_user_expired user at_ then "expired"
  else if local_user_limited user total then "limited"
  else if User_lifecycle_status user == "blocked" then "blocked"
  else "active".

(** One round of the loop over the peers of the account. *)
Definition lifecycle_peer (should_block : bool) (tombstones : gset string)
    (acc : gset string * db) (peer : Peer) : gset string * db :=
  if should_block then
    if Peer_status peer != "pending_delete" then
      ({[Peer_node_id peer]} ∪ acc.1, update_peer (peer <| Peer_status := "pending_delete" |>) acc.2)
    else acc
  else if (Peer_status peer isin ["pending_delete"; "deleted"]) &&
          negb (bool_decide (Peer_device_id peer ∈ tombstones)) then
    ({[Peer_node_id peer]} ∪ acc.1, update_peer (peer <| Peer_status := "pending" |>) acc.2)
  else acc.

(** The rows written for one account, and the nodes whose peers changed. *)
Definition lifecycle_rows (at_ : datetime) (total : Z) (user : User) (d : db) : gset string * db :=
  let desired_status := desired_lifecycle_status at_ user total in
  let should_block := desired_status != "active" in
  let d := update_user (user <| User_lifecycle_status := desired_status |>
                             <| User_is_blocked := should_block |>) d in
  let user_peers := peers_of_user d (User_id user) in
  let tombstones := tombstoned_device_ids d (Peer_device_id <$> user_peers) in
  foldl (lifecycle_peer should_block tombstones) (∅, d) user_peers.

Section with_env.
Context `{Env}.

Definition apply_local_lifecycle_state (user : User) (local_total_bytes : option Z)
    : M (gset string) :=
  let was_blocked := User_is_blocked user || (User_lifecycle_status user != "active") in
  let* total := reads (fun d =>
    default (load_local_total_bytes d (User_id user)) local_total_bytes) in
  let* t := now in
  let* affected_node_ids := transact (lifecycle_rows t total user) in
  if was_blocked && (desired_lifecycle_status t user total == "active") then
    let* restored := restore_missing_peers_for_user (User_id user) in
    retM (affected_node_ids ∪ restored)
  else retM affected_node_ids.

Definition enforce_local_lifecycle_for_user (user_id : string) : M (gset string) :=
  let* user := reads (fun d => users d !! user_id) in
  let* managed := reads (fun d => bool_decide (is_Some (remnawave_of d user_id))) in
  match user with
  | Some user => if (managed : bool) then retM ∅ else apply_local_lifecycle_state user None
  | None => retM ∅
  end.
End with_env.

(** Deleting the aggregates of an account: everything of its lifetime, the days not before the reset.
    The days are those of [reset_at]. *)
Definition reset_local_traffic_usage (reset_at : datetime) (user : User) (d : db) : db :=
  let uid := User_id user in
  update_user (user <| User_traffic_reset_at := Some reset_at |>)
    (d <| user_lifetime := delete uid (user_lifetime d) |>
       <| user_node_lifetime := filter (fun ka => ka.1.1 ≠ uid) (user_node_lifetime d) |>
       <| user_daily := filter (fun ka => ¬ (ka.1.1 = uid ∧ (dt_date reset_at <= ka.1.2)%Z))
                          (user_daily d) |>
       <| user_node_daily :=
            filter (fun ka => ¬ (ka.1.1.1 = uid ∧ (dt_date reset_at <= ka.1.2)%Z))
              (user_node_daily d) |>).

(** ** The loop over the peers *)

(** What the loop does to one peer. *)
Definition lifecycle_status (should_block tombstoned : bool) (status : string) : string :=
  if should_block then "pending_delete"
  else if (status isin ["pending_delete"; "deleted"]) && negb tombstoned then "pending" else status.

Lemma lifecycle_peer_eq should_block tombstones acc p :
  lifecycle_peer should_block tombstones acc p =
  let status := lifecycle_status should_block (bool_decide (Peer_device_id p ∈ tombstones))
                  (Peer_status p) in
  if Peer_status p == status then acc
  else ({[Peer_node_id p]} ∪ acc.1, update_peer (p <| Peer_status := status |>) acc.2).
Proof.
  unfold lifecycle_peer, lifecycle_status. cbv zeta.
  destruct should_block.
  - by destruct (Peer_status p == "pending_delete").
  - destruct (Peer_status p isin _) eqn:E; simpl; [|by rewrite bool_decide_eq_true_2].
    destruct (bool_decide (Peer_device_id p ∈ tombstones)); simpl;
      [by rewrite bool_decide_eq_true_2|].
    apply bool_decide_eq_true in E. rewrite bool_decide_eq_false_2; [done|].
    intros E'. rewrite E' in E. revert E. literal_in.
Qed.


Lemma elem_of_tombstoned_device_ids d ids did :
  db_wf d →
  did ∈ tombstoned_device_ids d ids ↔
  did ∈ ids ∧ ∃ v, devices d !! did = Some v ∧ Device_deleted_at v ≠ None.
Proof.
  intros Hwf. unfold tombstoned_device_ids.
  rewrite elem_of_list_to_set, !elem_of_lfilter. split.
  - intros [[Hin Ht] Hd]. split; [done|].
    destruct (devices d !! did) as [v|]; [|done]. exists v. split; [done|].
    apply negb_true_iff in Hd. by apply is_live_false.
  - intros (Hin & v & Hv & Hd). rewrite Hv. apply is_live_false in Hd. rewrite Hd.
    destruct (wf_device_id _ Hwf _ _ Hv) as [_ Hne]. split; [split; [done|]|done].
    unfold truthy_str. by rewrite bool_decide_eq_false_2.
Qed.

Section lifecycle_rows.
Context (d : db) (t : datetime) (total : Z) (user : User).
Hypothesis Hd : db_inv d.
Hypothesis Huser : users d !! User_id user = Some user.

Definition blocking : bool := desired_lifecycle_status t user total != "active".
Definition user_after : User :=
  user <| User_lifecycle_status := desired_lifecycle_status t user total |>
       <| User_is_blocked := blocking |>.
Definition device_gone (did : string) : bool :=
  match devices d !! did with Some v => negb (is_live v) | None => false end.
Definition status_after (p : Peer) : string :=
  lifecycle_status blocking (device_gone (Peer_device_id p)) (Peer_status p).
Definition peers_after : gmap string Peer :=
  (fun p => if Peer_user_id p == User_id user then p <| Peer_status := status_after p |> else p)
  <$> peers d.
Definition db_after : db :=
  d <| users := <[User_id user := user_after]> (users d) |> <| peers := peers_after |>.

(** The rows after the transition, in one equation per table, and the nodes reported. *)
Lemma lifecycle_rows_eq :
  ∃ affected,
    lifecycle_rows t total user d = (affected, db_after) ∧
    ∀ nid, nid ∈ affected ↔ ∃ k p, peers d !! k = Some p ∧ Peer_user_id p = User_id user ∧
                              Peer_status p ≠ status_after p ∧ Peer_node_id p = nid.
Proof.
  unfold lifecycle_rows. fold blocking. fold user_after.
  set (d1 := update_user user_after d). set (ps := peers_of_user d1 (User_id user)).
  set (tombs := tombstoned_device_ids _ _).
  assert (∀ p, p ∈ ps ↔ (∃ k, peers d !! k = Some p) ∧ Peer_user_id p = User_id user) as Hps.
  { intros p. unfold ps, peers_of_user. rewrite elem_of_select. by rewrite bool_decide_eq_true. }
  assert (∀ p, p ∈ ps →
    bool_decide (Peer_device_id p ∈ tombs) = device_gone (Peer_device_id p)) as Htomb.
  { intros p Hp. apply eq_true_iff_eq. rewrite bool_decide_eq_true. unfold tombs.
    rewrite elem_of_tombstoned_device_ids by (by eapply update_user_wf; [apply Hd|..]).
    unfold device_gone. simpl. split.
    - intros (_ & v & -> & Hv). apply is_live_false in Hv. by rewrite Hv.
    - intros Hg. split; [by apply list_elem_of_fmap_2|].
      destruct (devices d !! Peer_device_id p) as [v|]; [|done]. exists v. split; [done|].
      apply is_live_false. by apply negb_true_iff. }
  assert (∀ acc, foldl (lifecycle_peer blocking tombs) acc ps = foldl (set_status status_after) acc ps)
    as E.
  { clear - Htomb. clearbody tombs ps.
    induction ps as [|p l IH]; intros acc; simpl; [done|].
    rewrite lifecycle_peer_eq. cbv zeta. rewrite Htomb by left.
    apply IH. intros q Hq. apply Htomb. by right. }
  rewrite E. destruct (set_status_fold status_after d1 ps ∅) as (Hr & Hp & Hn).
  { intros p [[k Hk] _]%Hps. by rewrite (wf_peer_id _ (proj1 Hd) _ _ Hk). }
  destruct (foldl (set_status status_after) (∅, d1) ps) as [affected d2]. cbn [fst snd] in *.
  exists affected. split.
  - f_equal. rewrite Hr. unfold db_after, d1, update_user. simpl.
    enough (peers d2 = peers_after) as -> by done.
    apply map_eq. intros k. rewrite Hp. unfold peers_after. rewrite lookup_fmap. simpl.
    destruct (peers d !! k) as [p|] eqn:Ek; simpl; [|by case_decide].
    assert (k ∈ Peer_id <$> ps ↔ Peer_user_id p = User_id user) as Hiff.
    { rewrite list_elem_of_fmap. split.
      - intros (q & -> & [[k' Hk'] <-]%Hps).
        rewrite (wf_peer_id _ (proj1 Hd) _ _ Hk') in Ek. congruence.
      - intros Hu. exists p. split; [by rewrite (wf_peer_id _ (proj1 Hd) _ _ Ek)|].
        apply Hps. eauto. }
    case_decide; case_bool_decide; try done; tauto.
  - intros nid. rewrite Hn. split.
    + intros [?%elem_of_empty|(p & [[k Hk] Hu]%Hps & Hne & <-)]; [done|]. by exists k, p.
    + intros (k & p & Hk & Hu & Hne & <-). right. exists p. rewrite Hps. eauto.
Qed.

Lemma db_after_inv : db_inv db_after.
Proof.
  split.
  - change db_after with ((update_user user_after d) <| peers :=
      (fun p => if Peer_user_id p == User_id user then p <| Peer_status := status_after p |> else p)
      <$> peers (update_user user_after d) |>).
    apply map_peers_wf; [by eapply update_user_wf; [apply Hd|..]|].
    intros p. by case_match.
  - intros k p v. simpl. unfold peers_after. rewrite lookup_fmap.
    intros (q & Hq & ->)%fmap_Some Hv Hdel. pose proof Hd as [_ HT].
    case_bool_decide; [|by eauto]. simpl in *. unfold status_after, lifecycle_status.
    assert (device_gone (Peer_device_id q) = true) as ->.
    { unfold device_gone. rewrite Hv. apply is_live_false in Hdel. by rewrite Hdel. }
    rewrite andb_false_r. case_match; [literal_in|]. eauto.
Qed.
End lifecycle_rows.

Lemma lifecycle_rows_inv t total user d :
  db_inv d → users d !! User_id user = Some user → db_inv (lifecycle_rows t total user d).2.
Proof.
  intros Hd Hu. destruct (lifecycle_rows_eq d t total user Hd Hu) as (a & -> & _).
  by apply db_after_inv.
Qed.

Section session.
Context `{EnvLaws}.

Lemma apply_local_lifecycle_state_run user total s :
  holds db_inv s → users (work s) !! User_id user = Some user →
  holds db_inv (apply_local_lifecycle_state user total s).2.
Proof.
  intros [Hw Hc] Hu. unfold apply_local_lifecycle_state. rewrite !bind_run.
  unfold reads at 1. rewrite bind_run. unfold now, draw. rewrite bind_run.
  unfold transact at 1.
  pose proof (lifecycle_rows_inv (utc (clock (draws s)))
    (default (load_local_total_bytes (work s) (User_id user)) total) user (work s) Hw Hu) as Hl.
  simpl. destruct (lifecycle_rows _ _ _ _) as [aff d']. simpl in Hl.
  case_match; [|by split].
  apply (preserves_bind (holds db_inv)); [apply restore_missing_peers_for_user_inv| |by split].
  intros; apply preserves_ret.
Qed.

Lemma enforce_local_lifecycle_for_user_inv uid :
  preserves (holds db_inv) (enforce_local_lifecycle_for_user uid).
Proof.
  intros s Hs. unfold enforce_local_lifecycle_for_user. rewrite bind_run. unfold reads at 1.
  rewrite bind_run. unfold reads at 1.
  destruct (users (work s) !! uid) as [u|] eqn:Hu; [|done]. case_match; [done|].
  apply apply_local_lifecycle_state_run; [done|].
  by rewrite (wf_user_id _ (proj1 (proj1 Hs)) _ _ Hu).
Qed.
End session.
#[export] Hint Resolve enforce_local_lifecycle_for_user_inv : preserves.

(** ** Properties *)

(** C9: a lifecycle pass puts the account and its peers in one consistent state and never touches a
    deleted device. The account is blocked exactly when it is expired, over its limit or was blocked
    by an administrator; while it is blocked every peer of it waits for removal; once it is not,
    every peer of a live device is live again and every peer of a tombstoned device keeps its status;
    the nodes reported are exactly those of the peers that changed; other accounts' rows are
    untouched; the invariants hold; and a second pass at the same instant changes nothing and reports
    no node. *)
Theorem lifecycle_pass_consistent d t total user :
  db_inv d → users d !! User_id user = Some user →
  let r := lifecycle_rows t total user d in
  let blocked := local_user_expired user t || local_user_limited user total ||
                 (User_lifecycle_status user == "blocked") in
  db_inv r.2 ∧
  (∃ u', users r.2 !! User_id user = Some u' ∧ User_is_blocked u' = blocked ∧
     User_lifecycle_status u' = desired_lifecycle_status t user total ∧
     lifecycle_rows t total u' r.2 = (∅, r.2)) ∧
  (∀ k p p' v, peers d !! k = Some p → peers r.2 !! k = Some p' →
     devices d !! Peer_device_id p = Some v → Peer_user_id p = User_id user →
     Peer_status p' = if blocked then "pending_delete"
                      else if (Peer_status p isin DELETING_PEER_STATUSES) && is_live v
                      then "pending" else Peer_status p) ∧
  (∀ k p, peers d !! k = Some p → Peer_user_id p ≠ User_id user → peers r.2 !! k = Some p) ∧
  (∀ nid, nid ∈ r.1 ↔ ∃ k p p', peers d !! k = Some p ∧ peers r.2 !! k = Some p' ∧
     Peer_status p ≠ Peer_status p' ∧ Peer_node_id p = nid) ∧
  devices r.2 = devices d.
Proof.
  intros Hd Hu r blocked.
  assert (blocking t total user = blocked) as Hbl.
  { unfold blocking, desired_lifecycle_status, blocked.
    destruct (local_user_expired user t), (local_user_limited user total),
      (User_lifecycle_status user == "blocked"); done. }
  pose proof (lifecycle_rows_inv t total user d Hd Hu) as Hinv. fold r in Hinv.
  destruct (lifecycle_rows_eq d t total user Hd Hu) as (aff & Hr & Haff).
  subst r. rewrite Hr in Hinv |- *. cbn [fst snd] in *.
  set (ua := user_after t total user).
  assert (users (db_after d t total user) !! User_id user = Some ua) as Hua
    by (simpl; by rewrite lookup_insert_eq).
  assert (desired_lifecycle_status t ua total = desired_lifecycle_status t user total) as Hdes.
  { unfold ua, user_after, desired_lifecycle_status, local_user_expired, local_user_limited. simpl.
    destruct (aware (User_expire_at user)) as [e|]; [destruct (dt_le e t)|]; try done;
      destruct (_ && _)%Z; try done; by destruct (User_lifecycle_status user == "blocked"). }
  split_and!; [done| | | | |done].
  - exists ua. split_and!; [done|by rewrite <- Hbl|done|].
    destruct (lifecycle_rows_eq (db_after d t total user) t total ua Hinv Hua) as (aff' & -> & Haff').
    assert (∀ k p, peers (db_after d t total user) !! k = Some p → Peer_user_id p = User_id user →
      status_after (db_after d t total user) t total ua p = Peer_status p) as Hst.
    { intros k p. simpl. unfold peers_after. rewrite lookup_fmap.
      intros (q & Hq & ->)%fmap_Some. case_bool_decide as Hqu; [|done]. intros _. simpl.
      unfold status_after, lifecycle_status, blocking. rewrite Hdes. simpl.
      change (device_gone (db_after d t total user)) with (device_gone d).
      destruct (desired_lifecycle_status t user total != "active"); [done|].
      destruct (Peer_status q isin _) eqn:E1, (device_gone d (Peer_device_id q)); simpl;
        rewrite ?E1; done. }
    f_equal.
    + apply set_eq. intros nid. rewrite Haff', elem_of_empty. split; [|done].
      intros (k & p & Hp & Hpu & Hne & _). apply Hne. symmetry. by eapply Hst.
    + unfold db_after at 1.
      assert (peers_after (db_after d t total user) t total ua = peers (db_after d t total user)) as ->.
      { apply map_eq. intros k. unfold peers_after at 1. rewrite lookup_fmap.
        destruct (peers (db_after d t total user) !! k) as [p|] eqn:Ep; [|done]. simpl.
        case_bool_decide; [|done]. f_equal. rewrite (Hst k p Ep) by done. by destruct p. }
      assert (user_after t total ua = ua) as ->.
      { unfold user_after, blocking. rewrite Hdes. done. }
      rewrite insert_id by done. done.
  - intros k p p' v Hp Hp' Hv Hpu. revert Hp'. simpl. unfold peers_after. rewrite lookup_fmap, Hp.
    intros [= <-]. rewrite bool_decide_eq_true_2 by done. simpl.
    unfold status_after, lifecycle_status, device_gone. by rewrite Hbl, Hv, negb_involutive.
  - intros k p Hp Hne. simpl. unfold peers_after. rewrite lookup_fmap, Hp. simpl.
    by rewrite bool_decide_eq_false_2.
  - intros nid. rewrite Haff. split.
    + intros (k & p & Hp & Hpu & Hne & <-). exists k, p, (p <| Peer_status := status_after d t total user p |>).
      split_and!; [done| |done|done]. simpl. unfold peers_after. rewrite lookup_fmap, Hp. simpl.
      by rewrite bool_decide_eq_true_2.
    + intros (k & p & p' & Hp & Hp' & Hne & <-). exists k, p. revert Hp'. simpl. unfold peers_after.
      rewrite lookup_fmap, Hp. simpl. case_bool_decide; [|by intros [= <-]].
      intros [= <-]. done.
Qed.

Lemma lifecycle_pass_consistent_witness :
  users sample_db !! "u" = Some (sample_user "u" 2) ∧
  devices (lifecycle_rows t0 0 (sample_user "u" 2) sample_db).2 = devices sample_db.
Proof.
  split; [vm_compute; reflexivity|].
  apply (lifecycle_pass_consistent sample_db t0 0 (sample_user "u" 2));
    [apply sample_db_inv|vm_compute; reflexivity].
Defined.

(** An administrator's block does not survive an expiry. A blocked account that expires is
    relabelled [expired] by the next pass, so once its expiry is extended the pass after that
    finds nothing left of the block and makes the account active again. *)
Lemma admin_block_lost_by_expiry :
  let blocked := (sample_user "u" 2) <| User_lifecycle_status := "blocked" |>
                   <| User_is_blocked := true |> <| User_expire_at := Some (utc 5) |> in
  let d := update_user blocked sample_db in
  let d1 := (lifecycle_rows (utc 10) 0 blocked d).2 in
  ∃ u1, users d1 !! "u" = Some u1 ∧ User_lifecycle_status u1 = "expired" ∧
    let extended := u1 <| User_expire_at := Some (utc 1000) |> in
    let d2 := (lifecycle_rows (utc 20) 0 extended (update_user extended d1)).2 in
    ∃ u2, users d2 !! "u" = Some u2 ∧ User_lifecycle_status u2 = "active" ∧
      User_is_blocked u2 = false.
Proof.
  intros blocked d d1.
  exists (blocked <| User_lifecycle_status := "expired" |>). split; [vm_compute; reflexivity|].
  split; [reflexivity|]. intros extended d2.
  exists (extended <| User_lifecycle_status := "active" |> <| User_is_blocked := false |>).
  split; [vm_compute; reflexivity|]. done.
Qed.
