(* ===== verification/Jobs.v ===== *)
(** * Commands, the broker topology and tracked operations

    [panel/backend/app/queue.py] (the exchanges, queues and bindings the panel declares, and
    publishing), [app/job_commands.py] (the JSON payload of each command and its publication) and
    [app/services/operations.py] (an operation row is committed before its command is published). *)
From S2P Require Import Prelude PyStr Models Session Sample.

(** ** Queues *)
Definition EXCHANGE_NAME : string := "amnezia.jobs".
Definition DLX_NAME : string := "amnezia.jobs.dlx".
Definition LEGACY_SYNC_QUEUE : string := "amnezia.sync".
Definition LEGACY_PROVISION_QUEUE : string := "amnezia.provision".
Definition NODE_OPERATIONS_QUEUE : string := "amnezia.node_operations".
Definition SYNC_ALL_QUEUE : string := NODE_OPERATIONS_QUEUE.
Definition SYNC_NODE_QUEUE : string := NODE_OPERATIONS_QUEUE.
Definition PROVISION_NODE_QUEUE : string := NODE_OPERATIONS_QUEUE.
Definition NODE_HEARTBEAT_QUEUE : string := "amnezia.node_heartbeat".
Definition CLEANUP_RAW_TRAFFIC_SAMPLES_QUEUE : string := "amnezia.cleanup_raw_traffic_samples".
Definition REMNAWAVE_FULL_RECONCILE_QUEUE : string := "amnezia.remnawave_full_reconcile".
Definition REMNAWAVE_SYNC_USER_QUEUE : string := "amnezia.remnawave_sync_user".
Definition REMNAWAVE_DISABLE_USER_QUEUE : string := "amnezia.remnawave_disable_user".
Definition TELEGRAM_PROXY_OPERATIONS_QUEUE : string := "amnezia.telegram_proxy_operations".
Definition RETRY_10S_QUEUE : string := "amnezia.retry.10s".
Definition RETRY_1M_QUEUE : string := "amnezia.retry.1m".
Definition RETRY_10M_QUEUE : string := "amnezia.retry.10m".
Definition POISON_QUEUE : string := "amnezia.poison".
Definition RETRY_DELAYS : list (string * Z) := [("10s", 10000%Z); ("1m", 60000%Z); ("10m", 600000%Z)].
Definition SYNC_ROUTING_KEY : string := "sync".
Definition PROVISION_ROUTING_KEY : string := "provision".

Record CommandQueue := mkCommandQueue {
  CQ_command : string;
  CQ_queue_name : string;
  CQ_sequential : bool }.
#[export] Instance CommandQueue_eq_dec : EqDecision CommandQueue.
Proof. solve_decision. Defined.

Definition COMMAND_QUEUES : list CommandQueue :=
  [mkCommandQueue "sync_all" SYNC_ALL_QUEUE true;
   mkCommandQueue "sync_node" SYNC_NODE_QUEUE true;
   mkCommandQueue "provision_node" PROVISION_NODE_QUEUE true;
   mkCommandQueue "health_check_all" NODE_HEARTBEAT_QUEUE false;
   mkCommandQueue "health_check_node" NODE_HEARTBEAT_QUEUE false;
   mkCommandQueue "cleanup_raw_traffic_samples" CLEANUP_RAW_TRAFFIC_SAMPLES_QUEUE false;
   mkCommandQueue "remnawave_full_reconcile" REMNAWAVE_FULL_RECONCILE_QUEUE false;
   mkCommandQueue "remnawave_sync_user" REMNAWAVE_SYNC_USER_QUEUE false;
   mkCommandQueue "remnawave_disable_user" REMNAWAVE_DISABLE_USER_QUEUE false;
   mkCommandQueue "telegram_proxy_apply_node" TELEGRAM_PROXY_OPERATIONS_QUEUE true;
   mkCommandQueue "telegram_proxy_check_node" TELEGRAM_PROXY_OPERATIONS_QUEUE true;
   mkCommandQueue "telegram_proxy_disable_node" TELEGRAM_PROXY_OPERATIONS_QUEUE true].

(** [{q.command: q.queue_name for q in COMMAND_QUEUES}] and its lookup. *)
Definition COMMAND_ROUTING_KEYS : gmap string string :=
  foldl (fun m q => <[CQ_command q := CQ_queue_name q]> m) ∅ COMMAND_QUEUES.
Definition routing_key_for_command (command : string) : outcome string :=
  match COMMAND_ROUTING_KEYS !! command with
  | Some key => Ok key
  | None => Raise (KeyError command)
  end.
Definition retry_queue_for_command (command delay_name : string) : outcome string :=
  key ← routing_key_for_command command; Ok (key +:+ ".retry." +:+ delay_name).

(** A declared queue with the arguments that matter, and a binding of a queue to an exchange. *)
Record queue_decl := mkQueue {
  Q_name : string;
  Q_single_active_consumer : bool;
  Q_message_ttl : option Z;
  Q_dead_letter_exchange : option string;
  Q_dead_letter_routing_key : option string }.
#[export] Instance queue_decl_eq_dec : EqDecision queue_decl.
Proof. solve_decision. Defined.
Record binding := mkBinding { B_exchange : string; B_routing_key : string; B_queue : string }.
#[export] Instance binding_eq_dec : EqDecision binding.
Proof. solve_decision. Defined.
Record topology := mkTopology { top_queues : list queue_decl; top_bindings : list binding }.
#[export] Instance topology_eq_dec : EqDecision topology.
Proof. solve_decision. Defined.

Definition plain_queue (name : string) : queue_decl := mkQueue name false None None None.
Definition command_queue_decl (name : string) (sequential : bool) : queue_decl :=
  mkQueue name sequential None None None.
Definition delay_queue (name : string) (ttl : Z) : queue_decl :=
  mkQueue name false (Some ttl) (Some EXCHANGE_NAME) None.

(** [if name in declared: continue]: the first declaration of a name wins. *)
Definition declare_once (acc : list queue_decl) (q : queue_decl) : list queue_decl :=
  if existsb (fun q' => Q_name q' == Q_name q) acc then acc else acc ++ [q].

(** The per-command queues and the per-command retry queues, each name once. *)
Definition declared_queues : list queue_decl :=
  foldl (fun acc q => declare_once acc (command_queue_decl (CQ_queue_name q) (CQ_sequential q)))
    [] COMMAND_QUEUES.
Definition command_retry_queues : outcome (list queue_decl) :=
  decls ← map_outcome (fun qd =>
      name ← retry_queue_for_command (CQ_command qd.1) qd.2.1;
      Ok (mkQueue name false (Some qd.2.2) (Some EXCHANGE_NAME) (Some (CQ_queue_name qd.1))))
    (q ← COMMAND_QUEUES; d ← RETRY_DELAYS; [(q, d)]);
  Ok (foldl declare_once [] decls).

Definition declare_topology : outcome topology :=
  retry_queues ← command_retry_queues;
  Ok (mkTopology
    ([plain_queue LEGACY_SYNC_QUEUE; plain_queue LEGACY_PROVISION_QUEUE] ++ declared_queues
     ++ [delay_queue RETRY_10S_QUEUE 10000; delay_queue RETRY_1M_QUEUE 60000;
         delay_queue RETRY_10M_QUEUE 600000]
     ++ retry_queues ++ [plain_queue POISON_QUEUE])
    ([mkBinding EXCHANGE_NAME SYNC_ROUTING_KEY LEGACY_SYNC_QUEUE;
      mkBinding EXCHANGE_NAME PROVISION_ROUTING_KEY LEGACY_PROVISION_QUEUE]
     ++ ((fun q => mkBinding EXCHANGE_NAME (Q_name q) (Q_name q)) <$> declared_queues)
     ++ [mkBinding DLX_NAME RETRY_10S_QUEUE RETRY_10S_QUEUE;
         mkBinding DLX_NAME RETRY_1M_QUEUE RETRY_1M_QUEUE;
         mkBinding DLX_NAME RETRY_10M_QUEUE RETRY_10M_QUEUE]
     ++ ((fun q => mkBinding DLX_NAME (Q_name q) (Q_name q)) <$> retry_queues)
     ++ [mkBinding DLX_NAME POISON_QUEUE POISON_QUEUE])).

(** What a direct exchange does with a message: the queues bound with exactly that key. *)
Definition route (t : topology) (exchange routing_key : string) : list string :=
  B_queue <$> List.filter
    (fun b => (B_exchange b == exchange) && (B_routing_key b == routing_key)) (top_bindings t).
(** What a queue does with a message whose time to live ran out. *)
Definition expired_to (t : topology) (queue : string) : option (list string) :=
  q ← head (List.filter (fun q => Q_name q == queue) (top_queues t));
  exchange ← Q_dead_letter_exchange q;
  key ← Q_dead_letter_routing_key q;
  Some (route t exchange key).

(** ** Command payloads *)
Record Overrides := mkOverrides {
  Override_idempotency_key : option string;
  Override_operation_id : option string;
  Override_track_operation : option bool;
  Override_created_at : option datetime }.
Definition no_overrides : Overrides := mkOverrides None None None None.

Section with_env.
Context `{Env}.

(** [overrides.get(key) or str(uuid.uuid4())] *)
Definition given_or_uuid (given : option string) : M string :=
  match given with
  | Some s => if truthy_str s then retM s else new_uuid
  | None => new_uuid
  end.

Definition payload_of (command target_type : string) (target_id : option string)
    (overrides : Overrides) : M Payload :=
  let* idempotency_key := given_or_uuid (Override_idempotency_key overrides) in
  let* operation_id := given_or_uuid (Override_operation_id overrides) in
  let* t := now in
  retM {| Payload_command := command;
          Payload_idempotency_key := idempotency_key;
          Payload_operation_id := operation_id;
          Payload_track_operation := default true (Override_track_operation overrides);
          Payload_target_type := target_type;
          Payload_target_id := target_id;
          Payload_created_at := default t (Override_created_at overrides) |}.

Definition sync_all := payload_of "sync_all" "all" None.
Definition sync_node (node_id : string) := payload_of "sync_node" "node" (Some node_id).
Definition provision_node (node_id : string) :=
  payload_of "provision_node" "node" (Some node_id).
Definition health_check_all := payload_of "health_check_all" "all" None.
Definition health_check_node (node_id : string) :=
  payload_of "health_check_node" "node" (Some node_id).
Definition remnawave_full_reconcile := payload_of "remnawave_full_reconcile" "remnawave" None.
Definition remnawave_sync_user (user_uuid : string) :=
  payload_of "remnawave_sync_user" "remnawave_user" (Some user_uuid).
Definition remnawave_disable_user (user_uuid : string) :=
  payload_of "remnawave_disable_user" "remnawave_user" (Some user_uuid).
Definition telegram_proxy_apply_node (node_id : string) :=
  payload_of "telegram_proxy_apply_node" "telegram_proxy_node" (Some node_id).
Definition telegram_proxy_check_node (node_id : string) :=
  payload_of "telegram_proxy_check_node" "telegram_proxy_node" (Some node_id).
Definition telegram_proxy_disable_node (node_id : string) :=
  payload_of "telegram_proxy_disable_node" "telegram_proxy_node" (Some node_id).
Definition cleanup_raw_traffic_samples :=
  payload_of "cleanup_raw_traffic_samples" "traffic" None.

(** [publish_command(payload, routing_key)]: the broker takes the message or raises. *)
Definition publish_command (payload : Payload) (routing_key : string) : M unit :=
  publish routing_key payload.

(** Every [enqueue_*] function: build the payload, publish it under the command's key. *)
Definition enqueue_command (command : string) (payload : M Payload) : M Payload :=
  let* payload := payload in
  let* key := lift (routing_key_for_command command) in
  do* publish_command payload key in
  retM payload.

Definition enqueue_sync_all (o : Overrides) := enqueue_command "sync_all" (sync_all o).
Definition enqueue_sync_node (node_id : string) (o : Overrides) :=
  enqueue_command "sync_node" (sync_node node_id o).
Definition enqueue_provision_node (node_id : string) (o : Overrides) :=
  enqueue_command "provision_node" (provision_node node_id o).
Definition enqueue_health_check_all (o : Overrides) :=
  enqueue_command "health_check_all" (health_check_all o).
Definition enqueue_health_check_node (node_id : string) (o : Overrides) :=
  enqueue_command "health_check_node" (health_check_node node_id o).
Definition enqueue_remnawave_full_reconcile (o : Overrides) :=
  enqueue_command "remnawave_full_reconcile" (remnawave_full_reconcile o).
Definition enqueue_cleanup_raw_traffic_samples (o : Overrides) :=
  enqueue_command "cleanup_raw_traffic_samples" (cleanup_raw_traffic_samples o).
Definition enqueue_remnawave_sync_user (user_uuid : string) (o : Overrides) :=
  enqueue_command "remnawave_sync_user" (remnawave_sync_user user_uuid o).
Definition enqueue_remnawave_disable_user (user_uuid : string) (o : Overrides) :=
  enqueue_command "remnawave_disable_user" (remnawave_disable_user user_uuid o).
Definition enqueue_telegram_proxy_apply_node (node_id : string) (o : Overrides) :=
  enqueue_command "telegram_proxy_apply_node" (telegram_proxy_apply_node node_id o).
Definition enqueue_telegram_proxy_check_node (node_id : string) (o : Overrides) :=
  enqueue_command "telegram_proxy_check_node" (telegram_proxy_check_node node_id o).
Definition enqueue_telegram_proxy_disable_node (node_id : string) (o : Overrides) :=
  enqueue_command "telegram_proxy_disable_node" (telegram_proxy_disable_node node_id o).

(** ** Operations *)

(** The row of a new operation; the columns with a default are filled at the flush, at [t]. *)
Definition new_operation (kind : string) (target_type target_id : option string)
    : M AsyncOperation :=
  let* id := new_uuid in
  let* key := new_uuid in
  let* t := now in
  retM {| Op_id := id; Op_kind := kind; Op_target_type := target_type; Op_target_id := target_id;
          Op_status := "queued"; Op_error := None; Op_result := None; Op_attempts := 0;
          Op_idempotency_key := key; Op_created_at := t; Op_updated_at := t;
          Op_finished_at := None |}.

(** The keyword arguments [operation_id] and [idempotency_key] of the publication. *)
Definition operation_overrides (operation : AsyncOperation) : Overrides :=
  mkOverrides (Some (Op_idempotency_key operation)) (Some (Op_id operation)) None None.

(** The row is committed, then the command is published; a refused publish is recorded on the row
    and committed. [updated_at] follows every update of the row. *)
Definition enqueue_operation (operation : AsyncOperation) (enqueue : Overrides → M Payload)
    : M unit :=
  do* modify (update_operation operation) in
  do* commit in
  try_except (do* enqueue (operation_overrides operation) in retM tt)
    (fun exc =>
       let* t := now in
       do* modify (update_operation
             (operation <| Op_status := "enqueue_failed" |>
                        <| Op_error := Some (str_take 500 (exn_text exc)) |>
                        <| Op_updated_at := t |>)) in
       commit).
End with_env.

(** ** Lemmas on publishing *)
Section publishing.
Context `{Env}.

Lemma given_or_uuid_truthy x s :
  truthy_str x = true → given_or_uuid (Some x) s = (Ok x, s).
Proof. intros H'. unfold given_or_uuid. by rewrite H'. Qed.

(** A payload with given identifiers: only the clock is drawn. *)
Lemma payload_of_run command tt_ tid op s :
  truthy_str (Op_id op) = true → truthy_str (Op_idempotency_key op) = true →
  payload_of command tt_ tid (operation_overrides op) s =
  (Ok {| Payload_command := command; Payload_idempotency_key := Op_idempotency_key op;
         Payload_operation_id := Op_id op; Payload_track_operation := true;
         Payload_target_type := tt_; Payload_target_id := tid;
         Payload_created_at := utc (clock (draws s)) |},
   s <| draws := S (draws s) |>).
Proof.
  intros Hi Hk. unfold payload_of, operation_overrides, bindM. simpl.
  by rewrite Hi, Hk.
Qed.

Lemma pure_draw_given x : pure_draw (given_or_uuid x).
Proof. unfold given_or_uuid, new_uuid. destruct x as [x|]; [case_match|]; eauto with preserves. Qed.
Lemma pure_draw_payload c tt_ tid o : pure_draw (payload_of c tt_ tid o).
Proof.
  unfold payload_of, now. repeat (apply pure_draw_bind; [|intros ?]);
    eauto using pure_draw_given with preserves.
Qed.
Lemma pure_draw_new_operation kind tt_ tid : pure_draw (new_operation kind tt_ tid).
Proof. unfold new_operation, new_uuid, now. eauto 8 with preserves. Qed.

Lemma pure_draw_preserves {A} (m : M A) (P : db → Prop) :
  pure_draw m → preserves (holds P) m.
Proof. intros Hm s [Hw Hc]. destruct (Hm s) as (H1 & H2 & _). split; congruence. Qed.

Lemma enqueue_command_preserves (P : db → Prop) c tt_ tid o :
  preserves (holds P) (enqueue_command c (payload_of c tt_ tid o)).
Proof.
  apply preserves_bind; [apply pure_draw_preserves, pure_draw_payload|intros p].
  apply preserves_bind; [apply preserves_lift|intros key].
  apply preserves_bind; [apply holds_publish|intros _]. apply preserves_ret.
Qed.

(** Operations are no part of the invariant of accounts, devices and peers. *)
Lemma update_operation_inv o d : db_inv d ↔ db_inv (update_operation o d).
Proof. by apply db_inv_proper. Qed.

(** Publishing keeps what does not depend on the operations. *)
Lemma enqueue_operation_keeps (P : db → Prop) op c tt_ tid :
  (∀ o d, P d → P (update_operation o d)) →
  preserves (holds P) (enqueue_operation op (fun o => enqueue_command c (payload_of c tt_ tid o))).
Proof.
  intros HP. assert (∀ o, preserves (holds P) (modify (update_operation o))) as Hm.
  { intros o. apply holds_modify. intros d. apply HP. }
  apply preserves_bind; [apply Hm|intros _].
  apply preserves_bind; [apply holds_commit|intros _].
  apply preserves_try.
  - apply preserves_bind; [apply enqueue_command_preserves|intros; apply preserves_ret].
  - intros e. apply preserves_bind; [apply holds_draw|intros t].
    apply preserves_bind; [apply Hm|intros _; apply holds_commit].
Qed.

Lemma enqueue_operation_inv op c tt_ tid :
  preserves (holds db_inv)
    (enqueue_operation op (fun o => enqueue_command c (payload_of c tt_ tid o))).
Proof. apply enqueue_operation_keeps. intros o d. apply update_operation_inv. Qed.

(** What it leaves in the tables: the row, as created or marked [enqueue_failed]. *)
Lemma enqueue_operation_run op c tt_ tid s :
  ∃ o s', enqueue_operation op (fun o => enqueue_command c (payload_of c tt_ tid o)) s = (Ok tt, s') ∧
    Op_id o = Op_id op ∧ Op_kind o = Op_kind op ∧ Op_target_id o = Op_target_id op ∧
    (o = op ∨ Op_status o = "enqueue_failed" ∧ Op_target_type o = Op_target_type op) ∧
    work s' = update_operation o (work s) ∧ committed s' = work s' ∧ draws s ≤ draws s'.
Proof.
  unfold enqueue_operation. rewrite bind_run. unfold modify at 1. rewrite bind_run.
  unfold commit at 1. cbv beta iota.
  match goal with |- context [try_except _ _ ?x] => set (s1 := x) end.
  set (m := do* enqueue_command _ _ in retM tt).
  assert (pure_draw_pub : work (m s1).2 = work s1 ∧ committed (m s1).2 = committed s1 ∧
    draws s1 ≤ draws (m s1).2).
  { unfold m, enqueue_command. rewrite !bind_run.
    pose proof (pure_draw_payload c tt_ tid (operation_overrides op) s1) as (H1 & H2 & _).
    assert (draws s1 ≤ draws (payload_of c tt_ tid (operation_overrides op) s1).2) as Hd.
    { unfold payload_of, given_or_uuid, new_uuid, now, draw, retM, bindM.
      simpl. repeat case_match; simplify_eq; simpl; lia. }
    destruct (payload_of c tt_ tid (operation_overrides op) s1) as [[pl|e] s2]; [|done]. simpl in *.
    rewrite bind_run. unfold lift. destruct (routing_key_for_command c) as [key|e]; [|done].
    rewrite bind_run. unfold publish_command, publish. destruct (broker_error (draws s2)); simpl;
      split_and!; try done; lia. }
  clearbody m. unfold try_except. destruct (m s1) as [[[]|e] s2]; simpl in pure_draw_pub;
    destruct pure_draw_pub as (H1 & H2 & H3).
  - exists op. eexists. split; [reflexivity|]. split_and!; [done|done|done|by left|done|by rewrite H1, H2|exact H3].
  - exists (op <| Op_status := "enqueue_failed" |> <| Op_error := Some (str_take 500 (exn_text e)) |>
               <| Op_updated_at := utc (clock (draws s2)) |>).
    eexists. split; [reflexivity|]. simpl. split_and!; try done.
    + by right.
    + rewrite H1. unfold update_operation. simpl. by rewrite insert_insert_eq.
    + change (draws s1) with (draws s) in H3. lia.
Qed.

(** It always returns: a refused publish is recorded, not raised. *)
Lemma enqueue_operation_ok op enqueue s : ∃ s', enqueue_operation op enqueue s = (Ok tt, s').
Proof.
  unfold enqueue_operation. rewrite bind_run. unfold modify at 1. cbv beta iota.
  rewrite bind_run. unfold commit at 1. cbv beta iota. unfold try_except.
  destruct (bindM (enqueue (operation_overrides op)) _ _) as [[[]|e] s1]; eexists; reflexivity.
Qed.

(** Queueing one sync per node. *)
Definition enqueue_sync (node_id : string) : M unit :=
  let* operation := new_operation "sync_node" (Some "node") (Some node_id) in
  enqueue_operation operation (enqueue_sync_node node_id).

Definition sync_queued (node_id : string) (d : db) (lo hi : nat) : Prop :=
  ∃ k o, lo ≤ k < hi ∧ operations d !! uuid4 k = Some o ∧ Op_kind o = "sync_node" ∧
    Op_target_id o = Some node_id.

Lemma enqueue_sync_run node_id s :
  ∃ o s', enqueue_sync node_id s = (Ok tt, s') ∧ Op_id o = uuid4 (draws s) ∧
    Op_kind o = "sync_node" ∧ Op_target_id o = Some node_id ∧
    work s' = update_operation o (work s) ∧ committed s' = work s' ∧ draws s < draws s'.
Proof.
  unfold enqueue_sync. rewrite bind_run. unfold new_operation, new_uuid, now, draw, bindM.
  simpl. match goal with |- context [enqueue_operation ?op _ ?s0] =>
    destruct (enqueue_operation_run op "sync_node" "node" (Some node_id) s0)
      as (o & s' & E & H1 & H2 & H3 & _ & H4 & H5 & H6) end.
  exists o, s'. split; [exact E|]. simpl in *. split_and!; try done. lia.
Qed.

Lemma for_each_enqueue_sync `{!EnvLaws} node_ids s :
  ∃ s', for_each node_ids enqueue_sync s = (Ok tt, s') ∧
    work s' = (work s) <| operations := operations (work s') |> ∧
    (node_ids ≠ [] → committed s' = work s') ∧ (node_ids = [] → s' = s) ∧ draws s ≤ draws s' ∧
    (∀ k, k < draws s → operations (work s') !! uuid4 k = operations (work s) !! uuid4 k) ∧
    ∀ node_id, node_id ∈ node_ids → sync_queued node_id (work s') (draws s) (draws s').
Proof.
  revert s. induction node_ids as [|nid nids IH]; intros s.
  { exists s. split_and!; try done; [by destruct s as [[]]|by intros ? ?%elem_of_nil]. }
  destruct (enqueue_sync_run nid s) as (o & s1 & E1 & Hid & Hk & Ht & Hw & Hc & Hd).
  destruct (IH s1) as (s' & E & Hw' & Hc' & Hnil & Hd' & Hold & Hq). exists s'.
  split; [by unfold for_each in *; simpl; rewrite bind_run, E1|].
  assert (∀ k, k < draws s1 → operations (work s') !! uuid4 k =
    if decide (k = draws s) then Some o else operations (work s) !! uuid4 k) as Hops.
  { intros k Hlt. rewrite Hold by done. rewrite Hw. simpl. rewrite Hid, lookup_insert.
    destruct (decide (k = draws s)) as [->|Hne]; [by rewrite decide_True|].
    rewrite decide_False; [done|]. intros Ek. apply Hne. symmetry. by apply uuid4_inj. }
  split_and!.
  - rewrite Hw', Hw. done.
  - intros _. destruct nids; [|by apply Hc']. by rewrite Hnil.
  - done.
  - lia.
  - intros k Hlt. rewrite Hops by lia. rewrite decide_False by lia. done.
  - intros x [->|Hx]%elem_of_cons.
    + exists (draws s), o. rewrite Hops, decide_True by done. split_and!; try done; lia.
    + destruct (Hq x Hx) as (k & o' & Hr & H1 & H2 & H3). exists k, o'. split_and!; try done; lia.
Qed.
End publishing.

(** Deciding that a topology routes every command. *)
Definition topology_check (t : topology) : bool :=
  forallb (fun q =>
    (routing_key_for_command (CQ_command q) == Ok (CQ_queue_name q)) &&
    (route t EXCHANGE_NAME (CQ_queue_name q) == [CQ_queue_name q]) &&
    (command_queue_decl (CQ_queue_name q) (CQ_sequential q) isin top_queues t) &&
    forallb (fun delay =>
      match retry_queue_for_command (CQ_command q) delay.1 with
      | Ok name =>
          (route t DLX_NAME name == [name]) &&
          (mkQueue name false (Some delay.2) (Some EXCHANGE_NAME) (Some (CQ_queue_name q))
             isin top_queues t) &&
          (expired_to t name == Some [CQ_queue_name q])
      | Raise _ => false
      end) RETRY_DELAYS) COMMAND_QUEUES &&
  (route t DLX_NAME POISON_QUEUE == [POISON_QUEUE]) && bool_decide (NoDup (Q_name <$> top_queues t)).

(** ** Properties *)

(** The declared topology routes every command. A message published for a command reaches exactly
    the queue of that command; a message parked in one of that queue's retry queues reaches, when its
    delay is over, exactly that queue again; every retry delay has its queue with that time to live;
    the commands that share a queue agree on whether it is consumed sequentially, and a sequential
    queue is declared with a single active consumer; the dead-letter exchange delivers poison to its
    queue. *)
Lemma topology_routes_commands :
  ∃ t, declare_topology = Ok t ∧
  (∀ q, q ∈ COMMAND_QUEUES →
     routing_key_for_command (CQ_command q) = Ok (CQ_queue_name q) ∧
     route t EXCHANGE_NAME (CQ_queue_name q) = [CQ_queue_name q] ∧
     command_queue_decl (CQ_queue_name q) (CQ_sequential q) ∈ top_queues t ∧
     ∀ delay, delay ∈ RETRY_DELAYS → ∃ name,
       retry_queue_for_command (CQ_command q) delay.1 = Ok name ∧
       route t DLX_NAME name = [name] ∧
       mkQueue name false (Some delay.2) (Some EXCHANGE_NAME) (Some (CQ_queue_name q)) ∈ top_queues t ∧
       expired_to t name = Some [CQ_queue_name q]) ∧
  route t DLX_NAME POISON_QUEUE = [POISON_QUEUE] ∧
  NoDup (Q_name <$> top_queues t).
Proof.
  destruct declare_topology as [t|e] eqn:E; [|vm_compute in E; discriminate].
  exists t. split; [done|].
  assert (topology_check t = true) as Hc.
  { transitivity (match declare_topology with Ok t => topology_check t | _ => false end).
    - by rewrite E.
    - vm_compute. reflexivity. }
  unfold topology_check in Hc. apply andb_true_iff in Hc as [[Hq Hp]%andb_true_iff Hn].
  apply bool_decide_eq_true in Hp, Hn. split; [|split; [exact Hp|exact Hn]].
  intros q Hin. rewrite forallb_forall in Hq. apply list_elem_of_In, Hq in Hin.
  apply andb_true_iff in Hin as [[[Hk Hr]%andb_true_iff Hd]%andb_true_iff Hdel].
  apply bool_decide_eq_true in Hk, Hr, Hd.
  split; [exact Hk|]. split; [exact Hr|]. split; [exact Hd|]. intros delay Hdelay.
  rewrite forallb_forall in Hdel. apply list_elem_of_In, Hdel in Hdelay.
  destruct (retry_queue_for_command (CQ_command q) delay.1) as [name|]; [|done].
  exists name. apply andb_true_iff in Hdelay as [[H1 H2]%andb_true_iff H3].
  apply bool_decide_eq_true in H1, H2, H3.
  split; [reflexivity|]. split; [exact H1|]. split; [exact H2|exact H3].
Qed.

(** An operation is durable before its command can be seen, and the request never fails because
    of the broker. [enqueue_operation] always returns; if the broker takes the message, the operation
    row was committed before the publish and the message names that row; if it refuses, nothing is
    published and the row is committed as [enqueue_failed] with the broker's error. *)
Lemma enqueue_operation_durable `{Env} op command target_type target_id key s :
  routing_key_for_command command = Ok key →
  truthy_str (Op_id op) = true → truthy_str (Op_idempotency_key op) = true →
  let r := enqueue_operation op
             (fun o => enqueue_command command (payload_of command target_type target_id o)) s in
  r.1 = Ok tt ∧ operations (work r.2) = operations (committed r.2) ∧
  ((∃ payload before,
      trace r.2 = EvPublish key payload :: before ++ trace s ∧
      EvCommit (update_operation op (work s)) ∈ before ∧
      Payload_command payload = command ∧ Payload_operation_id payload = Op_id op ∧
      Payload_idempotency_key payload = Op_idempotency_key op ∧
      Payload_target_id payload = target_id ∧
      operations (committed r.2) !! Op_id op = Some op) ∨
   (∃ message before,
      trace r.2 = before ++ trace s ∧ (∀ k p, EvPublish k p ∉ before) ∧
      ∃ row, operations (committed r.2) !! Op_id op = Some row ∧
        Op_status row = "enqueue_failed" ∧ Op_error row = Some (str_take 500 message))).
Proof.
  intros Hkey Hid Hik r. subst r. unfold enqueue_operation. rewrite !bind_run.
  cbn [modify]. rewrite bind_run.
  set (s0 := s <| work := update_operation op (work s) |>).
  set (before := ((fun ur => EvNotify ur.1 ur.2) <$> rev (pending s))
                  ++ [EvCommit (update_operation op (work s))]).
  assert (EvCommit (update_operation op (work s)) ∈ before) as Hin
    by (unfold before; rewrite elem_of_app; right; left).
  assert (∀ k p, EvPublish k p ∉ before) as Hno.
  { intros k p. unfold before. rewrite elem_of_app, list_elem_of_fmap.
    intros [(x & ? & _)|[?|?%elem_of_nil]%elem_of_cons]; done. }
  assert (∃ s1, commit s0 = (Ok tt, s1) ∧ trace s1 = before ++ trace s ∧ work s1 = committed s1 ∧
    pending s1 = [] ∧ operations (committed s1) !! Op_id op = Some op) as (s1 & -> & Ht & Hwc & Hpe & Hop).
  { eexists. split; [reflexivity|]. split_and!; [|done|done|simpl; by rewrite lookup_insert_eq].
    unfold before. by rewrite <- app_assoc. }
  clearbody s0. unfold try_except, enqueue_command. rewrite !bind_run, payload_of_run by done.
  rewrite bind_run, Hkey. cbn [lift]. rewrite bind_run. unfold publish_command, publish. cbn [draws].
  destruct (broker_error _) as [message|].
  - unfold now, draw. rewrite bind_run. cbn [modify]. rewrite bind_run. cbn [modify]. unfold commit. simpl.
    rewrite Hpe. split; [done|]. split; [done|]. right. exists message.
    set (row := mkAsyncOperation _ _ _ _ _ _ _ _ _ _ _ _).
    exists (EvCommit (update_operation row (work s1)) :: before). rewrite Ht. split; [done|].
    split; [intros k p [?|?]%elem_of_cons; [done|by eapply Hno]|].
    exists row. by rewrite lookup_insert_eq.
  - simpl. split; [done|]. split; [by rewrite Hwc|]. left. eexists _, before. rewrite Ht. by split_and!.
Qed.

Definition sample_operation : AsyncOperation :=
  {| Op_id := "op-1"; Op_kind := "sync_node"; Op_target_type := Some "node";
     Op_target_id := Some "a"; Op_status := "queued"; Op_error := None; Op_result := None;
     Op_attempts := 0; Op_idempotency_key := "key-1"; Op_created_at := utc 0;
     Op_updated_at := utc 0; Op_finished_at := None |}.

Lemma enqueue_operation_durable_witness :
  routing_key_for_command "sync_node" = Ok NODE_OPERATIONS_QUEUE ∧
  (enqueue_operation sample_operation
     (fun o => enqueue_command "sync_node" (payload_of "sync_node" "node" (Some "a") o))
     (start sample_db 0)).1 = Ok tt.
Proof.
  split; [vm_compute; reflexivity|].
  apply (enqueue_operation_durable sample_operation "sync_node" "node" (Some "a")
    NODE_OPERATIONS_QUEUE); vm_compute; reflexivity.
Defined.
