(* ===== verification/Events.v ===== *)
(** * Change notifications and event streams

    [panel/backend/app/services/events.py]: the notifications a transaction records, the savepoint
    levels they belong to, and the hub that fans them out to open streams. *)
From S2P Require Import Prelude PyStr Models Session.

Definition REASON_DEVICE_CREATED : string := "device.created".
Definition REASON_DEVICE_DELETED : string := "device.deleted".
Definition REASON_NODE_SYNC : string := "node.sync".
Definition REASON_NODE_HEARTBEAT : string := "node.heartbeat".
Definition COALESCED_REASONS : list string := [REASON_NODE_HEARTBEAT].

(** The payloads of a change: one per distinct non-empty user id, in id order. *)
Definition payloads (user_ids : gset string) (reason : string) : list (string * string) :=
  (., reason) <$> sorted_strings (List.filter truthy_str (elements user_ids)).

(** Recording them in the open transaction; the number recorded. *)
Definition notify_user_changes (user_ids : gset string) (reason : string) : M Z :=
  let ps := payloads user_ids reason in
  do* for_each ps (fun p => record_notification p.1 p.2) in
  retM (Z.of_nat (length ps)).

Lemma notify_user_changes_run ids reason s :
  notify_user_changes ids reason s =
  (Ok (Z.of_nat (length (payloads ids reason))),
   s <| pending := pending s ++ payloads ids reason |>).
Proof.
  unfold notify_user_changes. rewrite bind_run.
  assert (∀ ps s, for_each ps (fun p => record_notification p.1 p.2) s =
    (Ok tt, s <| pending := pending s ++ ps |>)) as ->; [|done].
  unfold for_each. clear. induction ps as [|[u r] ps IH]; intros s.
  - simpl. unfold retM. rewrite app_nil_r. by destruct s.
  - simpl. rewrite bind_run. unfold record_notification at 1. rewrite IH. simpl.
    by rewrite <- app_assoc.
Qed.

Lemma notify_user_changes_preserves (P : db → Prop) ids reason :
  preserves (holds P) (notify_user_changes ids reason).
Proof. intros s [Hw Hc]. rewrite notify_user_changes_run. by split. Qed.
#[export] Hint Resolve notify_user_changes_preserves : preserves.
