(* ===== verification/NodeSync.v ===== *)
(** * Node results

    [panel/backend/app/services/node_sync.py]: locking the rows of a node, and what a node's reply
    writes - the interface metadata, a peer's status, endpoint and handshake, its endpoint sessions
    and its traffic counters with the four aggregates. *)
From S2P Require Import Prelude PyStr Json Bytes Models Session Sample Crypto AccountPolicy Devices.

Definition MAX_LOCK_DISCOVERY_ATTEMPTS : nat := 5.
Definition TOMBSTONED_PEER_STATUSES : list string := ["pending_delete"; "deleted"].

(** ** Results *)
Record InterfaceResult := mkInterfaceResult {
  IR_public_key : option string;
  IR_endpoint : option string;
  IR_listen_port : option Z;
  IR_jc : option Z; IR_jmin : option Z; IR_jmax : option Z;
  IR_s1 : option Z; IR_s2 : option Z; IR_s3 : option Z; IR_s4 : option Z;
  IR_h1 : option string; IR_h2 : option string; IR_h3 : option string; IR_h4 : option string;
  IR_i1 : option string; IR_i2 : option string; IR_i3 : option string; IR_i4 : option string;
  IR_i5 : option string;
  IR_mtu : option string }.

(** A JSON value of [last_handshake], and the validator that drops the "never" markers. *)
Inductive raw_handshake := RawNumber (z : Z) | RawString (s : string).
Definition normalize_last_handshake (value : option raw_handshake) : option raw_handshake :=
  match value with
  | None => None
  | Some (RawNumber z) => if (z <=? 0)%Z then None else value
  | Some (RawString s) => if strip s isin ["0"; "0.0"] then None else value
  end.

(** [endpoint_set] is ['endpoint' in data.model_fields_set]. *)
Record PeerSyncResult := mkPeerSyncResult {
  PR_public_key : string;
  PR_status : option string;
  PR_endpoint : option string;
  PR_endpoint_set : bool;
  PR_rx_bytes : option Z;
  PR_tx_bytes : option Z;
  PR_last_handshake : option datetime }.

Record SyncResult := mkSyncResult {
  SR_ok : bool;
  SR_error : option string;
  SR_interface : option InterfaceResult;
  SR_peers : list PeerSyncResult }.

Record ProvisionResult := mkProvisionResult {
  ProvR_ok : bool;
  ProvR_error : option string;
  ProvR_interface : option InterfaceResult }.

Record HeartbeatResult := mkHeartbeatResult {
  HR_ok : bool;
  HR_error : option string;
  HR_peers : list PeerSyncResult }.

(** ** The interface *)

(** [value is not None and getattr(node, target) != value]: assigning the new value is the same. *)
Definition given {A} (new old : option A) : option A := match new with Some v => Some v | None => old end.

Definition apply_interface_result (node : Node) (data : InterfaceResult) : Node :=
  node
    <| Node_server_public_key := given (IR_public_key data) (Node_server_public_key node) |>
    <| Node_server_endpoint := given (IR_endpoint data) (Node_server_endpoint node) |>
    <| Node_listen_port := given (IR_listen_port data) (Node_listen_port node) |>
    <| Node_jc := given (IR_jc data) (Node_jc node) |>
    <| Node_jmin := given (IR_jmin data) (Node_jmin node) |>
    <| Node_jmax := given (IR_jmax data) (Node_jmax node) |>
    <| Node_s1 := given (IR_s1 data) (Node_s1 node) |>
    <| Node_s2 := given (IR_s2 data) (Node_s2 node) |>
    <| Node_s3 := given (IR_s3 data) (Node_s3 node) |>
    <| Node_s4 := given (IR_s4 data) (Node_s4 node) |>
    <| Node_h1 := given (IR_h1 data) (Node_h1 node) |>
    <| Node_h2 := given (IR_h2 data) (Node_h2 node) |>
    <| Node_h3 := given (IR_h3 data) (Node_h3 node) |>
    <| Node_h4 := given (IR_h4 data) (Node_h4 node) |>
    <| Node_i1 := given (IR_i1 data) (Node_i1 node) |>
    <| Node_i2 := given (IR_i2 data) (Node_i2 node) |>
    <| Node_i3 := given (IR_i3 data) (Node_i3 node) |>
    <| Node_i4 := given (IR_i4 data) (Node_i4 node) |>
    <| Node_i5 := given (IR_i5 data) (Node_i5 node) |>
    <| Node_mtu := given (IR_mtu data) (Node_mtu node) |>.

(** ** Peer status, endpoint and handshake *)
Definition REPORTED_STATUSES : list string := ["active"; "pending"; "pending_delete"; "deleted"].

(** The status after a reply; [reported] is [data.status]. *)
Definition result_status (reported : option string) (device_tombstone : bool) (status : string)
    : string :=
  let stored_tombstone := status isin TOMBSTONED_PEER_STATUSES in
  let status := if device_tombstone && negb stored_tombstone then "pending_delete" else status in
  match reported with
  | Some r =>
      if (r isin REPORTED_STATUSES) && (status != r) &&
         negb ((r isin ["active"; "pending"]) && (stored_tombstone || device_tombstone))
      then r else status
  | None => status
  end.

Definition device_tombstone (d : db) (peer : Peer) : bool :=
  match devices d !! Peer_device_id peer with
  | Some v => negb (is_live v)
  | None => false
  end.

Definition merge_peer (peer : Peer) (data : PeerSyncResult) (tombstone : bool) : Peer :=
  let peer := peer <| Peer_status := result_status (PR_status data) tombstone (Peer_status peer) |> in
  let peer := if PR_endpoint_set data && (Peer_endpoint peer != PR_endpoint data)
              then peer <| Peer_endpoint := PR_endpoint data |> else peer in
  match PR_last_handshake data with
  | Some h => if negb (opt_dt_eq (Peer_last_handshake peer) (Some h))
              then peer <| Peer_last_handshake := Some h |> else peer
  | None => peer
  end.

(** ** Counters *)
Definition counter_delta (previous : option Z) (current : Z) : Z :=
  match previous with
  | None => 0
  | Some previous => if (current <? previous)%Z then current else current - previous
  end.

Definition reset_detected (previous : option Z) (current : Z) : bool :=
  match previous with Some p => (current <? p)%Z | None => false end.

(** One aggregate row: created with the increment, or increased by it. *)
Section aggregates.
Context `{Env} {K Row : Type} `{Countable K}.
Context (get : db → gmap K Row) (put : gmap K Row → db → db).

Definition increase_aggregate (key : K) (create : string → Row) (increase : Row → Row) : M unit :=
  let* aggregate := reads (fun d => get d !! key) in
  match aggregate with
  | None => let* id := new_uuid in modify (fun d => put (<[key := create id]> (get d)) d)
  | Some row => modify (fun d => put (<[key := increase row]> (get d)) d)
  end.
End aggregates.

Section with_env.
Context `{Env}.

Definition apply_local_traffic_aggregates (peer : Peer) (observed_at : datetime)
    (rx_delta tx_delta : Z) : M unit :=
  let total_delta := (rx_delta + tx_delta)%Z in
  let usage_day := dt_date observed_at in
  let uid := Peer_user_id peer in
  let nid := Peer_node_id peer in
  do* increase_aggregate user_daily (fun t d => d <| user_daily := t |>) (uid, usage_day)
    (fun id => mkLocalAmneziawgUserDailyTraffic id uid usage_day rx_delta tx_delta total_delta
                 observed_at)
    (fun r => r <| UserDaily_rx_bytes := (UserDaily_rx_bytes r + rx_delta)%Z |>
                <| UserDaily_tx_bytes := (UserDaily_tx_bytes r + tx_delta)%Z |>
                <| UserDaily_total_bytes := (UserDaily_total_bytes r + total_delta)%Z |>
                <| UserDaily_updated_at := observed_at |>) in
  do* increase_aggregate user_node_daily (fun t d => d <| user_node_daily := t |>)
    (uid, nid, usage_day)
    (fun id => mkLocalAmneziawgUserNodeDailyTraffic id uid nid usage_day rx_delta tx_delta
                 total_delta observed_at)
    (fun r => r <| UserNodeDaily_rx_bytes := (UserNodeDaily_rx_bytes r + rx_delta)%Z |>
                <| UserNodeDaily_tx_bytes := (UserNodeDaily_tx_bytes r + tx_delta)%Z |>
                <| UserNodeDaily_total_bytes := (UserNodeDaily_total_bytes r + total_delta)%Z |>
                <| UserNodeDaily_updated_at := observed_at |>) in
  do* increase_aggregate user_lifetime (fun t d => d <| user_lifetime := t |>) uid
    (fun id => mkLocalAmneziawgUserLifetimeTraffic id uid rx_delta tx_delta total_delta observed_at)
    (fun r => r <| UserLifetime_rx_bytes := (UserLifetime_rx_bytes r + rx_delta)%Z |>
                <| UserLifetime_tx_bytes := (UserLifetime_tx_bytes r + tx_delta)%Z |>
                <| UserLifetime_total_bytes := (UserLifetime_total_bytes r + total_delta)%Z |>
                <| UserLifetime_updated_at := observed_at |>) in
  increase_aggregate user_node_lifetime (fun t d => d <| user_node_lifetime := t |>) (uid, nid)
    (fun id => mkLocalAmneziawgUserNodeLifetimeTraffic id uid nid rx_delta tx_delta total_delta
                 observed_at)
    (fun r => r <| UserNodeLifetime_rx_bytes := (UserNodeLifetime_rx_bytes r + rx_delta)%Z |>
                <| UserNodeLifetime_tx_bytes := (UserNodeLifetime_tx_bytes r + tx_delta)%Z |>
                <| UserNodeLifetime_total_bytes := (UserNodeLifetime_total_bytes r + total_delta)%Z |>
                <| UserNodeLifetime_updated_at := observed_at |>).

(** The most recently seen session of a peer. *)
Definition latest_endpoint_session (d : db) (peer_id : string) : option PeerEndpointSession :=
  head (order_by (fun s => - instant (Session_last_seen_at s))%Z Session_id
    (select (fun s => Session_peer_id s == peer_id) (endpoint_sessions d))).

Definition put_session (s : PeerEndpointSession) (d : db) : db :=
  d <| endpoint_sessions := <[Session_id s := s]> (endpoint_sessions d) |>.

Definition apply_peer_endpoint_session (peer : Peer) (data : PeerSyncResult)
    (observed_at : datetime) : M unit :=
  match PR_endpoint data with
  | None => retM tt
  | Some endpoint =>
      if negb (truthy_str endpoint) then retM tt else
      let* session := reads (fun d => latest_endpoint_session d (Peer_id peer)) in
      let create :=
        let* id := new_uuid in
        let* t := now in
        modify (put_session
          (mkPeerEndpointSession id (Peer_id peer) (Peer_node_id peer) (Peer_user_id peer) endpoint
             observed_at observed_at (PR_last_handshake data) t t)) in
      match session with
      | None => create
      | Some session =>
          if Session_endpoint session != endpoint then create
          else match PR_last_handshake data with
          | Some h =>
              if negb (opt_dt_eq (Session_last_handshake session) (Some h)) then
                let* t := now in
                modify (put_session (session <| Session_last_seen_at := observed_at |>
                                             <| Session_last_handshake := Some h |>
                                             <| Session_updated_at := t |>))
              else retM tt
          | None => retM tt
          end
      end
  end.

(** [apply_peer_result]: the sample, when the counters moved. *)
Definition apply_peer_result (peer : Peer) (data : PeerSyncResult) (now_ : datetime)
    : M (option PeerTrafficSample) :=
  let* tombstone := reads (fun d => device_tombstone d peer) in
  let peer := merge_peer peer data tombstone in
  do* modify (update_peer peer) in
  do* apply_peer_endpoint_session peer data now_ in
  match PR_rx_bytes data, PR_tx_bytes data with
  | Some rx, Some tx =>
      let delta_rx := counter_delta (Peer_raw_rx peer) rx in
      let delta_tx := counter_delta (Peer_raw_tx peer) tx in
      do* modify (update_peer (peer <| Peer_raw_rx := Some rx |> <| Peer_raw_tx := Some tx |>)) in
      if (delta_rx == 0%Z) && (delta_tx == 0%Z) then retM None else
      let* sample_id := new_uuid in
      let sample := mkPeerTrafficSample sample_id (Peer_id peer) now_ delta_rx delta_tx in
      let* delta_id := new_uuid in
      let* t := now in
      let delta := {|
        Delta_id := delta_id; Delta_peer_id := Peer_id peer; Delta_node_id := Peer_node_id peer;
        Delta_user_id := Peer_user_id peer; Delta_observed_at := now_;
        Delta_source_sync_id := None;
        Delta_previous_rx_bytes := default 0%Z (Peer_raw_rx peer);
        Delta_previous_tx_bytes := default 0%Z (Peer_raw_tx peer);
        Delta_current_rx_bytes := rx; Delta_current_tx_bytes := tx;
        Delta_rx_delta_bytes := delta_rx; Delta_tx_delta_bytes := delta_tx;
        Delta_total_delta_bytes := (delta_rx + delta_tx)%Z;
        Delta_rx_reset_detected := reset_detected (Peer_raw_rx peer) rx;
        Delta_tx_reset_detected := reset_detected (Peer_raw_tx peer) tx;
        Delta_created_at := t |} in
      do* modify (fun d => d <| samples := samples d ++ [sample] |> <| deltas := deltas d ++ [delta] |>) in
      do* apply_local_traffic_aggregates peer now_ delta_rx delta_tx in
      retM (Some sample)
  | _, _ => retM None
  end.

(** ** Locking *)
Definition pending_remnawave_purge_owner_ids (d : db) : gset string :=
  list_to_set (Rw_user_id <$>
    select (fun r => Rw_delete_requested_at r != None) (rw_users d)).

(** Owners are discovered, locked in id order and looked for again, at most five times. *)
Fixpoint lock_owner_rows (attempts : nat) (node_id : string) (locked : gset string)
    : M (gset string) :=
  match attempts with
  | 0 => retM locked
  | S attempts =>
      let* owner_ids := reads (fun d =>
        list_to_set (Peer_user_id <$> peers_of_node d node_id)
        ∪ pending_remnawave_purge_owner_ids d) in
      let pending := sorted_strings (elements (owner_ids ∖ locked)) in
      match pending with
      | [] => retM locked
      | _ =>
          do* lock_wait in
          let* found := reads (fun d =>
            List.filter (fun uid => bool_decide (is_Some (users d !! uid))) pending) in
          lock_owner_rows attempts node_id (locked ∪ list_to_set found)
      end
  end.

Definition lock_peer_device_rows (node_id : string) : M (gset string) :=
  let* device_ids := reads (fun d =>
    list_to_set (C := gset string) (Peer_device_id <$> peers_of_node d node_id)) in
  let wanted := sorted_strings (List.filter truthy_str (elements device_ids)) in
  match wanted with
  | [] => retM ∅
  | _ =>
      do* lock_wait in
      reads (fun d => list_to_set
        (List.filter (fun did => bool_decide (is_Some (devices d !! did))) wanted))
  end.

(** The node and the ids of its peers; with [for_update], only the peers whose owner and device are
    locked. *)
Definition load_node_with_peers (node_id : string) (for_update : bool) : M (Node * list string) :=
  let* node := reads (fun d => nodes d !! node_id) in
  match node with
  | None => raise (HTTPException 404 "Node not found")
  | Some node =>
      if negb for_update then
        let* ps := reads (fun d => peers_of_node d node_id) in
        retM (node, Peer_id <$> ps)
      else
        let* owners := lock_owner_rows MAX_LOCK_DISCOVERY_ATTEMPTS node_id ∅ in
        let* devs := lock_peer_device_rows node_id in
        do* lock_wait in
        let* ps := reads (fun d => peers_of_node d node_id) in
        retM (node, Peer_id <$> List.filter (fun p =>
          bool_decide (Peer_user_id p ∈ owners) && bool_decide (Peer_device_id p ∈ devs)) ps)
  end.
End with_env.

(** ** Status *)
Lemma result_status_dead reported tombstone status :
  tombstone = true ∨ status ∈ TOMBSTONED_PEER_STATUSES →
  result_status reported tombstone status ∉ LIVE_PEER_STATUSES.
Proof.
  intros H. unfold result_status.
  assert (∀ r, r ∈ REPORTED_STATUSES → r ∉ ["active"; "pending"] → r ∉ LIVE_PEER_STATUSES) as Hrep.
  { unfold REPORTED_STATUSES, LIVE_PEER_STATUSES. set_solver. }
  assert ((if tombstone && negb (status isin TOMBSTONED_PEER_STATUSES) then "pending_delete"
           else status) ∉ LIVE_PEER_STATUSES) as Hst.
  { destruct tombstone; simpl.
    - case_bool_decide as Ht; simpl; [|literal_in]. revert Ht.
      unfold TOMBSTONED_PEER_STATUSES, LIVE_PEER_STATUSES. set_solver.
    - destruct H as [?|H]; [done|]. revert H.
      unfold TOMBSTONED_PEER_STATUSES, LIVE_PEER_STATUSES. set_solver. }
  destruct reported as [r|]; [|done].
  assert ((status isin TOMBSTONED_PEER_STATUSES) || tombstone = true) as ->.
  { destruct H as [->|H]; [by rewrite orb_true_r|]. by rewrite bool_decide_eq_true_2. }
  rewrite andb_true_r. match goal with |- context [if ?b then r else _] => destruct b eqn:E end; [|done].
  apply andb_true_iff in E as [[Hr _]%andb_true_iff Hnot]. py_bool. by apply Hrep.
Qed.

(** A reply that reports nothing new leaves the status alone. *)
Lemma merge_peer_same peer data tombstone : same_peer peer (merge_peer peer data tombstone).
Proof. unfold merge_peer. repeat case_match; done. Qed.

Lemma merge_peer_status peer data tombstone :
  Peer_status (merge_peer peer data tombstone)
  = result_status (PR_status data) tombstone (Peer_status peer).
Proof. unfold merge_peer. repeat case_match; done. Qed.

Lemma merge_peer_counters peer data tombstone :
  Peer_raw_rx (merge_peer peer data tombstone) = Peer_raw_rx peer ∧
  Peer_raw_tx (merge_peer peer data tombstone) = Peer_raw_tx peer.
Proof. unfold merge_peer. repeat case_match; done. Qed.

(** ** The tables a reply leaves alone *)
Lemma holds_core (f : db → db) :
  (∀ d, core_eq d (f d)) → preserves (holds db_inv) (modify f).
Proof. intros Hf. apply holds_modify. intros d Hd. eapply db_inv_proper; [symmetry; apply Hf|done]. Qed.

(** Computations that relate the view before and after by a preorder, and commit nothing. *)
Definition keeps {A} (R : db → db → Prop) (m : M A) : Prop :=
  ∀ s, R (work s) (work (m s).2) ∧ committed s = committed (m s).2.

Section keeps.
Context (R : db → db → Prop) `{!PreOrder R}.

Lemma keeps_ret {A} (a : A) : keeps R (retM a).
Proof. by intros s. Qed.
Lemma keeps_bind {A B} (m : M A) (k : A → M B) :
  keeps R m → (∀ a, keeps R (k a)) → keeps R (bindM m k).
Proof.
  intros Hm Hk s. rewrite bind_run. specialize (Hm s). destruct (m s) as [[a|e] s']; [|done].
  specialize (Hk a s'). destruct Hm as [H1 H2], Hk as [H3 H4]. split; by etrans.
Qed.
Lemma keeps_draw {A} (m : M A) : pure_draw m → keeps R m.
Proof. intros Hm s. destruct (Hm s) as (H1 & H2 & _). split; [by rewrite H1|done]. Qed.
Lemma keeps_modify f : (∀ d, R d (f d)) → keeps R (modify f).
Proof. intros Hf s. split; [apply Hf|done]. Qed.
End keeps.

(** The tables the invariants read, and the tables of the traffic accounting. *)
Abbreviation keeps_core := (keeps core_eq).
Definition same_core (s s' : session) : Prop :=
  core_eq (work s) (work s') ∧ committed s = committed s'.
Definition traffic_eq (d d' : db) : Prop :=
  samples d = samples d' ∧ deltas d = deltas d' ∧ user_daily d = user_daily d' ∧
  user_node_daily d = user_node_daily d' ∧ user_lifetime d = user_lifetime d' ∧
  user_node_lifetime d = user_node_lifetime d'.
#[export] Instance traffic_eq_preorder : PreOrder traffic_eq.
Proof.
  split; unfold traffic_eq; [by intros d|].
  intros d1 d2 d3 (?&?&?&?&?&?) (?&?&?&?&?&?). split_and!; congruence.
Qed.
#[export] Hint Resolve keeps_ret keeps_bind keeps_draw : preserves.

Section results.
Context `{EnvLaws}.

Lemma keeps_core_increase {K Row} `{Countable K} (get : db → gmap K Row) put key create incr :
  (∀ t d, core_eq d (put t d)) → keeps_core (increase_aggregate get put key create incr).
Proof.
  intros Hput. unfold increase_aggregate.
  apply (keeps_bind _); [apply (keeps_draw _); eauto with preserves|]. intros [row|].
  - by apply (keeps_modify _).
  - apply (keeps_bind _); [apply (keeps_draw _); unfold new_uuid; eauto with preserves|].
    intros id. by apply (keeps_modify _).
Qed.

Lemma keeps_core_aggregates peer t rx tx :
  keeps_core (apply_local_traffic_aggregates peer t rx tx).
Proof.
  unfold apply_local_traffic_aggregates.
  repeat (apply (keeps_bind _); [by apply keeps_core_increase|intros _]).
  by apply keeps_core_increase.
Qed.

(** An endpoint session is no part of either. *)
Lemma keeps_endpoint_session (R : db → db → Prop) `{!PreOrder R} peer data t :
  (∀ x d, R d (put_session x d)) → keeps R (apply_peer_endpoint_session peer data t).
Proof.
  intros HR. unfold apply_peer_endpoint_session, new_uuid, now.
  assert (∀ x, keeps R (modify (put_session x))) as Hput by (intros; by apply keeps_modify).
  destruct (PR_endpoint data) as [e|]; [|apply keeps_ret; apply _].
  case_match; [apply keeps_ret; apply _|].
  apply keeps_bind; [apply _|apply keeps_draw; eauto with preserves|]. intros session.
  assert (∀ f : string → datetime → PeerEndpointSession,
    keeps R (let* id := draw uuid4 in
      let* t0 := draw (fun n => utc (clock n)) in modify (put_session (f id t0)))) as Hc.
  { intros f. apply keeps_bind; [apply _|apply keeps_draw; eauto with preserves|intros id].
    apply keeps_bind; [apply _|apply keeps_draw; eauto with preserves|intros t']. apply Hput. }
  destruct session as [session|]; [|apply Hc]. case_match; [apply Hc|].
  destruct (PR_last_handshake data); [|apply keeps_ret; apply _].
  case_match; [|apply keeps_ret; apply _].
  apply keeps_bind; [apply _|apply keeps_draw; eauto with preserves|]. intros; apply Hput.
Qed.
Lemma keeps_core_endpoint_session peer data t :
  keeps_core (apply_peer_endpoint_session peer data t).
Proof. apply (keeps_endpoint_session core_eq). intros x d. by unfold core_eq. Qed.

Lemma same_core_inv s s' : same_core s s' → holds db_inv s → holds db_inv s'.
Proof. intros [H1 H2] [Hw Hc]. split; [by rewrite <- H1|by rewrite <- H2]. Qed.

(** What a reply about a peer does to the core tables: the invariants hold, and the only row
    changed is the peer's, whose status is the merged one. *)
Definition result_effect (peer : Peer) (data : PeerSyncResult) (s s' : session) : Prop :=
  holds db_inv s' ∧ devices (work s') = devices (work s) ∧ users (work s') = users (work s) ∧
  ∃ p, peers (work s') = <[Peer_id peer := p]> (peers (work s)) ∧ same_peer peer p ∧
    Peer_status p = result_status (PR_status data) (device_tombstone (work s) peer)
                      (Peer_status peer).

(** A row with the merged status is written, then only tables outside the core change. *)
Lemma result_effect_intro peer data s s1 s2 p :
  holds db_inv s → peers (work s) !! Peer_id peer = Some peer →
  same_peer peer p →
  Peer_status p = result_status (PR_status data) (device_tombstone (work s) peer)
                    (Peer_status peer) →
  devices (work s1) = devices (work s) → users (work s1) = users (work s) →
  nodes (work s1) = nodes (work s) → rw_users (work s1) = rw_users (work s) →
  peers (work s1) = <[Peer_id peer := p]> (peers (work s)) → committed s1 = committed s →
  same_core s1 s2 → result_effect peer data s s2.
Proof.
  intros [Hw Hc] Hp Hsame Hst Hd Hu Hn Hr Hpe Hcm [(Hn' & Hu' & Hd' & Hp' & Hr') Hcm'].
  pose proof Hsame as (Hid & _ & _ & Hdev).
  assert (core_eq (update_peer p (work s)) (work s2)) as Hcore.
  { split_and!; simpl; congruence. }
  split_and!; [|congruence..|].
  - split; [|by rewrite <- Hcm', Hcm]. rewrite <- Hcore.
    apply (update_peer_inv _ peer); [done|by rewrite <- Hid|done|]. intros Hlive.
    rewrite Hst in Hlive.
    destruct (decide (Peer_status peer ∈ TOMBSTONED_PEER_STATUSES)) as [Ht|Ht].
    { exfalso. eapply result_status_dead; [right; exact Ht|exact Hlive]. }
    assert (device_tombstone (work s) peer = false) as Etomb.
    { apply not_true_is_false. intros E. eapply result_status_dead; [left; exact E|exact Hlive]. }
    right. intros v. rewrite <- Hdev. intros Hv. unfold device_tombstone in Etomb.
    rewrite Hv in Etomb. apply negb_false_iff in Etomb. by apply is_live_true.
  - exists p. split; [congruence|done].
Qed.

Lemma apply_peer_result_effect peer data t s :
  holds db_inv s → peers (work s) !! Peer_id peer = Some peer →
  result_effect peer data s (apply_peer_result peer data t s).2.
Proof.
  intros Hs Hp. unfold apply_peer_result. rewrite bind_run. unfold reads at 1. cbv zeta.
  set (peer' := merge_peer peer data (device_tombstone (work s) peer)).
  rewrite bind_run. unfold modify at 1. set (s1 := s <| work := _ |>).
  pose proof (merge_peer_same peer data (device_tombstone (work s) peer)) as Hsame.
  fold peer' in Hsame. pose proof Hsame as (Hid & _).
  assert (Hst : Peer_status peer' = result_status (PR_status data)
    (device_tombstone (work s) peer) (Peer_status peer)) by apply merge_peer_status.
  assert (Hpe1 : peers (work s1) = <[Peer_id peer := peer']> (peers (work s)))
    by (simpl; by rewrite Hid).
  rewrite bind_run. pose proof (keeps_core_endpoint_session peer' data t s1) as Hk.
  destruct (apply_peer_endpoint_session peer' data t s1) as [[[]|e] s2]; cbn [snd] in Hk;
    [|by eapply (result_effect_intro peer data s s1)].
  destruct (PR_rx_bytes data) as [rx|]; [|by eapply (result_effect_intro peer data s s1)].
  destruct (PR_tx_bytes data) as [tx|]; [|by eapply (result_effect_intro peer data s s1)].
  rewrite bind_run. unfold modify at 1. set (s3 := s2 <| work := _ |>).
  set (peer'' := peer' <| Peer_raw_rx := Some rx |> <| Peer_raw_tx := Some tx |>).
  destruct Hk as [(Hn2 & Hu2 & Hd2 & Hp2 & Hr2) Hc2].
  assert (Hdone : ∀ s', same_core s3 s' → result_effect peer data s s').
  { intros s' Hk'. apply (result_effect_intro peer data s s3 s' peer''); try done.
    change (peers (work s3)) with (<[Peer_id peer' := peer'']> (peers (work s2))).
    rewrite <- Hp2, Hpe1, <- Hid. by rewrite insert_insert_eq. }
  case_match; [by apply Hdone|]. apply Hdone.
  match goal with |- same_core s3 (?m s3).2 => assert (keeps_core m) as Hm; [|apply Hm] end.
  unfold new_uuid, now.
  do 3 (apply (keeps_bind _); [by eauto with preserves|intros ?]).
  apply (keeps_bind _); [by apply (keeps_modify _)|intros _].
  apply (keeps_bind _); [apply keeps_core_aggregates|intros _]. apply (keeps_ret _).
Qed.
End results.

(** ** Counters *)
Fixpoint deltas_of (previous : option Z) (observed : list Z) : list Z :=
  match observed with
  | [] => []
  | current :: observed => counter_delta previous current :: deltas_of (Some current) observed
  end.
Definition total (l : list Z) : Z := foldr Z.add 0%Z l.

Lemma counter_delta_bounds previous current :
  (0 <= current)%Z → (0 <= default 0 previous)%Z →
  (0 <= counter_delta previous current <= current)%Z.
Proof.
  intros Hc Hp. unfold counter_delta. destruct previous as [p|]; simpl in *; [|lia].
  destruct (Z.ltb_spec current p); lia.
Qed.

Lemma deltas_of_total previous observed :
  Sorted Z.le (previous :: observed) →
  total (deltas_of (Some previous) observed) = (default previous (last observed) - previous)%Z.
Proof.
  revert previous. induction observed as [|c observed IH]; intros previous Hs.
  - simpl. lia.
  - apply Sorted_inv in Hs as [Hs Hh]. apply HdRel_inv in Hh.
    cbn [deltas_of total foldr]. fold (total (deltas_of (Some c) observed)). rewrite IH by done.
    unfold counter_delta. destruct (Z.ltb_spec c previous); [lia|].
    destruct observed as [|c' observed]; [simpl; lia|].
    rewrite last_cons_cons. destruct (last (c' :: observed)) eqn:El; [simpl; lia|].
    by apply last_None in El.
Qed.

Lemma deltas_of_app previous l1 l2 :
  deltas_of previous (l1 ++ l2)
  = deltas_of previous l1 ++ deltas_of (match last l1 with Some c => Some c | None => previous end) l2.
Proof.
  revert previous. induction l1 as [|c l1 IH]; intros previous; [done|].
  cbn [deltas_of app]. rewrite IH. f_equal. f_equal. destruct l1 as [|c' l1]; [done|].
  rewrite last_cons_cons. destruct (last (c' :: l1)) eqn:El; [done|]. by apply last_None in El.
Qed.

Lemma total_app l1 l2 : total (l1 ++ l2) = (total l1 + total l2)%Z.
Proof. induction l1; simpl; [done|]. unfold total in *. simpl. lia. Qed.

(** ** Accounting *)

(** The byte counters of the four aggregates of one owner, node and day, 0 where there is no row. *)
Definition lifetime_bytes (d : db) (uid : string) : Z * Z * Z :=
  match user_lifetime d !! uid with
  | Some r => (UserLifetime_rx_bytes r, UserLifetime_tx_bytes r, UserLifetime_total_bytes r)
  | None => (0, 0, 0)%Z
  end.
Definition node_lifetime_bytes (d : db) (uid nid : string) : Z * Z * Z :=
  match user_node_lifetime d !! (uid, nid) with
  | Some r =>
      (UserNodeLifetime_rx_bytes r, UserNodeLifetime_tx_bytes r, UserNodeLifetime_total_bytes r)
  | None => (0, 0, 0)%Z
  end.
Definition daily_bytes (d : db) (uid : string) (day : Z) : Z * Z * Z :=
  match user_daily d !! (uid, day) with
  | Some r => (UserDaily_rx_bytes r, UserDaily_tx_bytes r, UserDaily_total_bytes r)
  | None => (0, 0, 0)%Z
  end.
Definition node_daily_bytes (d : db) (uid nid : string) (day : Z) : Z * Z * Z :=
  match user_node_daily d !! (uid, nid, day) with
  | Some r => (UserNodeDaily_rx_bytes r, UserNodeDaily_tx_bytes r, UserNodeDaily_total_bytes r)
  | None => (0, 0, 0)%Z
  end.
Definition plus3 (a b : Z * Z * Z) : Z * Z * Z :=
  (a.1.1 + b.1.1, a.1.2 + b.1.2, a.2 + b.2)%Z.
Definition when (b : bool) (a : Z * Z * Z) : Z * Z * Z := if b then a else (0, 0, 0)%Z.

Lemma plus3_0 a : plus3 a (0, 0, 0)%Z = a.
Proof. destruct a as [[x y] z]. unfold plus3. simpl. repeat f_equal; lia. Qed.

(** Every aggregate has grown by the increment at its key and nowhere else. *)
Definition accounted (d d' : db) (uid nid : string) (day rx tx : Z) : Prop :=
  let inc := (rx, tx, rx + tx)%Z in
  (∀ u, lifetime_bytes d' u = plus3 (lifetime_bytes d u) (when (u == uid) inc)) ∧
  (∀ u n, node_lifetime_bytes d' u n
          = plus3 (node_lifetime_bytes d u n) (when ((u, n) == (uid, nid)) inc)) ∧
  (∀ u y, daily_bytes d' u y = plus3 (daily_bytes d u y) (when ((u, y) == (uid, day)) inc)) ∧
  (∀ u n y, node_daily_bytes d' u n y
            = plus3 (node_daily_bytes d u n y) (when ((u, n, y) == (uid, nid, day)) inc)).

Section accounting.
Context `{Env}.

Lemma increase_aggregate_run {K Row} `{Countable K} (get : db → gmap K Row) put key create incr s :
  ∃ id n, increase_aggregate get put key create incr s =
    (Ok tt, s <| work := put (<[key := match get (work s) !! key with
                                       | Some r => incr r | None => create id end]>
                                (get (work s))) (work s) |> <| draws := n |>).
Proof.
  unfold increase_aggregate. rewrite bind_run. unfold reads at 1.
  destruct (get (work s) !! key) as [r|] eqn:E.
  - exists "", (draws s). unfold modify. by destruct s.
  - rewrite bind_run. unfold new_uuid, draw, modify. by eexists (uuid4 (draws s)), (S (draws s)).
Qed.

Lemma apply_local_traffic_aggregates_run peer t rx tx s :
  ∃ d' n, apply_local_traffic_aggregates peer t rx tx s
          = (Ok tt, s <| work := d' |> <| draws := n |>) ∧
    accounted (work s) d' (Peer_user_id peer) (Peer_node_id peer) (dt_date t) rx tx ∧
    samples d' = samples (work s) ∧ deltas d' = deltas (work s).
Proof.
  unfold apply_local_traffic_aggregates. cbv zeta.
  rewrite bind_run.
  match goal with |- context [increase_aggregate ?g ?p ?k ?c ?i s] =>
    destruct (increase_aggregate_run g p k c i s) as (id1 & n1 & ->) end.
  rewrite bind_run.
  match goal with |- context [increase_aggregate ?g ?p ?k ?c ?i ?s] =>
    destruct (increase_aggregate_run g p k c i s) as (id2 & n2 & ->) end.
  rewrite bind_run.
  match goal with |- context [increase_aggregate ?g ?p ?k ?c ?i ?s] =>
    destruct (increase_aggregate_run g p k c i s) as (id3 & n3 & ->) end.
  match goal with |- context [increase_aggregate ?g ?p ?k ?c ?i ?s] =>
    destruct (increase_aggregate_run g p k c i s) as (id4 & n4 & ->) end.
  eexists _, n4. split; [reflexivity|].
  split; [|done]. unfold accounted. split_and!; intros *.
  - unfold lifetime_bytes. simpl. rewrite lookup_insert.
    case_decide as E; case_bool_decide as E'; try congruence; [|by rewrite plus3_0].
    rewrite <- E. by destruct (user_lifetime (work s) !! Peer_user_id peer).
  - unfold node_lifetime_bytes. simpl. rewrite lookup_insert.
    case_decide as E; case_bool_decide as E'; try congruence; [|by rewrite plus3_0].
    rewrite <- E. by destruct (user_node_lifetime (work s) !! _).
  - unfold daily_bytes. simpl. rewrite lookup_insert.
    case_decide as E; case_bool_decide as E'; try congruence; [|by rewrite plus3_0].
    rewrite <- E. by destruct (user_daily (work s) !! _).
  - unfold node_daily_bytes. simpl. rewrite lookup_insert.
    case_decide as E; case_bool_decide as E'; try congruence; [|by rewrite plus3_0].
    rewrite <- E. by destruct (user_node_daily (work s) !! _).
Qed.

Lemma accounted_refl d uid nid day : accounted d d uid nid day 0 0.
Proof.
  unfold accounted. split_and!; intros *; unfold when; case_bool_decide; by rewrite plus3_0.
Qed.

Lemma accounted_same d1 d2 d3 uid nid day rx tx :
  user_daily d1 = user_daily d2 → user_node_daily d1 = user_node_daily d2 →
  user_lifetime d1 = user_lifetime d2 → user_node_lifetime d1 = user_node_lifetime d2 →
  accounted d2 d3 uid nid day rx tx → accounted d1 d3 uid nid day rx tx.
Proof.
  intros H1 H2 H3 H4 (A1 & A2 & A3 & A4).
  unfold accounted, lifetime_bytes, node_lifetime_bytes, daily_bytes, node_daily_bytes in *.
  rewrite H1, H2, H3, H4. done.
Qed.
Lemma accounted_traffic_eq d1 d2 d3 uid nid day rx tx :
  traffic_eq d1 d2 → accounted d2 d3 uid nid day rx tx → accounted d1 d3 uid nid day rx tx.
Proof. intros (_ & _ & H1 & H2 & H3 & H4). by apply accounted_same. Qed.

End accounting.

(** Nothing about an endpoint session raises. *)
Lemma apply_peer_endpoint_session_ok `{Env} peer data t s :
  ∃ s', apply_peer_endpoint_session peer data t s = (Ok tt, s').
Proof.
  unfold apply_peer_endpoint_session. destruct (PR_endpoint data) as [e|]; [|by eexists].
  case_match; [by eexists|]. rewrite bind_run. unfold reads at 1.
  destruct (latest_endpoint_session _ _) as [x|]; [|by eexists].
  case_match; [by eexists|]. destruct (PR_last_handshake data); [|by eexists].
  case_match; by eexists.
Qed.

(** ** Properties *)

(** C10: a node's reply never brings a deleted peer back. Whatever the reply says about a peer of the
    tables, the invariants hold afterwards, only that peer's row changes among accounts, devices and
    peers, and if the peer was already tombstoned - or its device is - its status after the reply is
    not a live one. *)
Theorem node_result_never_resurrects `{EnvLaws} peer data t s :
  holds db_inv s → peers (work s) !! Peer_id peer = Some peer →
  let s' := (apply_peer_result peer data t s).2 in
  holds db_inv s' ∧ devices (work s') = devices (work s) ∧ users (work s') = users (work s) ∧
  (∀ k, k ≠ Peer_id peer → peers (work s') !! k = peers (work s) !! k) ∧
  ∃ p, peers (work s') !! Peer_id peer = Some p ∧ same_peer peer p ∧
    (Peer_status peer ∈ TOMBSTONED_PEER_STATUSES ∨ device_tombstone (work s) peer = true →
     Peer_status p ∉ LIVE_PEER_STATUSES).
Proof.
  intros Hs Hp. cbv zeta.
  destruct (apply_peer_result_effect peer data t s Hs Hp) as (H1 & H2 & H3 & p & H4 & H5 & H6).
  split_and!; [done..| |].
  - intros k Hk. by rewrite H4, lookup_insert_ne.
  - exists p. rewrite H4, lookup_insert_eq. split_and!; [done..|]. intros Hdead.
    rewrite H6. apply result_status_dead. tauto.
Qed.

Lemma node_result_never_resurrects_witness :
  peers (work (start sample_db 0)) !! "r" = Some (sample_peer "r" "a" "u" "e" "deleted") ∧
  holds db_inv (apply_peer_result (sample_peer "r" "a" "u" "e" "deleted")
    (mkPeerSyncResult "pub-e" (Some "active") None false (Some 5%Z) (Some 7%Z) None) t0
    (start sample_db 0)).2.
Proof.
  split; [vm_compute; reflexivity|].
  apply (node_result_never_resurrects (sample_peer "r" "a" "u" "e" "deleted")).
  - split; apply sample_db_inv.
  - vm_compute. reflexivity.
Defined.

(** The traffic deltas of a peer add up. Over any observations of a counter the deltas are never
    negative and never exceed the observed value; while the counter only grows they telescope to the
    difference of its ends; and a restart of the counter (an observation below the previous one)
    contributes the restarted counter in full, so the total over a restart is the growth before it
    plus everything counted after it. The first observation of a peer counts nothing. *)
Lemma counter_deltas_add_up previous before after restart :
  Sorted Z.le (previous :: before) → Sorted Z.le (restart :: after) →
  (0 <= previous)%Z → (0 <= restart < default previous (last before))%Z →
  total (deltas_of (Some previous) (before ++ restart :: after))
  = ((default previous (last before) - previous) + default restart (last after))%Z ∧
  Forall (fun x => 0 <= x)%Z (deltas_of (Some previous) (before ++ restart :: after)) ∧
  counter_delta None previous = 0%Z.
Proof.
  intros Hb Ha Hp Hr.
  assert (∀ l p, (0 <= p)%Z → Forall (fun x => 0 <= x)%Z l →
    Forall (fun x => 0 <= x)%Z (deltas_of (Some p) l)) as Hnn.
  { clear. induction l as [|c l IH]; intros p Hp Hl; [constructor|].
    apply Forall_cons in Hl as [Hc Hl]. constructor; [|by apply IH].
    by apply counter_delta_bounds. }
  assert (∀ x l, (0 <= x)%Z → Sorted Z.le (x :: l) → Forall (fun y => 0 <= y)%Z l) as Hpos.
  { clear. intros x l. revert x. induction l as [|y l IH]; intros x Hx Hs; [constructor|].
    apply Sorted_inv in Hs as [Hs Hh]. apply HdRel_inv in Hh. constructor; [lia|].
    apply (IH y); [lia|done]. }
  split_and!; [| |done].
  - rewrite deltas_of_app, total_app, deltas_of_total by done.
    cbn [deltas_of]. unfold total at 1. cbn [foldr]. fold (total (deltas_of (Some restart) after)).
    rewrite deltas_of_total by done. unfold counter_delta.
    destruct (last before) as [c|]; simpl in *.
    + destruct (Z.ltb_spec restart c); lia.
    + destruct (Z.ltb_spec restart previous); lia.
  - apply Hnn; [done|]. apply Forall_app. split; [by eapply Hpos|].
    constructor; [lia|]. apply (Hpos restart); [lia|done].
Qed.

Lemma counter_deltas_add_up_witness :
  Sorted Z.le [10%Z; 30%Z] ∧
  total (deltas_of (Some 10%Z) [30; 5; 8]%Z) = 28%Z.
Proof.
  assert (Sorted Z.le [10%Z; 30%Z]) as H1 by (repeat constructor; lia).
  split; [exact H1|].
  apply (counter_deltas_add_up 10 [30%Z] [8%Z] 5); [exact H1|repeat constructor; lia|lia|simpl; lia].
Defined.

(** C11: each counted reply is accounted exactly once. When a reply carries both counters and one of
    them moved, one sample and one delta row are added and the four aggregates - the owner's and the
    owner's on this node, for the day and for the lifetime - grow by exactly the deltas at the peer's
    key and nowhere else, the total being the sum of the two directions; otherwise no sample is
    returned and no aggregate changes. *)
Theorem peer_result_accounting `{EnvLaws} peer data t s :
  holds db_inv s → peers (work s) !! Peer_id peer = Some peer →
  let '(o, s') := apply_peer_result peer data t s in
  let rx := match PR_rx_bytes data, PR_tx_bytes data with
            | Some rx, Some _ => counter_delta (Peer_raw_rx peer) rx | _, _ => 0%Z end in
  let tx := match PR_rx_bytes data, PR_tx_bytes data with
            | Some _, Some tx => counter_delta (Peer_raw_tx peer) tx | _, _ => 0%Z end in
  accounted (work s) (work s') (Peer_user_id peer) (Peer_node_id peer) (dt_date t) rx tx ∧
  ∃ r, o = Ok r ∧
    match r with
    | None => rx = 0%Z ∧ tx = 0%Z ∧ samples (work s') = samples (work s) ∧
              deltas (work s') = deltas (work s)
    | Some sample => (rx ≠ 0 ∨ tx ≠ 0)%Z ∧ Sample_peer_id sample = Peer_id peer ∧
        Sample_rx_bytes sample = rx ∧ Sample_tx_bytes sample = tx ∧
        samples (work s') = samples (work s) ++ [sample] ∧
        ∃ delta, deltas (work s') = deltas (work s) ++ [delta] ∧
          Delta_rx_delta_bytes delta = rx ∧ Delta_tx_delta_bytes delta = tx ∧
          Delta_total_delta_bytes delta = (rx + tx)%Z
    end.
Proof.
  intros Hs Hp. unfold apply_peer_result. rewrite bind_run. unfold reads at 1. cbv zeta.
  set (peer' := merge_peer peer data (device_tombstone (work s) peer)).
  pose proof (merge_peer_same peer data (device_tombstone (work s) peer)) as (Hid & Hn & Hu & _).
  pose proof (merge_peer_counters peer data (device_tombstone (work s) peer)) as [Hrx Htx].
  fold peer' in Hid, Hn, Hu, Hrx, Htx.
  rewrite bind_run. unfold modify at 1. set (s1 := s <| work := _ |>).
  assert (traffic_eq (work s) (work s1)) as H1 by (by unfold traffic_eq).
  rewrite bind_run. destruct (apply_peer_endpoint_session_ok peer' data t s1) as [s2 Hs2].
  rewrite Hs2.
  assert (traffic_eq (work s) (work s2)) as H2.
  { etrans; [exact H1|]. pose proof (keeps_endpoint_session traffic_eq peer' data t) as Hk.
    specialize (Hk ltac:(intros x d; by unfold traffic_eq) s1) as [Hk _]. by rewrite Hs2 in Hk. }
  assert (∀ s', traffic_eq (work s) (work s') →
    accounted (work s) (work s') (Peer_user_id peer) (Peer_node_id peer) (dt_date t) 0 0 ∧
    samples (work s') = samples (work s) ∧ deltas (work s') = deltas (work s)) as Hnone.
  { intros s' H'. split; [eapply accounted_traffic_eq; [exact H'|apply accounted_refl]|].
    by destruct H' as (-> & -> & _). }
  destruct (PR_rx_bytes data) as [rx|];
    [|destruct (Hnone s2 H2) as (? & ? & ?); split; [done|]; by eexists].
  destruct (PR_tx_bytes data) as [tx|];
    [|destruct (Hnone s2 H2) as (? & ? & ?); split; [done|]; by eexists].
  rewrite bind_run. unfold modify at 1. set (s3 := s2 <| work := _ |>). rewrite Hrx, Htx.
  assert (traffic_eq (work s) (work s3)) as H3 by exact H2.
  destruct (_ && _) eqn:E0.
  { apply andb_true_iff in E0 as [E1%bool_decide_eq_true E2%bool_decide_eq_true].
    rewrite E1, E2. destruct (Hnone s3 H3) as (? & ? & ?). split; [done|]. by eexists. }
  assert (counter_delta (Peer_raw_rx peer) rx ≠ 0 ∨ counter_delta (Peer_raw_tx peer) tx ≠ 0)%Z as Hne.
  { apply andb_false_iff in E0 as [E0|E0]; py_bool; auto. }
  unfold new_uuid, now, draw. do 4 rewrite bind_run. unfold modify at 1.
  set (s4 := _ <| work := _ |>). rewrite bind_run.
  destruct (apply_local_traffic_aggregates_run peer' t (counter_delta (Peer_raw_rx peer) rx)
    (counter_delta (Peer_raw_tx peer) tx) s4) as (d' & n & -> & Hacc & Hsam & Hdel).
  rewrite <- Hu, <- Hn in Hacc.
  destruct H3 as (Hs3 & Hd3 & Ht1 & Ht2 & Ht3 & Ht4). split.
  - eapply accounted_same; [..|exact Hacc]; done.
  - eexists. split; [reflexivity|]. simpl. split_and!; try done.
    + rewrite Hsam, Hs3. done.
    + eexists. rewrite Hdel, Hd3. split; [reflexivity|]. done.
Qed.

Lemma peer_result_accounting_witness :
  peers (work (start sample_db 0)) !! "p" = Some (sample_peer "p" "a" "u" "d" "active") ∧
  let '(o, s') := apply_peer_result (sample_peer "p" "a" "u" "d" "active")
    (mkPeerSyncResult "pub-d" (Some "active") None false (Some 5%Z) (Some 7%Z) None) t0
    (start sample_db 0) in
  ∃ r, o = Ok r.
Proof.
  split; [vm_compute; reflexivity|].
  pose proof (peer_result_accounting (sample_peer "p" "a" "u" "d" "active")
    (mkPeerSyncResult "pub-d" (Some "active") None false (Some 5%Z) (Some 7%Z) None) t0
    (start sample_db 0)) as H.
  destruct (apply_peer_result _ _ _ _) as [o s'].
  destruct H as (_ & r & Hr & _); [split; apply sample_db_inv|vm_compute; reflexivity|].
  by exists r.
Defined.
