(* ===== verification/RemnawaveSync.v ===== *)
(** * Remnawave accounts

    [panel/backend/app/services/remnawave_sync.py]: applying an imported profile and its block state,
    the combined traffic limit, marking accounts whose remote user is gone, purging accounts whose
    deletion every node has confirmed, and queueing the node syncs and remote disables that follow. *)
From S2P Require Import Prelude PyStr Json Bytes Models Session Sample Crypto AccountPolicy Devices.
From S2P Require Import Lifecycle Jobs.

(** ** Imported profile *)
Record RemnawaveUserIn := mkRemnawaveUserIn {
  RU_uuid : string;
  RU_id : option Z;
  RU_short_uuid : option string;
  RU_username : string;
  RU_status : string;
  RU_expire_at : option datetime;
  RU_email : option string;
  RU_tag : option string;
  RU_telegram_id : option Z;
  RU_description : option string;
  RU_traffic_limit_bytes : Z;
  RU_traffic_limit_strategy : string;
  RU_traffic_used_bytes : Z;
  RU_lifetime_used_traffic_bytes : Z;
  RU_last_traffic_reset_at : option datetime;
  RU_online_at : option datetime;
  RU_first_connected_at : option datetime;
  RU_last_connected_node_uuid : option string;
  RU_hwid_device_limit : option Z;
  RU_external_squad_uuid : option string;
  RU_active_internal_squads_json : option string;
  RU_subscription_url : option string }.

Definition apply_remnawave_profile (synced_at : datetime) (data : RemnawaveUserIn)
    (row : RemnawaveUser) : RemnawaveUser :=
  row <| Rw_remnawave_id := RU_id data |>
      <| Rw_short_uuid := RU_short_uuid data |>
      <| Rw_username := RU_username data |>
      <| Rw_status := RU_status data |>
      <| Rw_expire_at := RU_expire_at data |>
      <| Rw_email := RU_email data |>
      <| Rw_tag := RU_tag data |>
      <| Rw_telegram_id := RU_telegram_id data |>
      <| Rw_description := RU_description data |>
      <| Rw_traffic_limit_bytes := RU_traffic_limit_bytes data |>
      <| Rw_traffic_limit_strategy := RU_traffic_limit_strategy data |>
      <| Rw_traffic_used_bytes := RU_traffic_used_bytes data |>
      <| Rw_lifetime_used_traffic_bytes := RU_lifetime_used_traffic_bytes data |>
      <| Rw_last_traffic_reset_at := RU_last_traffic_reset_at data |>
      <| Rw_online_at := RU_online_at data |>
      <| Rw_first_connected_at := RU_first_connected_at data |>
      <| Rw_last_connected_node_uuid := RU_last_connected_node_uuid data |>
      <| Rw_hwid_device_limit := RU_hwid_device_limit data |>
      <| Rw_external_squad_uuid := RU_external_squad_uuid data |>
      <| Rw_active_internal_squads_json := RU_active_internal_squads_json data |>
      <| Rw_subscription_url_encrypted := RU_subscription_url data |>
      <| Rw_last_synced_at := Some synced_at |>
      <| Rw_sync_status := "synced" |>
      <| Rw_sync_reason := None |>
      <| Rw_sync_error := None |>
      <| Rw_delete_requested_at := None |>.

(** [remnawave_blocked] on the two fields it reads. *)
Definition remnawave_blocked (at_ : datetime) (status : string) (expire_at : option datetime) : bool :=
  if status isin ["DISABLED"; "LIMITED"; "EXPIRED"] then true
  else match aware expire_at with
  | Some e => dt_le e at_
  | None => false
  end.

Definition remnawave_combined_limited (row : RemnawaveUser) (local_total_bytes : Z) : bool :=
  (0 <? Rw_traffic_limit_bytes row)%Z &&
  (Rw_traffic_limit_bytes row <=? Rw_traffic_used_bytes row + local_total_bytes)%Z.

(** ** Rows *)

(** The loop that sends every peer of an account towards removal. *)
Definition block_peer (acc : gset string * db) (peer : Peer) : gset string * db :=
  if Peer_status peer != "pending_delete" then
    ({[Peer_node_id peer]} ∪ acc.1, update_peer (peer <| Peer_status := "pending_delete" |>) acc.2)
  else acc.

(** [apply_remnawave_lifecycle] up to the restoration of missing peers. *)
Definition remnawave_lifecycle_rows (should_block : bool) (user : User) (d : db)
    : gset string * db :=
  let d := update_user (user <| User_is_blocked := should_block |>) d in
  let user_peers := peers_of_user d (User_id user) in
  let tombstones := tombstoned_device_ids d (Peer_device_id <$> user_peers) in
  foldl (lifecycle_peer should_block tombstones) (∅, d) user_peers.

(** [enforce_remnawave_combined_limit]: the nodes affected and the remote users to disable. *)
Definition enforce_remnawave_combined_limit (row : RemnawaveUser) (d : db)
    : (gset string * gset string) * db :=
  if negb (remnawave_combined_limited row (load_local_total_bytes d (Rw_user_id row)))
  then ((∅, ∅), d)
  else
    let remote_disable_uuids : gset string :=
      if Rw_status row != "DISABLED" then {[Rw_remnawave_uuid row]} else ∅ in
    let d := match users d !! Rw_user_id row with
             | Some user => update_user (user <| User_is_blocked := true |>) d
             | None => d
             end in
    let '(affected, d) := foldl block_peer (∅, d) (peers_of_user d (Rw_user_id row)) in
    ((affected, remote_disable_uuids), d).

Definition enforce_remnawave_combined_limit_for_user (user_id : string) (d : db)
    : (gset string * gset string) * db :=
  match remnawave_of d user_id with
  | None => ((∅, ∅), d)
  | Some row => enforce_remnawave_combined_limit row d
  end.

Definition mark_remnawave_user_stale (reason : string) (row : RemnawaveUser) (d : db)
    : gset string * db :=
  let d := update_rw (row <| Rw_sync_status := "stale" |> <| Rw_sync_reason := Some reason |>
                          <| Rw_sync_error := None |>) d in
  let d := match users d !! Rw_user_id row with
           | Some user => update_user (user <| User_is_blocked := true |>) d
           | None => d
           end in
  foldl block_peer (∅, d) (peers_of_user d (Rw_user_id row)).

(** Rows whose remote user was not seen; with nothing seen, every row. *)
Definition reconcile_missing_remnawave_users (seen_uuids : gset string) (reason : string) (d : db)
    : gset string * db :=
  let missing := select (fun row =>
    bool_decide (seen_uuids = ∅) || negb (bool_decide (Rw_remnawave_uuid row ∈ seen_uuids)))
    (rw_users d) in
  foldl (fun acc row =>
    let '(affected, d) := mark_remnawave_user_stale reason row acc.2 in (acc.1 ∪ affected, d))
    (∅, d) missing.

(** Accounts whose deletion was requested and whose every peer is confirmed gone. *)
Definition purgeable (d : db) (row : RemnawaveUser) : bool :=
  let ps := peers_of_user d (Rw_user_id row) in
  (ps != []) && forallb (fun p => Peer_status p == "deleted") ps.

Definition purge_confirmed_remnawave_deletes (d : db) : Z * db :=
  let requested := select (fun row => Rw_delete_requested_at row != None) (rw_users d) in
  foldl (fun acc row =>
    if purgeable acc.2 row then ((acc.1 + 1)%Z, delete_user (Rw_user_id row) acc.2) else acc)
    (0%Z, d) requested.

Section with_env.
Context `{Env}.

Definition enqueue_sync_nodes (node_ids : gset string) : M unit :=
  for_each (sorted_strings (elements node_ids)) (fun node_id =>
    let* operation := new_operation "sync_node" (Some "node") (Some node_id) in
    enqueue_operation operation (enqueue_sync_node node_id)).

Definition enqueue_remnawave_disable_users (user_uuids : gset string) : M unit :=
  for_each (sorted_strings (elements user_uuids)) (fun user_uuid =>
    let* operation :=
      new_operation "remnawave_disable_user" (Some "remnawave_user") (Some user_uuid) in
    enqueue_operation operation (enqueue_remnawave_disable_user user_uuid)).

(** The block state of an imported profile; only a transition provisions. *)
Definition apply_remnawave_lifecycle (row : RemnawaveUser) (data : RemnawaveUserIn)
    : M (gset string) :=
  let* user := reads (fun d => users d !! Rw_user_id row) in
  match user with
  | None => raise (TypeError "NoneType")
  | Some user =>
      let* t := now in
      let was_blocked := User_is_blocked user in
      let should_block := remnawave_blocked t (RU_status data) (RU_expire_at data) in
      if was_blocked == should_block then retM ∅ else
      let* affected_node_ids := transact (remnawave_lifecycle_rows should_block user) in
      if was_blocked && negb should_block then
        let* restored := restore_missing_peers_for_user (Rw_user_id row) in
        retM (affected_node_ids ∪ restored)
      else retM affected_node_ids
  end.
End with_env.

(** ** The loops keep the invariants *)
Lemma block_peer_eq acc p : block_peer acc p = set_status (fun _ => "pending_delete") acc p.
Proof. unfold block_peer, set_status. by destruct (Peer_status p == "pending_delete"). Qed.

Lemma foldl_block_peer acc ps :
  foldl block_peer acc ps = foldl (set_status (fun _ => "pending_delete")) acc ps.
Proof. revert acc. induction ps as [|p ps IH]; intros acc; simpl; [done|]. by rewrite block_peer_eq. Qed.

Lemma elem_of_peers_of_user d uid p :
  p ∈ peers_of_user d uid ↔ (∃ k, peers d !! k = Some p) ∧ Peer_user_id p = uid.
Proof. unfold peers_of_user. rewrite elem_of_select. by rewrite bool_decide_eq_true. Qed.

(** Blocking every peer of an account. *)
Lemma block_peers_spec d uid :
  db_inv d →
  let r := foldl block_peer (∅, d) (peers_of_user d uid) in
  db_inv r.2 ∧ devices r.2 = devices d ∧ users r.2 = users d ∧ nodes r.2 = nodes d ∧
  rw_users r.2 = rw_users d ∧
  (∀ k p, peers r.2 !! k = Some p → Peer_user_id p = uid → Peer_status p = "pending_delete") ∧
  (∀ nid, nid ∈ r.1 ↔ ∃ k p, peers d !! k = Some p ∧ Peer_user_id p = uid ∧
     Peer_status p ≠ "pending_delete" ∧ Peer_node_id p = nid).
Proof.
  intros Hd r. subst r. rewrite foldl_block_peer.
  destruct (set_status_fold_inv (fun _ => "pending_delete") d (peers_of_user d uid) ∅)
    as (H1 & H2 & H3 & H4 & H5).
  { done. }
  { intros p Hp. by apply elem_of_peers_of_user in Hp as [? _]. }
  { intros p _ _. literal_in. }
  destruct (set_status_fold (fun _ => "pending_delete") d (peers_of_user d uid) ∅) as (_ & Hp & Hn).
  { intros p [[k Hk] _]%elem_of_peers_of_user. by rewrite (wf_peer_id _ (proj1 Hd) _ _ Hk). }
  split_and!; [done..| |].
  - intros k p Hk Hu. rewrite Hp in Hk.
    destruct (decide (k ∈ Peer_id <$> peers_of_user d uid)) as [Hin|Hout].
    + by apply fmap_Some in Hk as (q & _ & ->).
    + exfalso. apply Hout. apply list_elem_of_fmap. exists p.
      split; [by rewrite (wf_peer_id _ (proj1 Hd) _ _ Hk)|]. apply elem_of_peers_of_user. eauto.
  - intros nid. rewrite Hn. split.
    + intros [?%elem_of_empty|(p & [[k Hk] Hu]%elem_of_peers_of_user & Hne & <-)]; [done|]. eauto 6.
    + intros (k & p & Hk & Hu & Hne & <-). right. exists p. rewrite elem_of_peers_of_user. eauto.
Qed.

(** An optional account row, updated in place. *)
Lemma block_user_inv d uid b :
  db_inv d →
  db_inv (match users d !! uid with
          | Some user => update_user (user <| User_is_blocked := b |>) d | None => d end).
Proof.
  intros Hd. destruct (users d !! uid) as [u|] eqn:Hu; [|done].
  apply (update_user_inv _ u); [done|]. simpl. by rewrite (wf_user_id _ (proj1 Hd) _ _ Hu).
Qed.

Lemma update_rw_inv d r s :
  db_inv d → rw_users d !! Rw_id r = Some r → Rw_id s = Rw_id r → Rw_user_id s = Rw_user_id r →
  db_inv (update_rw s d).
Proof. intros [Hwf HT] Hr H1 H2. split; [by eapply update_rw_wf|done]. Qed.

Lemma enforce_remnawave_combined_limit_inv row d :
  db_inv d → db_inv (enforce_remnawave_combined_limit row d).2.
Proof.
  intros Hd. unfold enforce_remnawave_combined_limit. case_match; [done|].
  pose proof (block_user_inv d (Rw_user_id row) true Hd) as Hd'.
  set (d1 := match users d !! _ with Some _ => _ | None => d end) in *.
  destruct (block_peers_spec d1 (Rw_user_id row) Hd') as (Hi & _). revert Hi.
  by destruct (foldl block_peer _ _).
Qed.

Lemma enforce_remnawave_combined_limit_for_user_inv uid d :
  db_inv d → db_inv (enforce_remnawave_combined_limit_for_user uid d).2.
Proof.
  intros Hd. unfold enforce_remnawave_combined_limit_for_user.
  destruct (remnawave_of d uid); [by apply enforce_remnawave_combined_limit_inv|done].
Qed.

Lemma remnawave_of_Some d uid r :
  remnawave_of d uid = Some r → (∃ k, rw_users d !! k = Some r) ∧ Rw_user_id r = uid.
Proof.
  unfold remnawave_of. intros Hh. apply head_Some_elem_of, elem_of_select in Hh as [? Hh].
  split; [done|]. by py_bool.
Qed.

Lemma mark_stale_inv reason row d :
  db_inv d → (∃ r, rw_users d !! Rw_id row = Some r ∧ Rw_user_id r = Rw_user_id row) →
  let r := mark_remnawave_user_stale reason row d in
  db_inv r.2 ∧ ∀ k x, rw_users d !! k = Some x →
    ∃ y, rw_users r.2 !! k = Some y ∧ Rw_user_id y = Rw_user_id x.
Proof.
  intros Hd (r0 & Hr0 & Hu0) r. subst r. unfold mark_remnawave_user_stale.
  set (d1 := update_rw _ d).
  assert (Rw_id r0 = Rw_id row) as Hid by (by apply (wf_rw_id _ (proj1 Hd))).
  assert (db_inv d1) as Hd1.
  { apply (update_rw_inv _ r0); [done|by rewrite Hid|by rewrite Hid|done]. }
  pose proof (block_user_inv d1 (Rw_user_id row) true Hd1) as Hd2.
  set (d2 := match users d1 !! _ with Some _ => _ | None => d1 end) in *.
  destruct (block_peers_spec d2 (Rw_user_id row) Hd2) as (Hi & _ & _ & _ & Hr & _).
  split; [done|]. intros k x Hx. rewrite Hr.
  assert (rw_users d2 = rw_users d1) as -> by (unfold d2; by case_match).
  simpl. rewrite lookup_insert. simpl. case_decide as E; [|by exists x].
  eexists. split; [done|]. simpl. rewrite <- E, Hr0 in Hx. by injection Hx as <-.
Qed.

(** Every peer of an account waits for removal. *)
Definition removing (uid : string) (d : db) : Prop :=
  ∀ k p, peers d !! k = Some p → Peer_user_id p = uid → Peer_status p = "pending_delete".

Lemma removing_block_peers uid s0 d ps : removing uid d → removing uid (foldl block_peer (s0, d) ps).2.
Proof.
  intros Hd. apply (foldl_invariant (fun acc => removing uid acc.2)); [done|].
  intros acc p _ Hacc. unfold block_peer. case_match; [|done]. intros k q. simpl.
  rewrite lookup_insert. destruct (decide (Peer_id p = k)) as [_|_]; [by intros [= <-]|by apply Hacc].
Qed.

Lemma mark_stale_removing reason row d :
  db_inv d → (∃ r, rw_users d !! Rw_id row = Some r ∧ Rw_user_id r = Rw_user_id row) →
  removing (Rw_user_id row) (mark_remnawave_user_stale reason row d).2 ∧
  ∀ uid, removing uid d → removing uid (mark_remnawave_user_stale reason row d).2.
Proof.
  intros Hd (r0 & Hr0 & Hu0). unfold mark_remnawave_user_stale. set (d1 := update_rw _ d).
  assert (db_inv d1) as Hd1.
  { apply (update_rw_inv _ r0); [done| |by rewrite (wf_rw_id _ (proj1 Hd) _ _ Hr0)|done].
    by rewrite (wf_rw_id _ (proj1 Hd) _ _ Hr0). }
  pose proof (block_user_inv d1 (Rw_user_id row) true Hd1) as Hd2.
  set (d2 := match users d1 !! _ with Some _ => _ | None => d1 end) in *.
  assert (peers d2 = peers d) as Ep by (unfold d2; by case_match). split.
  - by destruct (block_peers_spec d2 (Rw_user_id row) Hd2) as (_ & _ & _ & _ & _ & Hp & _).
  - intros uid Huid. apply removing_block_peers. unfold removing. by rewrite Ep.
Qed.

Lemma reconcile_missing_spec seen reason d :
  db_inv d →
  let d' := (reconcile_missing_remnawave_users seen reason d).2 in
  db_inv d' ∧ ∀ k x, rw_users d !! k = Some x → seen = ∅ ∨ Rw_remnawave_uuid x ∉ seen →
    is_Some (users d' !! Rw_user_id x) ∧ removing (Rw_user_id x) d'.
Proof.
  intros Hd d'. subst d'. unfold reconcile_missing_remnawave_users.
  set (missing := select _ _).
  assert (∀ x, x ∈ missing ↔ (∃ k, rw_users d !! k = Some x) ∧
    (seen = ∅ ∨ Rw_remnawave_uuid x ∉ seen)) as Hmissing.
  { intros x. unfold missing. by rewrite elem_of_select, orb_true_iff, negb_true_iff,
      bool_decide_eq_true, bool_decide_eq_false. }
  set (step := fun (acc : gset string * db) row => let '(affected, d) := _ in (acc.1 ∪ affected, d)).
  assert (∀ l, (∀ x, x ∈ l → x ∈ missing) →
    let d' := (foldl step (∅, d) l).2 in
    db_inv d' ∧
    (∀ x, x ∈ missing → ∃ y, rw_users d' !! Rw_id x = Some y ∧ Rw_user_id y = Rw_user_id x) ∧
    ∀ x, x ∈ l → removing (Rw_user_id x) d') as Hfold.
  { induction l as [|row l IH] using rev_ind; intros Hl.
    { split_and!; [done| |by intros x ?%elem_of_nil]. intros x [[k Hk] _]%Hmissing. exists x.
      by rewrite (wf_rw_id _ (proj1 Hd) _ _ Hk). }
    destruct IH as (Hi & Hx & Hrem); [intros x Hx; apply Hl, elem_of_app; by left|].
    rewrite foldl_app. cbn [foldl]. set (acc := foldl step (∅, d) l) in *.
    assert (row ∈ missing) as Hrow by (apply Hl, elem_of_app; right; by left).
    destruct (mark_stale_inv reason row acc.2 Hi (Hx row Hrow)) as [H1 H2].
    destruct (mark_stale_removing reason row acc.2 Hi (Hx row Hrow)) as [H3 H4].
    unfold step. destruct (mark_remnawave_user_stale reason row acc.2) as [aff d']. simpl in *.
    split_and!; [done| |].
    - intros x Hxin. destruct (Hx x Hxin) as (y & Hy & Hyu).
      destruct (H2 _ _ Hy) as (z & Hz & Hzu). exists z. split; [done|congruence].
    - intros x [Hxl| ->%list_elem_of_singleton]%elem_of_app; [|done]. by apply H4, Hrem. }
  destruct (Hfold missing) as (Hi & Hx & Hrem); [done|]. split; [done|].
  intros k x Hk Hseen. assert (x ∈ missing) as Hin by (apply Hmissing; eauto).
  split; [|by apply Hrem]. destruct (Hx x Hin) as (y & Hy & <-).
  by apply (wf_rw_user _ (proj1 Hi) _ _ Hy).
Qed.

Lemma reconcile_missing_inv seen reason d :
  db_inv d → db_inv (reconcile_missing_remnawave_users seen reason d).2.
Proof. intros Hd. by apply reconcile_missing_spec. Qed.

Lemma delete_user_inv uid d : db_inv d → db_inv (delete_user uid d).
Proof. intros [? ?]. split; [by apply delete_user_wf|by apply delete_user_tombstones]. Qed.

Lemma purge_inv d : db_inv d → db_inv (purge_confirmed_remnawave_deletes d).2.
Proof.
  intros Hd. unfold purge_confirmed_remnawave_deletes.
  apply (foldl_invariant (fun acc : Z * db => db_inv acc.2)); [done|].
  intros acc row _ Hi. case_match; [|done]. simpl. by apply delete_user_inv.
Qed.

Lemma remnawave_lifecycle_rows_inv should_block user d :
  db_inv d → users d !! User_id user = Some user →
  db_inv (remnawave_lifecycle_rows should_block user d).2.
Proof.
  intros Hd Hu. unfold remnawave_lifecycle_rows. set (d1 := update_user _ d).
  assert (db_inv d1) as Hd1 by (by apply (update_user_inv _ user)).
  set (tombs := tombstoned_device_ids _ _).
  set (ps := peers_of_user d1 (User_id user)).
  set (f p := lifecycle_status should_block (bool_decide (Peer_device_id p ∈ tombs)) (Peer_status p)).
  assert (∀ acc, foldl (lifecycle_peer should_block tombs) acc ps = foldl (set_status f) acc ps) as ->.
  { clearbody ps. induction ps as [|p l IH]; intros acc; simpl; [done|].
    rewrite lifecycle_peer_eq. apply IH. }
  apply set_status_fold_inv; [done| |].
  - intros p Hp. by apply elem_of_peers_of_user in Hp as [? _].
  - intros p Hp Hne Hl v Hv. unfold f, lifecycle_status in *. destruct should_block.
    { exfalso. revert Hl. literal_in. }
    destruct (Device_deleted_at v) eqn:Edel; [|done]. exfalso.
    assert (bool_decide (Peer_device_id p ∈ tombs) = true) as Ht.
    { apply bool_decide_eq_true, elem_of_tombstoned_device_ids; [apply Hd1|].
      split; [by apply list_elem_of_fmap_2|]. exists v. split; [done|]. by rewrite Edel. }
    rewrite Ht, andb_false_r in Hne. done.
Qed.

Section session_lemmas.
Context `{EnvLaws}.

Lemma enqueue_sync_nodes_keeps (P : db → Prop) ids :
  (∀ o d, P d → P (update_operation o d)) → preserves (holds P) (enqueue_sync_nodes ids).
Proof.
  intros HP. apply preserves_for_each. intros x _.
  apply preserves_bind; [apply pure_draw_preserves, pure_draw_new_operation|].
  intros op. by apply enqueue_operation_keeps.
Qed.
Lemma enqueue_remnawave_disable_users_keeps (P : db → Prop) ids :
  (∀ o d, P d → P (update_operation o d)) →
  preserves (holds P) (enqueue_remnawave_disable_users ids).
Proof.
  intros HP. apply preserves_for_each. intros x _.
  apply preserves_bind; [apply pure_draw_preserves, pure_draw_new_operation|].
  intros op. by apply enqueue_operation_keeps.
Qed.
Lemma enqueue_sync_nodes_inv ids : preserves (holds db_inv) (enqueue_sync_nodes ids).
Proof. apply enqueue_sync_nodes_keeps. intros o d. apply update_operation_inv. Qed.
Lemma enqueue_remnawave_disable_users_inv ids :
  preserves (holds db_inv) (enqueue_remnawave_disable_users ids).
Proof. apply enqueue_remnawave_disable_users_keeps. intros o d. apply update_operation_inv. Qed.

(** Queueing never raises. *)
Lemma for_each_ok {A} (xs : list A) (f : A → M unit) :
  (∀ x s, x ∈ xs → ∃ s', f x s = (Ok tt, s')) → ∀ s, ∃ s', for_each xs f s = (Ok tt, s').
Proof.
  unfold for_each. induction xs as [|x xs IH]; intros Hf s; simpl; [by eexists|].
  rewrite bind_run. destruct (Hf x s) as [s' ->]; [left|]. apply IH. intros y s0 Hy. apply Hf.
  by right.
Qed.
Lemma new_operation_ok kind tt_ tid s :
  ∃ op s', new_operation kind tt_ tid s = (Ok op, s').
Proof. eexists _, _. reflexivity. Qed.
Lemma enqueue_sync_nodes_ok ids s : ∃ s', enqueue_sync_nodes ids s = (Ok tt, s').
Proof.
  apply for_each_ok. intros x s0 _. rewrite bind_run.
  destruct (new_operation_ok "sync_node" (Some "node") (Some x) s0) as (op & s1 & ->).
  apply enqueue_operation_ok.
Qed.
Lemma enqueue_remnawave_disable_users_ok ids s :
  ∃ s', enqueue_remnawave_disable_users ids s = (Ok tt, s').
Proof.
  apply for_each_ok. intros x s0 _. rewrite bind_run.
  destruct (new_operation_ok "remnawave_disable_user" (Some "remnawave_user") (Some x) s0)
    as (op & s1 & ->).
  apply enqueue_operation_ok.
Qed.

Lemma apply_remnawave_lifecycle_inv row data :
  preserves (holds db_inv) (apply_remnawave_lifecycle row data).
Proof.
  intros s Hs. unfold apply_remnawave_lifecycle. rewrite bind_run. unfold reads at 1.
  destruct (users (work s) !! Rw_user_id row) as [u|] eqn:Hu; [|done].
  rewrite bind_run. unfold now, draw. case_match; [done|]. rewrite bind_run.
  unfold transact at 1. set (sb := remnawave_blocked _ _ _).
  pose proof (remnawave_lifecycle_rows_inv sb u (work s) (proj1 Hs)) as Hl.
  simpl. destruct (remnawave_lifecycle_rows sb u (work s)) as [aff d']. simpl in Hl.
  assert (db_inv d') as Hd'.
  { apply Hl. by rewrite (wf_user_id _ (proj1 (proj1 Hs)) _ _ Hu). }
  assert (holds db_inv (mkSession d' (committed s) (pending s) (trace s) (S (draws s)))) as Hs'.
  { split; [done|]. apply Hs. }
  case_match; [|done].
  apply (preserves_bind (holds db_inv)); [apply restore_missing_peers_for_user_inv| |done].
  intros; apply preserves_ret.
Qed.
End session_lemmas.
#[export] Hint Resolve enqueue_sync_nodes_inv enqueue_remnawave_disable_users_inv
  apply_remnawave_lifecycle_inv : preserves.

(** ** Properties *)

(** C24: the combined limit and the account policy agree. When the remote traffic and the local traffic
    of a managed account reach its limit, enforcing the limit blocks the account, sends every peer of
    it towards removal, reports exactly the nodes whose peers changed and asks for the remote disable
    unless the profile is disabled already - and the account policy then calls the account inactive
    at every instant; below the limit nothing changes and nothing is asked. *)
Theorem combined_limit_enforced d uid row user t :
  db_inv d → remnawave_of d uid = Some row → users d !! uid = Some user →
  let r := enforce_remnawave_combined_limit_for_user uid d in
  let total := load_local_total_bytes d uid in
  if remnawave_combined_limited row total then
    r.1.2 = (if Rw_status row == "DISABLED" then ∅ else {[Rw_remnawave_uuid row]}) ∧
    (∃ u', users r.2 !! uid = Some u' ∧ User_is_blocked u' = true ∧
       Status_code (account_status t u' total (Some row)) ≠ "active") ∧
    Status_code (remnawave_account_status t row total) ≠ "active" ∧
    (∀ k p, peers r.2 !! k = Some p → Peer_user_id p = uid → Peer_status p = "pending_delete") ∧
    (∀ nid, nid ∈ r.1.1 ↔ ∃ k p, peers d !! k = Some p ∧ Peer_user_id p = uid ∧
       Peer_status p ≠ "pending_delete" ∧ Peer_node_id p = nid)
  else r = ((∅, ∅), d).
Proof.
  intros Hd Hrow Hu r total. subst r. unfold enforce_remnawave_combined_limit_for_user.
  rewrite Hrow. destruct (remnawave_of_Some _ _ _ Hrow) as [_ Huid].
  unfold enforce_remnawave_combined_limit. rewrite Huid. fold total.
  destruct (remnawave_combined_limited row total) eqn:El; [|done]. cbn [negb].
  rewrite Hu. set (u' := user <| User_is_blocked := true |>).
  assert (User_id user = uid) as Hid by (by apply (wf_user_id _ (proj1 Hd))).
  assert (db_inv (update_user u' d)) as Hd1.
  { apply (update_user_inv _ user); [done|]. simpl. by rewrite Hid. }
  destruct (block_peers_spec (update_user u' d) uid Hd1) as (_ & _ & Hus & _ & _ & Hp & Hn).
  destruct (foldl block_peer _ _) as [affected d'] eqn:E. cbn [fst snd] in *.
  assert (Status_code (account_status t u' total (Some row)) ≠ "active") as Hna
    by (rewrite account_status_remnawave; by intros [_ ?]).
  split_and!; [by destruct (Rw_status row == "DISABLED")| | |done|done].
  - exists u'. rewrite Hus. simpl. by rewrite Hid, lookup_insert_eq.
  - unfold remnawave_account_status. repeat case_match; simpl; try done.
    all: unfold remnawave_combined_limited in El; try congruence.
    all: simplify_eq; unfold REMNAWAVE_STATUS_CODES in *; simpl in *; repeat case_match; simplify_eq; done.
Qed.

(** Marking an account stale blocks it for good and once. The profile becomes [stale] with the
    reason, its account is blocked, every peer of it waits for removal, the nodes reported are those
    whose peers changed, and marking it again changes nothing and reports no node. *)
Lemma mark_stale_idempotent d row user reason :
  db_inv d → rw_users d !! Rw_id row = Some row → users d !! Rw_user_id row = Some user →
  let r := mark_remnawave_user_stale reason row d in
  (∃ row', rw_users r.2 !! Rw_id row = Some row' ∧ Rw_sync_status row' = "stale" ∧
     Rw_sync_reason row' = Some reason ∧
     mark_remnawave_user_stale reason row' r.2 = (∅, r.2)) ∧
  (∃ u', users r.2 !! Rw_user_id row = Some u' ∧ User_is_blocked u' = true) ∧
  (∀ k p, peers r.2 !! k = Some p → Peer_user_id p = Rw_user_id row →
     Peer_status p = "pending_delete") ∧
  (∀ nid, nid ∈ r.1 ↔ ∃ k p, peers d !! k = Some p ∧ Peer_user_id p = Rw_user_id row ∧
     Peer_status p ≠ "pending_delete" ∧ Peer_node_id p = nid).
Proof.
  intros Hd Hrow Hu r.
  set (row' := row <| Rw_sync_status := "stale" |> <| Rw_sync_reason := Some reason |>
                   <| Rw_sync_error := None |>).
  set (u' := user <| User_is_blocked := true |>).
  assert (User_id user = Rw_user_id row) as Hid by (by apply (wf_user_id _ (proj1 Hd))).
  set (d1 := update_user u' (update_rw row' d)).
  assert (db_inv d1) as Hd1.
  { apply (update_user_inv _ user); [|simpl; by rewrite Hid].
    by apply (update_rw_inv _ row). }
  destruct (block_peers_spec d1 (Rw_user_id row) Hd1) as (Hi & _ & Hus & _ & Hrw & Hp & Hn).
  assert (r = foldl block_peer (∅, d1) (peers_of_user d1 (Rw_user_id row))) as Er.
  { unfold r, mark_remnawave_user_stale. fold row'. cbv zeta.
    change (users (update_rw row' d) !! Rw_user_id row) with (users d !! Rw_user_id row).
    by rewrite Hu. }
  clearbody r. subst r.
  destruct (foldl block_peer (∅, d1) _) as [affected d2]. cbn [fst snd] in *.
  assert (rw_users d2 !! Rw_id row = Some row') as Hrow'.
  { rewrite Hrw. simpl. by rewrite lookup_insert_eq. }
  assert (users d2 !! Rw_user_id row = Some u') as Hu'.
  { rewrite Hus. simpl. by rewrite Hid, lookup_insert_eq. }
  split_and!; [|by exists u'|done|done].
  exists row'. split_and!; [done..|]. unfold mark_remnawave_user_stale. cbv zeta.
  assert (update_rw (row' <| Rw_sync_status := "stale" |> <| Rw_sync_reason := Some reason |>
    <| Rw_sync_error := None |>) d2 = d2) as ->.
  { unfold update_rw. change (<[_ := _]> (rw_users d2)) with (<[Rw_id row := row']> (rw_users d2)).
    rewrite (insert_id _ _ _ Hrow'). by destruct d2. }
  change (Rw_user_id row') with (Rw_user_id row). rewrite Hu'.
  assert (update_user (u' <| User_is_blocked := true |>) d2 = d2) as ->.
  { unfold update_user. change (<[_ := _]> (users d2)) with (<[User_id user := u']> (users d2)).
    rewrite Hid, (insert_id _ _ _ Hu'). by destruct d2. }
  assert (∀ ps acc, (∀ p, p ∈ ps → Peer_status p = "pending_delete") → foldl block_peer acc ps = acc)
    as Hnop.
  { clear. induction ps as [|p ps IH]; intros acc Hps; simpl; [done|].
    unfold block_peer at 2. rewrite (Hps p) by left. simpl. apply IH. intros q Hq. apply Hps. by right. }
  apply Hnop. intros p [[k Hk] Hpu]%elem_of_peers_of_user. by eapply Hp.
Qed.

Lemma combined_limit_enforced_witness :
  remnawave_of sample_managed_db "u" = Some (sample_rw "w" "u") ∧
  (enforce_remnawave_combined_limit_for_user "u" sample_managed_db).1.2 = {["uuid-w"]}.
Proof.
  split; [vm_compute; reflexivity|].
  pose proof (combined_limit_enforced sample_managed_db "u" (sample_rw "w" "u") (sample_user "u" 2) t0
    sample_managed_db_inv ltac:(vm_compute; reflexivity) ltac:(vm_compute; reflexivity)) as H.
  cbv zeta in H.
  assert (remnawave_combined_limited (sample_rw "w" "u")
    (load_local_total_bytes sample_managed_db "u") = true) as El by (vm_compute; reflexivity).
  rewrite El in H. destruct H as [H _]. rewrite H. reflexivity.
Defined.

Lemma mark_stale_idempotent_witness :
  rw_users sample_managed_db !! "w" = Some (sample_rw "w" "u") ∧
  ∃ row', Rw_sync_status row' = "stale" ∧
    mark_remnawave_user_stale "gone" row'
      (mark_remnawave_user_stale "gone" (sample_rw "w" "u") sample_managed_db).2
    = (∅, (mark_remnawave_user_stale "gone" (sample_rw "w" "u") sample_managed_db).2).
Proof.
  split; [vm_compute; reflexivity|].
  destruct (mark_stale_idempotent sample_managed_db (sample_rw "w" "u") (sample_user "u" 2) "gone"
    sample_managed_db_inv ltac:(vm_compute; reflexivity) ltac:(vm_compute; reflexivity))
    as ((row' & _ & Hs & _ & Hm) & _).
  exists row'. split; [exact Hs|exact Hm].
Defined.

Lemma purgeable_spec d row :
  purgeable d row = true ↔
  (∃ k p, peers d !! k = Some p ∧ Peer_user_id p = Rw_user_id row) ∧
  (∀ k p, peers d !! k = Some p → Peer_user_id p = Rw_user_id row → Peer_status p = "deleted").
Proof.
  unfold purgeable. cbv zeta. rewrite andb_true_iff, negb_true_iff, bool_decide_eq_false, forallb_forall.
  setoid_rewrite <- list_elem_of_In. setoid_rewrite elem_of_peers_of_user.
  setoid_rewrite bool_decide_eq_true. split.
  - intros [Hne Hall]. split.
    + destruct (peers_of_user d (Rw_user_id row)) as [|p l] eqn:E; [done|].
      assert (p ∈ peers_of_user d (Rw_user_id row)) as Hp by (rewrite E; left).
      apply elem_of_peers_of_user in Hp as [[k Hk] Hu]. eauto.
    + intros k p Hk Hu. apply Hall. eauto.
  - intros [(k & p & Hk & Hu) Hall]. split.
    + intros E. assert (p ∈ peers_of_user d (Rw_user_id row)) as Hp
        by (apply elem_of_peers_of_user; eauto).
      rewrite E in Hp. by apply elem_of_nil in Hp.
    + intros q [[k' Hk'] Hu']. by eapply Hall.
Qed.

Lemma delete_user_users uid d k :
  users (delete_user uid d) !! k = if decide (k = uid) then None else users d !! k.
Proof. simpl. case_decide; subst; [apply lookup_delete_eq|by rewrite lookup_delete_ne]. Qed.

Lemma delete_user_peers uid d k p :
  peers (delete_user uid d) !! k = Some p ↔ peers d !! k = Some p ∧ Peer_user_id p ≠ uid.
Proof.
  simpl. rewrite lookup_filter_Some. simpl. by rewrite bool_decide_eq_false.
Qed.

(** Two views with the same peers of an account agree on whether it can be purged. *)
Definition same_peers_of (u : string) (d d' : db) : Prop :=
  ∀ k p, Peer_user_id p = u → peers d !! k = Some p ↔ peers d' !! k = Some p.

Lemma purgeable_same d d' row :
  same_peers_of (Rw_user_id row) d d' → purgeable d row = purgeable d' row.
Proof.
  intros Hs. apply eq_true_iff_eq. rewrite !purgeable_spec. split; intros [(k & p & Hk & Hu) Hall];
    (split; [exists k, p; split; [by apply Hs|done]|intros k' p' Hk' Hu'; by eapply Hall; [apply Hs|]]).
Qed.

Definition purge_step (acc : Z * db) (row : RemnawaveUser) : Z * db :=
  if purgeable acc.2 row then ((acc.1 + 1)%Z, delete_user (Rw_user_id row) acc.2) else acc.

(** After the rows [l]: an account either was purged, one of [l] being purgeable for it, or is
    untouched, none of [l] being so. *)
Lemma purge_fold d l u :
  let acc := foldl purge_step (0%Z, d) l in
  (users acc.2 !! u = None ∧ (∀ k p, peers acc.2 !! k = Some p → Peer_user_id p ≠ u) ∧
   ∃ row, row ∈ l ∧ Rw_user_id row = u ∧ purgeable d row = true) ∨
  (users acc.2 !! u = users d !! u ∧ same_peers_of u d acc.2 ∧
   ∀ row, row ∈ l → Rw_user_id row = u → purgeable d row = false).
Proof.
  induction l as [|row l IH] using rev_ind; intros acc.
  { right. split_and!; [done|done|by intros ? ?%elem_of_nil]. }
  subst acc. rewrite foldl_app. cbn [foldl]. set (acc := foldl purge_step (0%Z, d) l) in *.
  assert (∀ row', row' ∈ l ++ [row] ↔ row' ∈ l ∨ row' = row) as Hin
    by (intros; by rewrite elem_of_app, list_elem_of_singleton).
  setoid_rewrite Hin. unfold purge_step.
  destruct IH as [(H1 & H2 & row' & H3 & H4 & H5)|(H1 & H2 & H3)].
  - left. destruct (purgeable acc.2 row); cbn [snd]; [|by eauto 10].
    split_and!; [|intros k p [Hp _]%delete_user_peers; by eapply H2|by eauto].
    rewrite delete_user_users. by case_decide.
  - destruct (decide (Rw_user_id row = u)) as [Hu|Hu].
    + assert (purgeable acc.2 row = purgeable d row) as ->
        by (symmetry; apply purgeable_same; by rewrite Hu).
      destruct (purgeable d row) eqn:Ep; cbn [snd].
      * left. split_and!; [by rewrite delete_user_users, decide_True| |by eauto].
        intros k p [_ Hp]%delete_user_peers. congruence.
      * right. split_and!; [done..|]. intros row' [?| ->] ?; eauto.
    + right. assert (∀ row', row' ∈ l ∨ row' = row → Rw_user_id row' = u → purgeable d row' = false)
        by (intros row' [?| ->] ?; [eauto|done]).
      destruct (purgeable acc.2 row); cbn [snd]; [|done].
      split_and!; [by rewrite delete_user_users, decide_False| |done].
      intros k p Hp. rewrite delete_user_peers, (H2 k p) by done. naive_solver.
Qed.

(** A requested deletion is carried out exactly when every node has confirmed it. A purge removes
    the accounts that have a deletion request, at least one peer, and only peers confirmed [deleted];
    every other account keeps its row. In particular an account with a deletion request and no peer
    at all is never purged. *)
Lemma purge_exactly_confirmed d uid :
  let d' := (purge_confirmed_remnawave_deletes d).2 in
  let confirmed_gone :=
    (∃ k row, rw_users d !! k = Some row ∧ Rw_user_id row = uid ∧ Rw_delete_requested_at row ≠ None) ∧
    (∃ k p, peers d !! k = Some p ∧ Peer_user_id p = uid) ∧
    (∀ k p, peers d !! k = Some p → Peer_user_id p = uid → Peer_status p = "deleted") in
  (confirmed_gone → users d' !! uid = None) ∧
  (¬ confirmed_gone → users d' !! uid = users d !! uid).
Proof.
  intros d' gone. subst d'. unfold purge_confirmed_remnawave_deletes. fold purge_step.
  set (requested := select _ _).
  assert (∀ row, row ∈ requested ↔ (∃ k, rw_users d !! k = Some row) ∧
    Rw_delete_requested_at row ≠ None) as Hreq.
  { intros row. unfold requested. by rewrite elem_of_select, negb_true_iff, bool_decide_eq_false. }
  change (foldl _ _ _) with (foldl purge_step (0%Z, d) requested).
  destruct (purge_fold d requested uid) as [(H1 & _ & row & Hr & Hu & Hp)|(H1 & _ & H3)].
  - split; [done|]. intros Hn. exfalso. apply Hn. apply Hreq in Hr as [[k Hk] Hreq'].
    apply purgeable_spec in Hp as [Hsome Hall]. rewrite Hu in Hsome, Hall. split_and!; eauto.
  - split; [|done]. intros ((k & row & Hk & Hu & Hreq') & Hsome & Hall).
    assert (purgeable d row = false) as Hf by (apply H3; [apply Hreq; eauto|done]).
    assert (purgeable d row = true); [|congruence]. apply purgeable_spec. rewrite Hu. auto.
Qed.
