(* ===== verification/WorkerApi.v ===== *)
(** * The worker-facing API: nodes, operations, traffic

    [panel/backend/app/routers/internal_worker_parts/{nodes,operations,traffic,auth}.py] and
    [services/traffic_retention.py]: what the worker reports about nodes and operations, the
    snapshots it reads, provision recovery, and the retention of raw samples. *)
From S2P Require Import Prelude PyStr Json Bytes Models Session Sample Crypto NodeConfig.
From S2P Require Import AccountPolicy Devices Lifecycle Jobs Events NodeSync RemnawaveSync.

(** ** Authorization of the worker *)
Definition require_worker_token (expected authorization : option string) : outcome unit :=
  let unauthorized := Raise (HTTPException 401 "Unauthorized") in
  match expected, authorization with
  | Some expected, Some authorization =>
      if negb (truthy_str expected) || negb (truthy_str authorization) ||
         negb (startswith authorization "Bearer ")
      then unauthorized
      else if strip (removeprefix authorization "Bearer ") != expected then unauthorized
      else Ok tt
  | _, _ => unauthorized
  end.

(** ** Peer results *)
Definition ACTIVE_OPERATION_STATUSES : list string := ["queued"; "pending"; "running"].
Definition HEARTBEAT_TIMESTAMP_WRITE_INTERVAL : Z := seconds 60.

(** [_aware]. *)
Definition aware_value (value : datetime) : datetime :=
  match dt_offset value with Some _ => value | None => replace_utc value end.

(** [{peer.device.public_key: peer for peer in peers if ...}] as peer ids; a later peer wins. *)
Definition peers_by_public_key (d : db) (peer_ids : list string) : gmap string string :=
  foldl (fun m pid =>
    match peers d !! pid ≫= (fun p => devices d !! Peer_device_id p) with
    | Some device =>
        if truthy (Device_public_key device)
        then <[default "" (Device_public_key device) := pid]> m else m
    | None => m
    end) ∅ peer_ids.

(** The four sets a batch of peer results accumulates. *)
Record ResultSets := mkResultSets {
  limited_node_ids : gset string;
  local_lifecycle_node_ids : gset string;
  remote_disable_uuids : gset string;
  acknowledged_owner_ids : gset string }.

(** What a retention pass reports. *)
Record RawSampleRetentionResult := mkRetention {
  retention_days : Z;
  deleted : Z;
  disabled : bool;
  cutoff : option datetime }.

Section with_env.
Context `{Env}.

(** A row the session holds: a later statement that finds it gone raises. *)
Definition held_peer (pid : string) : M Peer :=
  let* p := reads (fun d => peers d !! pid) in
  match p with Some p => retM p | None => raise (RuntimeError "stale row") end.
Definition modify_node (nid : string) (f : Node → Node) : M unit :=
  let* n := reads (fun d => nodes d !! nid) in
  match n with
  | Some n => modify (update_node (f n))
  | None => raise (RuntimeError "stale row")
  end.

Definition apply_one_result (index : gmap string string) (sampled_at : datetime)
    (acc : ResultSets) (result : PeerSyncResult) : M ResultSets :=
  match index !! PR_public_key result with
  | None => retM acc
  | Some pid =>
      let* peer := held_peer pid in
      let acknowledged := {[Peer_user_id peer]} ∪ acknowledged_owner_ids acc in
      let* sample := apply_peer_result peer result sampled_at in
      match sample with
      | None => retM (mkResultSets (limited_node_ids acc) (local_lifecycle_node_ids acc)
                        (remote_disable_uuids acc) acknowledged)
      | Some _ =>
          let* lifecycle := enforce_local_lifecycle_for_user (Peer_user_id peer) in
          let* limited := transact (enforce_remnawave_combined_limit_for_user (Peer_user_id peer)) in
          retM (mkResultSets (limited_node_ids acc ∪ limited.1)
                  (local_lifecycle_node_ids acc ∪ lifecycle)
                  (remote_disable_uuids acc ∪ limited.2) acknowledged)
      end
  end.

Definition apply_peer_results (peer_ids : list string) (results : list PeerSyncResult)
    (sampled_at : datetime) : M (gset string) :=
  let* index := reads (fun d => peers_by_public_key d peer_ids) in
  let* sets := for_fold (apply_one_result index sampled_at) (mkResultSets ∅ ∅ ∅ ∅) results in
  do* enqueue_sync_nodes (local_lifecycle_node_ids sets) in
  do* enqueue_sync_nodes (limited_node_ids sets) in
  do* enqueue_remnawave_disable_users (remote_disable_uuids sets) in
  retM (acknowledged_owner_ids sets).

(** ** Sync result *)
Definition owners_of (d : db) (peer_ids : list string) : gset string :=
  list_to_set (omap (fun pid => Peer_user_id <$> peers d !! pid) peer_ids).

(** [pending_delete] peers the node no longer reports are confirmed gone; the owners to announce
    and the devices whose address may be free. *)
Definition confirm_removed (seen_public_keys : list string) (acc : (gset string * gset string) * db)
    (pid : string) : (gset string * gset string) * db :=
  match peers acc.2 !! pid with
  | None => acc
  | Some peer =>
      let device_public_key := devices acc.2 !! Peer_device_id peer ≫= Device_public_key in
      let seen := match device_public_key with
                  | Some k => bool_decide (k ∈ seen_public_keys) | None => false end in
      let '((owners, released), d) :=
        if (Peer_status peer == "pending_delete") && negb seen then
          (({[Peer_user_id peer]} ∪ acc.1.1, acc.1.2),
           update_peer (peer <| Peer_status := "deleted" |>) acc.2)
        else acc in
      match peers d !! pid with
      | Some peer =>
          if Peer_status peer == "deleted"
          then ((owners, {[Peer_device_id peer]} ∪ released), d) else ((owners, released), d)
      | None => ((owners, released), d)
      end
  end.

Definition node_sync_result (node_id : string) (data : SyncResult) : M string :=
  let* loaded := load_node_with_peers node_id true in
  let '(_, peer_ids) := loaded in
  if negb (SR_ok data) then
    let error := str_or (SR_error data) "Worker sync failed" in
    do* modify_node node_id (fun n =>
      n <| Node_sync_status := "failed" |> <| Node_sync_error := Some error |>
        <| Node_last_error := Some error |>) in
    let* owners := reads (fun d => owners_of d peer_ids) in
    do* notify_user_changes owners REASON_NODE_SYNC in
    do* commit in
    retM "failed"
  else
    let* synced_at := now in
    do* modify_node node_id (fun n =>
      let n := n <| Node_sync_status := "succeeded" |> <| Node_sync_error := None |>
                 <| Node_last_error := None |> <| Node_last_synced_at := Some synced_at |> in
      match SR_interface data with Some i => apply_interface_result n i | None => n end) in
    let* sampled_at := now in
    let seen_public_keys := PR_public_key <$> SR_peers data in
    let* acknowledged := apply_peer_results peer_ids (SR_peers data) sampled_at in
    let* confirmed := transact (fun d =>
      foldl (confirm_removed seen_public_keys) ((acknowledged, ∅), d) peer_ids) in
    let '(owners, released_candidates) := confirmed in
    do* release_device_ips released_candidates None in
    do* transact purge_confirmed_remnawave_deletes in
    do* notify_user_changes owners REASON_NODE_SYNC in
    do* commit in
    retM "ok".

(** ** Provisioning *)
Definition node_provision_result (node_id : string) (data : ProvisionResult) : M string :=
  let* node := reads (fun d => nodes d !! node_id) in
  match node with
  | None => raise (HTTPException 404 "Node not found")
  | Some node =>
      let node :=
        if ProvR_ok data then
          let n := node <| Node_provision_status := "succeeded" |> <| Node_last_error := None |> in
          match ProvR_interface data with Some i => apply_interface_result n i | None => n end
        else
          node <| Node_provision_status := "failed" |>
               <| Node_last_error := Some (str_or (ProvR_error data) "Worker provision failed") |> in
      do* modify (update_node node) in
      do* commit in
      retM (Node_provision_status node)
  end.

Definition latest_provision_operation (d : db) (node_id : string) : option AsyncOperation :=
  head (order_by (fun o => - instant (Op_updated_at o))%Z Op_id
    (select (fun o => (Op_kind o == "provision_node") && (Op_target_type o == Some "node") &&
                      (Op_target_id o == Some node_id)) (operations d))).

Definition provision_retry_due (node : Node) (latest_operation : option AsyncOperation)
    (pending_cutoff failed_cutoff : Z) : bool :=
  match latest_operation with
  | None => true
  | Some operation =>
      if Op_status operation isin ACTIVE_OPERATION_STATUSES then false
      else
        let updated_at := instant (aware_value (Op_updated_at operation)) in
        if Node_provision_status node == "pending" then (updated_at <=? pending_cutoff)%Z
        else if Node_provision_status node == "failed" then (updated_at <=? failed_cutoff)%Z
        else false
  end.

(** Nodes waiting for a provision, oldest first, at most [limit] of them. *)
Definition provision_candidates (d : db) (limit : nat) : list Node :=
  take limit (order_by (fun n => instant (Node_created_at n)) Node_id
    (select (fun n => Node_provision_status n isin ["pending"; "failed"]) (nodes d))).

Definition node_provision_recovery (pending_after failed_after : Z) (limit : nat)
    : M (list AsyncOperation) :=
  let* observed_at := now in
  let* pending_cutoff := lift (datetime_minus observed_at pending_after (seconds 1)) in
  let* failed_cutoff := lift (datetime_minus observed_at failed_after (seconds 1)) in
  let* candidates := reads (fun d => provision_candidates d limit) in
  let* created := for_fold (fun acc node =>
    let* due := reads (fun d => provision_retry_due node (latest_provision_operation d (Node_id node))
                                  (instant pending_cutoff) (instant failed_cutoff)) in
    if (due : bool) then
      let* operation := new_operation "provision_node" (Some "node") (Some (Node_id node)) in
      do* modify (update_operation operation) in
      retM (acc ++ [operation])
    else retM acc) [] candidates in
  do* commit in
  retM created.

(** ** Heartbeats *)
Definition heartbeat_timestamp_due (node : Node) (observed_at : datetime) : bool :=
  match Node_last_heartbeat_at node with
  | None => true
  | Some t =>
      (HEARTBEAT_TIMESTAMP_WRITE_INTERVAL <=? instant observed_at - instant (aware_value t))%Z
  end.

Definition apply_node_heartbeat_result (node : Node) (data : HeartbeatResult)
    (observed_at : datetime) : Node :=
  let reachability_status := if HR_ok data then "reachable" else "unreachable" in
  let health_status := if HR_ok data then "online" else "offline" in
  let error := if HR_ok data then None
               else Some (str_or (HR_error data) "Worker heartbeat failed") in
  let status_changed :=
    (Node_reachability_status node != reachability_status) ||
    (Node_health_status node != health_status) ||
    (Node_last_heartbeat_error node != error) in
  let timestamp_due := status_changed || heartbeat_timestamp_due node observed_at in
  let node :=
    if timestamp_due then
      let n := node <| Node_last_heartbeat_at := Some observed_at |> in
      if HR_ok data then n <| Node_last_seen_at := Some observed_at |> else n
    else node in
  node <| Node_reachability_status := reachability_status |>
       <| Node_health_status := health_status |>
       <| Node_last_heartbeat_error := error |>.

Definition node_heartbeat_result (node_id : string) (data : HeartbeatResult) : M string :=
  let* loaded := load_node_with_peers node_id true in
  let '(_, peer_ids) := loaded in
  let* observed_at := now in
  do* modify_node node_id (fun n => apply_node_heartbeat_result n data observed_at) in
  do* (if HR_ok data && (HR_peers data != [])
       then
         let* touched := apply_peer_results peer_ids (HR_peers data) observed_at in
         do* notify_user_changes touched REASON_NODE_HEARTBEAT in retM tt
       else retM tt) in
  do* commit in
  retM (if HR_ok data then "reachable" else "unreachable").

(** ** Snapshots *)
Definition node_sync_snapshot (d : db) (node_id : string) : outcome NodeSnapshot :=
  match nodes d !! node_id with
  | None => Raise (HTTPException 404 "Node not found")
  | Some node => Ok (node_snapshot d node (peers_of_node d node_id))
  end.
Definition sync_snapshot (d : db) : outcome (list NodeSnapshot) :=
  map_outcome (fun node => node_sync_snapshot d (Node_id node)) (rows (nodes d)).

(** ** Operations *)
Definition the_operation (operation_id : string) : M AsyncOperation :=
  let* operation := reads (fun d => operations d !! operation_id) in
  match operation with
  | None => raise (HTTPException 404 "Operation not found")
  | Some operation => retM operation
  end.

Definition ensure_status (operation : AsyncOperation) (allowed : list string) : M unit :=
  if Op_status operation isin allowed then retM tt
  else raise (HTTPException 409
         ("Operation status '" +:+ Op_status operation +:+ "' cannot transition here")).

Definition start_operation (operation_id : string) : M (string * Z) :=
  let* operation := the_operation operation_id in
  do* ensure_status operation ["queued"; "pending"] in
  let* t := now in
  let operation := operation <| Op_status := "running" |>
                             <| Op_attempts := (Op_attempts operation + 1)%Z |>
                             <| Op_error := None |> <| Op_updated_at := t |> in
  do* modify (update_operation operation) in
  do* commit in
  retM (Op_status operation, Op_attempts operation).

Definition result_json (data : option json) : option string := dumps_default <$> data.

(** Leaving [running] for one of the final statuses. *)
Definition finish_operation (operation_id status : string) (error : option string)
    (result : AsyncOperation → option string) : M string :=
  let* operation := the_operation operation_id in
  do* ensure_status operation ["running"] in
  let* finished_at := now in
  do* modify (update_operation
    (operation <| Op_status := status |> <| Op_error := error |>
               <| Op_result := result operation |>
               <| Op_finished_at := Some finished_at |> <| Op_updated_at := finished_at |>)) in
  do* commit in
  retM status.

Definition succeed_operation (operation_id : string) (result : option json) : M string :=
  finish_operation operation_id "succeeded" None (fun _ => result_json result).
Definition fail_operation (operation_id : string) (error : option string) (result : option json)
    : M string :=
  finish_operation operation_id "failed" (Some (str_or error "Worker reported failure"))
    (fun _ => result_json result).
Definition timeout_operation (operation_id : string) : M string :=
  finish_operation operation_id "failed_by_timeout"
    (Some "Operation exceeded running timeout and needs manual action") Op_result.

Definition stale_operations (status_filter : string) (older_than_seconds : Z)
    : M (list AsyncOperation) :=
  let* t := now in
  let* cutoff := lift (datetime_minus t older_than_seconds (seconds 1)) in
  reads (fun d => order_by (fun o => instant (Op_updated_at o)) Op_id
    (select (fun o => (Op_status o == status_filter) && (instant (Op_updated_at o) <=? instant cutoff)%Z)
       (operations d))).

(** ** Retention of raw samples

    The settings row, created with its defaults - and committed - when there is none. *)
Definition get_traffic_settings : M LocalAmneziawgTrafficSettings :=
  let* row := reads (fun d => head (order_by
    (fun r => instant (TrafficSettings_created_at r)) TrafficSettings_id (traffic_settings d))) in
  match row with
  | Some row => retM row
  | None =>
      let* id := new_uuid in
      let* t := now in
      let row := mkLocalAmneziawgTrafficSettings id 90 180 t t in
      do* modify (fun d => d <| traffic_settings := traffic_settings d ++ [row] |>) in
      do* commit in
      retM row
  end.

(** A raw sample older than the cutoff whose delta and whose four aggregates exist. *)
Definition deletable_sample (d : db) (cutoff : Z) (s : PeerTrafficSample) : bool :=
  (instant (Sample_sampled_at s) <? cutoff)%Z &&
  match peers d !! Sample_peer_id s with
  | None => false
  | Some peer =>
      existsb (fun t =>
        (Delta_peer_id t == Sample_peer_id s) && dt_eq (Delta_observed_at t) (Sample_sampled_at s) &&
        (Delta_rx_delta_bytes t == Sample_rx_bytes s) &&
        (Delta_tx_delta_bytes t == Sample_tx_bytes s) &&
        bool_decide (is_Some (user_daily d !! (Peer_user_id peer, dt_date (Delta_observed_at t)))) &&
        bool_decide (is_Some (user_node_daily d !!
          (Peer_user_id peer, Peer_node_id peer, dt_date (Delta_observed_at t)))))
        (deltas d) &&
      bool_decide (is_Some (user_lifetime d !! Peer_user_id peer)) &&
      bool_decide (is_Some (user_node_lifetime d !! (Peer_user_id peer, Peer_node_id peer)))
  end.

Definition cleanup_raw_traffic_samples (now_ : option datetime) : M RawSampleRetentionResult :=
  let* settings := get_traffic_settings in
  let days := TrafficSettings_raw_sample_retention_days settings in
  if days == 0%Z then retM (mkRetention days 0 true None) else
  let* t := now in
  let at_ := default t now_ in
  let* cutoff := lift (datetime_minus at_ days day_us) in
  let* sample_ids := reads (fun d =>
    Sample_id <$> List.filter (deletable_sample d (instant cutoff)) (samples d)) in
  match sample_ids with
  | [] => retM (mkRetention days 0 false (Some cutoff))
  | _ =>
      do* modify (fun d => d <| samples :=
        List.filter (fun s => negb (Sample_id s isin sample_ids)) (samples d) |>) in
      do* commit in
      retM (mkRetention days (Z.of_nat (length sample_ids)) false (Some cutoff))
  end.
End with_env.

(** ** The invariants survive every request of the worker *)
Abbreviation inv_kept := (preserves (holds db_inv)).

Section invariants.
Context `{EnvLaws}.

Lemma lock_owner_rows_inv attempts nid locked : inv_kept (lock_owner_rows attempts nid locked).
Proof.
  revert locked. induction attempts as [|n IH]; intros locked; simpl; [apply preserves_ret|].
  session_steps; apply IH.
Qed.

Lemma load_node_with_peers_inv nid b : inv_kept (load_node_with_peers nid b).
Proof.
  unfold load_node_with_peers, lock_peer_device_rows. session_steps;
    apply lock_owner_rows_inv.
Qed.

Lemma modify_node_inv nid f :
  (∀ n, Node_id (f n) = Node_id n) → inv_kept (modify_node nid f).
Proof.
  intros Hf. apply preserves_bind_reads. intros s [Hw Hc].
  destruct (nodes (work s) !! nid) as [n|] eqn:E; [|done]. split; [|done]. simpl.
  pose proof (wf_node_id _ (proj1 Hw) _ _ E) as Eid.
  split; [|by apply Hw]. apply (update_node_wf _ n); [apply Hw|by rewrite Eid|by rewrite Hf].
Qed.

Lemma apply_one_result_inv index t acc result : inv_kept (apply_one_result index t acc result).
Proof.
  unfold apply_one_result, held_peer. destruct (index !! PR_public_key result) as [pid|];
    [|apply preserves_ret].
  intros s Hs. rewrite !bind_run. unfold reads at 1.
  destruct (peers (work s) !! pid) as [p|] eqn:Hp; [|done]. unfold retM at 1. cbv beta iota.
  rewrite bind_run.
  assert (Peer_id p = pid) as Eid by (apply (wf_peer_id _ (proj1 (proj1 Hs)) _ _ Hp)).
  destruct (apply_peer_result_effect p result t s Hs) as (Hs' & _); [by rewrite Eid|].
  destruct (apply_peer_result p result t s) as [[[x|]|e] s']; [|done..].
  revert s' Hs'. change (inv_kept (let* lifecycle := enforce_local_lifecycle_for_user (Peer_user_id p) in
    let* limited := transact (enforce_remnawave_combined_limit_for_user (Peer_user_id p)) in
    retM (mkResultSets (limited_node_ids acc ∪ limited.1)
            (local_lifecycle_node_ids acc ∪ lifecycle) (remote_disable_uuids acc ∪ limited.2)
            ({[Peer_user_id p]} ∪ acknowledged_owner_ids acc)))).
  session_steps. apply holds_transact. intros d. apply enforce_remnawave_combined_limit_for_user_inv.
Qed.

Lemma apply_peer_results_inv ids results t : inv_kept (apply_peer_results ids results t).
Proof.
  unfold apply_peer_results. session_steps. apply preserves_for_fold. intros acc r _.
  apply apply_one_result_inv.
Qed.

Lemma confirm_removed_inv seen acc pid :
  db_inv acc.2 → db_inv (confirm_removed seen acc pid).2.
Proof.
  intros Hd. unfold confirm_removed. destruct (peers acc.2 !! pid) as [p|] eqn:Hp; [|done].
  cbv zeta. set (gone := (_ && _)%bool). destruct gone eqn:E; cbv beta iota.
  - enough (db_inv (update_peer (p <| Peer_status := "deleted" |>) acc.2)) by (by repeat case_match).
    apply (update_peer_inv _ p); [done| |done|simpl; literal_in]. simpl.
    by rewrite (wf_peer_id _ (proj1 Hd) _ _ Hp).
  - destruct acc as [[owners released] d]. simpl in *. rewrite Hp. by case_match.
Qed.

Lemma node_sync_result_inv nid data : inv_kept (node_sync_result nid data).
Proof.
  unfold node_sync_result. apply preserves_bind; [apply load_node_with_peers_inv|intros [n ids]].
  unfold now. session_steps; try (by apply modify_node_inv); try apply apply_peer_results_inv.
  - apply modify_node_inv. intros m. cbv zeta. by destruct (SR_interface data).
  - apply holds_transact. intros d Hd.
    apply (foldl_invariant (fun acc => db_inv acc.2)); [done|]. intros. by apply confirm_removed_inv.
  - apply holds_transact. apply purge_inv.
Qed.

Lemma node_provision_result_inv nid data : inv_kept (node_provision_result nid data).
Proof.
  apply preserves_bind_reads. intros s [Hw Hc].
  destruct (nodes (work s) !! nid) as [n|] eqn:E; [|done]. cbv zeta.
  match goal with |- context [modify (update_node ?m)] => set (n' := m) end.
  assert (Node_id n' = nid) as Eid.
  { rewrite <- (wf_node_id _ (proj1 Hw) _ _ E). unfold n'.
    destruct (ProvR_ok data), (ProvR_interface data); done. }
  assert (db_inv (update_node n' (work s))) as Hn; [|by split].
  split; [|by apply Hw]. apply (update_node_wf _ n); [apply Hw|..];
    by rewrite (wf_node_id _ (proj1 Hw) _ _ E).
Qed.

Lemma update_operation_kept o : inv_kept (modify (update_operation o)).
Proof. apply holds_modify. intros d. apply update_operation_inv. Qed.
#[local] Hint Resolve update_operation_kept : preserves.

Lemma new_operation_kept kind tt_ tid : inv_kept (new_operation kind tt_ tid).
Proof. apply pure_draw_preserves, pure_draw_new_operation. Qed.
#[local] Hint Resolve new_operation_kept : preserves.

Lemma node_provision_recovery_inv p f l : inv_kept (node_provision_recovery p f l).
Proof.
  unfold node_provision_recovery, now. session_steps. apply preserves_for_fold. intros acc n _.
  session_steps.
Qed.

Lemma node_heartbeat_result_inv nid data : inv_kept (node_heartbeat_result nid data).
Proof.
  unfold node_heartbeat_result, now. apply preserves_bind; [apply load_node_with_peers_inv|].
  intros [n ids]. session_steps; try apply apply_peer_results_inv.
  apply modify_node_inv. intros m. unfold apply_node_heartbeat_result. cbv zeta.
  destruct (_ || _)%bool, (HR_ok data); done.
Qed.

Lemma start_operation_inv oid : inv_kept (start_operation oid).
Proof. unfold start_operation, the_operation, ensure_status, now. session_steps. Qed.
Lemma finish_operation_inv oid status error result :
  inv_kept (finish_operation oid status error result).
Proof. unfold finish_operation, the_operation, ensure_status, now. session_steps. Qed.

Lemma cleanup_raw_traffic_samples_inv t : inv_kept (cleanup_raw_traffic_samples t).
Proof.
  unfold cleanup_raw_traffic_samples, get_traffic_settings, new_uuid, now.
  session_steps; by apply holds_core.
Qed.
End invariants.

(** ** The life of an operation row *)
Inductive op_call :=
  | CallStart (id : string)
  | CallSucceed (id : string) (result : option json)
  | CallFail (id : string) (error : option string) (result : option json)
  | CallTimeout (id : string).

(** One request of the worker about an operation. *)
Definition run_call `{Env} (c : op_call) : M unit :=
  match c with
  | CallStart id => let* _ := start_operation id in retM tt
  | CallSucceed id result => let* _ := succeed_operation id result in retM tt
  | CallFail id error result => let* _ := fail_operation id error result in retM tt
  | CallTimeout id => let* _ := timeout_operation id in retM tt
  end.
Definition call_id (c : op_call) : string :=
  match c with CallStart id | CallSucceed id _ | CallFail id _ _ | CallTimeout id => id end.

(** What one request leaves behind. *)
Definition call_step `{Env} (d d' : db) : Prop := ∃ c n, d' = persisted (run_call c (start d n)).

Definition FINAL_OPERATION_STATUSES : list string := ["succeeded"; "failed"; "failed_by_timeout"].

(** The abstract machine of a row: it starts once, and finishes once. *)
Inductive op_transition (o : AsyncOperation) : AsyncOperation → Prop :=
  | op_starts t : Op_status o ∈ ["queued"; "pending"] →
      op_transition o (o <| Op_status := "running" |> <| Op_attempts := (Op_attempts o + 1)%Z |>
                         <| Op_error := None |> <| Op_updated_at := t |>)
  | op_finishes t status error result :
      Op_status o = "running" → status ∈ FINAL_OPERATION_STATUSES →
      (error = None ↔ status = "succeeded") →
      op_transition o (o <| Op_status := status |> <| Op_error := error |> <| Op_result := result |>
                         <| Op_finished_at := Some t |> <| Op_updated_at := t |>).

(** The phases of a row that was created [queued]. *)
Definition op_phase (o : AsyncOperation) : Prop :=
  (Op_status o = "queued" ∧ Op_attempts o = 0%Z ∧ Op_finished_at o = None) ∨
  (Op_status o = "running" ∧ Op_attempts o = 1%Z ∧ Op_finished_at o = None ∧ Op_error o = None) ∨
  (Op_status o ∈ FINAL_OPERATION_STATUSES ∧ Op_attempts o = 1%Z ∧
   Op_finished_at o = Some (Op_updated_at o) ∧ (Op_error o = None ↔ Op_status o = "succeeded")).

Definition same_command (o o' : AsyncOperation) : Prop :=
  Op_id o = Op_id o' ∧ Op_kind o = Op_kind o' ∧ Op_target_type o = Op_target_type o' ∧
  Op_target_id o = Op_target_id o' ∧ Op_idempotency_key o = Op_idempotency_key o' ∧
  Op_created_at o = Op_created_at o'.

Definition ops_wf (d : db) : Prop := ∀ k o, operations d !! k = Some o → Op_id o = k.

Section operations.
Context `{Env}.

(** A guarded transition of the row [id], committed; refused otherwise. *)
Lemma start_operation_run id d n :
  match operations d !! id with
  | Some o =>
      if Op_status o isin ["queued"; "pending"]
      then ∃ t, persisted (start_operation id (start d n)) =
        update_operation (o <| Op_status := "running" |> <| Op_attempts := (Op_attempts o + 1)%Z |>
                            <| Op_error := None |> <| Op_updated_at := t |>) d
      else persisted (start_operation id (start d n)) = d
  | None => persisted (start_operation id (start d n)) = d
  end.
Proof.
  unfold start_operation, the_operation, ensure_status. rewrite !bind_run. unfold reads at 1. simpl.
  destruct (operations d !! id) as [o|]; [|done].
  change (retM o (start d n)) with (Ok o, start d n). cbv beta iota. rewrite bind_run.
  case_match; [by eexists|done].
Qed.

Lemma finish_operation_run id status error result d n :
  match operations d !! id with
  | Some o =>
      if Op_status o == "running"
      then ∃ t, persisted (finish_operation id status error result (start d n)) =
        update_operation (o <| Op_status := status |> <| Op_error := error |>
                            <| Op_result := result o |> <| Op_finished_at := Some t |>
                            <| Op_updated_at := t |>) d
      else persisted (finish_operation id status error result (start d n)) = d
  | None => persisted (finish_operation id status error result (start d n)) = d
  end.
Proof.
  unfold finish_operation, the_operation, ensure_status. rewrite !bind_run. unfold reads at 1. simpl.
  destruct (operations d !! id) as [o|]; [|done].
  change (retM o (start d n)) with (Ok o, start d n). cbv beta iota. rewrite bind_run.
  destruct (bool_decide_reflect (Op_status o = "running")) as [->|Hne].
  - rewrite bool_decide_eq_true_2 by literal_in. eexists. reflexivity.
  - rewrite bool_decide_eq_false_2; [done|]. by rewrite list_elem_of_singleton.
Qed.

(** Every request either changes nothing or makes one transition of its own row. *)
Lemma run_call_rows c n d :
  persisted (run_call c (start d n)) = d ∨
  ∃ o o', operations d !! call_id c = Some o ∧ op_transition o o' ∧
    persisted (run_call c (start d n)) = update_operation o' d.
Proof.
  assert (∀ A (m : M A) s, persisted ((let* _ := m in retM tt) s) = persisted (m s)) as Hdrop.
  { intros A m s. rewrite bind_run. by destruct (m s) as [[]]. }
  assert (∀ id status error result, status ∈ FINAL_OPERATION_STATUSES →
    (error = None ↔ status = "succeeded") →
    let m := finish_operation id status error result in
    persisted (m (start d n)) = d ∨ ∃ o o', operations d !! id = Some o ∧ op_transition o o' ∧
      persisted (m (start d n)) = update_operation o' d) as Hfin.
  { intros id status error result Hst Herr m.
    pose proof (finish_operation_run id status error result d n) as Hr. subst m.
    destruct (operations d !! id) as [o|]; [|by left].
    destruct (bool_decide_reflect (Op_status o = "running")) as [Ho|]; [|by left].
    right. destruct Hr as [t ->]. exists o. eexists. split_and!; [done| |done]. by constructor. }
  destruct c as [id|id r|id e r|id]; unfold run_call; rewrite Hdrop; simpl call_id.
  - pose proof (start_operation_run id d n) as Hr.
    destruct (operations d !! id) as [o|]; [|by left].
    destruct (bool_decide_reflect (Op_status o ∈ ["queued"; "pending"])) as [Ho|]; [|by left].
    right. destruct Hr as [t ->]. exists o. eexists. split_and!; [done| |done]. by constructor.
  - apply Hfin; [literal_in|done].
  - apply Hfin; [literal_in|done].
  - apply Hfin; [literal_in|done].
Qed.

Lemma op_transition_phase o o' :
  op_phase o → op_transition o o' → op_phase o' ∧ same_command o o' ∧
    Op_status o ∉ FINAL_OPERATION_STATUSES.
Proof.
  intros Hp Ht. destruct Ht as [t Hst|t status error result Hst Hf He]; simpl.
  - destruct Hp as [(Hq & Ha & Hf)|[(Hq & _)|(Hq & _)]].
    + split_and!; [|done|rewrite Hq; literal_in]. right. left. simpl. by rewrite Ha.
    + rewrite Hq in Hst. revert Hst. literal_in.
    + exfalso. unfold FINAL_OPERATION_STATUSES in Hq. decompose_list_elem_of; congruence.
  - destruct Hp as [(Hq & _)|[(Hq & Ha & _)|(Hq & _)]].
    + by rewrite Hst in Hq.
    + split_and!; [|done|rewrite Hq; literal_in]. right. right. done.
    + exfalso. rewrite Hst in Hq. revert Hq. literal_in.
Qed.

Lemma op_transition_id o o' : op_transition o o' → Op_id o' = Op_id o.
Proof. by intros []. Qed.

Lemma call_step_row d d' id o :
  call_step d d' → ops_wf d → operations d !! id = Some o →
  ops_wf d' ∧ ∃ o', operations d' !! id = Some o' ∧ (o' = o ∨ op_transition o o').
Proof.
  intros (c & n & ->) Hwf Ho.
  destruct (run_call_rows c n d) as [->|(x & x' & Hx & Ht & ->)]; [eauto|].
  pose proof (op_transition_id _ _ Ht) as Hid. rewrite (Hwf _ _ Hx) in Hid. split.
  - intros k y. simpl. rewrite lookup_insert. case_decide; [|by eauto]. by intros [= <-].
  - simpl. rewrite Hid, lookup_insert. case_decide as E; [|by eauto].
    rewrite E, Ho in Hx. injection Hx as ->. eauto.
Qed.
End operations.

(** ** Confirmation of removals *)
Section confirm.
Context (d : db) (Hd : db_inv d) (seen : list string).

(** The node no longer reports a peer it had been told to remove. *)
Definition unreported (p : Peer) : bool :=
  (Peer_status p == "pending_delete") &&
  negb (match devices d !! Peer_device_id p ≫= Device_public_key with
        | Some key => bool_decide (key ∈ seen) | None => false end).
Definition confirmed_peer (p : Peer) : Peer := p <| Peer_status := "deleted" |>.

(** What the loop has done after the peers [ids]. *)
Record confirmed_upto (owners0 : gset string) (ids : list string)
    (r : (gset string * gset string) * db) : Prop := {
  upto_tables : r.2 = d <| peers := peers r.2 |>;
  upto_peers : ∀ k, peers r.2 !! k =
    (fun p => if bool_decide (k ∈ ids) && unreported p then confirmed_peer p else p) <$> peers d !! k;
  upto_owners : ∀ u, u ∈ r.1.1 ↔ u ∈ owners0 ∨
    ∃ k p, k ∈ ids ∧ peers d !! k = Some p ∧ unreported p = true ∧ Peer_user_id p = u;
  upto_released : ∀ did, did ∈ r.1.2 ↔
    ∃ k p, k ∈ ids ∧ peers d !! k = Some p ∧ (unreported p = true ∨ Peer_status p = "deleted") ∧
           Peer_device_id p = did }.

Lemma exists_last {A} (ids : list string) pid (P : string → Peer → A → Prop) a :
  (∃ k p, k ∈ ids ++ [pid] ∧ peers d !! k = Some p ∧ P k p a) ↔
  (∃ k p, k ∈ ids ∧ peers d !! k = Some p ∧ P k p a) ∨
  (∃ p, peers d !! pid = Some p ∧ P pid p a).
Proof.
  setoid_rewrite elem_of_app. setoid_rewrite list_elem_of_singleton. split.
  - intros (k & p & [Hk| ->] & Hp & HP); [left|right]; eauto.
  - intros [(k & p & Hk & Hp & HP)|(p & Hp & HP)]; eauto 8.
Qed.

Lemma upto_peers_last (ids : list string) pid k :
  k ≠ pid → bool_decide (k ∈ ids ++ [pid]) = bool_decide (k ∈ ids).
Proof.
  intros Hk. apply bool_decide_ext. rewrite elem_of_app, list_elem_of_singleton. tauto.
Qed.

Lemma confirm_removed_step owners0 ids pid r :
  pid ∉ ids → confirmed_upto owners0 ids r →
  confirmed_upto owners0 (ids ++ [pid]) (confirm_removed seen r pid).
Proof.
  intros Hnew [Hr Hpe Hown Hrel]. destruct r as [[owners released] d']. cbn [fst snd] in *.
  unfold confirm_removed. cbn [fst snd].
  assert (devices d' = devices d) as Edev by by rewrite Hr.
  pose proof (Hpe pid) as Hpid. rewrite bool_decide_eq_false_2 in Hpid by done. cbn [andb] in Hpid.
  rewrite option_fmap_id in Hpid. rewrite Hpid, Edev.
  destruct (peers d !! pid) as [p|] eqn:Hp.
  2:{ split; cbn [fst snd]; [done| | |].
      - intros k. rewrite Hpe. destruct (decide (k = pid)) as [->|Hk]; [by rewrite Hp|].
        by rewrite upto_peers_last.
      - intros u. rewrite Hown. rewrite (exists_last ids pid
          (fun k p u => unreported p = true ∧ Peer_user_id p = u)). rewrite Hp. naive_solver.
      - intros did. rewrite Hrel. rewrite (exists_last ids pid (fun k p did =>
          (unreported p = true ∨ Peer_status p = "deleted") ∧ Peer_device_id p = did)).
        rewrite Hp. naive_solver. }
  assert (Peer_id p = pid) as Eid by apply (wf_peer_id _ (proj1 Hd) _ _ Hp).
  fold (unreported p). rewrite <- Eid in *.
  assert (∀ (Q : Peer → Prop), (∃ q, Some p = Some q ∧ Q q) ↔ Q p) as Hone.
  { intros Q. split; [by intros (q & [= <-] & HQ)|by exists p]. }
  assert (Hupto : ∀ o' rel' d2,
    d2 = d <| peers := peers d2 |> →
    peers d2 = <[Peer_id p := if unreported p then confirmed_peer p else p]> (peers d') →
    o' = (if unreported p then {[Peer_user_id p]} ∪ owners else owners) →
    rel' = (if unreported p || (Peer_status p == "deleted")
            then {[Peer_device_id p]} ∪ released else released) →
    confirmed_upto owners0 (ids ++ [Peer_id p]) ((o', rel'), d2)).
  { intros o' rel' d2 H1 H2 -> ->. split; cbn [fst snd]; [done| | |].
    - intros k. rewrite H2, lookup_insert. case_decide as Hk.
      + rewrite <- Hk, Hp. cbn. rewrite bool_decide_eq_true_2; [done|]. apply elem_of_app. right. left.
      + by rewrite upto_peers_last, Hpe by done.
    - intros u. rewrite (exists_last ids (Peer_id p)
        (fun k p u => unreported p = true ∧ Peer_user_id p = u)), Hp, Hone.
      destruct (unreported p); rewrite ?elem_of_union, ?elem_of_singleton, Hown; intuition congruence.
    - intros did. rewrite (exists_last ids (Peer_id p) (fun k p did =>
          (unreported p = true ∨ Peer_status p = "deleted") ∧ Peer_device_id p = did)), Hp, Hone.
      destruct (unreported p), (bool_decide_reflect (Peer_status p = "deleted")); cbn [orb];
        rewrite ?elem_of_union, ?elem_of_singleton, Hrel; intuition congruence. }
  destruct (unreported p) eqn:Eun; cbv beta iota.
  - cbn [peers update_peer]. simpl. rewrite lookup_insert_eq. simpl.
    apply Hupto; simpl; [|done..]. by rewrite Hr.
  - rewrite Hpid. destruct (bool_decide_reflect (Peer_status p = "deleted")); apply Hupto; try done;
      by rewrite insert_id.
Qed.

Lemma confirm_removed_upto owners0 ids :
  NoDup ids → confirmed_upto owners0 ids (foldl (confirm_removed seen) ((owners0, ∅), d) ids).
Proof.
  induction ids as [|pid ids IH] using rev_ind; intros Hnd.
  - split; simpl; [by destruct d| | |]; intros x.
    + by destruct (peers d !! x).
    + setoid_rewrite elem_of_nil. naive_solver.
    + setoid_rewrite elem_of_nil. rewrite elem_of_empty. naive_solver.
  - rewrite foldl_app. apply NoDup_app in Hnd as (H1 & H2 & H3).
    apply confirm_removed_step; [|by apply IH]. intros Hin. by apply (H2 pid Hin), list_elem_of_singleton.
Qed.
End confirm.

(** ** Properties *)

(** C12: an operation runs once and ends once. From a freshly created row, after any sequence of
    requests about any operations, the row still carries the same command; it is [queued] and
    unstarted, or [running] on its single attempt, or in a final status with its finishing time and
    an error exactly when it did not succeed. Once it is in a final status no later request, however
    late or duplicated, changes it. *)
Theorem operation_state_machine `{Env} d d' id o :
  ops_wf d → operations d !! id = Some o →
  Op_status o = "queued" → Op_attempts o = 0%Z → Op_finished_at o = None →
  rtc call_step d d' →
  ∃ o', operations d' !! id = Some o' ∧ same_command o o' ∧ op_phase o' ∧
    (Op_status o' ∈ FINAL_OPERATION_STATUSES →
     ∀ d'', rtc call_step d' d'' → operations d'' !! id = Some o').
Proof.
  intros Hwf Ho Hst Hat Hfi Hsteps.
  assert (∀ d', rtc call_step d d' → ops_wf d' ∧
    ∃ o', operations d' !! id = Some o' ∧ same_command o o' ∧ op_phase o') as Hreach.
  { apply rtc_ind_r.
    - split; [done|]. exists o. split_and!; [done..|]. by left.
    - intros d1 d2 _ Hstep (Hwf1 & o1 & Ho1 & Hs1 & Hp1).
      destruct (call_step_row _ _ _ _ Hstep Hwf1 Ho1) as (Hwf2 & o2 & Ho2 & [->|Ht]);
        (split; [done|]); [by eauto|]. exists o2.
      destruct (op_transition_phase _ _ Hp1 Ht) as (Hp2 & Hs2 & _). split_and!; [done| |done].
      destruct Hs1 as (?&?&?&?&?&?), Hs2 as (?&?&?&?&?&?). split_and!; congruence. }
  destruct (Hreach d' Hsteps) as (Hwf' & o' & Ho' & Hs' & Hp'). exists o'. split_and!; [done..|].
  intros Hfinal. apply rtc_ind_r; [done|]. intros d1 d2 Hd1 Hstep Ho1.
  destruct (Hreach d1) as (Hwf1 & _); [by etrans|].
  destruct (call_step_row _ _ _ _ Hstep Hwf1 Ho1) as (_ & o2 & Ho2 & [->|Ht]); [done|].
  by destruct (op_transition_phase _ _ Hp' Ht) as (_ & _ & Hn).
Qed.

Lemma operation_state_machine_witness :
  let d := sample_db <| operations := {["op" := sample_operation <| Op_id := "op" |>]} |> in
  ∃ o', operations (persisted (run_call (CallStart "op") (start d 0))) !! "op" = Some o' ∧
    op_phase o'.
Proof.
  intros d.
  destruct (operation_state_machine d (persisted (run_call (CallStart "op") (start d 0))) "op"
    (sample_operation <| Op_id := "op" |>)) as (o' & H1 & _ & H2 & _).
  - intros k o. unfold d. simpl. intros [<- <-]%lookup_singleton_Some. reflexivity.
  - reflexivity.
  - reflexivity.
  - reflexivity.
  - reflexivity.
  - apply rtc_once. by eexists _, 0.
  - by exists o'.
Defined.

(** Heartbeats are coalesced, but a row never lags more than a minute behind. A heartbeat sets the
    reachability, the health and the error it reports; when these are what the row says already and
    the recorded instant is less than a minute old, the row is not written at all; otherwise it
    records the instant, as [last_seen_at] too when the node answered. Either way the instant it
    records is less than a minute old, a heartbeat that changed something is recorded at its own
    instant, and no other column changes. *)
Lemma heartbeat_coalescing node data t :
  let node' := apply_node_heartbeat_result node data t in
  let unchanged := Node_reachability_status node' = Node_reachability_status node ∧
    Node_health_status node' = Node_health_status node ∧
    Node_last_heartbeat_error node' = Node_last_heartbeat_error node in
  Node_reachability_status node' = (if HR_ok data then "reachable" else "unreachable") ∧
  Node_health_status node' = (if HR_ok data then "online" else "offline") ∧
  (Node_last_heartbeat_error node' = None ↔ HR_ok data = true) ∧
  (∃ h, Node_last_heartbeat_at node' = Some h ∧ (instant t - instant h < seconds 60)%Z) ∧
  (¬ unchanged → Node_last_heartbeat_at node' = Some t) ∧
  (Node_last_heartbeat_at node' = Node_last_heartbeat_at node ∧
     Node_last_seen_at node' = Node_last_seen_at node ∧ (unchanged → node' = node) ∨
   Node_last_heartbeat_at node' = Some t ∧
     Node_last_seen_at node' = (if HR_ok data then Some t else Node_last_seen_at node)) ∧
  node' <| Node_reachability_status := Node_reachability_status node |>
    <| Node_health_status := Node_health_status node |>
    <| Node_last_heartbeat_error := Node_last_heartbeat_error node |>
    <| Node_last_heartbeat_at := Node_last_heartbeat_at node |>
    <| Node_last_seen_at := Node_last_seen_at node |> = node.
Proof.
  assert (∀ x, instant (aware_value x) = instant x) as Haw.
  { intros [w [o|]]; unfold aware_value, instant; simpl; lia. }
  intros node' unchanged. subst node' unchanged. unfold apply_node_heartbeat_result. cbv zeta.
  set (err := if HR_ok data then None else _).
  assert (err = None ↔ HR_ok data = true) as Herr.
  { unfold err. by destruct (HR_ok data). }
  match goal with |- context [(?b || heartbeat_timestamp_due node t)%bool] => set (changed := b) end.
  assert (changed = false ↔ Node_reachability_status node = (if HR_ok data then "reachable" else "unreachable") ∧
    Node_health_status node = (if HR_ok data then "online" else "offline") ∧
    Node_last_heartbeat_error node = err) as Hch.
  { unfold changed. rewrite !orb_false_iff, !negb_false_iff, !bool_decide_eq_true. tauto. }
  assert (heartbeat_timestamp_due node t = false → ∃ h, Node_last_heartbeat_at node = Some h ∧
    (instant t - instant h < seconds 60)%Z) as Hdue.
  { unfold heartbeat_timestamp_due. destruct (Node_last_heartbeat_at node) as [h|]; [|done].
    rewrite Z.leb_gt, Haw. eauto. }
  assert (0 < seconds 60)%Z as H60 by (unfold seconds; lia).
  destruct changed; [|destruct Hch as [Hch _]; specialize (Hch eq_refl) as (E1 & E2 & E3);
    destruct (heartbeat_timestamp_due node t) eqn:Et]; cbn [orb].
  - split_and!; try (by destruct (HR_ok data)); try exact Herr.
    + exists t. split; [by destruct (HR_ok data)|lia].
    + right. by destruct (HR_ok data).
    + by destruct node, (HR_ok data).
  - split_and!; try (by destruct (HR_ok data)); try exact Herr.
    + exists t. split; [by destruct (HR_ok data)|lia].
    + right. by destruct (HR_ok data).
    + by destruct node, (HR_ok data).
  - rewrite <- E1, <- E2, <- E3. rewrite <- E3 in Herr. split_and!; try done.
    + by apply Hdue.
    + intros Hn. by exfalso; apply Hn.
    + left. split_and!; [done..|]. intros _. by destruct node.
    + by destruct node.
Qed.

(** A node's sync confirms exactly the removals it no longer reports. Over the peers of the node
    (each once), a peer waiting for removal whose device key is not among the reported keys becomes
    [deleted], every other peer row and every other table stays as it is, and the invariants hold;
    the owners announced are those acknowledged before and those of the confirmed peers; and the
    devices whose address may now be released are exactly those of a peer of the node that is
    [deleted] after the pass. *)
Lemma sync_confirms_unreported d ids seen acknowledged :
  db_inv d → NoDup ids →
  let '((owners, released), d') := foldl (confirm_removed seen) ((acknowledged, ∅), d) ids in
  db_inv d' ∧ d' = d <| peers := peers d' |> ∧
  (∀ k p, peers d !! k = Some p →
     (k ∈ ids → Peer_status p = "pending_delete" →
      (∀ v key, devices d !! Peer_device_id p = Some v → Device_public_key v = Some key → key ∉ seen) →
      peers d' !! k = Some (p <| Peer_status := "deleted" |>) ∧ Peer_user_id p ∈ owners) ∧
     (k ∉ ids ∨ Peer_status p ≠ "pending_delete" ∨
      (∃ v key, devices d !! Peer_device_id p = Some v ∧ Device_public_key v = Some key ∧ key ∈ seen) →
      peers d' !! k = Some p)) ∧
  (∀ u, u ∈ acknowledged → u ∈ owners) ∧
  (∀ did, did ∈ released ↔ ∃ k p, k ∈ ids ∧ peers d' !! k = Some p ∧ Peer_status p = "deleted" ∧
     Peer_device_id p = did).
Proof.
  intros Hd Hnd. pose proof (confirm_removed_upto d Hd seen acknowledged ids Hnd) as Hu.
  assert (db_inv (foldl (confirm_removed seen) ((acknowledged, ∅), d) ids).2) as Hinv.
  { apply (foldl_invariant (fun acc => db_inv acc.2)); [done|]. intros. by apply confirm_removed_inv. }
  destruct (foldl _ _ _) as [[owners released] d']. destruct Hu as [H1 H2 H3 H4]. cbn [fst snd] in *.
  assert (∀ p, unreported d seen p = true ↔ Peer_status p = "pending_delete" ∧
    ∀ v key, devices d !! Peer_device_id p = Some v → Device_public_key v = Some key → key ∉ seen) as Hun.
  { intros p. unfold unreported. rewrite andb_true_iff, bool_decide_eq_true, negb_true_iff.
    apply and_iff_compat_l. destruct (devices d !! Peer_device_id p) as [v|]; simpl; [|naive_solver].
    destruct (Device_public_key v) as [key|] eqn:E; [rewrite bool_decide_eq_false|]; naive_solver. }
  split_and!; [done..| | |].
  - intros k p Hp. specialize (H2 k). rewrite Hp in H2. simpl in H2. split.
    + intros Hk Hst Hseen. assert (unreported d seen p = true) as E by by apply Hun.
      rewrite bool_decide_eq_true_2, E in H2 by done. split; [done|]. apply H3. eauto 8.
    + intros Hno. rewrite H2. destruct (bool_decide_reflect (k ∈ ids)) as [Hk|Hk]; [|done].
      destruct (unreported d seen p) eqn:E; [|done]. apply Hun in E as [E1 E2]. naive_solver.
  - intros u Hin. apply H3. by left.
  - intros did. rewrite H4. split.
    + intros (k & p & Hk & Hp & Hst & Hdid). exists k.
      specialize (H2 k). rewrite Hp in H2. simpl in H2. rewrite bool_decide_eq_true_2 in H2 by done.
      cbn [andb] in H2. eexists. split_and!; [done|exact H2|..]; destruct (unreported d seen p); try done.
      by destruct Hst.
    + intros (k & p' & Hk & Hp' & Hst & Hdid). specialize (H2 k). rewrite Hp' in H2.
      destruct (peers d !! k) as [p|] eqn:Hp; [|done]. simpl in H2.
      rewrite bool_decide_eq_true_2 in H2 by done. cbn [andb] in H2. injection H2 as ->.
      exists k, p. split_and!; [done..| |]; destruct (unreported d seen p); try done; by left + by right.
Qed.

Lemma sync_confirms_unreported_witness :
  db_inv sample_db ∧ NoDup ["p"; "r"] ∧
  let '((owners, released), d') := foldl (confirm_removed []) ((∅, ∅), sample_db) ["p"; "r"] in
  ∀ did, did ∈ released ↔ ∃ k p, k ∈ ["p"; "r"] ∧ peers d' !! k = Some p ∧
    Peer_status p = "deleted" ∧ Peer_device_id p = did.
Proof.
  assert (NoDup ["p"; "r"]) as Hnd by (by apply (bool_decide_eq_true_1 (NoDup ["p"; "r"]))).
  pose proof (sync_confirms_unreported sample_db ["p"; "r"] [] ∅ sample_db_inv Hnd) as H.
  destruct (foldl _ _ _) as [[owners released] d']. split_and!; [exact sample_db_inv|exact Hnd|apply H].
Defined.
