(* ===== verification/WorkerRemnawave.v ===== *)
(** * The worker-facing API: Remnawave

    [panel/backend/app/routers/internal_worker_parts/remnawave.py]: what the worker reads about the
    Remnawave integration, and the three reports it makes - a batch of profiles, a deleted remote
    user, the end of a full reconcile. *)
From S2P Require Import Prelude PyStr Json Bytes Models Session Sample Secrets Accounts Crypto.
From S2P Require Import AccountPolicy Devices Lifecycle Jobs NodeSync RemnawaveSync WorkerApi.

Definition worker_error_detail (context : string) (exc : exn) (class_name : string) : string :=
  let message := strip (exn_text exc) in
  context +:+ ": " +:+ (if truthy_str message then message else class_name).

(** What the worker learns about a batch. *)
Record UpsertReport := mkUpsertReport {
  upserted : list string;
  affected_node_ids : list string;
  remote_disable_uuids : list string }.

(** [RemnawaveUser(user_id=..., remnawave_uuid=..., username=..., status=...)] with the defaults of
    the mapping. *)
Definition new_rw_row (id user_id : string) (item : RemnawaveUserIn) (t : datetime) : RemnawaveUser :=
  {| Rw_id := id; Rw_user_id := user_id; Rw_remnawave_uuid := RU_uuid item; Rw_remnawave_id := None;
     Rw_short_uuid := None; Rw_username := RU_username item; Rw_status := RU_status item;
     Rw_expire_at := None; Rw_email := None; Rw_tag := None; Rw_telegram_id := None;
     Rw_description := None; Rw_traffic_limit_bytes := 0; Rw_traffic_limit_strategy := "NO_RESET";
     Rw_traffic_used_bytes := 0; Rw_lifetime_used_traffic_bytes := 0;
     Rw_last_traffic_reset_at := None; Rw_online_at := None; Rw_first_connected_at := None;
     Rw_last_connected_node_uuid := None; Rw_hwid_device_limit := None;
     Rw_external_squad_uuid := None; Rw_active_internal_squads_json := None;
     Rw_subscription_url_encrypted := None; Rw_last_seen_at := None; Rw_last_synced_at := None;
     Rw_sync_status := "synced"; Rw_sync_reason := None; Rw_sync_error := None;
     Rw_delete_requested_at := None; Rw_created_at := t; Rw_updated_at := t |}.

Definition rw_by_uuid (d : db) (uuid : string) : outcome (option RemnawaveUser) :=
  one_or_none (select (fun r => Rw_remnawave_uuid r == uuid) (rw_users d)).

(** The loop of [mark_remnawave_user_deleted] over the peers of the account. *)
Definition request_removal (acc : gset string * db) (peer : Peer) : gset string * db :=
  if Peer_status peer != "deleted"
  then ({[Peer_node_id peer]} ∪ acc.1, update_peer (peer <| Peer_status := "pending_delete" |>) acc.2)
  else acc.

Definition delete_requested_rows (requested_at : datetime) (row : RemnawaveUser) (d : db)
    : gset string * db :=
  let d := update_rw (row <| Rw_delete_requested_at :=
                               Some (default requested_at (Rw_delete_requested_at row)) |>
                          <| Rw_sync_status := "missing" |>
                          <| Rw_sync_reason := Some "delete requested" |>) d in
  let d := match users d !! Rw_user_id row with
           | Some user => update_user (user <| User_is_blocked := true |>) d
           | None => d
           end in
  foldl request_removal (∅, d) (peers_of_user d (Rw_user_id row)).

Section with_env.
Context `{Env}.

(** ** The settings row, created with its defaults - and committed - when there is none *)
Definition get_rw_settings : M RemnawaveSettings :=
  let* row := reads (fun d => one_or_none (rw_settings d)) in
  let* row := lift row in
  match row with
  | Some row => retM row
  | None =>
      let* id := new_uuid in
      let* t := now in
      let row := mkRemnawaveSettings id None false false 300 None None None None None None None t t in
      do* modify (fun d => d <| rw_settings := rw_settings d ++ [row] |>) in
      do* commit in
      retM row
  end.
Definition put_rw_settings (row : RemnawaveSettings) : M unit :=
  modify (fun d => d <| rw_settings :=
    (fun r => if RwSettings_id r == RwSettings_id row then row else r) <$> rw_settings d |>).

Definition get_remnawave_config `{Vault} : M (option string * option string * bool) :=
  let* settings := get_rw_settings in
  let* api_token := lift (if truthy (RwSettings_api_token settings)
                          then RemnawaveCrypto.decrypt (RwSettings_api_token settings)
                          else Ok None) in
  retM (RwSettings_base_url settings, api_token, RwSettings_enabled settings).

(** [enabled] and [due]. *)
Definition get_remnawave_polling_state : M (bool * bool) :=
  let* settings := get_rw_settings in
  if negb (RwSettings_enabled settings) || negb (RwSettings_polling_enabled settings)
  then retM (false, false)
  else
    match aware (RwSettings_last_synced_at settings) with
    | None => retM (true, true)
    | Some last_synced_at =>
        let* t := now in
        retM (true, (seconds (RwSettings_polling_interval_seconds settings)
                       <=? instant t - instant last_synced_at)%Z)
    end.

(** ** A batch of profiles *)

(** Writing a row the session holds; a row that is gone by the flush raises. *)
Definition modify_rw (id : string) (f : RemnawaveUser → RemnawaveUser) : M RemnawaveUser :=
  let* row := reads (fun d => rw_users d !! id) in
  match row with
  | Some row => do* modify (update_rw (f row)) in retM (f row)
  | None => raise (RuntimeError "stale row")
  end.
Definition upsert_one (acc : gset string * gset string) (item : RemnawaveUserIn)
    : M (gset string * gset string) :=
  let* row := reads (fun d => rw_by_uuid d (RU_uuid item)) in
  let* row := lift row in
  let* stored :=
    match row with
    | None =>
        let* t := now in
        let* created := create_remnawave_local_user (RU_username item) (RU_short_uuid item)
                          (remnawave_blocked t (RU_status item) (RU_expire_at item)) in
        let* id := new_uuid in
        let* t := now in
        let row := new_rw_row id (User_id created.1) item t in
        do* insert_rw row in
        retM (row, created.2)
    | Some row =>
        let* affected := apply_remnawave_lifecycle row item in
        retM (row, affected)
    end in
  let '(row, affected) := stored in
  let* t := now in
  let* row := modify_rw (Rw_id row) (apply_remnawave_profile t item) in
  let* limited := transact (enforce_remnawave_combined_limit row) in
  retM (acc.1 ∪ affected ∪ limited.1, acc.2 ∪ limited.2).

Definition upsert_batch (data : list RemnawaveUserIn) : M UpsertReport :=
  let* sets := for_fold upsert_one (∅, ∅) data in
  do* commit in
  do* enqueue_sync_nodes sets.1 in
  do* enqueue_remnawave_disable_users sets.2 in
  retM (mkUpsertReport (RU_uuid <$> data) (sorted_strings (elements sets.1))
          (sorted_strings (elements sets.2))).

(** [exc.__class__.__name__]. *)
Definition class_name (exc : exn) : string :=
  match exc with
  | HTTPException _ _ => "HTTPException"
  | ValueError _ => "ValueError"
  | TypeError _ => "TypeError"
  | RuntimeError _ => "RuntimeError"
  | KeyError _ => "KeyError"
  | IntegrityError _ => "IntegrityError"
  | MultipleResultsFound => "MultipleResultsFound"
  | AccountInactiveError _ _ => "AccountInactiveError"
  | DeviceLimitExceededError _ _ => "DeviceLimitExceededError"
  | DeviceIpAllocationError _ => "DeviceIpAllocationError"
  | DeviceIpPoolExhaustedError _ => "DeviceIpPoolExhaustedError"
  | SubscriptionLimitExceededError _ => "SubscriptionLimitExceededError"
  | EventStreamsStoppedError => "EventStreamsStoppedError"
  | BrokerError _ => "AMQPError"
  | StructError _ => "error"
  | JSONDecodeError _ => "JSONDecodeError"
  | UnicodeDecodeError _ => "UnicodeDecodeError"
  | DBAPIError _ => "DBAPIError"
  | RequestError _ => "RequestError"
  | HTTPStatusError _ _ _ _ => "HTTPStatusError"
  | FileNotFoundError _ => "FileNotFoundError"
  | TimeoutExpired _ => "TimeoutExpired"
  | AttributeError _ => "AttributeError"
  | OverflowError _ => "OverflowError"
  | CalledProcessError _ _ _ => "CalledProcessError"
  | SupervisorCommandError _ _ => "SupervisorCommandError"
  | SupervisorTimeoutError _ => "SupervisorTimeoutError"
  | InvalidTokenError _ => "InvalidTokenError"
  | InvalidToken => "InvalidToken"
  end.

Definition upsert_remnawave_users (data : list RemnawaveUserIn) : M UpsertReport :=
  try_except (upsert_batch data) (fun exc =>
    do* rollback in
    raise (HTTPException 500
             (worker_error_detail "Remnawave users upsert failed" exc (class_name exc)))).

(** ** A deleted remote user *)
Definition mark_remnawave_user_deleted (user_uuid : string) : M (string * list string) :=
  let* row := reads (fun d => rw_by_uuid d user_uuid) in
  let* row := lift row in
  match row with
  | None => retM ("not_found", [])
  | Some row =>
      let* t := now in
      let* affected := transact (delete_requested_rows t row) in
      do* commit in
      do* enqueue_sync_nodes affected in
      retM ("delete_requested", sorted_strings (elements affected))
  end.

(** ** The end of a full reconcile *)
Definition remnawave_reconcile_complete (seen_uuids : list string) : M (Z * list string) :=
  let* settings := get_rw_settings in
  let* affected := transact (reconcile_missing_remnawave_users (list_to_set seen_uuids)
                               "remote user missing") in
  let* t := now in
  do* put_rw_settings (settings <| RwSettings_last_synced_at := Some t |>) in
  let* purged := transact purge_confirmed_remnawave_deletes in
  do* commit in
  do* enqueue_sync_nodes affected in
  retM (purged, sorted_strings (elements affected)).
End with_env.

(** ** The invariants *)
Lemma request_removal_inv d uid :
  db_inv d → db_inv (foldl request_removal (∅, d) (peers_of_user d uid)).2.
Proof.
  intros Hd.
  apply (foldl_invariant (fun acc => db_inv acc.2 ∧ devices acc.2 = devices d ∧
    ∀ p, p ∈ peers_of_user d uid → ∃ p', peers acc.2 !! Peer_id p = Some p' ∧ same_peer p' p)).
  - split_and!; [done..|]. intros p Hp. apply elem_of_peers_of_user in Hp as [[k Hk] _].
    exists p. split; [|done]. by rewrite (wf_peer_id _ (proj1 Hd) _ _ Hk).
  - intros acc p Hp (Hi & Hdv & Hq). unfold request_removal.
    destruct (Peer_status p != "deleted"); [|done]. cbn [snd].
    destruct (Hq p Hp) as (p' & Hp' & Hs). split_and!; [|done|].
    + apply (update_peer_inv _ p'); [done|done|by destruct Hs as (?&?&?&?)|]. simpl. literal_in.
    + intros q Hq'. simpl. rewrite lookup_insert. simpl. case_decide as Eid; [|by apply Hq].
      eexists. split; [done|]. destruct (Hq q Hq') as (q' & Hq1 & Hq2).
      rewrite <- Eid, Hp' in Hq1. injection Hq1 as <-.
      destruct Hs as (H1 & H2 & H3 & H4), Hq2 as (H5 & H6 & H7 & H8).
      split_and!; simpl; congruence.
Qed.

Lemma delete_requested_rows_inv t row d :
  db_inv d → rw_users d !! Rw_id row = Some row → db_inv (delete_requested_rows t row d).2.
Proof.
  intros Hd Hr. unfold delete_requested_rows. cbv zeta. apply request_removal_inv, block_user_inv.
  by apply (update_rw_inv _ row).
Qed.

Section invariants.
Context `{EnvLaws}.

Lemma get_rw_settings_inv : inv_kept get_rw_settings.
Proof. unfold get_rw_settings, new_uuid, now. session_steps. by apply holds_core. Qed.

Lemma modify_rw_inv id f :
  (∀ r, Rw_id (f r) = Rw_id r ∧ Rw_user_id (f r) = Rw_user_id r) → inv_kept (modify_rw id f).
Proof.
  intros Hf. apply preserves_bind_reads. intros s [Hw Hc].
  destruct (rw_users (work s) !! id) as [r|] eqn:E; [|done]. rewrite bind_run. simpl.
  split; [|done]. destruct (Hf r). apply (update_rw_inv _ r); [done| |done..].
  by rewrite (wf_rw_id _ (proj1 Hw) _ _ E).
Qed.

Lemma upsert_one_inv acc item : inv_kept (upsert_one acc item).
Proof.
  unfold upsert_one, new_uuid, now. session_steps.
  - by apply modify_rw_inv.
  - apply holds_transact. intros d. apply enforce_remnawave_combined_limit_inv.
Qed.

Lemma upsert_remnawave_users_inv data : inv_kept (upsert_remnawave_users data).
Proof.
  apply preserves_try; [|intros e; session_steps]. unfold upsert_batch. session_steps.
  apply preserves_for_fold. intros. apply upsert_one_inv.
Qed.

Lemma mark_remnawave_user_deleted_inv uuid : inv_kept (mark_remnawave_user_deleted uuid).
Proof.
  apply preserves_bind_reads. intros s Hs. unfold lift. rewrite bind_run.
  destruct (rw_by_uuid (work s) uuid) as [[row|]|e] eqn:E; [|done..].
  rewrite bind_run. unfold now, draw. rewrite bind_run. unfold transact at 1. simpl.
  assert (rw_users (work s) !! Rw_id row = Some row) as Hrow.
  { unfold rw_by_uuid, one_or_none in E. destruct (select _ _) as [|x []] eqn:Es; [done| |done].
    injection E as ->. assert (row ∈ [row]) as Hin by by left. rewrite <- Es in Hin.
    apply elem_of_select in Hin as [[k Hk] _].
    by rewrite (wf_rw_id _ (proj1 (proj1 Hs)) _ _ Hk). }
  pose proof (delete_requested_rows_inv (utc (clock (draws s))) row _ (proj1 Hs) Hrow) as Hd.
  destruct (delete_requested_rows _ row (work s)) as [aff d']. simpl in Hd.
  apply (preserves_bind (holds db_inv)); [apply holds_commit|intros []|by split; [|apply Hs]].
  session_steps.
Qed.

Lemma remnawave_reconcile_complete_inv seen : inv_kept (remnawave_reconcile_complete seen).
Proof.
  apply preserves_bind; [apply get_rw_settings_inv|intros settings]. unfold now. session_steps.
  - apply holds_transact. intros d. apply reconcile_missing_inv.
  - by apply holds_core.
  - apply holds_transact. apply purge_inv.
Qed.
End invariants.

(** ** Environments without other sessions *)
Class Quiet `{Env} : Prop := {
  quiet_concurrent : ∀ n d, concurrent n d = d;
  quiet_raced : ∀ n d, raced n d = d }.
#[export] Instance sample_quiet : Quiet (H := sample_env).
Proof. done. Qed.

(** While nothing is committed, the committed tables are [d] and nothing left the process. *)
Section uncommitted.
Context `{Quiet} (d : db).
Definition uncommitted (s : session) : Prop := committed s = d ∧ trace s = [].

Lemma uncommitted_modify f : preserves uncommitted (modify f).
Proof. by intros s. Qed.
Lemma uncommitted_transact {A} (f : db → A * db) : preserves uncommitted (transact f).
Proof. intros s Hs. unfold transact. by destruct (f (work s)). Qed.
Lemma uncommitted_draw {A} (f : nat → A) : preserves uncommitted (draw f).
Proof. by intros s. Qed.
Lemma uncommitted_race : preserves uncommitted race.
Proof. intros s [Hs Ht]. split; [|done]. simpl. by rewrite quiet_raced. Qed.
Lemma uncommitted_savepoint {A} (m : M A) :
  preserves uncommitted m → preserves uncommitted (savepoint m).
Proof. intros Hm s Hs. unfold savepoint. specialize (Hm s Hs). by destruct (m s) as [[a|e] s']. Qed.
#[local] Hint Resolve uncommitted_modify uncommitted_transact uncommitted_draw uncommitted_race
  uncommitted_savepoint : preserves.

Lemma upsert_one_uncommitted acc item : preserves uncommitted (upsert_one acc item).
Proof.
  assert (∀ nid v, preserves uncommitted (create_pending_peer nid v)) as Hpeer.
  { intros nid v. unfold create_pending_peer, generate_psk, new_uuid, now, insert_peer.
    session_steps; apply preserves_try; intros; session_steps; apply uncommitted_savepoint;
      session_steps. }
  assert (∀ uid, preserves uncommitted (restore_missing_peers_for_user uid)) as Hrestore.
  { intros uid. unfold restore_missing_peers_for_user, create_pending_peers_for_device.
    session_steps. apply preserves_for_fold. intros b v _. session_steps. }
  unfold upsert_one, modify_rw, apply_remnawave_lifecycle, insert_rw, create_remnawave_local_user,
    resolve_remnawave_username, insert_user, new_user, new_uuid, now.
  session_steps; apply Hrestore.
Qed.
End uncommitted.

(** The profile rows carry their keys, and one of them is of the remote user [uuid]. *)
Definition rw_keys (d : db) : Prop := ∀ k r, rw_users d !! k = Some r → Rw_id r = k.
Definition has_profile (uuid : string) (d : db) : Prop :=
  rw_keys d ∧ ∃ k row, rw_users d !! k = Some row ∧ Rw_remnawave_uuid row = uuid.

Lemma rw_keys_update r d : rw_keys d → rw_keys (update_rw r d).
Proof.
  intros Hd k x. simpl. rewrite lookup_insert. destruct (decide (Rw_id r = k)); [|by apply Hd].
  by intros [= <-].
Qed.
Lemma has_profile_update uuid r d :
  (∀ r0, rw_users d !! Rw_id r = Some r0 → Rw_remnawave_uuid r0 = Rw_remnawave_uuid r) →
  has_profile uuid d → has_profile uuid (update_rw r d).
Proof.
  intros Hr [Hkeys (k & row & Hk & Hu)]. split; [by apply rw_keys_update|]. exists k. simpl.
  rewrite lookup_insert. destruct (decide (Rw_id r = k)) as [<-|_]; [|by exists row].
  exists r. split; [done|]. by rewrite <- (Hr _ Hk).
Qed.

Lemma fold_rw_users {A} (f : gset string * db → A → gset string * db) xs s0 d :
  (∀ acc x, rw_users (f acc x).2 = rw_users acc.2) → rw_users (foldl f (s0, d) xs).2 = rw_users d.
Proof.
  intros Hf. apply (foldl_invariant (fun acc => rw_users acc.2 = rw_users d)); [done|].
  intros acc x _ <-. apply Hf.
Qed.
Lemma remnawave_lifecycle_rows_rw b u d :
  rw_users (remnawave_lifecycle_rows b u d).2 = rw_users d.
Proof.
  unfold remnawave_lifecycle_rows. cbv zeta. rewrite fold_rw_users; [done|].
  intros acc x. unfold lifecycle_peer. by repeat case_match.
Qed.
Lemma enforce_remnawave_combined_limit_rw row d :
  rw_users (enforce_remnawave_combined_limit row d).2 = rw_users d.
Proof.
  unfold enforce_remnawave_combined_limit. case_match; [done|].
  set (d1 := match users d !! _ with Some _ => _ | None => d end).
  assert (rw_users d1 = rw_users d) as <- by (unfold d1; by case_match).
  rewrite <- (fold_rw_users block_peer (peers_of_user d1 (Rw_user_id row)) ∅ d1).
  - by destruct (foldl _ _ _).
  - intros acc x. unfold block_peer. by case_match.
Qed.

Section profiles.
Context `{Quiet} (P : db → Prop).
Context (HP : ∀ d d', rw_users d' = rw_users d → P d → P d').

Definition in_view (s : session) : Prop := P (work s).
Lemma in_view_modify f : (∀ d, rw_users (f d) = rw_users d) → preserves in_view (modify f).
Proof. intros Hf s. unfold in_view. simpl. by apply HP. Qed.
Lemma in_view_transact {A} (f : db → A * db) :
  (∀ d, rw_users (f d).2 = rw_users d) → preserves in_view (transact f).
Proof.
  intros Hf s. unfold in_view, transact. specialize (Hf (work s)).
  destruct (f (work s)). simpl in *. by apply HP.
Qed.
Lemma in_view_draw {A} (f : nat → A) : preserves in_view (draw f).
Proof. by intros s. Qed.
Lemma in_view_race : preserves in_view race.
Proof. intros s Hs. unfold in_view. simpl. by rewrite quiet_raced. Qed.
Lemma in_view_savepoint {A} (m : M A) : preserves in_view m → preserves in_view (savepoint m).
Proof. intros Hm s Hs. unfold savepoint. specialize (Hm s Hs). by destruct (m s) as [[a|e] s']. Qed.
#[local] Hint Resolve in_view_modify in_view_transact in_view_draw in_view_race in_view_savepoint
  : preserves.

Lemma apply_remnawave_lifecycle_in_view row item :
  preserves in_view (apply_remnawave_lifecycle row item).
Proof.
  assert (∀ nid v, preserves in_view (create_pending_peer nid v)) as Hpeer.
  { intros nid v. unfold create_pending_peer, generate_psk, new_uuid, now, insert_peer.
    session_steps; apply preserves_try; intros; session_steps; apply in_view_savepoint;
      session_steps. }
  assert (∀ uid, preserves in_view (restore_missing_peers_for_user uid)) as Hrestore.
  { intros uid. unfold restore_missing_peers_for_user, create_pending_peers_for_device.
    session_steps. apply preserves_for_fold. intros b v _. session_steps. }
  unfold apply_remnawave_lifecycle, now. session_steps.
  apply in_view_transact. intros d. apply remnawave_lifecycle_rows_rw.
Qed.
Lemma create_remnawave_local_user_in_view name short b :
  preserves in_view (create_remnawave_local_user name short b).
Proof.
  unfold create_remnawave_local_user, resolve_remnawave_username, insert_user, new_user, new_uuid,
    now. session_steps.
Qed.
End profiles.

Section upsert.
Context `{Quiet}.

Lemma hoare_of_preserves {A} (I : session → Prop) (m : M A) :
  preserves I m → hoare I m (fun _ => I) (fun _ _ => True).
Proof. intros Hm s Hs. specialize (Hm s Hs). by destruct (m s) as [[]]. Qed.

Lemma modify_rw_profile uuid id f :
  (∀ r, Rw_id (f r) = Rw_id r ∧ Rw_remnawave_uuid (f r) = Rw_remnawave_uuid r) →
  preserves (in_view (has_profile uuid)) (modify_rw id f).
Proof.
  intros Hf. apply preserves_bind_reads. intros s Hs.
  destruct (rw_users (work s) !! id) as [r|] eqn:E; [|done]. rewrite bind_run.
  apply has_profile_update; [|done]. intros r0. destruct (Hf r) as [-> ->].
  rewrite (proj1 Hs _ _ E), E. by intros [= <-].
Qed.

Lemma has_profile_view uuid d d' :
  rw_users d' = rw_users d → has_profile uuid d → has_profile uuid d'.
Proof. unfold has_profile, rw_keys. by intros ->. Qed.
Lemma rw_keys_view d d' : rw_users d' = rw_users d → rw_keys d → rw_keys d'.
Proof. unfold rw_keys. by intros ->. Qed.

Lemma insert_rw_profile uuid row :
  preserves (in_view (has_profile uuid)) (insert_rw row) ∧
  hoare (in_view rw_keys) (insert_rw row) (fun _ => in_view (has_profile (Rw_remnawave_uuid row)))
    (fun _ _ => True).
Proof.
  split.
  - apply preserves_bind; [apply in_view_race|intros _]. apply preserves_bind_reads.
    intros s Hs. destruct (rw_violation (work s) row) eqn:E; [done|].
    apply has_profile_update; [|done]. intros r0 Hr0. unfold rw_violation in E.
    rewrite Hr0, bool_decide_eq_true_2 in E by eauto. done.
  - eapply hoare_bind; [apply (hoare_of_preserves (in_view rw_keys)), in_view_race|intros []].
    intros s Hs. rewrite bind_run. unfold reads at 1.
    destruct (rw_violation (work s) row) eqn:E; [done|]. split; [by apply rw_keys_update|].
    exists (Rw_id row), row. simpl. by rewrite lookup_insert_eq.
Qed.

(** The second half of an item: the profile is written and the limit enforced. *)
Definition finish_item (acc : gset string * gset string) (item : RemnawaveUserIn)
    (stored : RemnawaveUser * gset string) : M (gset string * gset string) :=
  let '(row, affected) := stored in
  let* t := now in
  let* row := modify_rw (Rw_id row) (apply_remnawave_profile t item) in
  let* limited := transact (enforce_remnawave_combined_limit row) in
  retM (acc.1 ∪ affected ∪ limited.1, acc.2 ∪ limited.2).

Lemma finish_item_profile uuid acc item stored :
  preserves (in_view (has_profile uuid)) (finish_item acc item stored).
Proof.
  destruct stored as [row affected]. unfold finish_item, now.
  apply preserves_bind; [apply in_view_draw|intros t].
  apply preserves_bind; [by apply modify_rw_profile|intros r].
  apply preserves_bind; [|intros l; apply preserves_ret].
  apply in_view_transact; [apply has_profile_view|]. apply enforce_remnawave_combined_limit_rw.
Qed.

Lemma upsert_one_profile uuid acc item :
  preserves (in_view (has_profile uuid)) (upsert_one acc item).
Proof.
  unfold upsert_one. apply preserves_bind; [apply preserves_reads|intros o].
  apply preserves_bind; [apply preserves_lift|intros row].
  apply preserves_bind; [|intros stored; apply finish_item_profile].
  pose proof (has_profile_view uuid) as Hview. unfold new_uuid, now.
  destruct row as [row|].
  - apply preserves_bind; [by apply apply_remnawave_lifecycle_in_view|intros; apply preserves_ret].
  - do 4 (apply preserves_bind; [by apply in_view_draw ||
      by apply create_remnawave_local_user_in_view|intros ?]).
    apply preserves_bind; [apply insert_rw_profile|intros; apply preserves_ret].
Qed.

Lemma upsert_one_stores acc item :
  hoare (in_view rw_keys) (upsert_one acc item)
    (fun _ => in_view (has_profile (RU_uuid item))) (fun _ _ => True).
Proof.
  intros s Hs. unfold upsert_one. rewrite bind_run. unfold reads at 1.
  rewrite bind_run. unfold lift at 1.
  destruct (rw_by_uuid (work s) (RU_uuid item)) as [row|e] eqn:E; [|done].
  assert (∀ m : M (RemnawaveUser * gset string),
    match m s with (Ok _, s') => in_view (has_profile (RU_uuid item)) s' | _ => True end →
    match bindM m (finish_item acc item) s with
    | (Ok _, s') => in_view (has_profile (RU_uuid item)) s' | _ => True end) as Hk.
  { intros m Hm. rewrite bind_run. destruct (m s) as [[st|e] s1]; [|done].
    pose proof (finish_item_profile (RU_uuid item) acc item st s1 Hm) as Hf.
    by destruct (finish_item acc item st s1) as [[x|e] s2]. }
  apply Hk. clear Hk. destruct row as [row|].
  - assert (in_view (has_profile (RU_uuid item)) s) as Hp.
    { split; [done|]. unfold rw_by_uuid, one_or_none in E.
      destruct (select _ _) as [|x []] eqn:Es; [done| |done]. injection E as ->.
      assert (row ∈ [row]) as Hin by by left. rewrite <- Es in Hin.
      apply elem_of_select in Hin as [[k Hk] Hu]. py_bool. eauto. }
    pose proof (apply_remnawave_lifecycle_in_view _ (has_profile_view (RU_uuid item)) row item s Hp)
      as Hl.
    rewrite bind_run. by destruct (apply_remnawave_lifecycle row item s) as [[x|e] s2].
  - refine ((_ : hoare (in_view rw_keys) _ (fun _ => in_view (has_profile (RU_uuid item)))
      (fun _ _ => True)) s Hs). clear s Hs E.
    pose proof rw_keys_view as Hview. unfold new_uuid, now.
    do 4 (eapply hoare_bind; [apply (hoare_of_preserves (in_view rw_keys));
      by apply in_view_draw || by apply create_remnawave_local_user_in_view|intros ?]).
    match goal with |- hoare _ (bindM (insert_rw ?r) _) _ _ => set (row := r) end.
    change (RU_uuid item) with (Rw_remnawave_uuid row).
    eapply hoare_bind; [apply (insert_rw_profile "")|intros []]. by intros s Hs.
Qed.

(** The loop: every item processed so far has its profile. *)
Lemma upsert_loop data acc s :
  in_view rw_keys s →
  match for_fold upsert_one acc data s with
  | (Ok _, s') => in_view rw_keys s' ∧
      ∀ item, item ∈ data → in_view (has_profile (RU_uuid item)) s'
  | _ => True
  end.
Proof.
  revert acc s. induction data as [|item data IH]; intros acc s Hs.
  { simpl. split; [done|]. by intros item ?%elem_of_nil. }
  simpl. rewrite bind_run. pose proof (upsert_one_stores acc item s Hs) as Ho.
  destruct (upsert_one acc item s) as [[acc'|e] s1]; [|done].
  specialize (IH acc' s1 (proj1 Ho)).
  pose proof (preserves_for_fold (in_view (has_profile (RU_uuid item))) upsert_one data acc'
    (fun b x _ => upsert_one_profile (RU_uuid item) b x) s1 Ho) as Hkeep.
  destruct (for_fold upsert_one acc' data s1) as [[r|e] s2]; [|done]. destruct IH as [IH1 IH2].
  split; [done|]. intros x [->|Hx]%elem_of_cons; [done|by apply IH2].
Qed.
End upsert.

(** ** Properties *)


(** A profile the witnesses import. *)
Definition sample_item (uuid username : string) : RemnawaveUserIn :=
  {| RU_uuid := uuid; RU_id := None; RU_short_uuid := None; RU_username := username;
     RU_status := "ACTIVE"; RU_expire_at := None; RU_email := None; RU_tag := None;
     RU_telegram_id := None; RU_description := None; RU_traffic_limit_bytes := 0;
     RU_traffic_limit_strategy := "NO_RESET"; RU_traffic_used_bytes := 0;
     RU_lifetime_used_traffic_bytes := 0; RU_last_traffic_reset_at := None; RU_online_at := None;
     RU_first_connected_at := None; RU_last_connected_node_uuid := None;
     RU_hwid_device_limit := None; RU_external_squad_uuid := None;
     RU_active_internal_squads_json := None; RU_subscription_url := None |}.

Lemma sample_managed_rw_keys : rw_keys sample_managed_db.
Proof. intros k r. simpl. intros [<- <-]%lookup_singleton_Some. reflexivity. Qed.


(** A reconcile never purges an account whose remote user is gone. Whatever was requested and
    confirmed before, an account whose profile is not among the uuids a full reconcile has seen - all
    of them when it saw none - keeps its row: the reconcile first sends every peer of such an account
    back to [pending_delete], so the purge that follows finds nothing confirmed. *)
Lemma reconcile_never_purges_missing `{EnvLaws} seen d n k row :
  db_inv d → rw_users d !! k = Some row → seen = [] ∨ Rw_remnawave_uuid row ∉ seen →
  is_Some (users (persisted (remnawave_reconcile_complete seen (start d n))) !! Rw_user_id row).
Proof.
  intros Hd Hrow Hseen.
  set (Q := fun d => db_inv d ∧ rw_users d !! k = Some row).
  set (P := fun d => is_Some (users d !! Rw_user_id row)).
  assert (∀ d, Q d → P d) as HQP.
  { intros d0 [Hi Hr]. by apply (wf_rw_user _ (proj1 Hi) _ _ Hr). }
  assert (∀ f, (∀ d, core_eq d (f d)) → ∀ d, Q d → Q (f d)) as Hcore.
  { intros f Hf d0 [Hi Hr]. specialize (Hf d0). split; [by rewrite <- Hf|].
    by rewrite <- (proj2 (proj2 (proj2 (proj2 Hf)))). }
  assert (preserves (holds Q) get_rw_settings) as Hget.
  { unfold get_rw_settings, new_uuid, now. session_steps. by apply holds_modify, Hcore. }
  unfold persisted, remnawave_reconcile_complete. rewrite bind_run.
  specialize (Hget (start d n) (conj (conj Hd Hrow) (conj Hd Hrow))).
  destruct (get_rw_settings (start d n)) as [[settings|e] s1]; [|by apply HQP, Hget].
  destruct Hget as [[Hi Hr] Hc]. rewrite bind_run. unfold transact at 1.
  destruct (reconcile_missing_spec (list_to_set seen) "remote user missing" (work s1) Hi) as [Hi' Hrem].
  destruct (Hrem k row Hr) as [Huser Hremoving].
  { destruct Hseen as [->|Hseen]; [by left|right]. by rewrite elem_of_list_to_set. }
  destruct (reconcile_missing_remnawave_users _ _ (work s1)) as [affected d1]. simpl in *.
  rewrite bind_run. unfold now, draw. rewrite bind_run. unfold put_rw_settings, modify at 1.
  rewrite bind_run. unfold transact at 1.
  simpl. match goal with |- context [purge_confirmed_remnawave_deletes ?x] => set (d2 := x) end.
  assert (P (purge_confirmed_remnawave_deletes d2).2) as Hp.
  { unfold purge_confirmed_remnawave_deletes. set (requested := select _ _).
    change (foldl _ _ _) with (foldl purge_step (0%Z, d2) requested).
    destruct (purge_fold d2 requested (Rw_user_id row)) as [(_ & _ & r & _ & Hu & Hpurge)|(Hsame & _)].
    - exfalso. apply purgeable_spec in Hpurge as [(k' & p & Hp & Hpu) Hall].
      specialize (Hall k' p Hp Hpu). rewrite Hu in Hpu. by rewrite (Hremoving k' p Hp Hpu) in Hall.
    - unfold P. by rewrite Hsame. }
  destruct (purge_confirmed_remnawave_deletes d2) as [purged d3]. simpl in Hp.
  match goal with |- is_Some (users (committed (bindM commit ?k ?s).2) !! _) =>
    assert (holds P (bindM commit k s).2) as [_ Hdone]; [|exact Hdone] end.
  apply (preserves_bind (holds P)); [apply holds_commit|intros []|].
  - apply preserves_bind; [by apply enqueue_sync_nodes_keeps|intros; apply preserves_ret].
  - split; [exact Hp|]. by apply HQP.
Qed.

(** An account whose deletion was requested and confirmed by its only node. *)
Definition confirmed_db : db :=
  sample_managed_db
    <| rw_users := {["w" := (sample_rw "w" "u") <| Rw_delete_requested_at := Some t0 |>]} |>
    <| peers := {["r" := sample_peer "r" "a" "u" "e" "deleted"]} |>.

Lemma reconcile_never_purges_missing_witness :
  db_inv confirmed_db ∧
  is_Some (users (persisted (remnawave_reconcile_complete ["other"] (start confirmed_db 0))) !! "u").
Proof.
  assert (db_inv confirmed_db) as Hd by (apply db_invb_sound; vm_compute; reflexivity).
  split; [exact Hd|].
  set (row := (sample_rw "w" "u") <| Rw_delete_requested_at := Some t0 |>).
  change "u" with (Rw_user_id row).
  apply (reconcile_never_purges_missing ["other"] confirmed_db 0 "w" row Hd).
  - reflexivity.
  - right. literal_in.
Defined.
