(* ===== verification/TelegramProxy.v ===== *)
(** * The Telegram proxy

    [panel/backend/app/services/telegram_proxy.py] (secrets, hosts, ports, links),
    [routers/internal_worker_parts/telegram_proxy.py] (what the worker reads and reports) and
    [routers/telegram_proxy.py] (settings, apply, disable, rotation, status). *)
From Stdlib Require Import Ascii.
From S2P Require Import Prelude PyStr Json Bytes Models Session Sample Secrets Crypto NodeConfig Jobs.

(** ** Secrets *)
Definition is_hex_lower (c : ascii) : bool := is_digit c || ((97 <=? code c) && (code c <=? 102)).
(** [r'^[0-9a-f]{32}$'] and the same after [dd], as full matches. *)
Definition normal_secret (s : string) : bool :=
  (str_len s =? 32) && forallb is_hex_lower (of_str s).
Definition dd_secret (s : string) : bool := startswith s "dd" && normal_secret (str_drop 2 s).

Definition validate_proxy_secret (secret : string) : outcome string :=
  let normalized := lower secret in
  if normal_secret normalized || dd_secret normalized then Ok normalized
  else Raise (ValueError
         "telegram proxy secret must be 32 hex characters or dd plus 32 hex characters").

(** [s.encode().hex()]: two lower-case digits per UTF-8 byte. *)
Definition hex_lower (n : nat) : ascii :=
  if n <? 10 then ascii_of_nat (48 + n) else ascii_of_nat (87 + n).
Definition hex_byte (n : nat) : chars := [hex_lower (n / 16); hex_lower (n mod 16)].
Definition hex_char (c : ascii) : chars :=
  let n := code c in
  if n <? 128 then hex_byte n else hex_byte (192 + n / 64) ++ hex_byte (128 + n mod 64).
Definition encode_hex (s : string) : string := to_str (concat (hex_char <$> of_str s)).

Definition format_proxy_link_secret (secret tls_domain : string) : outcome string :=
  normalized ← validate_proxy_secret secret;
  let base_secret := if startswith normalized "dd" then str_drop 2 normalized else normalized in
  Ok ("ee" +:+ base_secret +:+ encode_hex tls_domain).

(** [secrets.token_hex(16)] on the sixteen bytes drawn. *)
Definition token_hex (l : bytes) : string :=
  to_str (concat ((fun b => hex_byte (Z.to_nat b)) <$> l)).
Definition generate_proxy_secret `{Env} (dd_prefixed : bool) : M string :=
  let* random := draw (fun n => urandom n 16) in
  let secret := token_hex random in
  retM (if dd_prefixed then "dd" +:+ secret else secret).

(** ** Hosts and ports *)
Definition normalize_public_host (host : string) : outcome string :=
  if host != strip host then
    Raise (ValueError "telegram proxy public host must not include surrounding whitespace")
  else if host == "" then Raise (ValueError "telegram proxy public host is required")
  else if contains host "://" || contains host "/" || contains host "?" || contains host "#"
          || contains host "@"
  then Raise (ValueError "telegram proxy public host must be a host, not a URL")
  else if contains host ":" && negb (startswith host "[" && endswith host "]")
  then Raise (ValueError "telegram proxy public host must not include a port")
  else Ok (lower host).

(** A Python object given as a port. *)
Inductive py_port := PortInt (z : Z) | PortBool (b : bool) | PortOther.
Definition normalize_public_port (port : py_port) : outcome Z :=
  match port with
  | PortInt z =>
      if (1 <=? z)%Z && (z <=? 65535)%Z then Ok z
      else Raise (ValueError "telegram proxy public port must be between 1 and 65535")
  | _ => Raise (TypeError "telegram proxy public port must be an integer")
  end.

(** ** Links *)
Record TelegramProxyLinks := mkTelegramProxyLinks { tg_url : string; t_me_url : string }.

(** [urlencode(..., quote_via=quote)] of the three fields, in order. *)
Definition urlencode (fields : list (string * string)) : string :=
  join "&" ((fun kv => quote kv.1 +:+ "=" +:+ quote kv.2) <$> fields).

Definition build_proxy_links (host : string) (port : py_port) (secret tls_domain : string)
    : outcome TelegramProxyLinks :=
  server ← normalize_public_host host;
  port ← normalize_public_port port;
  secret ← format_proxy_link_secret secret tls_domain;
  let query := urlencode [("server", server); ("port", pretty port); ("secret", secret)] in
  Ok (mkTelegramProxyLinks ("tg://proxy?" +:+ query) ("https://t.me/proxy?" +:+ query)).

Definition READY_STATUSES : list string := ["active"; "ready"].

Definition select_primary_node_state (d : db) (settings : TelegramProxySettings)
    : outcome (option TelegramProxyNodeState) :=
  match TgSettings_primary_node_id settings ≫= (fun id => tg_states d !! id) with
  | None => Ok None
  | Some state =>
      if negb (TgState_status state isin READY_STATUSES) then Ok None
      else match TgState_public_host state, TgState_public_port state with
      | Some host, Some port =>
          _ ← normalize_public_host host;
          _ ← normalize_public_port (PortInt port);
          Ok (Some state)
      | _, _ => Ok None
      end
  end.

(** ** What the worker reads *)
Definition host_from_endpoint (endpoint : option string) : outcome (option string) :=
  match endpoint with
  | None => Ok None
  | Some e =>
      if e == "" then Ok None
      else if startswith e "[" then
        match find e "]" with
        | None => Ok None
        | Some i => Some <$> normalize_public_host (str_take (S i) e)
        end
      else let '(host, _, _) := partition e ":" in Some <$> normalize_public_host host
  end.

Record TelegramProxyDesiredConfig := mkDesiredConfig {
  Desired_enabled : bool;
  Desired_secret : option string;
  Desired_port : Z;
  Desired_public_host : option string;
  Desired_tls_domain : string }.
Record TelegramProxySnapshot := mkProxySnapshot {
  ProxySnapshot_node_id : string;
  ProxySnapshot_url : string;
  ProxySnapshot_token : string;
  ProxySnapshot_desired : TelegramProxyDesiredConfig }.

Inductive TelegramProxyResultStatus :=
  | ResultUnknown | ResultDisabled | ResultActive | ResultReady | ResultFailed.
Definition status_text (s : TelegramProxyResultStatus) : string :=
  match s with
  | ResultUnknown => "unknown" | ResultDisabled => "disabled" | ResultActive => "active"
  | ResultReady => "ready" | ResultFailed => "failed"
  end.
Record TelegramProxyResultIn := mkProxyResultIn {
  Result_status : TelegramProxyResultStatus;
  Result_error : option string;
  Result_public_host : option string;
  Result_public_port : option Z }.

Definition normalize_ready_host (data : TelegramProxyResultIn) : outcome string :=
  match Result_public_host data with
  | None => Raise (HTTPException 422 "public_host is required for ready status")
  | Some host => normalize_public_host host
  end.
Definition normalize_ready_port (data : TelegramProxyResultIn) : outcome Z :=
  match Result_public_port data with
  | None => Raise (HTTPException 422 "public_port is required for ready status")
  | Some port => normalize_public_port (PortInt port)
  end.

(** The state with the result applied, and whether the node is ready. *)
Definition apply_result (observed_at : datetime) (state : TelegramProxyNodeState)
    (data : TelegramProxyResultIn) : outcome (bool * TelegramProxyNodeState) :=
  let state := state <| TgState_status := status_text (Result_status data) |>
                     <| TgState_last_checked_at := Some observed_at |> in
  match Result_status data with
  | ResultActive | ResultReady =>
      host ← normalize_ready_host data;
      port ← normalize_ready_port data;
      Ok (true, state <| TgState_public_host := Some host |> <| TgState_public_port := Some port |>
                      <| TgState_last_error := None |>
                      <| TgState_last_applied_at := Some observed_at |>)
  | ResultFailed =>
      Ok (false, state <| TgState_public_host := None |> <| TgState_public_port := None |>
                       <| TgState_last_error :=
                            Some (str_or (Result_error data) "Worker reported failure") |>)
  | ResultDisabled | ResultUnknown =>
      Ok (false, state <| TgState_public_host := None |> <| TgState_public_port := None |>
                       <| TgState_last_error := Result_error data |>)
  end.

(** [TelegramProxySettingsSchema.from_orm]: everything but the secret. *)
Record TelegramProxySettingsOut := mkSettingsOut {
  SettingsOut_enabled : bool;
  SettingsOut_port : Z;
  SettingsOut_tls_domain : string;
  SettingsOut_secret_set : bool;
  SettingsOut_primary_node_id : option string;
  SettingsOut_last_rotation_reason : option string;
  SettingsOut_links : option TelegramProxyLinks }.

(** ** Input validation *)
Record TelegramProxySettingsIn := mkSettingsIn {
  SettingsIn_enabled : bool;
  SettingsIn_port : Z;
  SettingsIn_primary_node_id : option string;
  SettingsIn_public_host : option string;
  SettingsIn_tls_domain : string;
  SettingsIn_secret : option string }.

Definition validate_settings_in (data : TelegramProxySettingsIn) : outcome TelegramProxySettingsIn :=
  if negb ((1 <=? SettingsIn_port data)%Z && (SettingsIn_port data <=? 65535)%Z)
  then Raise (ValueError "port")
  else
    host ← match SettingsIn_public_host data with
           | None => Ok None | Some h => Some <$> normalize_public_host h end;
    let domain := lower (strip (SettingsIn_tls_domain data)) in
    if domain == "" then Raise (ValueError "telegram proxy tls domain is required") else
    secret ← match SettingsIn_secret data with
             | None => Ok None
             | Some s => if s == "" then Ok None else Some <$> validate_proxy_secret s
             end;
    Ok (mkSettingsIn (SettingsIn_enabled data) (SettingsIn_port data)
          (SettingsIn_primary_node_id data) host domain secret).

Section with_env.
Context `{Env} `{Vault}.

(** ** Settings rows *)
Definition get_tg_settings : M TelegramProxySettings :=
  let* row := reads (fun d => head (order_by
    (fun r => instant (TgSettings_created_at r)) TgSettings_id (tg_settings d))) in
  match row with
  | Some row => retM row
  | None =>
      let* id := new_uuid in
      let* t := now in
      let row := mkTelegramProxySettings id false 443 "cloudsyncpro.net" None None None None None t t in
      do* modify (fun d => d <| tg_settings := tg_settings d ++ [row] |>) in
      do* commit in
      retM row
  end.
Definition put_tg_settings (row : TelegramProxySettings) : M unit :=
  modify (fun d => d <| tg_settings :=
    (fun r => if TgSettings_id r == TgSettings_id row then row else r) <$> tg_settings d |>).

(** ** The worker's routes *)
Definition desired_config (settings : TelegramProxySettings) (node : Node)
    : outcome TelegramProxyDesiredConfig :=
  secret ← (if truthy (TgSettings_secret_encrypted settings)
            then MtproxyCrypto.decrypt (TgSettings_secret_encrypted settings) else Ok None);
  public_host ← host_from_endpoint (Node_server_endpoint node);
  Ok (mkDesiredConfig (TgSettings_enabled settings) secret (TgSettings_port settings) public_host
        (TgSettings_tls_domain settings)).
Definition proxy_snapshot (settings : TelegramProxySettings) (node : Node)
    : outcome TelegramProxySnapshot :=
  desired ← desired_config settings node;
  Ok (mkProxySnapshot (Node_id node) (Node_url node) (Node_token node) desired).

Definition get_telegram_proxy_node_snapshot (node_id : string) : M TelegramProxySnapshot :=
  let* node := reads (fun d => nodes d !! node_id) in
  match node with
  | None => raise (HTTPException 404 "Node not found")
  | Some node =>
      let* settings := get_tg_settings in
      lift (proxy_snapshot settings node)
  end.
Definition get_telegram_proxy_snapshot : M (list TelegramProxySnapshot) :=
  let* settings := get_tg_settings in
  let* node_list := reads (fun d => order_by_str Node_name Node_id (rows (nodes d))) in
  lift (map_outcome (proxy_snapshot settings) node_list).

(** A failed validation raises before the commit. *)
Definition report_telegram_proxy_node_result (node_id : string) (data : TelegramProxyResultIn)
    : M (string * bool) :=
  let* node := reads (fun d => nodes d !! node_id) in
  match node with
  | None => raise (HTTPException 404 "Node not found")
  | Some node =>
      let* state := reads (fun d => tg_states d !! node_id) in
      let* t := now in
      let state := default (mkTelegramProxyNodeState node_id "unknown" None None None None None t t)
                     state in
      let* observed_at := now in
      let* applied := lift (apply_result observed_at state data) in
      let '(ready, state) := applied in
      do* modify (fun d => d <| tg_states := <[node_id := state]> (tg_states d) |>) in
      do* commit in
      retM (TgState_status state, ready)
  end.

(** ** The administrator's routes *)
Definition response_links (settings : TelegramProxySettings) : M (option TelegramProxyLinks) :=
  if negb (TgSettings_enabled settings) || negb (truthy (TgSettings_secret_encrypted settings))
  then retM None
  else
    let* primary_state := reads (fun d => select_primary_node_state d settings) in
    let* primary_state := lift primary_state in
    match primary_state with
    | None => retM None
    | Some state =>
        match TgState_public_host state, TgState_public_port state with
        | Some host, Some port =>
            let* secret := try_except
              (lift (MtproxyCrypto.decrypt (TgSettings_secret_encrypted settings)))
              (fun exc => match exc with InvalidToken => retM None | _ => raise exc end) in
            match secret with
            | None => retM None
            | Some secret =>
                let* links := lift (build_proxy_links host (PortInt port) secret
                                      (TgSettings_tls_domain settings)) in
                retM (Some links)
            end
        | _, _ => retM None
        end
    end.

Definition settings_out (settings : TelegramProxySettings) : M TelegramProxySettingsOut :=
  let* links := response_links settings in
  retM (mkSettingsOut (TgSettings_enabled settings) (TgSettings_port settings)
          (TgSettings_tls_domain settings)
          (match TgSettings_secret_encrypted settings with Some s => 0 <? str_len s | None => false end)
          (TgSettings_primary_node_id settings) (TgSettings_last_rotation_reason settings) links).

Definition primary_node (settings : TelegramProxySettings) : M Node :=
  match TgSettings_primary_node_id settings with
  | None => raise (HTTPException 409 "Telegram proxy primary node is not configured")
  | Some id =>
      let* node := reads (fun d => nodes d !! id) in
      match node with
      | None => raise (HTTPException 404 "Telegram proxy primary node not found")
      | Some node => retM node
      end
  end.

Definition enqueue_apply_operation (node : Node) : M string :=
  let* operation := new_operation "telegram_proxy_apply_node" (Some "node") (Some (Node_id node)) in
  do* enqueue_operation operation (enqueue_telegram_proxy_apply_node (Node_id node)) in
  retM (Op_id operation).

Definition get_telegram_proxy_settings : M TelegramProxySettingsOut :=
  let* settings := get_tg_settings in settings_out settings.

Definition update_telegram_proxy_settings (data : TelegramProxySettingsIn)
    : M TelegramProxySettingsOut :=
  let* data := lift (validate_settings_in data) in
  let* known := reads (fun d => match SettingsIn_primary_node_id data with
    | None => true | Some id => bool_decide (is_Some (nodes d !! id)) end) in
  if negb known then raise (HTTPException 404 "Primary node not found") else
  let* settings := get_tg_settings in
  let settings := settings <| TgSettings_enabled := SettingsIn_enabled data |>
                           <| TgSettings_port := SettingsIn_port data |>
                           <| TgSettings_primary_node_id := SettingsIn_primary_node_id data |>
                           <| TgSettings_tls_domain := SettingsIn_tls_domain data |> in
  let* settings := match SettingsIn_secret data with
    | None => retM settings
    | Some secret =>
        let* token := MtproxyCrypto.encrypt (Some secret) in
        retM (settings <| TgSettings_secret_encrypted := token |>)
    end in
  do* put_tg_settings settings in
  do* commit in
  settings_out settings.

Definition apply_telegram_proxy : M string :=
  let* settings := get_tg_settings in
  if negb (TgSettings_enabled settings) then raise (HTTPException 409 "Telegram proxy is disabled")
  else if negb (truthy (TgSettings_secret_encrypted settings))
  then raise (HTTPException 409 "Telegram proxy secret is not configured")
  else
    let* node := primary_node settings in
    enqueue_apply_operation node.

Definition disable_telegram_proxy : M string :=
  let* settings := get_tg_settings in
  let* node := primary_node settings in
  do* put_tg_settings (settings <| TgSettings_enabled := false |>) in
  do* commit in
  let* operation := new_operation "telegram_proxy_disable_node" (Some "node") (Some (Node_id node)) in
  do* enqueue_operation operation (enqueue_telegram_proxy_disable_node (Node_id node)) in
  retM (Op_id operation).

Definition rotate_telegram_proxy_secret : M string :=
  let* settings := get_tg_settings in
  let* node := primary_node settings in
  let* secret := generate_proxy_secret false in
  let* token := MtproxyCrypto.encrypt (Some secret) in
  let* t := now in
  do* put_tg_settings (settings <| TgSettings_secret_encrypted := token |>
                                <| TgSettings_last_rotation_at := Some t |>
                                <| TgSettings_last_rotation_reason := Some "manual" |>
                                <| TgSettings_last_rotation_error := None |>) in
  do* commit in
  enqueue_apply_operation node.

Definition get_telegram_proxy_status
    : M (TelegramProxySettingsOut * option TelegramProxyNodeState * option TelegramProxyLinks) :=
  let* settings := get_tg_settings in
  let* primary_state := reads (fun d =>
    TgSettings_primary_node_id settings ≫= (fun id => tg_states d !! id)) in
  let* links := response_links settings in
  let* out := settings_out settings in
  retM (out, primary_state, links).
End with_env.

(** ** Lower case and the tests on hosts *)
Definition caseless (c : ascii) : bool := negb (is_upper c) && negb (is_lower c).
Definition all_ascii (P : ascii → bool) : bool := forallb (fun n => P (ascii_of_nat n)) (seq 0 256).
Lemma all_ascii_true P : all_ascii P = true → ∀ c, P c = true.
Proof.
  intros H c. unfold all_ascii in H. rewrite forallb_forall in H.
  rewrite <- (ascii_nat_embedding c). apply H, in_seq. pose proof (nat_ascii_bounded c). lia.
Qed.

Lemma lower_char_space c : is_space (lower_char c) = is_space c.
Proof.
  apply eqb_prop. revert c.
  apply (all_ascii_true (fun c => Bool.eqb (is_space (lower_char c)) (is_space c))). by vm_compute.
Qed.
Lemma lower_char_idem c : lower_char (lower_char c) = lower_char c.
Proof.
  apply (bool_decide_eq_true_1 _). revert c.
  apply (all_ascii_true (fun c => bool_decide (lower_char (lower_char c) = lower_char c))).
  by vm_compute.
Qed.
Lemma lower_char_caseless p c : caseless p = true → (lower_char c == p) = (c == p).
Proof.
  intros Hp. unfold lower_char. destruct (is_upper c) eqn:Hc; [|done].
  assert (c ≠ p) as Hne by (intros ->; unfold caseless in Hp; by rewrite Hc in Hp).
  rewrite (bool_decide_eq_false_2 (c = p)) by done. apply bool_decide_eq_false. intros <-.
  assert (negb (is_upper c) || is_lower (lower_char c) = true) as Hl.
  { revert c Hc Hp Hne. intros c _ _ _. revert c.
    apply (all_ascii_true (fun c => negb (is_upper c) || is_lower (lower_char c))). by vm_compute. }
  rewrite Hc in Hl. unfold lower_char in Hl. rewrite Hc in Hl. simpl in Hl.
  unfold caseless in Hp. rewrite Hl in Hp. by rewrite andb_false_r in Hp.
Qed.

Lemma of_str_lower s : of_str (lower s) = lower_char <$> of_str s.
Proof. unfold lower. apply of_to_str. Qed.
Lemma lower_idem s : lower (lower s) = lower s.
Proof.
  unfold lower. rewrite of_to_str, <- list_fmap_compose. f_equal. apply list_fmap_ext.
  intros i c _. apply lower_char_idem.
Qed.

Lemma prefix_of_lower p l :
  forallb caseless p = true → prefix_of p (lower_char <$> l) = prefix_of p l.
Proof.
  revert l. induction p as [|a p IH]; intros [|b l] Hp; rewrite ?fmap_cons; try done.
  cbn [prefix_of]. simpl in Hp. apply andb_true_iff in Hp as [Ha Hp]. rewrite IH by done. f_equal.
  transitivity (lower_char b == a); [by apply bool_decide_ext; split; intros ->|].
  rewrite lower_char_caseless by done. by apply bool_decide_ext; split; intros ->.
Qed.
Lemma contains_lower s p : forallb caseless (of_str p) = true → contains (lower s) p = contains s p.
Proof.
  intros Hp. unfold contains, find. rewrite of_str_lower. generalize 0.
  induction (of_str s) as [|b l IH]; intros i; [done|].
  pose proof (prefix_of_lower (of_str p) (b :: l) Hp) as E. rewrite fmap_cons in E |- *.
  cbn [find_from]. rewrite E. destruct (prefix_of (of_str p) (b :: l)); [done|]. apply IH.
Qed.
Lemma startswith_lower s p :
  forallb caseless (of_str p) = true → startswith (lower s) p = startswith s p.
Proof. intros Hp. unfold startswith. rewrite of_str_lower. by apply prefix_of_lower. Qed.
Lemma rev_lower (l : chars) : rev (lower_char <$> l) = lower_char <$> rev l.
Proof. symmetry. apply map_rev. Qed.
Lemma endswith_lower s p :
  forallb caseless (of_str p) = true → endswith (lower s) p = endswith s p.
Proof.
  intros Hp. unfold endswith. rewrite of_str_lower, rev_lower. apply prefix_of_lower.
  by rewrite forallb_rev.
Qed.
Lemma lstrip_lower l : lstrip_with is_space (lower_char <$> l) = lower_char <$> lstrip_with is_space l.
Proof.
  induction l as [|a l IH]; [done|]. rewrite fmap_cons. cbn [lstrip_with].
  rewrite lower_char_space, IH. by destruct (is_space a).
Qed.
Lemma strip_lower s : strip (lower s) = lower (strip s).
Proof.
  unfold strip, strip_with, rstrip_with, lower. rewrite !of_to_str. f_equal.
  by rewrite lstrip_lower, rev_lower, lstrip_lower, rev_lower.
Qed.

Lemma normalize_public_host_idem h h' :
  normalize_public_host h = Ok h' → normalize_public_host h' = Ok h'.
Proof.
  unfold normalize_public_host.
  destruct (bool_decide_reflect (h = strip h)) as [Hs|]; [cbn [negb]|done].
  destruct (bool_decide_reflect (h = "")) as [|Hne]; [done|].
  destruct (_ || _)%bool eqn:Eu; [done|].
  destruct (contains h ":" && _)%bool eqn:Ep; [done|]. intros [= <-].
  rewrite strip_lower, <- Hs, !contains_lower, startswith_lower, endswith_lower, Eu, Ep, lower_idem
    by done.
  rewrite bool_decide_eq_true_2 by done. cbn [negb].
  rewrite bool_decide_eq_false_2; [done|]. intros E. apply Hne. apply (f_equal of_str) in E.
  rewrite of_str_lower in E. apply fmap_nil_inv in E. by rewrite <- (to_of_str h), E.
Qed.

(** ** The hexadecimal encoding is a prefix code *)
Definition hex_value (c : ascii) : nat := if is_digit c then code c - 48 else code c - 87.
Definition decode_hex_char (l : chars) : ascii :=
  match l with
  | a :: b :: l =>
      let n := 16 * hex_value a + hex_value b in
      if n <? 128 then ascii_of_nat n
      else match l with
           | a :: b :: _ => ascii_of_nat ((n - 192) * 64 + (16 * hex_value a + hex_value b - 128))
           | _ => "000"%char
           end
  | _ => "000"%char
  end.
Lemma decode_hex_char_app c k : decode_hex_char (hex_char c ++ k) = c.
Proof. destruct c as [[] [] [] [] [] [] [] []]; vm_compute; reflexivity. Qed.
Lemma hex_char_prefix_free c d : prefix_of (hex_char c) (hex_char d) = true → c = d.
Proof.
  intros [k Hk]%prefix_of_spec. rewrite <- (decode_hex_char_app c k), <- Hk.
  rewrite <- (app_nil_r (hex_char d)). apply decode_hex_char_app.
Qed.

Lemma hex_char_nonempty c : hex_char c ≠ [].
Proof. unfold hex_char. by case_match. Qed.

Lemma app_eq_prefix (a b x y : chars) : a ++ x = b ++ y → prefix_of a b = true ∨ prefix_of b a = true.
Proof.
  revert b. induction a as [|u a IH]; intros [|v b] H; [by left|by left|by right|].
  simpl in H. injection H as -> H. simpl. rewrite bool_decide_eq_true_2 by done. by apply IH.
Qed.

Lemma concat_hex_inj l1 l2 : concat (hex_char <$> l1) = concat (hex_char <$> l2) → l1 = l2.
Proof.
  revert l2. induction l1 as [|c l1 IH]; intros [|d l2] H; rewrite ?fmap_cons in H; simpl in H.
  - done.
  - exfalso. symmetry in H. apply app_eq_nil in H as [H _]. by apply (hex_char_nonempty d).
  - exfalso. apply app_eq_nil in H as [H _]. by apply (hex_char_nonempty c).
  - assert (c = d) as <-.
    { destruct (app_eq_prefix _ _ _ _ H) as [Hp|Hp]; apply hex_char_prefix_free in Hp; congruence. }
    apply app_inv_head in H. by rewrite (IH _ H).
Qed.
Lemma encode_hex_inj d1 d2 : encode_hex d1 = encode_hex d2 → d1 = d2.
Proof.
  unfold encode_hex. intros H. apply (f_equal of_str) in H. rewrite !of_to_str in H.
  apply concat_hex_inj in H. by rewrite <- (to_of_str d1), <- (to_of_str d2), H.
Qed.

Lemma normal_secret_len s : normal_secret s = true → str_len s = 32.
Proof. unfold normal_secret. intros [?%Nat.eqb_eq _]%andb_true_iff. done. Qed.

Lemma dd_app s : str_drop 2 ("dd" +:+ s) = s.
Proof. unfold str_drop. rewrite of_str_app. simpl. by rewrite drop_0, to_of_str. Qed.
Lemma lower_dd s : lower ("dd" +:+ s) = "dd" +:+ lower s.
Proof. unfold lower. by rewrite of_str_app, fmap_app, to_str_app. Qed.

Lemma of_str_len_app a b : str_len (a +:+ b) = str_len a + str_len b.
Proof. unfold str_len. by rewrite of_str_app, length_app. Qed.

(** ** The invariants of accounts and devices *)
Section invariants.
Context `{Env} `{Vault}.
Notation kept := (preserves (holds db_inv)).

Lemma modify_core_inv f : (∀ d, core_eq d (f d)) → kept (modify f).
Proof. intros Hf. apply holds_modify. intros d Hd. by rewrite <- (Hf d). Qed.
Lemma put_tg_settings_inv row : kept (put_tg_settings row).
Proof. by apply modify_core_inv. Qed.
Lemma get_tg_settings_inv : kept get_tg_settings.
Proof. unfold get_tg_settings, new_uuid, now. session_steps. by apply modify_core_inv. Qed.
Lemma mtproxy_encrypt_inv v : kept (MtproxyCrypto.encrypt v).
Proof. apply encrypt_preserves. Qed.
#[local] Hint Resolve put_tg_settings_inv get_tg_settings_inv mtproxy_encrypt_inv : preserves.

Lemma response_links_inv settings : kept (response_links settings).
Proof. unfold response_links. session_steps. apply preserves_try; intros; session_steps. Qed.
#[local] Hint Resolve response_links_inv : preserves.
Lemma settings_out_inv settings : kept (settings_out settings).
Proof. unfold settings_out. session_steps. Qed.
Lemma primary_node_inv settings : kept (primary_node settings).
Proof. unfold primary_node. session_steps. Qed.
Lemma enqueue_apply_operation_inv node : kept (enqueue_apply_operation node).
Proof.
  unfold enqueue_apply_operation. session_steps;
    [apply pure_draw_preserves, pure_draw_new_operation|apply enqueue_operation_inv].
Qed.
#[local] Hint Resolve settings_out_inv primary_node_inv enqueue_apply_operation_inv : preserves.

Lemma report_telegram_proxy_node_result_inv id data :
  kept (report_telegram_proxy_node_result id data).
Proof. unfold report_telegram_proxy_node_result, now. session_steps. by apply modify_core_inv. Qed.
Lemma update_telegram_proxy_settings_inv data : kept (update_telegram_proxy_settings data).
Proof. unfold update_telegram_proxy_settings. session_steps. Qed.
Lemma apply_telegram_proxy_inv : kept apply_telegram_proxy.
Proof. unfold apply_telegram_proxy. session_steps. Qed.
Lemma disable_telegram_proxy_inv : kept disable_telegram_proxy.
Proof.
  unfold disable_telegram_proxy. session_steps;
    [apply pure_draw_preserves, pure_draw_new_operation|apply enqueue_operation_inv].
Qed.
Lemma rotate_telegram_proxy_secret_inv : kept rotate_telegram_proxy_secret.
Proof. unfold rotate_telegram_proxy_secret, generate_proxy_secret, now. session_steps. Qed.
End invariants.

(** ** Properties *)

(** A link carries its secret and its domain. A secret of 32 hexadecimal digits that does not
    begin with [dd], and one written as [dd] and 32 digits, both give the link secret made of [ee],
    the 32 digits in lower case and the hexadecimal domain; anything that is neither is refused; and
    two link secrets are equal only when their digits and their domains are. *)
Lemma proxy_link_secret_decodes :
  (∀ s dom, normal_secret (lower s) = true → startswith (lower s) "dd" = false →
     format_proxy_link_secret s dom = Ok ("ee" +:+ lower s +:+ encode_hex dom)) ∧
  (∀ s dom, normal_secret (lower s) = true →
     format_proxy_link_secret ("dd" +:+ s) dom = Ok ("ee" +:+ lower s +:+ encode_hex dom)) ∧
  (∀ s dom, is_ok (format_proxy_link_secret s dom) = true ↔
     normal_secret (lower s) = true ∨ ∃ base, lower s = "dd" +:+ base ∧ normal_secret base = true) ∧
  (∀ b1 b2 d1 d2, normal_secret b1 = true → normal_secret b2 = true →
     "ee" +:+ b1 +:+ encode_hex d1 = "ee" +:+ b2 +:+ encode_hex d2 → b1 = b2 ∧ d1 = d2).
Proof.
  split_and!.
  - intros s dom Hn Hdd. unfold format_proxy_link_secret, validate_proxy_secret. rewrite Hn. simpl.
    by rewrite Hdd.
  - intros s dom Hn. unfold format_proxy_link_secret, validate_proxy_secret. rewrite lower_dd.
    assert (dd_secret ("dd" +:+ lower s) = true) as Hd.
    { unfold dd_secret. by rewrite startswith_app, dd_app, Hn. }
    rewrite Hd, orb_true_r. cbv [mbind outcome_bind]. by rewrite startswith_app, dd_app.
  - intros s dom. unfold format_proxy_link_secret, validate_proxy_secret.
    destruct (normal_secret (lower s)) eqn:En; simpl; [split; [by left|done]|].
    unfold dd_secret. destruct (startswith (lower s) "dd") eqn:Edd; cbn [andb].
    + apply startswith_spec in Edd as [k Ek]. rewrite Ek, dd_app.
      destruct (normal_secret k) eqn:Ek'; simpl; (split; [|]); intros H; try done.
      * right. by exists k.
      * destruct H as [?|(base & Hb & Hn)]; [done|]. apply str_app_inj_l in Hb as ->. congruence.
    + simpl. split; [done|]. intros [?|(base & Hb & _)]; [done|].
      rewrite Hb, startswith_app in Edd. done.
  - intros b1 b2 d1 d2 H1 H2 H. apply str_app_inj_l in H.
    apply normal_secret_len in H1, H2. apply (f_equal of_str) in H. rewrite !of_str_app in H.
    apply app_inj_1 in H as [Hb Hd]; [|unfold str_len in *; congruence].
    split; [by rewrite <- (to_of_str b1), <- (to_of_str b2), Hb|].
    apply encode_hex_inj. by rewrite <- (to_of_str (encode_hex d1)), <- (to_of_str (encode_hex d2)), Hd.
Qed.

(** A plain secret that happens to begin with [dd] loses a byte. A secret of 32 hexadecimal
    digits beginning with [dd] is valid as it is - the generator draws one in 256 - but its link
    secret carries only the last 30 of its digits, which is no longer the secret the proxy runs
    with. *)
Lemma dd_plain_secret_truncated s dom :
  normal_secret s = true → startswith s "dd" = true → lower s = s →
  validate_proxy_secret s = Ok s ∧
  ∃ rest, s = "dd" +:+ rest ∧ str_len rest = 30 ∧
    format_proxy_link_secret s dom = Ok ("ee" +:+ rest +:+ encode_hex dom) ∧
    "ee" +:+ rest +:+ encode_hex dom ≠ "ee" +:+ s +:+ encode_hex dom.
Proof.
  intros Hn Hdd Hl. unfold format_proxy_link_secret, validate_proxy_secret. rewrite Hl, Hn. simpl.
  rewrite Hdd. split; [done|]. apply startswith_spec in Hdd as [rest ->]. exists rest.
  apply normal_secret_len in Hn. rewrite of_str_len_app in Hn.
  change (str_len "dd") with 2 in Hn. rewrite dd_app. split_and!; [done|lia|done|].
  intros E. apply str_app_inj_l in E. apply (f_equal str_len) in E. rewrite !of_str_len_app in E.
  change (str_len "dd") with 2 in E. lia.
Qed.

Lemma dd_plain_secret_truncated_witness :
  (generate_proxy_secret false (start empty_db 221)).1 = Ok "dddddddddddddddddddddddddddddddd" ∧
  ∃ rest, str_len rest = 30 ∧
    format_proxy_link_secret "dddddddddddddddddddddddddddddddd" "example.org"
    = Ok ("ee" +:+ rest +:+ encode_hex "example.org").
Proof.
  split; [vm_compute; reflexivity|].
  destruct (dd_plain_secret_truncated "dddddddddddddddddddddddddddddddd" "example.org")
    as (_ & rest & _ & H1 & H2 & _); [reflexivity..|]. by exists rest.
Defined.

(** A state the links can be built from, when it says it is ready. *)
Definition publishable (state : TelegramProxyNodeState) : Prop :=
  TgState_status state ∈ READY_STATUSES →
  ∃ host port, TgState_public_host state = Some host ∧ TgState_public_port state = Some port ∧
    normalize_public_host host = Ok host ∧ (1 <= port <= 65535)%Z.
Definition proxy_states_ok (d : db) : Prop :=
  ∀ k state, tg_states d !! k = Some state → publishable state.

Lemma normalize_public_port_ok z port :
  normalize_public_port (PortInt z) = Ok port → port = z ∧ (1 <= port <= 65535)%Z.
Proof.
  unfold normalize_public_port. destruct (_ && _)%bool eqn:E; [|done]. intros [= <-].
  apply andb_true_iff in E as [?%Z.leb_le ?%Z.leb_le]. done.
Qed.

Lemma apply_result_publishable t state data ready state' :
  apply_result t state data = Ok (ready, state') →
  publishable state' ∧ (ready = true ↔ TgState_status state' ∈ READY_STATUSES) ∧
  TgState_status state' = status_text (Result_status data).
Proof.
  unfold apply_result, normalize_ready_host, normalize_ready_port.
  destruct (Result_status data); cbn [status_text];
    try (intros [= <- <-]; unfold publishable; simpl; split_and!;
         [literal_in|split; [done|literal_in]|done]).
  all: destruct (Result_public_host data) as [h|]; [|done];
    destruct (Result_public_port data) as [z|];
    destruct (normalize_public_host h) as [host|] eqn:Eh; try done; cbv [mbind outcome_bind].
  all: destruct (normalize_public_port (PortInt z)) as [port|] eqn:Ep; [|done];
    intros [= <- <-]; unfold publishable; simpl; split_and!; [|split; [intros _; literal_in|done]|done].
  all: intros _; exists host, port; apply normalize_public_port_ok in Ep as [_ ?];
    split_and!; [done|done|by eapply normalize_public_host_idem|lia|lia].
Qed.

(** What the worker reports can always be published. A report about a node keeps every ready state
    with a normalized host and a valid port - so choosing the primary node's state never raises and
    only ever yields such a state - and answers that the node is ready exactly when the stored status
    is a ready one; a report that is refused leaves the tables as they were. *)
Lemma reported_states_are_publishable `{Env} node_id data s :
  holds proxy_states_ok s →
  let '(r, s') := report_telegram_proxy_node_result node_id data s in
  holds proxy_states_ok s' ∧
  (∀ settings, ∃ o, select_primary_node_state (work s') settings = Ok o ∧
     ∀ state, o = Some state → TgState_status state ∈ READY_STATUSES ∧ publishable state) ∧
  match r with
  | Ok (status, ready) => ready = true ↔ status ∈ READY_STATUSES
  | Raise _ => work s' = work s ∧ committed s' = committed s
  end.
Proof.
  intros Hs.
  assert (∀ d, proxy_states_ok d → ∀ settings, ∃ o, select_primary_node_state d settings = Ok o ∧
    ∀ state, o = Some state → TgState_status state ∈ READY_STATUSES ∧ publishable state) as Hsel.
  { intros d Hd settings. unfold select_primary_node_state.
    destruct (TgSettings_primary_node_id settings) as [id|]; simpl; [|by exists None].
    destruct (tg_states d !! id) as [st|] eqn:Est; [|by exists None].
    destruct (bool_decide_reflect (TgState_status st ∈ READY_STATUSES)) as [Hr|]; [|by exists None].
    destruct (Hd id st Est Hr) as (host & port & H1 & H2 & H3 & H4). cbn [negb]. rewrite H1, H2, H3.
    exists (Some st). unfold normalize_public_port.
    assert ((1 <=? port)%Z && (port <=? 65535)%Z = true) as ->.
    { apply andb_true_iff. split; apply Z.leb_le; lia. }
    split; [done|]. intros ? [= <-]. split; [done|]. by apply (Hd id). }
  unfold report_telegram_proxy_node_result. rewrite bind_run. unfold reads at 1.
  destruct (nodes (work s) !! node_id) as [node|]; [|split; [done|split; [apply Hsel, Hs|done]]].
  rewrite bind_run. unfold reads at 1. unfold now. rewrite bind_run. unfold draw at 1.
  rewrite bind_run. unfold draw at 1. rewrite bind_run. unfold lift at 1.
  set (state := default _ (tg_states (work s) !! node_id)). simpl.
  destruct (apply_result _ state data) as [[ready state']|e] eqn:E;
    [|split; [done|split; [apply Hsel, Hs|done]]].
  destruct (apply_result_publishable _ _ _ _ _ E) as (Hp & Hready & _).
  assert (proxy_states_ok ((work s) <| tg_states := <[node_id:=state']> (tg_states (work s)) |>)) as Hok.
  { intros k st. simpl. rewrite lookup_insert. destruct (decide (node_id = k)); [by intros [= <-]|].
    apply Hs. }
  split; [by split|]. split; [by apply Hsel|done].
Qed.

Lemma reported_states_are_publishable_witness :
  holds proxy_states_ok (start sample_db 0) ∧
  let data := mkProxyResultIn ResultReady None (Some "Proxy.Example.ORG") (Some 443%Z) in
  holds proxy_states_ok (report_telegram_proxy_node_result "a" data (start sample_db 0)).2.
Proof.
  assert (holds proxy_states_ok (start sample_db 0)) as Hs.
  { split; intros k st; simpl; by rewrite lookup_empty. }
  split; [exact Hs|]. cbv zeta.
  pose proof (reported_states_are_publishable "a"
    (mkProxyResultIn ResultReady None (Some "Proxy.Example.ORG") (Some 443%Z)) (start sample_db 0) Hs)
    as H.
  destruct (report_telegram_proxy_node_result _ _ _) as [r s']. exact (proj1 H).
Defined.
