(* ===== verification/Display.v ===== *)
(** * What the admin pages derive

    [panel/backend/app/services/remnawave_display.py] (a display name and a Telegram link from the
    free-text description of a profile) and [services/online.py] (whether a peer is online). *)
From Stdlib Require Import Ascii.
From S2P Require Import Prelude PyStr Models Session.

(** ** Description *)
Definition BOT_USER_PREFIX : string := "Bot user:".

(** [[A-Za-z0-9_]]. *)
Definition is_word (c : ascii) : bool :=
  is_digit c || is_upper c || is_lower c || (c == "_"%char).

Definition collapse_whitespace (value : string) : option string :=
  let collapsed := join " " (split_ws value) in
  if collapsed == "" then None else Some collapsed.

(** The full match of the trailing-handle pattern: the text after the last [@] is one or more word
    characters; the body, matched lazily, is what precedes it without its trailing white space. *)
Definition trailing_handle (text : string) : option (string * string) :=
  let '(body, at_, username) := rpartition text "@"%char in
  if truthy_str at_ && truthy_str username && forallb is_word (of_str username)
  then Some (to_str (rstrip_with is_space (of_str body)), username) else None.

Definition description_body (description : option string) : option string :=
  match description with
  | None => None
  | Some description =>
      let text := strip description in
      if startswith text BOT_USER_PREFIX
      then collapse_whitespace (removeprefix text BOT_USER_PREFIX) else None
  end.

Definition telegram_url (telegram_username : option string) (telegram_id : option Z)
    : option string :=
  match telegram_username, telegram_id with
  | Some name, _ => Some ("https://t.me/" +:+ name)
  | None, Some id => Some ("tg://user?id=" +:+ pretty id)
  | None, None => None
  end.

Record RemnawaveDisplay := mkDisplay {
  Display_name : option string;
  Display_telegram_username : option string;
  Display_telegram_url : option string }.

Definition derive_remnawave_display (description : option string) (telegram_id : option Z)
    : RemnawaveDisplay :=
  let text := description_body description in
  let '(display_name, telegram_username) :=
    match text with
    | Some t =>
        match trailing_handle t with
        | Some (body, username) => (collapse_whitespace body, Some username)
        | None => (text, None)
        end
    | None => (text, None)
    end in
  mkDisplay display_name telegram_username (telegram_url telegram_username telegram_id).

(** ** Online peers *)
Definition online_threshold_seconds (d : db) : Z :=
  match head (order_by (fun r => instant (TrafficSettings_created_at r)) TrafficSettings_id
                (traffic_settings d)) with
  | Some row => int_or (Some (TrafficSettings_peer_online_threshold_seconds row)) 180
  | None => 180
  end.

Definition is_peer_online (peer : Peer) (threshold_seconds : Z) (reference : datetime) : bool :=
  match Peer_last_handshake peer with
  | None => false
  | Some t =>
      let last_handshake := if dt_offset t == None then replace_utc t else t in
      (instant reference - instant last_handshake <=? seconds threshold_seconds)%Z
  end.
