(* ===== verification/UserApi.v ===== *)
(** * The administrator's API: accounts

    [panel/backend/app/routers/api_parts/users.py] and [common.py]: creating, listing, limiting,
    blocking and deleting local accounts, and their traffic reports. A handler whose first read
    finds no account answers 404, and one that would change a Remnawave-managed account answers
    409. *)
From S2P Require Import Prelude PyStr Json Bytes Models Session Sample Secrets Accounts Crypto.
From S2P Require Import AccountPolicy Devices Lifecycle Jobs Display RemnawaveSync WorkerApi.

Definition REMNAWAVE_MANAGED_USER_CONFLICT_DETAIL : string :=
  "Remnawave-managed user cannot be modified locally".

Definition remnawave_blocked_reason (at_ : datetime) (rw : RemnawaveUser) (local_total : Z)
    : option string :=
  if Rw_delete_requested_at rw != None then Some "deleted"
  else if Rw_sync_status rw isin ["missing"; "stale"] then Some "deleted"
  else match dict_get [("DISABLED", "disabled"); ("LIMITED", "limited"); ("EXPIRED", "expired")]
               (Rw_status rw) with
  | Some reason => Some reason
  | None =>
      if (0 <? Rw_traffic_limit_bytes rw)%Z &&
         (Rw_traffic_limit_bytes rw <=? Rw_traffic_used_bytes rw + local_total)%Z
      then Some "limited"
      else match Rw_expire_at rw with
      | Some e =>
          let expire_at := if dt_offset e == None then replace_utc e else e in
          if dt_le expire_at at_ then Some "expired" else None
      | None => None
      end
  end.

Record LocalUserLifecycle := mkLocalLifecycle {
  Lifecycle_status : string;
  Lifecycle_expire_at : option datetime;
  Lifecycle_traffic_limit_bytes : Z;
  Lifecycle_traffic_reset_policy : string;
  Lifecycle_traffic_reset_at : option datetime;
  Lifecycle_blocked_reason : option string }.
Definition local_lifecycle_brief (at_ : datetime) (user : User) (local_total : Z)
    : LocalUserLifecycle :=
  mkLocalLifecycle (User_lifecycle_status user) (User_expire_at user)
    (User_traffic_limit_bytes user) (User_traffic_reset_policy user) (User_traffic_reset_at user)
    (local_user_blocked_reason at_ user local_total).

(** ** The account list *)
Record PeerBrief := mkPeerBrief {
  Brief_id : string;
  Brief_node_id : string;
  Brief_node_name : option string;
  Brief_device_id : string;
  Brief_device_name : option string;
  Brief_vpn_ip : option string;
  Brief_status : string;
  Brief_last_handshake : option datetime;
  Brief_endpoint : option string;
  Brief_online : bool }.

Record RemnawaveUserBrief := mkRemnawaveBrief {
  RwBrief_uuid : string;
  RwBrief_username : string;
  RwBrief_status : string;
  RwBrief_display : RemnawaveDisplay;
  RwBrief_description : option string;
  RwBrief_telegram_id : option Z;
  RwBrief_expire_at : option datetime;
  RwBrief_email : option string;
  RwBrief_tag : option string;
  RwBrief_traffic_used_bytes : Z;
  RwBrief_traffic_limit_bytes : Z;
  RwBrief_hwid_device_limit : option Z;
  RwBrief_local_traffic_used_bytes : Z;
  RwBrief_combined_traffic_used_bytes : Z;
  RwBrief_blocked_reason : option string;
  RwBrief_delete_requested_at : option datetime;
  RwBrief_last_synced_at : option datetime;
  RwBrief_sync_status : string;
  RwBrief_sync_reason : option string;
  RwBrief_sync_error : option string }.

Record UserWithPeers := mkUserWithPeers {
  UserWith_user : User;
  UserWith_peers : list PeerBrief;
  UserWith_online : bool;
  UserWith_remnawave : option RemnawaveUserBrief;
  UserWith_lifecycle : LocalUserLifecycle;
  UserWith_local_traffic : option LocalAmneziawgUserLifetimeTraffic;
  UserWith_effective_device_limit : Z;
  UserWith_device_count : Z;
  UserWith_devices : list AdminDevice }.

Definition peer_brief (d : db) (at_ : datetime) (threshold_seconds : Z) (p : Peer) : PeerBrief :=
  let device := devices d !! Peer_device_id p in
  mkPeerBrief (Peer_id p) (Peer_node_id p) (Node_name <$> nodes d !! Peer_node_id p)
    (Peer_device_id p) (Device_name <$> device) (device ≫= Device_vpn_ip) (Peer_status p)
    (Peer_last_handshake p) (Peer_endpoint p) (is_peer_online p threshold_seconds at_).

Definition remnawave_brief (at_ : datetime) (local_total : Z) (rw : RemnawaveUser)
    : RemnawaveUserBrief :=
  mkRemnawaveBrief (Rw_remnawave_uuid rw) (Rw_username rw) (Rw_status rw)
    (derive_remnawave_display (Rw_description rw) (Rw_telegram_id rw)) (Rw_description rw)
    (Rw_telegram_id rw) (Rw_expire_at rw) (Rw_email rw) (Rw_tag rw) (Rw_traffic_used_bytes rw)
    (Rw_traffic_limit_bytes rw) (Rw_hwid_device_limit rw) local_total
    (Rw_traffic_used_bytes rw + local_total)%Z (remnawave_blocked_reason at_ rw local_total)
    (Rw_delete_requested_at rw) (Rw_last_synced_at rw) (Rw_sync_status rw) (Rw_sync_reason rw)
    (Rw_sync_error rw).

Definition user_with_peers (d : db) (at_ : datetime) (threshold_seconds : Z) (node_list : list Node)
    (u : User) : UserWithPeers :=
  let local_traffic := user_lifetime d !! User_id u in
  let local_total := match local_traffic with
                     | Some row => UserLifetime_total_bytes row | None => 0%Z end in
  let owner_devices := live_devices (devices_of_user d (User_id u)) in
  let user_peers := peers_of_user d (User_id u) in
  let briefs := peer_brief d at_ threshold_seconds <$> user_peers in
  let remnawave := remnawave_of d (User_id u) in
  mkUserWithPeers u briefs (existsb Brief_online briefs)
    (remnawave_brief at_ local_total <$> remnawave) (local_lifecycle_brief at_ u local_total)
    local_traffic (int_or (owner_effective_device_limit u remnawave) 0)
    (Z.of_nat (length owner_devices)) (device_views owner_devices node_list user_peers).

(** The instants of one request are read once here. *)
Definition api_list_users (d : db) (at_ : datetime) : list UserWithPeers :=
  user_with_peers d at_ (online_threshold_seconds d)
    (order_by_str Node_name Node_id (rows (nodes d))) <$> rows (users d).

Record AdminUserDevices := mkAdminUserDevices {
  UserDevices_user_id : string;
  UserDevices_device_limit : Z;
  UserDevices_effective_device_limit : Z;
  UserDevices_device_count : Z;
  UserDevices_devices : list AdminDevice }.
Definition user_devices_view (d : db) (user : User) : AdminUserDevices :=
  mkAdminUserDevices (User_id user) (User_device_limit user)
    (int_or (owner_effective_device_limit user (remnawave_of d (User_id user))) 0)
    (count_live_devices d (User_id user)) (live_device_views d (User_id user)).

Definition api_user_devices (d : db) (user_id : string) : outcome AdminUserDevices :=
  match users d !! user_id with
  | None => Raise (HTTPException 404 "User not found")
  | Some user => Ok (user_devices_view d user)
  end.

(** ** Traffic reports *)
Definition get_user_or_404 (d : db) (user_id : string) : outcome User :=
  match users d !! user_id with
  | None => Raise (HTTPException 404 "User not found")
  | Some user => Ok user
  end.

(** [GROUP BY day, ORDER BY day] with the sums of both directions. *)
Definition add_day (acc : gmap Z (Z * Z)) (s : PeerTrafficSample) : gmap Z (Z * Z) :=
  let day := dt_date (Sample_sampled_at s) in
  let '(rx, tx) := default (0, 0)%Z (acc !! day) in
  <[day := (rx + Sample_rx_bytes s, tx + Sample_tx_bytes s)%Z]> acc.
Definition by_day (l : list (Z * (Z * Z))) : list (Z * (Z * Z)) :=
  order_by fst (fun _ => "") l.

Definition api_user_traffic (d : db) (user_id : string) (at_ : datetime) (days : Z)
    : outcome (list (Z * (Z * Z))) :=
  _ ← get_user_or_404 d user_id;
  since ← datetime_minus at_ days day_us;
  let rows := List.filter (fun s =>
    (instant since <=? instant (Sample_sampled_at s))%Z &&
    match peers d !! Sample_peer_id s with
    | Some p => Peer_user_id p == user_id | None => false end) (samples d) in
  Ok (by_day (map_to_list (foldl add_day ∅ rows))).

(** Received, sent, total, and when they were last updated. *)
Definition api_user_local_traffic_lifetime (d : db) (user_id : string)
    : outcome (Z * Z * Z * option datetime) :=
  _ ← get_user_or_404 d user_id;
  Ok match user_lifetime d !! user_id with
     | None => (0, 0, 0, None)%Z
     | Some row => (UserLifetime_rx_bytes row, UserLifetime_tx_bytes row,
                    UserLifetime_total_bytes row, Some (UserLifetime_updated_at row))
     end.

(** The first day of a report: the window, or the reset if that is later. *)
Definition report_since (at_ : datetime) (days : Z) (user : User) : outcome Z :=
  since ← datetime_minus at_ days day_us;
  Ok match User_traffic_reset_at user with
     | Some reset => Z.max (dt_date since) (dt_date reset)
     | None => dt_date since
     end.

Definition api_user_local_traffic_daily (d : db) (user_id : string) (at_ : datetime) (days : Z)
    : outcome (list LocalAmneziawgUserDailyTraffic) :=
  user ← get_user_or_404 d user_id;
  since ← report_since at_ days user;
  Ok (order_by UserDaily_day UserDaily_id
        (List.filter (fun row => (UserDaily_user_id row == user_id) &&
                                 (since <=? UserDaily_day row)%Z)
           (map_to_list (user_daily d)).*2)).

Definition api_user_local_traffic_nodes (d : db) (user_id : string)
    : outcome (list (Node * LocalAmneziawgUserNodeLifetimeTraffic)) :=
  _ ← get_user_or_404 d user_id;
  Ok (order_by_str (fun nr => Node_name nr.1) (fun nr => Node_id nr.1)
        (omap (fun row => (fun n => (n, row)) <$> nodes d !! UserNodeLifetime_node_id row)
           (List.filter (fun row => UserNodeLifetime_user_id row == user_id)
              (map_to_list (user_node_lifetime d)).*2))).

(** By day, then by the node's name and id. *)
Definition node_day_order (a b : Node * LocalAmneziawgUserNodeDailyTraffic) : Prop :=
  (UserNodeDaily_day a.2 < UserNodeDaily_day b.2)%Z ∨
  (UserNodeDaily_day a.2 = UserNodeDaily_day b.2 ∧
   ((Node_name a.1 ≠ Node_name b.1 ∧ String.le (Node_name a.1) (Node_name b.1)) ∨
    (Node_name a.1 = Node_name b.1 ∧ String.le (Node_id a.1) (Node_id b.1)))).
#[export] Instance node_day_order_dec : RelDecision node_day_order.
Proof. unfold node_day_order. intros a b. apply _. Defined.
Definition api_user_local_traffic_nodes_daily (d : db) (user_id : string) (at_ : datetime) (days : Z)
    : outcome (list (Node * LocalAmneziawgUserNodeDailyTraffic)) :=
  user ← get_user_or_404 d user_id;
  since ← report_since at_ days user;
  Ok (merge_sort node_day_order
        (omap (fun row => (fun n => (n, row)) <$> nodes d !! UserNodeDaily_node_id row)
           (List.filter (fun row => (UserNodeDaily_user_id row == user_id) &&
                                    (since <=? UserNodeDaily_day row)%Z)
              (map_to_list (user_node_daily d)).*2))).

Section with_env.
Context `{Env}.

(** ** Guards *)
Definition the_user (user_id : string) : M User :=
  let* user := reads (fun d => users d !! user_id) in
  match user with
  | None => raise (HTTPException 404 "User not found")
  | Some user => retM user
  end.
(** An account the session holds: a later statement that finds it gone raises. *)
Definition modify_user (user_id : string) (f : User → User) : M unit :=
  let* user := reads (fun d => users d !! user_id) in
  match user with
  | None => raise (RuntimeError "stale row")
  | Some user => modify (update_user (f user))
  end.

Definition guard_not_remnawave_managed (user : User) : M unit :=
  let* managed := reads (fun d => remnawave_of d (User_id user)) in
  match managed with
  | Some _ => raise (HTTPException 409 REMNAWAVE_MANAGED_USER_CONFLICT_DETAIL)
  | None => retM tt
  end.

Definition enqueue_sync_nodes_for_user (user_id : string) : M unit :=
  let* node_ids := reads (fun d =>
    sorted_strings (elements (list_to_set (C := gset string)
      (Peer_node_id <$> peers_of_user d user_id)))) in
  for_each node_ids enqueue_sync.

(** ** Changes *)
Definition api_add_user (name : string) (device_limit : Z) : M User :=
  let* user := create_local_user name false device_limit in
  do* commit in
  retM user.

Definition api_update_device_limit (user_id : string) (device_limit : Z) : M AdminUserDevices :=
  let* user := try_except (lock_owner user_id) (fun exc =>
    match exc with
    | ValueError _ => raise (HTTPException 404 "User not found")
    | _ => raise exc
    end) in
  do* guard_not_remnawave_managed user in
  do* lift (int_column 32 device_limit) in
  let user := user <| User_device_limit := device_limit |> in
  do* modify (update_user user) in
  do* commit in
  reads (fun d => user_devices_view d user).

(** The shared tail: the lifecycle is applied, committed, and the owner's nodes are queued. *)
Definition apply_and_sync (user : User) (local_total_bytes : option Z) : M unit :=
  do* modify (update_user user) in
  do* apply_local_lifecycle_state user local_total_bytes in
  do* commit in
  enqueue_sync_nodes_for_user (User_id user).

Definition api_block_user (user_id : string) : M unit :=
  let* user := the_user user_id in
  do* guard_not_remnawave_managed user in
  apply_and_sync (user <| User_lifecycle_status := "blocked" |>) None.

Definition api_unblock_user (user_id : string) : M unit :=
  let* user := the_user user_id in
  do* guard_not_remnawave_managed user in
  let* local_total := reads (fun d => load_local_total_bytes d (User_id user)) in
  let* t := now in
  if match local_user_blocked_reason t user local_total with
     | Some r => r isin ["expired"; "limited"] | None => false end
  then raise (HTTPException 409 "User is blocked by lifecycle constraints")
  else apply_and_sync (user <| User_lifecycle_status := "active" |>) (Some local_total).

Definition api_update_local_lifecycle (user_id : string) (expire_at : option datetime)
    (traffic_limit_bytes : Z) (traffic_reset_policy : string) : M unit :=
  let* user := the_user user_id in
  do* guard_not_remnawave_managed user in
  do* lift (int_column 64 traffic_limit_bytes) in
  apply_and_sync (user <| User_expire_at := expire_at |>
                       <| User_traffic_limit_bytes := traffic_limit_bytes |>
                       <| User_traffic_reset_policy := traffic_reset_policy |>) None.

Definition api_reset_local_traffic (user_id : string) : M unit :=
  let* user := the_user user_id in
  do* guard_not_remnawave_managed user in
  if User_traffic_reset_policy user != "manual"
  then raise (HTTPException 409 "Traffic reset is disabled for this user")
  else
    let* t := now in
    do* modify (reset_local_traffic_usage t user) in
    apply_and_sync (user <| User_traffic_reset_at := Some t |>) (Some 0%Z).

Definition api_regenerate_public_link (user_id : string) : M (string * string) :=
  let* user := the_user user_id in
  do* guard_not_remnawave_managed user in
  let* public_token := draw random_token in
  do* race in
  let* taken := reads (fun d => existsb (fun w =>
    (User_public_token w == public_token) && (User_id w != user_id)) (rows (users d))) in
  if (taken : bool) then raise (IntegrityError "users_public_token_key") else
  do* modify_user user_id (fun u => u <| User_public_token := public_token |>) in
  do* commit in
  retM (public_token, "/u/" +:+ public_token).

(** The nodes are those of the peers loaded before the deletion. *)
Definition api_delete_user (user_id : string) : M unit :=
  let* user := the_user user_id in
  do* guard_not_remnawave_managed user in
  let* node_ids := reads (fun d =>
    sorted_strings (elements (list_to_set (C := gset string)
      (Peer_node_id <$> peers_of_user d user_id)))) in
  do* modify (delete_user user_id) in
  do* commit in
  for_each node_ids enqueue_sync.
End with_env.

(** ** The invariants *)
Section invariants.
Context `{EnvLaws}.

Lemma enqueue_sync_inv nid : inv_kept (enqueue_sync nid).
Proof.
  unfold enqueue_sync. session_steps;
    [apply pure_draw_preserves, pure_draw_new_operation|apply enqueue_operation_inv].
Qed.
Lemma enqueue_sync_nodes_for_user_inv uid : inv_kept (enqueue_sync_nodes_for_user uid).
Proof.
  unfold enqueue_sync_nodes_for_user. session_steps. apply preserves_for_each.
  intros. apply enqueue_sync_inv.
Qed.
#[local] Hint Resolve enqueue_sync_nodes_for_user_inv : preserves.

(** The account a handler found, unmanaged: the rest runs on the same session. *)
Lemma with_local_user_inv {A} uid (k : User → M A) :
  (∀ s u, holds db_inv s → users (work s) !! uid = Some u → User_id u = uid →
     remnawave_of (work s) uid = None → holds db_inv (k u s).2) →
  inv_kept (let* user := the_user uid in do* guard_not_remnawave_managed user in k user).
Proof.
  intros Hk s Hs. unfold the_user. rewrite !bind_run. unfold reads at 1.
  destruct (users (work s) !! uid) as [u|] eqn:Hu; [|done]. unfold retM at 1. cbv beta iota.
  assert (User_id u = uid) as Hid by apply (wf_user_id _ (proj1 (proj1 Hs)) _ _ Hu).
  unfold guard_not_remnawave_managed. rewrite !bind_run. unfold reads at 1.
  rewrite Hid. destruct (remnawave_of (work s) uid) eqn:Hr; [done|]. by apply Hk.
Qed.

Lemma apply_and_sync_inv uid u w total s :
  holds db_inv s → users (work s) !! uid = Some u → User_id w = uid →
  holds db_inv (apply_and_sync w total s).2.
Proof.
  intros [Hw Hc] Hu Hid. unfold apply_and_sync. rewrite bind_run. unfold modify at 1.
  cbv beta iota. set (s1 := s <| work := update_user w (work s) |>).
  assert (holds db_inv s1) as Hs1.
  { split; [|done]. apply (update_user_inv _ u); [done|by rewrite Hid]. }
  rewrite bind_run. pose proof (apply_local_lifecycle_state_run w total s1 Hs1) as Hrun.
  destruct (apply_local_lifecycle_state w total s1) as [[r|e] s2];
    (assert (holds db_inv s2) as Hs2; [apply Hrun; simpl; by rewrite lookup_insert_eq|]); [|done].
  revert s2 Hs2 Hrun. intros s2 Hs2 _. apply (preserves_bind (holds db_inv)); [|intros []|done];
    session_steps.
Qed.

Lemma api_add_user_inv name limit : inv_kept (api_add_user name limit).
Proof. unfold api_add_user. session_steps. Qed.

Lemma api_block_user_inv uid : inv_kept (api_block_user uid).
Proof. apply with_local_user_inv. intros s u Hs Hu Hid _. by eapply apply_and_sync_inv. Qed.
Lemma api_update_local_lifecycle_inv uid e l p : inv_kept (api_update_local_lifecycle uid e l p).
Proof.
  apply with_local_user_inv. intros s u Hs Hu Hid _. unfold int_column. rewrite bind_run. unfold lift.
  case_match; [by eapply apply_and_sync_inv|done].
Qed.
Lemma api_unblock_user_inv uid : inv_kept (api_unblock_user uid).
Proof.
  apply with_local_user_inv. intros s u Hs Hu Hid _. rewrite bind_run. unfold reads at 1.
  rewrite bind_run. unfold now, draw. set (s1 := s <| draws := _ |>).
  assert (holds db_inv s1) as Hs1 by apply Hs.
  match goal with |- context [if ?b then _ else _] => destruct b end; [done|].
  by apply (apply_and_sync_inv uid u).
Qed.
Lemma reset_local_traffic_usage_inv t u d :
  db_inv d → users d !! User_id u = Some u → db_inv (reset_local_traffic_usage t u d).
Proof.
  intros Hd Hu. unfold reset_local_traffic_usage. apply (update_user_inv _ u); [|done].
  match goal with |- db_inv ?d' => assert (core_eq d d') as <- by done end. done.
Qed.
Lemma api_reset_local_traffic_inv uid : inv_kept (api_reset_local_traffic uid).
Proof.
  apply with_local_user_inv. intros s u Hs Hu Hid _.
  destruct (User_traffic_reset_policy u != "manual"); [done|]. rewrite bind_run.
  unfold now, draw. rewrite bind_run. unfold modify at 1. cbv beta iota.
  apply (apply_and_sync_inv uid (u <| User_traffic_reset_at := Some (utc (clock (draws s))) |>)).
  - split; [|apply Hs]. apply reset_local_traffic_usage_inv; [apply Hs|by rewrite Hid].
  - simpl. by rewrite Hid, lookup_insert_eq.
  - done.
Qed.

Lemma modify_user_inv uid f :
  (∀ u, User_id (f u) = User_id u) → inv_kept (modify_user uid f).
Proof.
  intros Hf. apply preserves_bind_reads. intros s [Hw Hc].
  destruct (users (work s) !! uid) as [u|] eqn:E; [|done]. split; [|done].
  apply (update_user_inv _ u); [done|]. by rewrite Hf, (wf_user_id _ (proj1 Hw) _ _ E).
Qed.
Lemma api_regenerate_public_link_inv uid : inv_kept (api_regenerate_public_link uid).
Proof.
  unfold api_regenerate_public_link, the_user, guard_not_remnawave_managed. session_steps.
  by apply modify_user_inv.
Qed.
Lemma api_delete_user_inv uid : inv_kept (api_delete_user uid).
Proof.
  unfold api_delete_user, the_user, guard_not_remnawave_managed. session_steps.
  - apply holds_modify. intros d. apply delete_user_inv.
  - apply preserves_for_each. intros. apply enqueue_sync_inv.
Qed.

Lemma api_update_device_limit_inv uid limit : inv_kept (api_update_device_limit uid limit).
Proof.
  intros s Hs. unfold api_update_device_limit. rewrite bind_run. unfold try_except.
  rewrite lock_owner_run.
  assert (holds db_inv (after_lock s)) as Hs1.
  { destruct Hs as [Hw Hc]. split; by apply concurrent_inv. }
  destruct (users (locked_view s) !! uid) as [u|] eqn:Hu; [|done].
  rewrite bind_run. unfold guard_not_remnawave_managed. rewrite bind_run. unfold reads at 1.
  destruct (remnawave_of (work (after_lock s)) (User_id u)); [done|]. unfold retM at 1. cbv beta iota.
  rewrite bind_run. unfold lift, int_column. destruct (fits 32 limit); [|exact Hs1]. cbv beta iota.
  rewrite bind_run. unfold modify at 1. cbv beta iota.
  match goal with |- holds db_inv (?m ?s0).2 => assert (holds db_inv s0) as Hs0 end.
  { split; [|apply Hs1]. apply (update_user_inv _ u); [apply Hs1|]. simpl.
    change (work (after_lock s)) with (locked_view s) in Hs1 |- *.
    by rewrite (wf_user_id _ (proj1 (proj1 Hs1)) _ _ Hu). }
  apply (preserves_bind (holds db_inv)); [apply holds_commit|intros; apply preserves_reads|exact Hs0].
Qed.
End invariants.

(** ** Properties *)

(** The administrator reads the reason the account policy enforces. For every profile, local
    traffic and instant, the blocked reason shown in the account list is the reason of the account
    status that decides whether the account may use its devices. *)
Lemma remnawave_reason_matches_policy t rw local_total :
  remnawave_blocked_reason t rw local_total =
  Status_reason (remnawave_account_status t rw local_total).
Proof.
  unfold remnawave_blocked_reason, remnawave_account_status.
  destruct (Rw_delete_requested_at rw != None); [done|]. cbn [orb].
  destruct (Rw_sync_status rw isin ["missing"; "stale"]); [done|].
  unfold dict_get, REMNAWAVE_STATUS_CODES. repeat (case_bool_decide; [done|]).
  case_match; [done|]. unfold aware. destruct (Rw_expire_at rw) as [e|]; [|done].
  destruct (dt_offset e == None); by case_match.
Qed.

Section effects.
Context `{EnvLaws} (d : db) (uid : string) (user : User) (n : nat).
Hypothesis Hd : db_inv d.
Hypothesis Huser : users d !! uid = Some user.
Hypothesis Hlocal : remnawave_of d uid = None.

Lemma user_key : User_id user = uid.
Proof. apply (wf_user_id _ (proj1 Hd) _ _ Huser). Qed.

(** The handler reaches its body on the session it started with. *)
Lemma local_user_run {A} (k : User → M A) :
  (let* user := the_user uid in do* guard_not_remnawave_managed user in k user) (start d n)
  = k user (start d n).
Proof.
  unfold the_user. rewrite !bind_run. unfold reads at 1. simpl. rewrite Huser.
  unfold retM at 1. cbv beta iota. unfold guard_not_remnawave_managed. rewrite !bind_run.
  unfold reads at 1. simpl. by rewrite user_key, Hlocal.
Qed.

Definition nodes_of_peers (d : db) : list string :=
  sorted_strings (elements (list_to_set (C := gset string) (Peer_node_id <$> peers_of_user d uid))).
Lemma elem_of_nodes_of_peers (d' : db) nid :
  nid ∈ nodes_of_peers d' ↔
  ∃ k p, peers d' !! k = Some p ∧ Peer_user_id p = uid ∧ Peer_node_id p = nid.
Proof.
  clear Hd Huser Hlocal. unfold nodes_of_peers. rewrite elem_of_sorted_strings, elem_of_elements, elem_of_list_to_set.
  rewrite list_elem_of_fmap. setoid_rewrite elem_of_peers_of_user. naive_solver.
Qed.
End effects.

(** Blocking a local account takes it down everywhere. The account is blocked and no longer
    active, every peer of it on every node waits for removal, and a sync has been recorded for every
    node that holds one; no other peer and no device changes, and the invariants hold. *)
Lemma block_user_takes_down `{EnvLaws} d uid user n :
  db_inv d → users d !! uid = Some user → remnawave_of d uid = None →
  ∃ s', api_block_user uid (start d n) = (Ok tt, s') ∧
    let d' := committed s' in
    db_inv d' ∧ devices d' = devices d ∧
    (∃ u, users d' !! uid = Some u ∧ User_is_blocked u = true ∧ User_lifecycle_status u ≠ "active") ∧
    (∀ k p, peers d' !! k = Some p → Peer_user_id p = uid → Peer_status p = "pending_delete") ∧
    (∀ k p, peers d !! k = Some p → Peer_user_id p ≠ uid → peers d' !! k = Some p) ∧
    (∀ k p, peers d !! k = Some p → Peer_user_id p = uid →
       sync_queued (Peer_node_id p) d' n (draws s')).
Proof.
  intros Hd Hu Hl. unfold api_block_user. rewrite (local_user_run d uid user n Hd Hu Hl).
  pose proof (user_key d uid user Hd Hu) as Hid. set (w := user <| User_lifecycle_status := "blocked" |>).
  unfold apply_and_sync. rewrite bind_run. unfold modify at 1. cbv beta iota. simpl.
  set (d1 := update_user w d).
  assert (db_inv d1) as Hd1 by (apply (update_user_inv _ user); [done|by rewrite <- Hu, <- Hid]).
  assert (users d1 !! User_id w = Some w) as Hw by (simpl; by rewrite lookup_insert_eq).
  unfold apply_local_lifecycle_state. rewrite !bind_run. unfold reads at 1. rewrite bind_run.
  unfold now, draw. rewrite bind_run. unfold transact at 1. simpl.
  set (t := utc (clock n)). set (total := load_local_total_bytes _ _).
  destruct (lifecycle_rows_eq d1 t total w Hd1 Hw) as (affected & E & _). rewrite E.
  assert (desired_lifecycle_status t w total ≠ "active") as Hdes.
  { unfold desired_lifecycle_status. repeat case_match; done. }
  rewrite (bool_decide_eq_false_2 (desired_lifecycle_status t w total = "active")) by done.
  rewrite andb_false_r. unfold retM at 1. cbv beta iota. rewrite bind_run. unfold commit at 1.
  cbv beta iota. simpl. unfold enqueue_sync_nodes_for_user. rewrite bind_run. unfold reads at 1.
  cbv beta iota. set (d2 := db_after d1 t total w). rewrite Hid.
  match goal with |- context [for_each ?l enqueue_sync ?s0] =>
    destruct (for_each_enqueue_sync l s0) as (s' & Es & Hw' & Hc & Hnil & Hdr & _ & Hq) end.
  exists s'. split; [exact Es|]. cbv zeta.
  assert (committed s' = work s') as ->.
  { destruct (decide (nodes_of_peers uid d2 = [])) as [Hz|Hz]; [by rewrite (Hnil Hz)|by apply Hc]. }
  rewrite Hw'. cbn [work].
  assert (blocking t total w = true) as Hblock.
  { unfold blocking. by rewrite bool_decide_eq_false_2. }
  assert (∀ k p, peers d !! k = Some p → peers d2 !! k = Some (if Peer_user_id p == uid
    then p <| Peer_status := status_after d1 t total w p |> else p)) as Hpeers.
  { intros k p Hk. unfold d2. simpl. unfold peers_after. rewrite lookup_fmap. simpl. rewrite Hk. simpl.
    by rewrite Hid. }
  split_and!.
  - match goal with |- db_inv ?d' => assert (core_eq d2 d') as <- by done end. by apply db_after_inv.
  - done.
  - exists (user_after t total w). simpl. rewrite <- Hid at 1. rewrite lookup_insert_eq. by split_and!.
  - intros k p Hk Hpu. change (peers d2 !! k = Some p) in Hk.
    unfold d2 in Hk. simpl in Hk. unfold peers_after in Hk. rewrite lookup_fmap in Hk. simpl in Hk.
    destruct (peers d !! k) as [q|] eqn:Eq; [|done]. simpl in Hk. injection Hk as <-.
    assert (Peer_user_id q = uid) as Hqu by (by case_match).
    rewrite Hid, bool_decide_eq_true_2 by done. simpl. unfold status_after, lifecycle_status.
    by rewrite Hblock.
  - intros k p Hk Hpu. change (peers d2 !! k = Some p). rewrite (Hpeers k p Hk).
    by rewrite bool_decide_eq_false_2.
  - intros k p Hk Hpu.
    assert (sync_queued (Peer_node_id p) (work s') (S n) (draws s')) as (j & o & Hj & Ho).
    { assert (Peer_node_id p ∈ nodes_of_peers uid d2) as Hin; [|exact (Hq _ Hin)].
      rewrite elem_of_nodes_of_peers. eexists k, _. split; [by apply Hpeers|]. by case_match. }
    exists j, o. split; [lia|]. exact Ho.
Qed.

Lemma block_user_takes_down_witness :
  db_inv sample_db ∧ ∃ s', api_block_user "u" (start sample_db 0) = (Ok tt, s') ∧
    sync_queued "b" (committed s') 0 (draws s').
Proof.
  split; [exact sample_db_inv|].
  destruct (block_user_takes_down sample_db "u" (sample_user "u" 2) 0 sample_db_inv)
    as (s' & E & _ & _ & _ & _ & _ & Hq); [reflexivity|reflexivity|].
  exists s'. split; [exact E|].
  exact (Hq "q" (sample_peer "q" "b" "u" "d" "pending") eq_refl eq_refl).
Defined.


