(* ===== verification/NodeApi.v ===== *)
(** * The administrator's API: nodes and operations

    [panel/backend/app/routers/api_parts/nodes.py] (adding, provisioning, updating, deleting and
    listing nodes, and their traffic) and [api_parts/operations.py] (reading and retrying
    operations, triggering a sync). *)
From S2P Require Import Prelude PyStr Json Bytes Models Session Sample Secrets Accounts Crypto.
From S2P Require Import AccountPolicy Devices Lifecycle Jobs Display NodeSync RemnawaveSync WorkerApi.
From S2P Require Import UserApi.

(** ** Input *)

(** A new node: the required columns, the listening port and the tunnel parameters. *)
Record NodeIn := mkNodeIn {
  NodeIn_name : string;
  NodeIn_url : string;
  NodeIn_token : string;
  NodeIn_server_endpoint : option string;
  NodeIn_listen_port : option Z;
  NodeIn_jc : option Z; NodeIn_jmin : option Z; NodeIn_jmax : option Z;
  NodeIn_s1 : option Z; NodeIn_s2 : option Z; NodeIn_s3 : option Z; NodeIn_s4 : option Z;
  NodeIn_h1 : option string; NodeIn_h2 : option string; NodeIn_h3 : option string;
  NodeIn_h4 : option string;
  NodeIn_i1 : option string; NodeIn_i2 : option string; NodeIn_i3 : option string;
  NodeIn_i4 : option string; NodeIn_i5 : option string;
  NodeIn_mtu : option string }.

Definition new_node (id : string) (t : datetime) (priv pub : string) (data : NodeIn) : Node :=
  {| Node_id := id; Node_name := NodeIn_name data; Node_url := NodeIn_url data;
     Node_token := NodeIn_token data; Node_created_at := t; Node_health_status := "unknown";
     Node_last_seen_at := None; Node_reachability_status := "unknown";
     Node_last_heartbeat_at := None; Node_last_heartbeat_error := None;
     Node_sync_status := "pending"; Node_sync_error := None; Node_last_synced_at := None;
     Node_provision_status := "pending"; Node_private_key := Some priv;
     Node_server_public_key := Some pub; Node_server_endpoint := NodeIn_server_endpoint data;
     Node_listen_port := NodeIn_listen_port data; Node_jc := NodeIn_jc data;
     Node_jmin := NodeIn_jmin data; Node_jmax := NodeIn_jmax data; Node_s1 := NodeIn_s1 data;
     Node_s2 := NodeIn_s2 data; Node_s3 := NodeIn_s3 data; Node_s4 := NodeIn_s4 data;
     Node_h1 := NodeIn_h1 data; Node_h2 := NodeIn_h2 data; Node_h3 := NodeIn_h3 data;
     Node_h4 := NodeIn_h4 data; Node_i1 := NodeIn_i1 data; Node_i2 := NodeIn_i2 data;
     Node_i3 := NodeIn_i3 data; Node_i4 := NodeIn_i4 data; Node_i5 := NodeIn_i5 data;
     Node_mtu := NodeIn_mtu data; Node_last_error := None |}.

(** One field of an update that was set, [None] being an explicit null. *)
Inductive node_field :=
  | SetName (v : option string) | SetUrl (v : option string) | SetToken (v : option string)
  | SetServerEndpoint (v : option string)
  | SetJc (v : option Z) | SetJmin (v : option Z) | SetJmax (v : option Z)
  | SetS1 (v : option Z) | SetS2 (v : option Z) | SetS3 (v : option Z) | SetS4 (v : option Z)
  | SetH1 (v : option string) | SetH2 (v : option string) | SetH3 (v : option string)
  | SetH4 (v : option string)
  | SetI1 (v : option string) | SetI2 (v : option string) | SetI3 (v : option string)
  | SetI4 (v : option string) | SetI5 (v : option string)
  | SetMtu (v : option string).

(** [setattr(node, field, value)]; a null in a required column is refused at the flush. *)
Definition set_node_field (f : node_field) (n : Node) : outcome Node :=
  let required (v : option string) (set : string → Node) :=
    match v with Some v => Ok (set v) | None => Raise (IntegrityError "not_null") end in
  match f with
  | SetName v => required v (fun v => n <| Node_name := v |>)
  | SetUrl v => required v (fun v => n <| Node_url := v |>)
  | SetToken v => required v (fun v => n <| Node_token := v |>)
  | SetServerEndpoint v => Ok (n <| Node_server_endpoint := v |>)
  | SetJc v => Ok (n <| Node_jc := v |>)
  | SetJmin v => Ok (n <| Node_jmin := v |>)
  | SetJmax v => Ok (n <| Node_jmax := v |>)
  | SetS1 v => Ok (n <| Node_s1 := v |>)
  | SetS2 v => Ok (n <| Node_s2 := v |>)
  | SetS3 v => Ok (n <| Node_s3 := v |>)
  | SetS4 v => Ok (n <| Node_s4 := v |>)
  | SetH1 v => Ok (n <| Node_h1 := v |>)
  | SetH2 v => Ok (n <| Node_h2 := v |>)
  | SetH3 v => Ok (n <| Node_h3 := v |>)
  | SetH4 v => Ok (n <| Node_h4 := v |>)
  | SetI1 v => Ok (n <| Node_i1 := v |>)
  | SetI2 v => Ok (n <| Node_i2 := v |>)
  | SetI3 v => Ok (n <| Node_i3 := v |>)
  | SetI4 v => Ok (n <| Node_i4 := v |>)
  | SetI5 v => Ok (n <| Node_i5 := v |>)
  | SetMtu v => Ok (n <| Node_mtu := v |>)
  end.
Fixpoint set_node_fields (fs : list node_field) (n : Node) : outcome Node :=
  match fs with
  | [] => Ok n
  | f :: fs => n ← set_node_field f n; set_node_fields fs n
  end.

(** ** Reports *)
Record NodeWithStatus := mkNodeWithStatus {
  NodeWith_node : Node;
  NodeWith_online : bool;
  NodeWith_online_peers_count : Z;
  NodeWith_online_threshold_seconds : Z }.
Definition api_list_nodes (d : db) (at_ : datetime) : list NodeWithStatus :=
  let threshold_seconds := online_threshold_seconds d in
  (fun node =>
     mkNodeWithStatus node (Node_reachability_status node == "reachable")
       (Z.of_nat (length (List.filter (fun p => is_peer_online p threshold_seconds at_)
                            (peers_of_node d (Node_id node))))) threshold_seconds)
  <$> rows (nodes d).

Record NodePeer := mkNodePeer {
  NodePeer_peer : Peer;
  NodePeer_is_blocked : option bool;
  NodePeer_user_name : option string;
  NodePeer_node_name : option string;
  NodePeer_device_name : option string;
  NodePeer_vpn_ip : option string;
  NodePeer_online : bool }.
Definition api_node_peers (d : db) (at_ : datetime) (node_id : string) : list NodePeer :=
  (fun p =>
     let device := devices d !! Peer_device_id p in
     mkNodePeer p (User_is_blocked <$> users d !! Peer_user_id p)
       (User_name <$> users d !! Peer_user_id p) (Node_name <$> nodes d !! Peer_node_id p)
       (Device_name <$> device) (device ≫= Device_vpn_ip)
       (is_peer_online p (online_threshold_seconds d) at_))
  <$> peers_of_node d node_id.

(** The sums over the accounts of the node, and their latest update. *)
Definition api_node_local_traffic (d : db) (node_id : string)
    : outcome (Z * Z * Z * option Z) :=
  match nodes d !! node_id with
  | None => Raise (HTTPException 404 "Node not found")
  | Some _ =>
      let l := List.filter (fun r => UserNodeLifetime_node_id r == node_id)
                 (map_to_list (user_node_lifetime d)).*2 in
      let sum (f : LocalAmneziawgUserNodeLifetimeTraffic → Z) := foldr (fun r acc => f r + acc)%Z 0%Z l in
      Ok (sum UserNodeLifetime_rx_bytes, sum UserNodeLifetime_tx_bytes,
          sum UserNodeLifetime_total_bytes,
          foldr (fun r acc => let t := instant (UserNodeLifetime_updated_at r) in
                              Some match acc with Some a => Z.max t a | None => t end) None l)
  end.

(** ** Operations *)
Definition RETRYABLE_OPERATION_KINDS : list string :=
  ["sync_all"; "sync_node"; "provision_node"; "cleanup_raw_traffic_samples";
   "remnawave_full_reconcile"; "remnawave_sync_user"; "remnawave_disable_user"].

Definition resolution_state (operation : AsyncOperation) : option string :=
  if Op_status operation == "failed_by_timeout" then Some "needs_manual_action"
  else if Op_status operation isin ["failed"; "enqueue_failed"] then Some "recoverable"
  else None.
Definition can_retry (operation : AsyncOperation) : bool :=
  (Op_kind operation isin RETRYABLE_OPERATION_KINDS) &&
  (Op_status operation isin ["failed"; "failed_by_timeout"; "enqueue_failed"]).

(** The serialized operation: the row, its resolution state and whether it can be retried. *)
Definition serialize_operation (operation : AsyncOperation) : AsyncOperation * option string * bool :=
  (operation, resolution_state operation, can_retry operation).

Definition api_get_operation (d : db) (operation_id : string)
    : outcome (AsyncOperation * option string * bool) :=
  match operations d !! operation_id with
  | None => Raise (HTTPException 404 "Operation not found")
  | Some operation => Ok (serialize_operation operation)
  end.
Definition api_list_operations (d : db) (status : option string) (limit : nat)
    : list (AsyncOperation * option string * bool) :=
  let wanted (o : AsyncOperation) :=
    match status with Some s => negb (truthy_str s) || (Op_status o == s) | None => true end in
  serialize_operation <$>
    take limit (order_by (fun o => - instant (Op_updated_at o))%Z Op_id
                  (select wanted (operations d))).

Section with_env.
Context `{Env}.

(** ** Nodes *)
Definition insert_node (node : Node) : M unit :=
  let* taken := reads (fun d => bool_decide (is_Some (nodes d !! Node_id node))) in
  if (taken : bool) then raise (IntegrityError "nodes_pkey") else modify (update_node node).

(** A refused publish also fails the provisioning of the node. *)
Definition enqueue_provision_operation (node_id : string) : M AsyncOperation :=
  let* operation := new_operation "provision_node" (Some "node") (Some node_id) in
  do* enqueue_operation operation (enqueue_provision_node node_id) in
  let* row := reads (fun d => default operation (operations d !! Op_id operation)) in
  do* (if Op_status row == "enqueue_failed" then
         do* modify_node node_id (fun n =>
           n <| Node_provision_status := "failed" |>
             <| Node_last_error := Some (str_or (Op_error row) "Failed to enqueue provision job") |>) in
         commit
       else retM tt) in
  retM row.

Definition api_add_node (data : NodeIn) : M string :=
  let* keys := generate_keypair in
  let* id := new_uuid in
  let* t := now in
  do* insert_node (new_node id t keys.1 keys.2 data) in
  do* create_pending_peers_for_node id in
  do* commit in
  do* enqueue_provision_operation id in
  retM id.

Definition api_provision_node (node_id : string) : M string :=
  let* node := reads (fun d => nodes d !! node_id) in
  match node with
  | None => raise (HTTPException 404 "Node not found")
  | Some node =>
      let* keys := if truthy (Node_private_key node) then retM None
                   else let* keys := generate_keypair in retM (Some keys) in
      do* modify_node node_id (fun n =>
        let n := match keys with
                 | Some (priv, pub) => n <| Node_private_key := Some priv |>
                                         <| Node_server_public_key := Some pub |>
                 | None => n
                 end in
        n <| Node_provision_status := "pending" |> <| Node_last_error := None |>) in
      do* commit in
      let* operation := enqueue_provision_operation node_id in
      retM (Op_id operation)
  end.

Definition api_update_node (node_id : string) (data : list node_field) : M unit :=
  let* node := reads (fun d => nodes d !! node_id) in
  match node with
  | None => raise (HTTPException 404 "Node not found")
  | Some node =>
      let* node := lift (set_node_fields data node) in
      do* modify (update_node (node <| Node_provision_status := "pending" |>)) in
      do* commit in
      do* enqueue_provision_operation node_id in
      retM tt
  end.

Definition api_delete_node (node_id : string) : M unit :=
  let* loaded := load_node_with_peers node_id true in
  let* device_ids := reads (fun d => list_to_set (C := gset string)
    (omap (fun pid => Peer_device_id <$> peers d !! pid) loaded.2)) in
  do* modify (delete_node node_id) in
  do* release_device_ips device_ids None in
  commit.

(** ** Operations *)
Definition enqueue_retry (operation : AsyncOperation) : M string :=
  let* retried := new_operation (Op_kind operation) (Op_target_type operation)
                    (Op_target_id operation) in
  let target := default "" (Op_target_id operation) in
  let kind := Op_kind operation in
  do* (if kind == "sync_all" then enqueue_operation retried enqueue_sync_all
       else if kind == "sync_node" then enqueue_operation retried (enqueue_sync_node target)
       else if kind == "provision_node" then
         enqueue_operation retried (enqueue_provision_node target)
       else if kind == "cleanup_raw_traffic_samples" then
         enqueue_operation retried enqueue_cleanup_raw_traffic_samples
       else if kind == "remnawave_full_reconcile" then
         enqueue_operation retried enqueue_remnawave_full_reconcile
       else if kind == "remnawave_sync_user" then
         enqueue_operation retried (enqueue_remnawave_sync_user target)
       else if kind == "remnawave_disable_user" then
         enqueue_operation retried (enqueue_remnawave_disable_user target)
       else raise (HTTPException 409 "Operation kind cannot be retried")) in
  retM (Op_id retried).

Definition api_trigger_sync : M string :=
  let* operation := new_operation "sync_all" (Some "all") None in
  do* enqueue_operation operation enqueue_sync_all in
  let* cleanup_operation := new_operation "cleanup_raw_traffic_samples" (Some "traffic") None in
  do* enqueue_operation cleanup_operation enqueue_cleanup_raw_traffic_samples in
  retM (Op_id operation).

Definition api_retry_operation (operation_id : string) : M string :=
  let* operation := reads (fun d => operations d !! operation_id) in
  match operation with
  | None => raise (HTTPException 404 "Operation not found")
  | Some operation =>
      if negb (can_retry operation) then raise (HTTPException 409 "Operation cannot be retried")
      else enqueue_retry operation
  end.
End with_env.

(** ** The invariants *)
Lemma insert_node_db_inv d n :
  db_inv d → nodes d !! Node_id n = None → db_inv (update_node n d).
Proof.
  intros [[] HT] Hn. split; [|done].
  assert (∀ k, is_Some (nodes d !! k) → is_Some (<[Node_id n:=n]> (nodes d) !! k)) as Hsome.
  { intros k Hk. rewrite lookup_insert. by case_decide. }
  split; simpl; try assumption; eauto.
  intros k r. rewrite lookup_insert. case_decide; [|eauto]. by intros [= <-].
Qed.

Lemma set_node_fields_id fs n n' : set_node_fields fs n = Ok n' → Node_id n' = Node_id n.
Proof.
  revert n. induction fs as [|f fs IH]; intros n; simpl; [by intros [= <-]|].
  destruct (set_node_field f n) as [m|e] eqn:E; simpl; [|done]. intros H. rewrite (IH _ H).
  destruct f as [[]|[]|[]| | | | | | | | | | | | | | | | | |]; simpl in E; by simplify_eq.
Qed.

Section invariants.
Context `{EnvLaws}.

Lemma new_operation_inv kind tt_ tid : inv_kept (new_operation kind tt_ tid).
Proof. apply pure_draw_preserves, pure_draw_new_operation. Qed.
#[local] Hint Resolve new_operation_inv : preserves.

Lemma generate_keypair_inv : inv_kept generate_keypair.
Proof. unfold generate_keypair. session_steps. Qed.
#[local] Hint Resolve generate_keypair_inv : preserves.

Lemma enqueue_provision_operation_inv nid : inv_kept (enqueue_provision_operation nid).
Proof.
  unfold enqueue_provision_operation. session_steps; [apply enqueue_operation_inv|].
  by apply modify_node_inv.
Qed.
#[local] Hint Resolve enqueue_provision_operation_inv : preserves.

Lemma insert_node_inv n : inv_kept (insert_node n).
Proof.
  apply preserves_bind_reads. intros s [Hw Hc]. case_bool_decide as Hn; [done|]. split; [|done].
  apply insert_node_db_inv; [done|]. by apply eq_None_not_Some.
Qed.

Lemma api_add_node_inv data : inv_kept (api_add_node data).
Proof. unfold api_add_node, new_uuid, now. session_steps. apply insert_node_inv. Qed.

Lemma api_provision_node_inv nid : inv_kept (api_provision_node nid).
Proof.
  unfold api_provision_node. session_steps.
  apply modify_node_inv. intros m. cbv zeta. by repeat case_match.
Qed.

Lemma api_update_node_inv nid data : inv_kept (api_update_node nid data).
Proof.
  apply preserves_bind_reads. intros s [Hw Hc].
  destruct (nodes (work s) !! nid) as [n|] eqn:E; [|done]. rewrite bind_run. unfold lift.
  destruct (set_node_fields data n) as [n'|e] eqn:Ef; [|done].
  assert (Node_id n' = nid) as Hid.
  { rewrite (set_node_fields_id _ _ _ Ef). apply (wf_node_id _ (proj1 Hw) _ _ E). }
  rewrite bind_run. unfold modify at 1. cbv beta iota.
  apply (preserves_bind (holds db_inv)); [apply holds_commit|intros []; session_steps|].
  split; [|done]. split; [|apply Hw].
  apply (update_node_wf _ n); [apply Hw| |]; simpl; rewrite (wf_node_id _ (proj1 Hw) _ _ E); by rewrite ?Hid.
Qed.

Lemma api_delete_node_inv nid : inv_kept (api_delete_node nid).
Proof.
  unfold api_delete_node. session_steps; [apply load_node_with_peers_inv|].
  apply holds_modify. intros d [Hwf HT]. split; [by apply delete_node_wf|by apply delete_node_tombstones].
Qed.

Lemma enqueue_retry_inv op : inv_kept (enqueue_retry op).
Proof. unfold enqueue_retry. session_steps; apply enqueue_operation_inv. Qed.
Lemma api_retry_operation_inv id : inv_kept (api_retry_operation id).
Proof. unfold api_retry_operation. session_steps. apply enqueue_retry_inv. Qed.
Lemma api_trigger_sync_inv : inv_kept api_trigger_sync.
Proof. unfold api_trigger_sync. session_steps; apply enqueue_operation_inv. Qed.
End invariants.

(** ** Properties *)
Section retry.
Context `{Env}.

(** Every retryable kind is dispatched to the publication of the same command. *)
Lemma enqueue_retry_run op s :
  Op_kind op ∈ RETRYABLE_OPERATION_KINDS →
  ∃ row s', enqueue_retry op s = (Ok (uuid4 (draws s)), s') ∧ Op_id row = uuid4 (draws s) ∧
    Op_kind row = Op_kind op ∧ Op_target_id row = Op_target_id op ∧
    Op_status row isin ["queued"; "enqueue_failed"] = true ∧
    work s' = update_operation row (work s) ∧ committed s' = work s'.
Proof.
  intros Hkind. unfold enqueue_retry. rewrite bind_run.
  destruct (new_operation (Op_kind op) (Op_target_type op) (Op_target_id op) s) as [r s1] eqn:E.
  unfold new_operation, new_uuid, now, draw, bindM, retM in E. simpl in E.
  injection E as <- <-. cbv beta iota zeta.
  match goal with |- context [enqueue_operation ?o enqueue_sync_all] => set (retried := o) end.
  match goal with |- context [bindM _ _ ?x] => set (s1 := x) end.
  assert (∀ c tt_ tid, ∃ row s', (do* enqueue_operation retried
      (fun o => enqueue_command c (payload_of c tt_ tid o)) in retM (Op_id retried)) s1
      = (Ok (uuid4 (draws s)), s') ∧ Op_id row = uuid4 (draws s) ∧
    Op_kind row = Op_kind op ∧ Op_target_id row = Op_target_id op ∧
    Op_status row isin ["queued"; "enqueue_failed"] = true ∧
    work s' = update_operation row (work s) ∧ committed s' = work s') as Hrun.
  { intros c tt_ tid.
    destruct (enqueue_operation_run retried c tt_ tid s1)
      as (row & s' & E & Hid & Hk & Ht & Hst & Hw & Hc & _).
    exists row, s'. rewrite bind_run, E. split_and!; try done.
    apply bool_decide_in_true. destruct Hst as [->|[-> _]]; set_solver. }
  unfold RETRYABLE_OPERATION_KINDS in Hkind. decompose_list_elem_of;
    match goal with Hk : Op_kind op = _ |- _ => rewrite Hk in Hrun |- * end;
    repeat match goal with |- context [if ?b then _ else _] =>
      let v := eval vm_compute in b in change b with v; cbv iota end;
    apply Hrun.
Qed.
End retry.

(** Retrying an operation re-issues the same command under a new operation. An operation is
    refused with 409, and nothing changes, exactly when it is not a failed one of a retryable kind;
    otherwise the request always succeeds, whatever the broker answers (every retryable kind is
    dispatched, so the dispatcher's own 409 is unreachable), and what it commits is one new row with
    the kind and the target of the old one, queued or marked [enqueue_failed]; every other row, the
    retried one included, stays as it was. *)
Lemma retry_reissues_command `{Env} id op s :
  operations (work s) !! id = Some op →
  match api_retry_operation id s with
  | (Ok new_id, s') =>
      can_retry op = true ∧ new_id = uuid4 (draws s) ∧
      ∃ row, Op_id row = new_id ∧ Op_kind row = Op_kind op ∧ Op_target_id row = Op_target_id op ∧
        Op_status row isin ["queued"; "enqueue_failed"] = true ∧
        committed s' = update_operation row (work s) ∧ work s' = committed s'
  | (Raise e, s') =>
      can_retry op = false ∧ e = HTTPException 409 "Operation cannot be retried" ∧ s' = s
  end.
Proof.
  intros Hop. unfold api_retry_operation. rewrite bind_run. unfold reads. rewrite Hop.
  destruct (can_retry op) eqn:Hcan; [|done]. cbv beta iota delta [negb].
  pose proof Hcan as Hk. unfold can_retry in Hk. apply andb_true_iff in Hk as [Hk _].
  apply bool_decide_in_true in Hk.
  destruct (enqueue_retry_run op s Hk) as (row & s' & -> & Hid & Hkind & Ht & Hst & Hw & Hc).
  split_and!; try done. exists row. split_and!; try done. by rewrite Hc.
Qed.

Lemma retry_reissues_command_witness :
  let failed := sample_operation <| Op_status := "failed" |> in
  (api_retry_operation "op-1" (start (update_operation failed sample_db) 0)).1 = Ok (uuid4 0) ∧
  can_retry failed = true ∧ can_retry sample_operation = false.
Proof.
  pose proof (retry_reissues_command "op-1" (sample_operation <| Op_status := "failed" |>)
    (start (update_operation (sample_operation <| Op_status := "failed" |>) sample_db) 0) eq_refl)
    as Hr.
  split; [|split; reflexivity].
  destruct (api_retry_operation _ _) as [[id|e] s'] eqn:E; simpl in *.
  - destruct Hr as (_ & -> & _). reflexivity.
  - destruct Hr as (Hc & _). discriminate Hc.
Defined.
