(* ===== verification/Downloads.v ===== *)
(** * Administrator downloads

    [panel/backend/app/routers/api_parts/configs.py] and the QR images of
    [services/node_config.py]: the configuration texts, QR codes and archives an administrator
    downloads for one device of an account, and the older routes pinned to the migration's default
    device. Compression and the drawing of a QR code are the class [Renderer]. *)
From Stdlib Require Import Ascii.
From S2P Require Import Prelude PyStr Json Bytes Models Session Sample Crypto NodeConfig AccountPolicy Devices UserApi.

(** ** QR images *)
Record QRStyle := mkQRStyle {
  QR_error : string; QR_scale : Z; QR_border : Z; QR_dark : string; QR_light : string }.

(** [zlib.compress] and [segno.make(...).save(kind='svg', ...)]; segno raises when the text does not
    fit a QR code. *)
Class Renderer := {
  zlib_compress : bytes → bytes;
  segno_svg : string → QRStyle → outcome bytes }.

(** A renderer for the witnesses: no compression, and the image is the text. *)
#[export] Instance sample_renderer : Renderer := {
  zlib_compress l := l;
  segno_svg data style := Ok (encode_utf8 data) }.

(** ** Answers *)
Inductive Body :=
  | BodyBytes (content : bytes)
  | BodyZip (entries : list (string * string)).
Record Response := mkResponse {
  Response_body : Body;
  Response_media_type : string;
  Response_disposition : option string }.

Definition NO_DEFAULT_DEVICE_DETAIL : string :=
  "User has no migration Default device; request one device explicitly via /api/users/{user_id}/devices/{device_id}/configs".
Definition NOTHING_READY_DETAIL : string := "No device configuration is available yet".
Definition AWG_QR_STYLE : QRStyle := mkQRStyle "m" 4 2 "#000000" "#ffffff".
Definition AMNEZIA_QR_STYLE : QRStyle := mkQRStyle "l" 4 2 "#000000" "#ffffff".

(** [peer.psk_key or ''] *)
Definition psk_of (peer : Peer) : string := str_or (Peer_psk_key peer) "".

Section images.
Context `{Renderer}.

Definition make_qr_svg (data : string) (style : QRStyle) : outcome bytes := segno_svg data style.

Definition make_awg_qr_svg (device : Device) (node : Node) (psk_key : string) (style : QRStyle)
    : outcome (option bytes) :=
  match build_awg_client_config device node psk_key with
  | Some config => if truthy_str config then Some <$> make_qr_svg config style else Ok None
  | None => Ok None
  end.

Definition make_amnezia_qr_svg (device : Device) (node : Node) (description psk_key : string)
    (style : QRStyle) : outcome (option bytes) :=
  chunks ← build_user_amnezia_qr_chunks zlib_compress device node description psk_key;
  match chunks with
  | Some [chunk] => Some <$> make_qr_svg chunk style
  | _ => Ok None
  end.
End images.

(** ** Resolution *)

(** Unknown, tombstoned and foreign devices are one answer. *)
Definition resolve_device (d : db) (user_id device_id : string) : outcome Device :=
  match devices d !! device_id with
  | Some device =>
      if (Device_user_id device != user_id) || negb (is_live device)
      then Raise (HTTPException 404 "Device not found") else Ok device
  | None => Raise (HTTPException 404 "Device not found")
  end.

Definition resolve_legacy_device (d : db) (user_id : string) : outcome Device :=
  match get_legacy_default_device d user_id with
  | Some device => if is_live device then Ok device
                   else Raise (HTTPException 409 NO_DEFAULT_DEVICE_DETAIL)
  | None => Raise (HTTPException 409 NO_DEFAULT_DEVICE_DETAIL)
  end.

Definition get_node_or_404 (d : db) (node_id : string) : outcome Node :=
  match nodes d !! node_id with
  | Some node => Ok node
  | None => Raise (HTTPException 404 "Node not found")
  end.

(** [SELECT ... FROM nodes ORDER BY name, id] *)
Definition ordered_nodes (d : db) : list Node := order_by_str Node_name Node_id (rows (nodes d)).

Definition ready_peer (d : db) (device : Device) (node : Node) : outcome Peer :=
  match get_device_peer d (Device_id device) (Node_id node) with
  | Some peer => if peer_available node device (Some peer) then Ok peer
                 else Raise (HTTPException 503 PENDING_CONFIG_DETAIL)
  | None => Raise (HTTPException 503 PENDING_CONFIG_DETAIL)
  end.

(** ** Configuration texts *)
Record ConfigEntry := mkConfigEntry {
  ConfigEntry_node_id : string;
  ConfigEntry_node_name : string;
  ConfigEntry_config : option string;
  ConfigEntry_reason : option string }.

Definition config_entry (d : db) (device : Device) (node : Node) : ConfigEntry :=
  let peer := get_device_peer d (Device_id device) (Node_id node) in
  let config :=
    match peer with
    | Some peer => if peer_available node device (Some peer)
                   then build_awg_client_config device node (psk_of peer) else None
    | None => None
    end in
  match config with
  | Some _ => mkConfigEntry (Node_id node) (Node_name node) config None
  | None =>
      let reason := if negb (node_metadata_cached node) then "node metadata not yet cached"
                    else PENDING_CONFIG_DETAIL in
      mkConfigEntry (Node_id node) (Node_name node) None (Some reason)
  end.
Definition config_entries (d : db) (device : Device) (node_list : list Node) : list ConfigEntry :=
  config_entry d device <$> node_list.

(** ** Archives *)
Definition ready_zip_entries (d : db) (devs : list Device) (folder_per_device : bool)
    : list ConfigZipEntry :=
  let node_list := ordered_nodes d in
  let grouped := peers_by_device
    (select (fun p => Peer_device_id p isin (Device_id <$> devs)) (peers d)) in
  device ← devs;
  let by_node := default ∅ (grouped !! Device_id device) in
  let folder := if folder_per_device then Some (device_archive_folder device) else None in
  omap (fun node =>
    match by_node !! Node_id node with
    | Some peer =>
        if peer_available node device (Some peer)
        then Some {| Entry_device := device; Entry_node := node; Entry_peer := peer;
                     Entry_name := config_entry_name device node folder |}
        else None
    | None => None
    end) node_list.

(** The naming loop of the archive always ends ([NodeConfig.configs_zip_complete]), so the last
    branch is never taken. *)
Definition zip_response (d : db) (devs : list Device) (filename : string) (folder_per_device : bool)
    : outcome Response :=
  match ready_zip_entries d devs folder_per_device with
  | [] => Raise (HTTPException 409 NOTHING_READY_DETAIL)
  | entries =>
      match build_configs_zip entries with
      | Some archive =>
          Ok (mkResponse (BodyZip archive) "application/zip" (Some (attachment_headers filename)))
      | None => Raise (RuntimeError "archive name loop")
      end
  end.

(** ** Answers for one device and node *)
Definition config_filename (device : Device) (node : Node) (extension : string) : string :=
  Device_name device +:+ "-" +:+ Node_name node +:+ extension.

Definition awg_config_response (device : Device) (node : Node) (peer : Peer) (filename : string)
    : outcome Response :=
  match build_awg_client_config device node (psk_of peer) with
  | Some config =>
      Ok (mkResponse (BodyBytes (encode_utf8 config)) "text/plain" (Some (attachment_headers filename)))
  | None => Raise (HTTPException 503 PENDING_CONFIG_DETAIL)
  end.

Section answers.
Context `{Renderer}.

Definition svg_response (svg : bytes) : Response :=
  mkResponse (BodyBytes svg) "image/svg+xml" None.

Definition awg_qr_response (device : Device) (node : Node) (peer : Peer) : outcome Response :=
  match build_awg_client_config device node (psk_of peer) with
  | Some config => svg_response <$> make_qr_svg config AWG_QR_STYLE
  | None => Raise (HTTPException 503 PENDING_CONFIG_DETAIL)
  end.

Definition amnezia_qr_response (device : Device) (node : Node) (peer : Peer) (description : string)
    : outcome Response :=
  chunks ← build_user_amnezia_qr_chunks zlib_compress device node description (psk_of peer);
  match chunks with
  | None => Raise (HTTPException 503 PENDING_CONFIG_DETAIL)
  | Some [chunk] => svg_response <$> make_qr_svg chunk AMNEZIA_QR_STYLE
  | Some [] => Raise (RuntimeError "list index out of range")
  | Some _ => Raise (HTTPException 400 "Config too large for a single QR code")
  end.
End answers.

Definition slashed (parts : list string) : string := join " / " parts.

(** ** Routes *)
Section with_env.
Context `{Env} `{Renderer}.

Definition guard_active_account (user_id : string) : M unit :=
  let* status := fresh_account_status user_id in
  if Status_code status != "active"
  then raise (HTTPException 403 ("Account is " +:+ Status_code status)) else retM tt.

(** [reads] of a lookup that may raise. *)
Definition fetch {A} (f : db → outcome A) : M A := let* o := reads f in lift o.

(** The device by id, the node, the guard, then the acknowledged peer. *)
Definition device_download {A} (user_id device_id node_id : string)
    (k : User → Device → Node → Peer → outcome A) : M A :=
  let* user := fetch (fun d => get_user_or_404 d user_id) in
  let* device := fetch (fun d => resolve_device d user_id device_id) in
  let* node := fetch (fun d => get_node_or_404 d node_id) in
  do* guard_active_account user_id in
  let* peer := fetch (fun d => ready_peer d device node) in
  lift (k user device node peer).
(** The same with the migration's default device. *)
Definition legacy_download {A} (user_id node_id : string)
    (k : User → Device → Node → Peer → outcome A) : M A :=
  let* user := fetch (fun d => get_user_or_404 d user_id) in
  let* device := fetch (fun d => resolve_legacy_device d user_id) in
  let* node := fetch (fun d => get_node_or_404 d node_id) in
  do* guard_active_account user_id in
  let* peer := fetch (fun d => ready_peer d device node) in
  lift (k user device node peer).

Definition api_device_configs (user_id device_id : string) : M (list ConfigEntry) :=
  let* _ := fetch (fun d => get_user_or_404 d user_id) in
  let* device := fetch (fun d => resolve_device d user_id device_id) in
  do* guard_active_account user_id in
  reads (fun d => config_entries d device (ordered_nodes d)).

Definition api_device_configs_zip (user_id device_id : string) : M Response :=
  let* user := fetch (fun d => get_user_or_404 d user_id) in
  let* device := fetch (fun d => resolve_device d user_id device_id) in
  do* guard_active_account user_id in
  fetch (fun d => zip_response d [device]
    (User_name user +:+ "-" +:+ Device_name device +:+ "-configs.zip") false).

Definition api_device_config_for_node (user_id device_id node_id : string) : M Response :=
  device_download user_id device_id node_id (fun _ device node peer =>
    awg_config_response device node peer (config_filename device node ".conf")).
Definition api_device_qr (user_id device_id node_id : string) : M Response :=
  device_download user_id device_id node_id (fun _ device node peer =>
    awg_qr_response device node peer).
Definition api_device_qr_amnezia (user_id device_id node_id : string) : M Response :=
  device_download user_id device_id node_id (fun user device node peer =>
    amnezia_qr_response device node peer
      (slashed [User_name user; Device_name device; Node_name node])).

Definition api_user_configs (user_id : string) : M (list ConfigEntry) :=
  let* _ := fetch (fun d => get_user_or_404 d user_id) in
  let* device := fetch (fun d => resolve_legacy_device d user_id) in
  do* guard_active_account user_id in
  reads (fun d => config_entries d device (ordered_nodes d)).

Definition api_user_configs_zip (user_id : string) : M Response :=
  let* user := fetch (fun d => get_user_or_404 d user_id) in
  let* devs := reads (fun d => live_devices (devices_of_user d user_id)) in
  do* guard_active_account user_id in
  match devs with
  | [] => raise (HTTPException 409 NOTHING_READY_DETAIL)
  | _ => fetch (fun d => zip_response d devs (User_name user +:+ "-configs.zip") true)
  end.

Definition api_user_config_for_node (user_id node_id : string) : M Response :=
  legacy_download user_id node_id (fun _ device node peer =>
    awg_config_response device node peer (config_filename device node ".conf")).
Definition api_user_qr (user_id node_id : string) : M Response :=
  legacy_download user_id node_id (fun _ device node peer => awg_qr_response device node peer).
Definition api_user_qr_amnezia (user_id node_id : string) : M Response :=
  legacy_download user_id node_id (fun user device node peer =>
    amnezia_qr_response device node peer (slashed [User_name user; Node_name node])).
End with_env.
