(* ===== verification/PublicPage.v ===== *)
(** * The public page

    [panel/backend/app/routers/user_page.py]: what the owner of an account sees and does through the
    public link - the dashboard, adding and deleting a device, and the downloads of a device's
    configuration, with the older routes pinned to the migration's default device. *)
From Stdlib Require Import Ascii.
From S2P Require Import Prelude PyStr Json Bytes Models Session Sample Secrets Accounts Crypto NodeConfig AccountPolicy Devices Jobs Events TelegramProxy Display UserApi Downloads.

Definition MAX_DEVICE_NAME_LENGTH : nat := 64.

(** ** Device names *)

(** [unicodedata.category(c).startswith('C')] on Latin-1: the control characters and the soft
    hyphen. Latin-1 text is its own NFC normal form. *)
Definition is_control (c : ascii) : bool :=
  let n := code c in (n <? 32)%nat || ((127 <=? n)%nat && (n <=? 159)%nat) || (n =? 173)%nat.

Definition normalize_device_name (raw : string) : outcome string :=
  let name := strip raw in
  if negb (truthy_str name) then Raise (HTTPException 422 "Device name must not be blank")
  else if MAX_DEVICE_NAME_LENGTH <? str_len name
  then Raise (HTTPException 422
    ("Device name must be at most " +:+ pretty (Z.of_nat MAX_DEVICE_NAME_LENGTH) +:+ " characters"))
  else if existsb is_control (of_str name)
  then Raise (HTTPException 422 "Device name must not contain control characters")
  else Ok name.

(** ** Dashboard *)
Record PublicSummary := mkPublicSummary {
  Summary_status : AccountStatus;
  Summary_managed : bool;
  Summary_expire_at : option datetime;
  Summary_last_synced_at : option datetime;
  Summary_used_bytes : Z;
  Summary_limit_bytes : option Z;
  Summary_local_used_bytes : Z;
  Summary_remote_used_bytes : Z;
  Summary_traffic_updated_at : option datetime;
  Summary_updated_at : option datetime }.

Definition public_dashboard_summary (at_ : datetime) (d : db) (user : User) : PublicSummary :=
  let local_traffic := user_lifetime d !! User_id user in
  let local_total := match local_traffic with
                     | Some row => UserLifetime_total_bytes row | None => 0%Z end in
  let rw := remnawave_of d (User_id user) in
  let remote_used := match rw with Some r => Rw_traffic_used_bytes r | None => 0%Z end in
  let traffic_limit :=
    match rw with
    | Some r => if (0 <? Rw_traffic_limit_bytes r)%Z then Some (Rw_traffic_limit_bytes r) else None
    | None => if (0 <? User_traffic_limit_bytes user)%Z then Some (User_traffic_limit_bytes user)
              else None
    end in
  let updated_at := rw ≫= Rw_last_synced_at in
  let updated_at :=
    match local_traffic with
    | Some row =>
        match updated_at with
        | None => Some (UserLifetime_updated_at row)
        | Some t => if (instant t <? instant (UserLifetime_updated_at row))%Z
                    then Some (UserLifetime_updated_at row) else Some t
        end
    | None => updated_at
    end in
  {| Summary_status := account_status at_ user local_total rw;
     Summary_managed := bool_decide (is_Some rw);
     Summary_expire_at := match rw with Some r => Rw_expire_at r | None => User_expire_at user end;
     Summary_last_synced_at := rw ≫= Rw_last_synced_at;
     Summary_used_bytes := (remote_used + local_total)%Z;
     Summary_limit_bytes := traffic_limit;
     Summary_local_used_bytes := local_total;
     Summary_remote_used_bytes := remote_used;
     Summary_traffic_updated_at := UserLifetime_updated_at <$> local_traffic;
     Summary_updated_at := updated_at |}.

Definition public_user_name (d : db) (user : User) : string :=
  match remnawave_of d (User_id user) with
  | None => User_name user
  | Some rw =>
      str_or (Display_name (derive_remnawave_display (Rw_description rw) (Rw_telegram_id rw)))
        (User_name user)
  end.

(** ** Devices *)
Definition peers_of_devices (d : db) (device_ids : list string) : gmap string (gmap string Peer) :=
  match device_ids with
  | [] => ∅
  | _ => peers_by_device (select (fun p => Peer_device_id p isin device_ids) (peers d))
  end.

Record NodeEntry := mkNodeEntry {
  NodeEntry_id : string;
  NodeEntry_name : string;
  NodeEntry_status : string;
  NodeEntry_ready : bool;
  NodeEntry_vpn_uri : option string }.

Record DeviceSummary := mkDeviceSummary {
  DeviceSummary_id : string;
  DeviceSummary_name : string;
  DeviceSummary_created_at : datetime;
  DeviceSummary_status : string;
  DeviceSummary_nodes : list NodeEntry }.

Record PublicTelegramProxy := mkPublicTelegramProxy {
  PublicProxy_enabled : bool;
  PublicProxy_primary_node_name : string;
  PublicProxy_tg_url : string;
  PublicProxy_https_url : string;
  PublicProxy_status : string }.

Record PublicInfo := mkPublicInfo {
  Info_user_name : string;
  Info_blocked : bool;
  Info_device_limit : Z;
  Info_device_count : Z;
  Info_telegram_proxy : option PublicTelegramProxy;
  Info_summary : PublicSummary;
  Info_nodes : list NodeEntry;
  Info_devices : list DeviceSummary;
  Info_can_add_device : bool }.

Section entries.
Context `{Renderer}.

(** A failure to build the link is logged and leaves it out. *)
Definition build_vpn_uri (device : Device) (node : Node) (peer : Peer) (description : string)
    : option string :=
  match build_user_amnezia_vpn_uri zlib_compress device node description (psk_of peer) with
  | Ok uri => uri
  | Raise _ => None
  end.

Definition node_entry (device : Device) (authorized : bool) (description : Node → string)
    (node : Node) (peer : option Peer) : NodeEntry :=
  let ready := peer_available node device peer && authorized in
  {| NodeEntry_id := Node_id node; NodeEntry_name := Node_name node;
     NodeEntry_status := node_status node device peer;
     NodeEntry_ready := ready;
     NodeEntry_vpn_uri :=
       if ready then p ← peer; build_vpn_uri device node p (description node) else None |}.

Definition device_nodes (device : Device) (node_list : list Node) (by_node : gmap string Peer)
    (authorized : bool) (user_name : string) : list NodeEntry :=
  (fun node =>
     node_entry device authorized
       (fun node => slashed [user_name; Device_name device; Node_name node]) node
       (by_node !! Node_id node)) <$> node_list.

Definition device_status (entries : list NodeEntry) : string :=
  aggregate_device_status (NodeEntry_status <$> entries) (existsb NodeEntry_ready entries).

Definition device_summary (device : Device) (entries : list NodeEntry) : DeviceSummary :=
  mkDeviceSummary (Device_id device) (Device_name device) (Device_created_at device)
    (device_status entries) entries.

(** The pre-device field: live peers of the migration's device, nothing for a blocked account. *)
Definition legacy_nodes (d : db) (user : User) (grouped : gmap string (gmap string Peer))
    (authorized : bool) (user_name : string) : list NodeEntry :=
  if User_is_blocked user then [] else
  match get_legacy_default_device d (User_id user) with
  | Some legacy_device =>
      if is_live legacy_device then
        let legacy_peers := default ∅ (grouped !! Device_id legacy_device) in
        omap (fun node =>
          match legacy_peers !! Node_id node with
          | Some peer =>
              if Peer_status peer isin LIVE_PEER_STATUSES then
                Some (node_entry legacy_device authorized
                        (fun node => slashed [user_name; Node_name node]) node (Some peer))
              else None
          | None => None
          end) (ordered_nodes d)
      else []
  | None => []
  end.

(** ** Download answers *)
Definition PUBLIC_AWG_QR_STYLE : QRStyle := mkQRStyle "m" 3 2 "#111827" "#ffffff".
Definition PUBLIC_VPN_QR_STYLE : QRStyle := mkQRStyle "l" 3 2 "#111827" "#ffffff".

Definition make_vpn_qr_svg (device : Device) (node : Node) (description psk_key : string)
    : option bytes :=
  match make_amnezia_qr_svg device node description psk_key PUBLIC_VPN_QR_STYLE with
  | Ok svg => svg
  | Raise _ => None
  end.

Definition vpn_config_response (device : Device) (node : Node) (peer : Peer)
    (description filename : string) : outcome Response :=
  match build_user_amnezia_config_json device node description (psk_of peer) with
  | Some json_bytes =>
      Ok (mkResponse (BodyBytes json_bytes) "application/octet-stream"
            (Some (attachment_headers filename)))
  | None => Raise (HTTPException 503 PENDING_CONFIG_DETAIL)
  end.

Definition public_awg_qr_response (device : Device) (node : Node) (peer : Peer) : outcome Response :=
  svg ← make_awg_qr_svg device node (psk_of peer) PUBLIC_AWG_QR_STYLE;
  match svg with
  | Some (_ :: _ as svg) => Ok (svg_response svg)
  | _ => Raise (HTTPException 503 PENDING_CONFIG_DETAIL)
  end.

Definition vpn_qr_response (device : Device) (node : Node) (peer : Peer) (description : string)
    : outcome Response :=
  match make_vpn_qr_svg device node description (psk_of peer) with
  | Some (_ :: _ as svg) => Ok (svg_response svg)
  | _ => Raise (HTTPException 503 "Configuration not available or too large for QR")
  end.

Definition vpn_chunks_response (device : Device) (node : Node) (peer : Peer) (description : string)
    : outcome (list bytes) :=
  chunks ← build_user_amnezia_qr_chunks zlib_compress device node description (psk_of peer);
  match chunks with
  | None => Raise (HTTPException 503 PENDING_CONFIG_DETAIL)
  | Some chunks => map_outcome (fun chunk => make_qr_svg chunk PUBLIC_VPN_QR_STYLE) chunks
  end.
End entries.

(** ** Routes *)
Section with_env.
Context `{Env} `{Vault} `{Renderer}.

Definition get_public_user (token_or_id : string) : M (option User) :=
  fetch (fun d => resolve_public_user d token_or_id).

Definition public_user_or_404 (token_or_id : string) : M User :=
  let* user := get_public_user token_or_id in
  match user with
  | Some user => retM user
  | None => raise (HTTPException 404 "Not Found")
  end.

Definition public_summary (user : User) : M PublicSummary :=
  let* t := now in reads (fun d => public_dashboard_summary t d user).

Definition public_guard (user : User) : M unit :=
  if User_is_blocked user then raise (HTTPException 403 "Account is blocked") else
  let* summary := public_summary user in
  let code := Status_code (Summary_status summary) in
  if code != "active" then raise (HTTPException 403 ("Account is " +:+ code)) else retM tt.

Definition public_telegram_proxy : M (option PublicTelegramProxy) :=
  let* settings := get_tg_settings in
  if TgSettings_enabled settings && (TgSettings_secret_encrypted settings != None) then
    let* state := try_except (fetch (fun d => select_primary_node_state d settings))
      (fun exc => match exc with TypeError _ | ValueError _ => retM None | _ => raise exc end) in
    match state, TgSettings_primary_node_id settings with
    | Some state, Some node_id =>
        let* secret := lift (MtproxyCrypto.decrypt (TgSettings_secret_encrypted settings)) in
        let* node := reads (fun d => nodes d !! node_id) in
        match TgState_public_host state, TgState_public_port state, secret, node with
        | Some host, Some port, Some secret, Some node =>
            let* links := lift (build_proxy_links host (PortInt port) secret
                                  (TgSettings_tls_domain settings)) in
            retM (Some (mkPublicTelegramProxy true (Node_name node) (tg_url links) (t_me_url links)
                          (TgState_status state)))
        | _, _, _, _ => retM None
        end
    | _, _ => retM None
    end
  else retM None.

(** Device, peers and operation rows are committed before the first publish. *)
Definition persist_and_publish_sync (node_ids : list string) : M unit :=
  let* operations := for_fold (fun acc node_id =>
    let* operation := new_operation "sync_node" (Some "node") (Some node_id) in
    retM (acc ++ [(operation, node_id)])) [] node_ids in
  match operations with
  | [] => commit
  | _ =>
      do* for_each operations (fun on => modify (update_operation on.1)) in
      do* commit in
      for_each operations (fun on => enqueue_operation on.1 (enqueue_sync_node on.2))
  end.

Definition pub_user_info (token_or_id : string) : M PublicInfo :=
  let* user := public_user_or_404 token_or_id in
  let* summary := public_summary user in
  let* telegram_proxy := public_telegram_proxy in
  reads (fun d =>
    let user_name := public_user_name d user in
    let device_limit := effective_device_limit d (User_id user) in
    let device_count := count_live_devices d (User_id user) in
    let authorized := Status_code (Summary_status summary) == "active" in
    let devs := list_live_devices d (User_id user) in
    let grouped := peers_of_devices d (Device_id <$> devs) in
    {| Info_user_name := user_name;
       Info_blocked := User_is_blocked user;
       Info_device_limit := default 0%Z device_limit;
       Info_device_count := device_count;
       Info_telegram_proxy := telegram_proxy;
       Info_summary := summary;
       Info_nodes := legacy_nodes d user grouped authorized user_name;
       Info_devices := (fun device =>
         device_summary device
           (device_nodes device (ordered_nodes d) (default ∅ (grouped !! Device_id device))
              authorized user_name)) <$> devs;
       Info_can_add_device := authorized &&
         match device_limit with None => true | Some limit => (device_count <? limit)%Z end |}).

Definition pub_add_device (token_or_id raw_name : string) : M DeviceSummary :=
  let* user := public_user_or_404 token_or_id in
  let* name := lift (normalize_device_name raw_name) in
  do* public_guard user in
  let* created := try_except (create_device (User_id user) name)
    (fun exc =>
       match exc with
       | AccountInactiveError code _ => raise (HTTPException 403 ("Account is " +:+ code))
       | DeviceLimitExceededError limit _ =>
           raise (HTTPException 409 ("Device limit " +:+ pretty limit +:+ " reached"))
       | DeviceIpPoolExhaustedError _ => raise (HTTPException 503 (exn_text exc))
       | _ => raise exc
       end) in
  let '(device, node_ids) := created in
  let* node_list := reads ordered_nodes in
  let* grouped := reads (fun d => peers_of_devices d [Device_id device]) in
  do* notify_user_changes {[User_id user]} REASON_DEVICE_CREATED in
  do* persist_and_publish_sync (sorted_strings (elements (node_ids : gset string))) in
  reads (fun d =>
    device_summary device
      (device_nodes device node_list (default ∅ (grouped !! Device_id device)) true
         (public_user_name d user))).

(** The answer: the device row as left by the deletion and the owner's live devices. *)
Definition pub_delete_device (token_or_id device_id : string) : M (Device * Z) :=
  let* user := get_public_user token_or_id in
  let* device := reads (fun d => devices d !! device_id) in
  match user, device with
  | Some user, Some device =>
      if Device_user_id device != User_id user then raise (HTTPException 404 "Not Found") else
      let* node_ids := delete_device device None in
      do* notify_user_changes {[User_id user]} REASON_DEVICE_DELETED in
      do* persist_and_publish_sync (sorted_strings (elements (node_ids : gset string))) in
      reads (fun d => (default device (devices d !! device_id),
                       count_live_devices d (User_id user)))
  | _, _ => raise (HTTPException 404 "Not Found")
  end.

(** ** Downloads *)
Definition resolve_device_download {A} (token_or_id device_id node_id : string)
    (k : db → User → Device → Node → Peer → outcome A) : M A :=
  let* user := get_public_user token_or_id in
  let* device := reads (fun d => devices d !! device_id) in
  match user, device with
  | Some user, Some device =>
      if (Device_user_id device != User_id user) || negb (is_live device)
      then raise (HTTPException 404 "Not Found") else
      let* node := reads (fun d => nodes d !! node_id) in
      match node with
      | None => raise (HTTPException 404 "Not Found")
      | Some node =>
          do* public_guard user in
          let* peer := fetch (fun d => ready_peer d device node) in
          fetch (fun d => k d user device node peer)
      end
  | _, _ => raise (HTTPException 404 "Not Found")
  end.

Definition resolve_legacy_download {A} (token_or_id node_id : string)
    (k : db → User → Device → Node → Peer → outcome A) : M A :=
  let* user := public_user_or_404 token_or_id in
  let* node := reads (fun d => nodes d !! node_id) in
  match node with
  | None => raise (HTTPException 404 "Not Found")
  | Some node =>
      let* device := reads (fun d => get_legacy_default_device d (User_id user)) in
      match device with
      | Some device =>
          if negb (is_live device) then raise (HTTPException 404 "Not Found") else
          do* public_guard user in
          let* peer := fetch (fun d => ready_peer d device node) in
          fetch (fun d => k d user device node peer)
      | None => raise (HTTPException 404 "Not Found")
      end
  end.

(** The description shown by the client, with the device. *)
Definition device_description (d : db) (user : User) (device : Device) (node : Node) : string :=
  slashed [public_user_name d user; Device_name device; Node_name node].

Definition pub_device_awg_config (token_or_id device_id node_id : string) : M Response :=
  resolve_device_download token_or_id device_id node_id (fun _ _ device node peer =>
    awg_config_response device node peer (config_filename device node ".conf")).
Definition pub_device_vpn_config (token_or_id device_id node_id : string) : M Response :=
  resolve_device_download token_or_id device_id node_id (fun d user device node peer =>
    vpn_config_response device node peer (device_description d user device node)
      (config_filename device node ".vpn")).
Definition pub_device_awg_qr (token_or_id device_id node_id : string) : M Response :=
  resolve_device_download token_or_id device_id node_id (fun _ _ device node peer =>
    public_awg_qr_response device node peer).
Definition pub_device_vpn_qr (token_or_id device_id node_id : string) : M Response :=
  resolve_device_download token_or_id device_id node_id (fun d user device node peer =>
    vpn_qr_response device node peer (device_description d user device node)).
Definition pub_device_vpn_qr_chunks (token_or_id device_id node_id : string) : M (list bytes) :=
  resolve_device_download token_or_id device_id node_id (fun d user device node peer =>
    vpn_chunks_response device node peer (device_description d user device node)).

Definition legacy_description (user : User) (node : Node) : string :=
  slashed [User_name user; Node_name node].
Definition pub_awg_qr (token_or_id node_id : string) : M Response :=
  resolve_legacy_download token_or_id node_id (fun _ _ device node peer =>
    public_awg_qr_response device node peer).
Definition pub_vpn_qr (token_or_id node_id : string) : M Response :=
  resolve_legacy_download token_or_id node_id (fun _ user device node peer =>
    vpn_qr_response device node peer (legacy_description user node)).
Definition pub_vpn_qr_chunks (token_or_id node_id : string) : M (list bytes) :=
  resolve_legacy_download token_or_id node_id (fun _ user device node peer =>
    vpn_chunks_response device node peer (legacy_description user node)).
Definition pub_awg_config (token_or_id node_id : string) : M Response :=
  resolve_legacy_download token_or_id node_id (fun _ _ device node peer =>
    awg_config_response device node peer (config_filename device node ".conf")).
Definition pub_vpn_config (token_or_id node_id : string) : M Response :=
  resolve_legacy_download token_or_id node_id (fun _ user device node peer =>
    vpn_config_response device node peer (legacy_description user node)
      (config_filename device node ".vpn")).
End with_env.

(** ** The invariants *)
Lemma fetch_preserves {A} I (f : db → outcome A) : preserves I (fetch f).
Proof. unfold fetch. session_steps. Qed.
#[export] Hint Resolve fetch_preserves : preserves.

Section invariants.
Context `{EnvLaws} `{Vault} `{Renderer}.
Abbreviation kept := (preserves (holds db_inv)).

Lemma public_guard_inv user : kept (public_guard user).
Proof. unfold public_guard, public_summary, now. session_steps. Qed.
Lemma public_user_inv token : kept (public_user_or_404 token).
Proof. unfold public_user_or_404, get_public_user. session_steps. Qed.
#[local] Hint Resolve public_guard_inv public_user_inv : preserves.

Lemma public_telegram_proxy_inv : kept public_telegram_proxy.
Proof.
  unfold public_telegram_proxy. session_steps.
  all: try apply get_tg_settings_inv.
  all: apply preserves_try; intros; session_steps.
Qed.

Lemma persist_and_publish_sync_inv ids : kept (persist_and_publish_sync ids).
Proof.
  unfold persist_and_publish_sync. apply preserves_bind.
  - apply preserves_for_fold. intros. apply preserves_bind; [|intros; apply preserves_ret].
    apply pure_draw_preserves, pure_draw_new_operation.
  - intros [|on ons]; [apply holds_commit|].
    apply preserves_bind; [apply preserves_for_each; intros; apply holds_modify;
      intros d; apply update_operation_inv|intros _].
    apply preserves_bind; [apply holds_commit|intros _].
    apply preserves_for_each. intros x _. apply enqueue_operation_inv.
Qed.
#[local] Hint Resolve public_telegram_proxy_inv persist_and_publish_sync_inv : preserves.

Lemma pub_user_info_inv token : kept (pub_user_info token).
Proof. unfold pub_user_info, public_summary, now. session_steps. Qed.
Lemma pub_add_device_inv token name : kept (pub_add_device token name).
Proof.
  unfold pub_add_device. session_steps; try (apply preserves_try; intros; session_steps).
Qed.
Lemma pub_delete_device_inv token did : kept (pub_delete_device token did).
Proof. unfold pub_delete_device, get_public_user. session_steps. Qed.
Lemma resolve_device_download_inv {A} token did nid (k : db → _ → _ → _ → _ → outcome A) :
  kept (resolve_device_download token did nid k).
Proof. unfold resolve_device_download, get_public_user. session_steps. Qed.
Lemma resolve_legacy_download_inv {A} token nid (k : db → _ → _ → _ → _ → outcome A) :
  kept (resolve_legacy_download token nid k).
Proof. unfold resolve_legacy_download, get_public_user. session_steps. Qed.
End invariants.

(** ** When a download is served *)

(** The configuration of a device is served on a node: the account is active, the device is its own
    and live, and the node acknowledged the device's peer. *)
Definition servable (at_ : datetime) (d : db) (user : User) (device : Device) (node : Node)
    (peer : Peer) : Prop :=
  Status_code (db_account_status at_ d user) = "active" ∧ Device_user_id device = User_id user ∧
  get_device_peer d (Device_id device) (Node_id node) = Some peer ∧
  peer_available node device (Some peer) = true.

Section downloads.
Context `{Env} `{Vault} `{Renderer}.

(** The clock a request reads first. *)
Definition first_clock (s : session) : datetime := utc (clock (draws s)).
Definition one_draw (s : session) : session := s <| draws := S (draws s) |>.

Lemma public_guard_run user s :
  public_guard user s =
  if User_is_blocked user then (Raise (HTTPException 403 "Account is blocked"), s) else
  let status := db_account_status (first_clock s) (work s) user in
  (if Status_code status == "active" then Ok tt
   else Raise (HTTPException 403 ("Account is " +:+ Status_code status)), one_draw s).
Proof.
  unfold public_guard, public_summary. destruct (User_is_blocked user); [done|].
  rewrite !bind_run. cbn [now draw reads]. cbv zeta.
  change (Summary_status _) with (db_account_status (first_clock s) (work s) user).
  by destruct (_ == "active").
Qed.

Lemma guard_active_account_run uid user s :
  users (work s) !! uid = Some user →
  guard_active_account uid s =
  (let status := db_account_status (first_clock s) (work s) user in
   if Status_code status == "active" then Ok tt
   else Raise (HTTPException 403 ("Account is " +:+ Status_code status)), one_draw s).
Proof.
  intros Hu. unfold guard_active_account, fresh_account_status. rewrite !bind_run.
  unfold reads at 1. rewrite Hu, !bind_run. cbn [now draw reads]. cbv zeta.
  unfold first_clock. by destruct (_ == "active").
Qed.

Lemma public_guard_ok user s u s' :
  public_guard user s = (Ok u, s') ↔
  Status_code (db_account_status (first_clock s) (work s) user) = "active" ∧ s' = one_draw s.
Proof.
  rewrite public_guard_run. cbv zeta.
  destruct (User_is_blocked user) eqn:Hb.
  - split; [done|]. intros [Ha _]. apply account_active_not_blocked in Ha. congruence.
  - case_bool_decide as Ha; split; [intros [= <- <-]| |done|by intros [? _]]; [done|].
    destruct u. by intros [_ ->].
Qed.

Lemma ready_peer_ok d device node peer :
  ready_peer d device node = Ok peer ↔
  get_device_peer d (Device_id device) (Node_id node) = Some peer ∧
  peer_available node device (Some peer) = true.
Proof.
  unfold ready_peer. destruct (get_device_peer _ _ _) as [p|]; [|by split; [|intros [? _]]].
  destruct (peer_available node device (Some p)) eqn:E; split; try done.
  - by intros [= ->].
  - by intros [[= ->] _].
  - intros [[= ->] ?]. congruence.
Qed.

Lemma device_download_served {A} token did nid (k : db → User → Device → Node → Peer → outcome A)
    s a s' :
  resolve_device_download token did nid k s = (Ok a, s') ↔
  s' = one_draw s ∧ ∃ user device node peer,
    resolve_public_user (work s) token = Ok (Some user) ∧ devices (work s) !! did = Some device ∧
    nodes (work s) !! nid = Some node ∧
    servable (first_clock s) (work s) user device node peer ∧
    k (work s) user device node peer = Ok a.
Proof.
  unfold resolve_device_download, get_public_user, fetch. rewrite !bind_run. cbn [reads].
  unfold lift at 1. destruct (resolve_public_user (work s) token) as [[user|]|e] eqn:Eu.
  2: { rewrite bind_run. cbn [reads]. split; [done|]. by intros (_ & ? & ? & ? & ? & ? & _). }
  2: { split; [done|]. by intros (_ & ? & ? & ? & ? & ? & _). }
  rewrite bind_run. cbn [reads].
  destruct (devices (work s) !! did) as [device|] eqn:Ed;
    [|by split; [|intros (_ & ? & ? & ? & ? & _ & ? & _)]].
  case_bool_decide as Ho; cbn [negb orb].
  2: { split; [done|]. intros (_ & u & v & n & p & [= <-] & [= <-] & _ & (_ & Hu & _) & _). done. }
  destruct (is_live device) eqn:El; cbn [negb].
  2: { split; [done|]. intros (_ & u & v & n & p & _ & [= <-] & _ & (_ & _ & _ & Hav) & _).
       unfold peer_available in Hav. by rewrite El in Hav. }
  rewrite bind_run. cbn [reads].
  destruct (nodes (work s) !! nid) as [node|] eqn:En;
    [|by split; [|intros (_ & ? & ? & ? & ? & _ & _ & ? & _)]].
  rewrite bind_run.
  destruct (public_guard user s) as [[[]|e] s1] eqn:Eg.
  - apply public_guard_ok in Eg as [Ha ->]. rewrite !bind_run. cbn [reads]. unfold lift at 1.
    change (work (one_draw s)) with (work s).
    destruct (ready_peer (work s) device node) as [peer|e] eqn:Ep.
    + rewrite bind_run. cbn [reads]. change (work (one_draw s)) with (work s). unfold lift.
      apply ready_peer_ok in Ep as [Ep Hav]. split.
      * intros [= Hk <-]. split; [done|]. exists user, device, node, peer. done.
      * intros (-> & u & v & n & p & [= <-] & [= <-] & [= <-] & (_ & _ & Hp & _) & Hk).
        rewrite Ep in Hp. injection Hp as <-. by rewrite Hk.
    + split; [done|]. intros (_ & u & v & n & p & [= <-] & [= <-] & [= <-] & Hs & _).
      destruct Hs as (_ & _ & Hp & Hav).
      rewrite (proj2 (ready_peer_ok _ _ _ _) (conj Hp Hav)) in Ep. done.
  - split; [done|]. intros (_ & u & v & n & p & [= <-] & _ & _ & (Ha & _) & _).
    rewrite (proj2 (public_guard_ok user s tt (one_draw s)) (conj Ha eq_refl)) in Eg. done.
Qed.
End downloads.

(** ** Helpers of the properties *)
Lemma resolve_public_user_ok d token user :
  db_wf d → resolve_public_user d token = Ok (Some user) →
  users d !! User_id user = Some user ∧ (User_public_token user = token ∨ User_id user = token).
Proof.
  intros Hwf. unfold resolve_public_user, one_or_none.
  destruct (select _ (users d)) as [|u [|]] eqn:E; try done. intros [= ->].
  assert (user ∈ [user]) as Hin by left. rewrite <- E in Hin.
  apply elem_of_select in Hin as [[k Hk] Hp].
  split; [by rewrite (wf_user_id _ Hwf _ _ Hk)|].
  apply orb_true_iff in Hp as [Hp|Hp]; apply bool_decide_eq_true in Hp; [by left|by right].
Qed.

(** The status code a client sees: an unhandled exception is a server error. *)
Definition answer_code {A} (o : outcome A) : Z :=
  match o with Ok _ => 200 | Raise (HTTPException code _) => code | Raise _ => 500 end.

(** The configuration of a servable device exists. *)
Lemma servable_config at_ d user device node peer :
  servable at_ d user device node peer →
  ∃ sk ip pk ep,
    Device_private_key device = Some sk ∧ Device_vpn_ip device = Some ip ∧
    Node_server_public_key node = Some pk ∧ Node_server_endpoint node = Some ep ∧
    build_awg_client_config device node (psk_of peer) =
    Some (build_client_config (client_config_with (node_kwargs node) sk ip pk ep "" (psk_of peer)
            "1.1.1.1" "1376" "AmneziaVPN") None).
Proof.
  intros (_ & _ & _ & Hav). apply peer_available_true in Hav as (_ & q & _ & _ & Hm & Hc).
  unfold node_metadata_cached, device_credentials_ready in *. py_bool.
  unfold truthy in *. unfold build_awg_client_config, credentials. simpl.
  destruct (Node_server_public_key node) as [pk|]; [|done].
  destruct (Node_server_endpoint node) as [ep|]; [|done].
  destruct (Device_private_key device) as [sk|]; [|done].
  destruct (Device_vpn_ip device) as [ip|]; [|done].
  exists sk, ip, pk, ep.
  repeat match goal with Ht : truthy_str _ = true |- _ => rewrite Ht; clear Ht end. done.
Qed.

(** A unique peer is found by the lookup and by the grouped query alike. *)
Lemma get_device_peer_spec d did nid p :
  db_wf d →
  get_device_peer d did nid = Some p ↔
  (∃ k, peers d !! k = Some p) ∧ Peer_device_id p = did ∧ Peer_node_id p = nid.
Proof.
  intros Hwf. unfold get_device_peer.
  assert (∀ q, q ∈ select (fun p => (Peer_device_id p == did) && (Peer_node_id p == nid)) (peers d) ↔
    (∃ k, peers d !! k = Some q) ∧ Peer_device_id q = did ∧ Peer_node_id q = nid) as Hq.
  { intros q. by rewrite elem_of_select, andb_true_iff, !bool_decide_eq_true. }
  rewrite <- Hq. destruct (select _ _) as [|q l] eqn:E; simpl.
  - split; [done|by intros ?%elem_of_nil].
  - split; [intros [= ->]; left|]. intros Hp. f_equal.
    assert (q ∈ q :: l) as Hq' by left. apply Hq in Hp as ([k Hk] & ? & ?), Hq' as ([k' Hk'] & ? & ?).
    assert (k = k') as -> by (apply (wf_peer_unique _ Hwf _ _ _ _ Hk Hk'); congruence). congruence.
Qed.

Lemma peers_of_devices_lookup d ids did nid :
  db_wf d → did ∈ ids →
  default ∅ (peers_of_devices d ids !! did) !! nid = get_device_peer d did nid.
Proof.
  intros Hwf Hin. apply option_eq. intros p. rewrite get_device_peer_spec by done.
  unfold peers_of_devices. destruct ids as [|i ids]; [by apply elem_of_nil in Hin|].
  rewrite peers_by_device_lookup.
  - rewrite elem_of_select, bool_decide_in_true. split; [intros ([? _] & ? & ?); done|].
    intros (? & Hd & ?). by rewrite Hd.
  - intros x y [[k Hk] _]%elem_of_select [[k' Hk'] _]%elem_of_select H1 H2.
    assert (k = k') as -> by (by apply (wf_peer_unique _ Hwf _ _ _ _ Hk Hk')). congruence.
Qed.

Section more_downloads.
Context `{Env} `{Vault} `{Renderer}.

Lemma legacy_download_served {A} token nid (k : db → User → Device → Node → Peer → outcome A) s a s' :
  resolve_legacy_download token nid k s = (Ok a, s') →
  s' = one_draw s ∧ ∃ user device node peer,
    resolve_public_user (work s) token = Ok (Some user) ∧
    get_legacy_default_device (work s) (User_id user) = Some device ∧
    nodes (work s) !! nid = Some node ∧
    servable (first_clock s) (work s) user device node peer ∧
    k (work s) user device node peer = Ok a.
Proof.
  unfold resolve_legacy_download, public_user_or_404, get_public_user, fetch.
  rewrite !bind_run. cbn [reads]. unfold lift at 1.
  destruct (resolve_public_user (work s) token) as [[user|]|e] eqn:Eu; [|done|done].
  cbn [retM]. rewrite bind_run. cbn [reads].
  destruct (nodes (work s) !! nid) as [node|] eqn:En; [|done]. rewrite bind_run. cbn [reads].
  destruct (get_legacy_default_device (work s) (User_id user)) as [device|] eqn:Ed; [|done].
  destruct (is_live device) eqn:El; [|done]. cbn [negb]. rewrite bind_run.
  destruct (public_guard user s) as [[[]|e] s1] eqn:Eg; [|done].
  apply public_guard_ok in Eg as [Ha ->]. rewrite !bind_run. cbn [reads]. unfold lift at 1.
  change (work (one_draw s)) with (work s).
  destruct (ready_peer (work s) device node) as [peer|e] eqn:Ep; [|done].
  apply ready_peer_ok in Ep as [Ep Hav]. cbn [reads]. change (work (one_draw s)) with (work s).
  unfold lift. intros [= Hk <-]. split; [done|]. exists user, device, node, peer.
  split_and!; [done..| |done]. split_and!; [done| |done|done].
  unfold get_legacy_default_device in Ed. apply head_Some_elem_of in Ed.
  apply elem_of_order_by, elem_of_select in Ed as [_ Hd]. py_bool. done.
Qed.
End more_downloads.

(** ** Properties *)

(** C7: a device's configuration is served exactly when that is allowed. The public route answers
    with a configuration if and only if the link resolves to an account, the device is that account's
    own and live, the node exists, the account is active right now, and the node acknowledged the
    device's peer; the text then carries that device's private key and address, that node's key and
    endpoint and that peer's pre-shared key. In every other case it is refused, and in neither case
    is anything written. *)
Theorem device_config_served_iff `{Env} `{Vault} `{Renderer} token did nid s :
  let allowed user device node peer :=
    resolve_public_user (work s) token = Ok (Some user) ∧ devices (work s) !! did = Some device ∧
    nodes (work s) !! nid = Some node ∧ servable (first_clock s) (work s) user device node peer in
  match pub_device_awg_config token did nid s with
  | (Ok r, s') =>
      s' = one_draw s ∧ ∃ user device node peer sk ip pk ep, allowed user device node peer ∧
        Device_private_key device = Some sk ∧ Device_vpn_ip device = Some ip ∧
        Node_server_public_key node = Some pk ∧ Node_server_endpoint node = Some ep ∧
        Response_body r = BodyBytes (encode_utf8 (build_client_config
          (client_config_with (node_kwargs node) sk ip pk ep "" (psk_of peer)
             "1.1.1.1" "1376" "AmneziaVPN") None))
  | (Raise _, _) => ∀ user device node peer, ¬ allowed user device node peer
  end.
Proof.
  intros allowed. unfold pub_device_awg_config.
  match goal with |- context [resolve_device_download _ _ _ ?k s] =>
    pose proof (device_download_served token did nid k s) as Hserved; set (kk := k) in * end.
  destruct (resolve_device_download token did nid kk s) as [[r|e] s'] eqn:E.
  - destruct (proj1 (Hserved r s') eq_refl) as (-> & u & v & n & p & Hu & Hv & Hn & Hs & Hk).
    split; [done|]. destruct (servable_config _ _ _ _ _ _ Hs) as (sk & ip & pk & ep & ? & ? & ? & ? & Hc).
    exists u, v, n, p, sk, ip, pk, ep. split; [done|]. split_and!; [done..|].
    unfold kk, awg_config_response in Hk. rewrite Hc in Hk. by injection Hk as <-.
  - intros u v n p (Hu & Hv & Hn & Hs).
    destruct (servable_config _ _ _ _ _ _ Hs) as (sk & ip & pk & ep & _ & _ & _ & _ & Hc).
    assert (∃ r, kk (work s) u v n p = Ok r) as [r Hr].
    { unfold kk, awg_config_response. rewrite Hc. by eexists. }
    enough ((@Raise Response e, s') = (Ok r, one_draw s)) by done. apply Hserved.
    split; [done|]. by exists u, v, n, p.
Qed.

(** C8: the administrator's download and the public download of the same device cannot disagree.
    Through a link that resolves to the account, both routes answer with the same status code at the
    same instant, and when they serve they serve the same bytes under the same file name. *)
Theorem public_admin_downloads_agree `{Env} `{Vault} `{Renderer} token did nid user s :
  db_wf (work s) → resolve_public_user (work s) token = Ok (Some user) →
  answer_code (pub_device_awg_config token did nid s).1 =
  answer_code (api_device_config_for_node (User_id user) did nid s).1 ∧
  (∀ r, (pub_device_awg_config token did nid s).1 = Ok r ↔
        (api_device_config_for_node (User_id user) did nid s).1 = Ok r).
Proof.
  intros Hwf Hu. destruct (resolve_public_user_ok _ _ _ Hwf Hu) as [Huser _].
  unfold pub_device_awg_config, resolve_device_download, get_public_user, api_device_config_for_node,
    device_download, fetch, resolve_device, get_user_or_404, get_node_or_404.
  rewrite !bind_run. cbn [reads]. rewrite Huser, Hu. cbn [lift]. rewrite !bind_run. cbn [reads].
  destruct (devices (work s) !! did) as [device|]; [|done].
  destruct (_ || _); [done|]. cbn [lift]. rewrite !bind_run. cbn [reads].
  destruct (nodes (work s) !! nid) as [node|]; [|done]. cbn [lift]. rewrite !bind_run.
  rewrite public_guard_run, (guard_active_account_run _ user) by done. cbv zeta.
  destruct (User_is_blocked user) eqn:Hb.
  - case_bool_decide as Ha; [|done]. apply account_active_not_blocked in Ha. congruence.
  - case_bool_decide as Ha; [|done]. rewrite !bind_run. cbn [reads].
    change (work (one_draw s)) with (work s).
    destruct (ready_peer (work s) device node) as [peer|e]; [|done]. cbn [lift].
    by rewrite !bind_run.
Qed.

Lemma public_admin_downloads_agree_witness :
  resolve_public_user sample_db "public-u" = Ok (Some (sample_user "u" 2)) ∧
  is_ok (pub_device_awg_config "public-u" "d" "a" (start sample_db 0)).1 = true ∧
  answer_code (pub_device_awg_config "public-u" "d" "a" (start sample_db 0)).1
  = answer_code (api_device_config_for_node "u" "d" "a" (start sample_db 0)).1.
Proof.
  assert (resolve_public_user sample_db "public-u" = Ok (Some (sample_user "u" 2))) as Hu
    by (vm_compute; reflexivity).
  split; [exact Hu|]. split; [vm_compute; reflexivity|].
  exact (proj1 (public_admin_downloads_agree "public-u" "d" "a" (sample_user "u" 2)
    (start sample_db 0) (proj1 sample_db_inv) Hu)).
Defined.

(** A route without a device serves the migration's default device and no other. When the older
    public route answers, the account has a live device with the migration's mark, and the answer is
    the one the device's own route gives. *)
Lemma legacy_route_serves_default_only `{Env} `{Vault} `{Renderer} token nid s r s' :
  db_wf (work s) → pub_awg_config token nid s = (Ok r, s') →
  ∃ device, devices (work s) !! Device_id device = Some device ∧
    Device_is_legacy_default device = true ∧ Device_deleted_at device = None ∧
    pub_device_awg_config token (Device_id device) nid s = (Ok r, s').
Proof.
  intros Hwf (-> & user & device & node & peer & Hu & Hd & Hn & Hs & Hk)%legacy_download_served.
  pose proof Hd as Hdd. unfold get_legacy_default_device in Hdd.
  apply head_Some_elem_of, elem_of_order_by, elem_of_select in Hdd as [[k Hk'] Hp].
  apply andb_true_iff in Hp as [_ Hp].
  assert (devices (work s) !! Device_id device = Some device) as Hlook
    by (by rewrite (proj1 (wf_device_id _ Hwf _ _ Hk'))).
  exists device. split_and!; [done|done| |].
  - destruct Hs as (_ & _ & _ & Hav). by apply peer_available_true in Hav as [? _].
  - apply device_download_served. split; [done|]. by exists user, device, node, peer.
Qed.

(** The sample tables, their device being the migration's. *)
Definition migrated_db : db :=
  update_device ((sample_device "d" "u" (Some "10.8.0.2") None) <| Device_is_legacy_default := true |>)
    sample_db.

Lemma legacy_route_serves_default_only_witness :
  is_ok (pub_awg_config "u" "a" (start migrated_db 0)).1 = true ∧
  ∃ device, devices migrated_db !! Device_id device = Some device ∧
    Device_is_legacy_default device = true.
Proof.
  assert (is_ok (pub_awg_config "u" "a" (start migrated_db 0)).1 = true) as Hok
    by (vm_compute; reflexivity).
  split; [exact Hok|].
  destruct (pub_awg_config "u" "a" (start migrated_db 0)) as [[r|e] s'] eqn:E; [|discriminate Hok].
  assert (db_inv migrated_db) as Hinv by (apply db_invb_sound; vm_compute; reflexivity).
  destruct (legacy_route_serves_default_only "u" "a" (start migrated_db 0) r s' (proj1 Hinv) E)
    as (device & H1 & H2 & _).
  exists device. split; [exact H1|exact H2].
Defined.
