(* ===== verification/RemnawaveApi.v ===== *)
(** * Remnawave: administration and webhook

    [panel/backend/app/routers/remnawave.py] and [routers/api_parts/remnawave.py]: the settings of the
    integration and of local traffic, the connection test, the manual triggers, the status page, and
    the webhook that turns a signed event into a command. The keyed hash, the JSON parser and the
    answers of the remote API are what the code takes from outside: the class [Remote]. *)
From S2P Require Import Prelude PyStr Json Bytes Models Session Sample Secrets Accounts Jobs WorkerApi.
From S2P Require Import WorkerRemnawave.

Class Remote := {
  (* [hmac.new(key, body, hashlib.sha256).hexdigest()] *)
  hmac_sha256_hex : bytes → bytes → string;
  (* [json.loads(body)]: a value, whose objects have distinct keys, or the exception *)
  json_loads : bytes → outcome json;
  (* [client.get(url)] with that bearer token, then [raise_for_status()] *)
  probe : string → string → nat → outcome unit }.

(** The digest is ASCII text. *)
Class RemoteLaws `{Remote} := {
  hmac_ascii : ∀ key body, forallb (fun c => code c <? 128) (of_str (hmac_sha256_hex key body)) = true }.

Record RemnawaveSettingsIn := mkRemnawaveSettingsIn {
  RwIn_base_url : option string;
  RwIn_enabled : bool;
  RwIn_polling_enabled : bool;
  RwIn_polling_interval_seconds : Z;
  RwIn_api_token : option string;
  RwIn_webhook_secret : option string;
  RwIn_subscription_url : option string;
  RwIn_clear_api_token : bool;
  RwIn_clear_webhook_secret : bool }.

(** [RemnawaveSettingsSchema]: the secrets appear as two booleans only. *)
Record RemnawaveSettingsOut := mkRemnawaveSettingsOut {
  RwOut_id : string;
  RwOut_base_url : option string;
  RwOut_enabled : bool;
  RwOut_polling_enabled : bool;
  RwOut_polling_interval_seconds : Z;
  RwOut_api_token_set : bool;
  RwOut_webhook_secret_set : bool;
  RwOut_subscription_url : option string;
  RwOut_last_tested_at : option datetime;
  RwOut_last_test_status : option string;
  RwOut_last_test_error : option string;
  RwOut_last_synced_at : option datetime }.

Definition settings_from_orm (r : RemnawaveSettings) : RemnawaveSettingsOut := {|
  RwOut_id := RwSettings_id r;
  RwOut_base_url := RwSettings_base_url r;
  RwOut_enabled := RwSettings_enabled r;
  RwOut_polling_enabled := RwSettings_polling_enabled r;
  RwOut_polling_interval_seconds := RwSettings_polling_interval_seconds r;
  RwOut_api_token_set := truthy (RwSettings_api_token r);
  RwOut_webhook_secret_set := truthy (RwSettings_webhook_secret r);
  RwOut_subscription_url := RwSettings_subscription_url r;
  RwOut_last_tested_at := RwSettings_last_tested_at r;
  RwOut_last_test_status := RwSettings_last_test_status r;
  RwOut_last_test_error := RwSettings_last_test_error r;
  RwOut_last_synced_at := RwSettings_last_synced_at r |}.

(** [_remnawave_status] *)
Record RemnawaveStatus := mkRemnawaveStatus {
  Status_enabled : bool;
  Status_base_url : option string;
  Status_last_successful_reconcile_at : option datetime;
  Status_last_failed_reconcile_at : option datetime;
  Status_last_error : option string;
  Status_imported_users_count : nat;
  Status_pending_node_sync_count : nat;
  Status_last_tested_at : option datetime;
  Status_last_test_status : option string;
  Status_last_test_error : option string }.

(** The latest failed reconcile since the last successful one. *)
Definition failed_reconcile (d : db) (settings : RemnawaveSettings) : option AsyncOperation :=
  head (order_by (fun o => - instant (Op_updated_at o))%Z Op_id
    (select (fun o =>
       (Op_kind o == "remnawave_full_reconcile") &&
       (Op_status o isin ["failed"; "enqueue_failed"]) &&
       match RwSettings_last_synced_at settings with
       | Some t => (instant t <? instant (Op_updated_at o))%Z
       | None => true
       end) (operations d))).

Definition remnawave_status (d : db) (settings : RemnawaveSettings) : RemnawaveStatus :=
  let failed := failed_reconcile d settings in {|
  Status_enabled := RwSettings_enabled settings;
  Status_base_url := RwSettings_base_url settings;
  Status_last_successful_reconcile_at := RwSettings_last_synced_at settings;
  Status_last_failed_reconcile_at := Op_updated_at <$> failed;
  Status_last_error := failed ≫= Op_error;
  Status_imported_users_count := length (rows (rw_users d));
  Status_pending_node_sync_count :=
    length (select (fun r => Rw_sync_status r != "synced") (rw_users d));
  Status_last_tested_at := RwSettings_last_tested_at settings;
  Status_last_test_status := RwSettings_last_test_status settings;
  Status_last_test_error := RwSettings_last_test_error settings |}.

(** What the webhook answers. *)
Inductive WebhookAnswer := AlreadyProcessed | Queued.
#[export] Instance WebhookAnswer_eq_dec : EqDecision WebhookAnswer.
Proof. solve_decision. Defined.

Definition WEBHOOK_TIMESTAMP_TOLERANCE_SECONDS : Z := 300.

Definition webhook_event_key (payload : list (string * json)) : string :=
  let event_type := json_or (json_get payload "event") (json_get payload "type") in
  let timestamp := json_or (json_or (json_get payload "timestamp") (json_get payload "created_at"))
                     (JStr "") in
  let user_uuid := if is_obj (json_get payload "data")
                   then json_get (obj_fields (json_get payload "data")) "uuid" else JStr "" in
  py_str event_type +:+ ":" +:+ py_str timestamp +:+ ":" +:+ py_str (json_or user_uuid (JStr "")).

(** A column of text takes a string or null; the driver rejects any other value. *)
Definition text_column (v : json) : outcome (option string) :=
  match v with
  | JStr s => Ok (Some s)
  | JNull => Ok None
  | _ => Raise (DBAPIError "invalid input for query argument")
  end.

(** [hmac.compare_digest(a, b)] of two strings. *)
Definition compare_digest (a b : string) : outcome bool :=
  if forallb (fun c => code c <? 128) (of_str a ++ of_str b) then Ok (a == b)
  else Raise (TypeError "comparing strings with non-ASCII characters is not supported").

Section with_env.
Context `{Env} `{Vault} `{Remote}.

(** ** Settings *)
Definition get_remnawave_settings : M RemnawaveSettingsOut :=
  let* settings := get_rw_settings in retM (settings_from_orm settings).

Definition get_local_traffic_settings : M LocalAmneziawgTrafficSettings := get_traffic_settings.

Definition put_traffic_settings (row : LocalAmneziawgTrafficSettings) : M unit :=
  modify (fun d => d <| traffic_settings :=
    (fun r => if TrafficSettings_id r == TrafficSettings_id row then row else r)
      <$> traffic_settings d |>).

Definition update_local_traffic_settings (raw_sample_retention_days peer_online_threshold_seconds : Z)
    : M LocalAmneziawgTrafficSettings :=
  let* settings := get_traffic_settings in
  do* lift (int_column 32 raw_sample_retention_days) in
  do* lift (int_column 32 peer_online_threshold_seconds) in
  let settings :=
    settings <| TrafficSettings_raw_sample_retention_days := raw_sample_retention_days |>
             <| TrafficSettings_peer_online_threshold_seconds := peer_online_threshold_seconds |> in
  do* put_traffic_settings settings in
  do* commit in
  retM settings.

(** The three cases of a stored secret: cleared, replaced, kept. *)
Definition updated_secret (clear : bool) (given stored : option string) : M (option string) :=
  if clear then retM None
  else match given with
  | Some s => if truthy_str s then RemnawaveCrypto.encrypt (Some s) else retM stored
  | None => retM stored
  end.

Definition update_remnawave_settings (data : RemnawaveSettingsIn) : M RemnawaveSettingsOut :=
  let* settings := get_rw_settings in
  let settings := match RwIn_base_url data with
    | Some url => settings <| RwSettings_base_url := Some url |> | None => settings end in
  let settings :=
    settings <| RwSettings_enabled := RwIn_enabled data |>
             <| RwSettings_polling_enabled := RwIn_polling_enabled data |>
             <| RwSettings_polling_interval_seconds := RwIn_polling_interval_seconds data |> in
  let settings := match RwIn_subscription_url data with
    | Some url => settings <| RwSettings_subscription_url := Some url |> | None => settings end in
  let* api_token := updated_secret (RwIn_clear_api_token data) (RwIn_api_token data)
                      (RwSettings_api_token settings) in
  let* webhook_secret := updated_secret (RwIn_clear_webhook_secret data) (RwIn_webhook_secret data)
                           (RwSettings_webhook_secret settings) in
  do* lift (int_column 32 (RwIn_polling_interval_seconds data)) in
  let settings := settings <| RwSettings_api_token := api_token |>
                           <| RwSettings_webhook_secret := webhook_secret |> in
  do* put_rw_settings settings in
  do* commit in
  retM (settings_from_orm settings).

(** ** Connection test *)
Definition probe_error (exc : exn) : string :=
  match exc with
  | HTTPStatusError status _ body _ => "HTTP " +:+ pretty status +:+ ": " +:+ body
  | RequestError message => "Request failed: " +:+ message
  | _ => exn_text exc
  end.

Definition test_remnawave_connection : M (bool * option string) :=
  let* settings := get_rw_settings in
  if negb (truthy (RwSettings_base_url settings))
  then raise (HTTPException 400 "Remnawave base URL is not configured") else
  let* token := lift (RemnawaveCrypto.decrypt (RwSettings_api_token settings)) in
  if negb (truthy token)
  then raise (HTTPException 400 "Remnawave API token is not configured") else
  let* answer := draw (probe (default "" (RwSettings_base_url settings) +:+ "/api/users?start=0&size=1")
                         (default "" token)) in
  let error_message := match answer with Ok _ => None | Raise exc => Some (probe_error exc) end in
  let success := is_ok answer in
  let* t := now in
  do* put_rw_settings
    (settings <| RwSettings_last_tested_at := Some t |>
              <| RwSettings_last_test_status := Some (if success then "success" else "failed") |>
              <| RwSettings_last_test_error := error_message |>) in
  do* commit in
  retM (success, error_message).

(** ** Manual triggers and status *)
Definition trigger_remnawave_sync : M string :=
  let* operation := new_operation "remnawave_full_reconcile" (Some "remnawave") None in
  do* enqueue_operation operation enqueue_remnawave_full_reconcile in
  retM (Op_id operation).

Definition trigger_remnawave_user_sync (user_uuid : string) : M string :=
  let* settings := get_rw_settings in
  if negb (RwSettings_enabled settings) then raise (HTTPException 409 "Remnawave is disabled") else
  let* operation := new_operation "remnawave_sync_user" (Some "remnawave_user") (Some user_uuid) in
  do* enqueue_operation operation (enqueue_remnawave_sync_user user_uuid) in
  retM (Op_id operation).

Definition get_remnawave_status : M RemnawaveStatus :=
  let* settings := get_rw_settings in
  reads (fun d => remnawave_status d settings).

(** ** The webhook *)

(** Everything checked before the body is parsed. *)
Definition authenticate_webhook (settings : RemnawaveSettings) (body : bytes)
    (signature timestamp : option string) : M unit :=
  if negb (RwSettings_enabled settings) || negb (truthy (RwSettings_webhook_secret settings))
  then raise (HTTPException 401 "Remnawave webhook is not configured") else
  if negb (truthy signature) || negb (truthy timestamp)
  then raise (HTTPException 401 "Invalid webhook signature") else
  match py_int (default "" timestamp) with
  | None => raise (HTTPException 400 "Invalid webhook timestamp")
  | Some event_ts =>
      let* t := now in
      if (WEBHOOK_TIMESTAMP_TOLERANCE_SECONDS <? Z.abs (instant t / seconds 1 - event_ts))%Z
      then raise (HTTPException 400 "Webhook timestamp outside tolerance") else
      let* secret := lift (RemnawaveCrypto.decrypt (RwSettings_webhook_secret settings)) in
      match secret with
      | None => raise (HTTPException 401 "Remnawave webhook is not configured")
      | Some secret =>
          let expected := hmac_sha256_hex (encode_utf8 secret) body in
          let* same := lift (compare_digest (default "" signature) expected) in
          if negb same then raise (HTTPException 401 "Invalid webhook signature") else retM tt
      end
  end.

(** The parsed body: its fields and its event type. *)
Definition parse_webhook (body : bytes) : outcome (list (string * json) * json) :=
  match json_loads body with
  | Raise (JSONDecodeError _) => Raise (HTTPException 400 "Invalid webhook payload")
  | Raise exc => Raise exc
  | Ok (JObj payload) =>
      let event_type := json_or (json_get payload "event") (json_get payload "type") in
      if json_truthy event_type then Ok (payload, event_type)
      else Raise (HTTPException 400 "Missing webhook event type")
  | Ok _ => Raise (HTTPException 400 "Invalid webhook payload")
  end.

Definition insert_webhook_event (event_key : string) (event_type user_uuid : json) : M unit :=
  let* id := new_uuid in
  let* t := now in
  let* event_type := lift (text_column event_type) in
  let* user_uuid := lift (text_column user_uuid) in
  do* race in
  let* taken := reads (fun d =>
    existsb (fun e => Webhook_event_key e == event_key) (rows (webhook_events d))) in
  if (taken : bool) then raise (IntegrityError "remnawave_webhook_events_event_key_key") else
  modify (fun d => d <| webhook_events :=
    <[id := mkRemnawaveWebhookEvent id event_key (default "" event_type) user_uuid t None]>
      (webhook_events d) |>).

(** The command is published directly: no operation row stands behind it. *)
Definition enqueue_webhook_command (user_uuid : json) : M unit :=
  match user_uuid with
  | JStr uuid =>
      if truthy_str uuid then do* enqueue_remnawave_sync_user uuid no_overrides in retM tt
      else do* enqueue_remnawave_full_reconcile no_overrides in retM tt
  | _ => do* enqueue_remnawave_full_reconcile no_overrides in retM tt
  end.

(** What follows the look-up of the event. *)
Definition process_webhook (payload : list (string * json)) (event_type : json)
    (existing : option RemnawaveWebhookEvent) : M WebhookAnswer :=
  let user_uuid := json_get (obj_fields (json_get payload "data")) "uuid" in
  match existing with
  | Some _ => retM AlreadyProcessed
  | None =>
      do* insert_webhook_event (webhook_event_key payload) event_type user_uuid in
      do* commit in
      do* enqueue_webhook_command user_uuid in
      retM Queued
  end.

Definition remnawave_webhook (body : bytes) (signature timestamp : option string) : M WebhookAnswer :=
  let* settings := get_rw_settings in
  do* authenticate_webhook settings body signature timestamp in
  let* parsed := lift (parse_webhook body) in
  let '(payload, event_type) := parsed in
  let* existing := reads (fun d => one_or_none
    (select (fun e => Webhook_event_key e == webhook_event_key payload) (webhook_events d))) in
  let* existing := lift existing in
  process_webhook payload event_type existing.
End with_env.

(** ** The invariants *)
Section invariants.
Context `{EnvLaws} `{Vault} `{Remote}.
Abbreviation kept := (preserves (holds db_inv)).

Lemma settings_kept f : (∀ d, core_eq d (f d)) → kept (modify f).
Proof. intros Hf. apply holds_modify. intros d Hd. by rewrite <- (Hf d). Qed.
Lemma put_rw_settings_inv row : kept (put_rw_settings row).
Proof. by apply settings_kept. Qed.
Lemma updated_secret_inv clear given stored : kept (updated_secret clear given stored).
Proof. unfold updated_secret, RemnawaveCrypto.encrypt. session_steps. Qed.
Lemma webhook_command_inv user_uuid : kept (enqueue_webhook_command user_uuid).
Proof.
  unfold enqueue_webhook_command. session_steps; apply enqueue_command_preserves.
Qed.
Lemma insert_webhook_event_inv key ty uuid : kept (insert_webhook_event key ty uuid).
Proof. unfold insert_webhook_event, new_uuid, now. session_steps. by apply settings_kept. Qed.
#[local] Hint Resolve get_rw_settings_inv put_rw_settings_inv updated_secret_inv webhook_command_inv
  insert_webhook_event_inv enqueue_operation_inv : preserves.

Lemma get_traffic_settings_inv : kept get_traffic_settings.
Proof. unfold get_traffic_settings, new_uuid, now. session_steps. by apply settings_kept. Qed.
Lemma update_local_traffic_settings_inv days threshold :
  kept (update_local_traffic_settings days threshold).
Proof.
  unfold update_local_traffic_settings, put_traffic_settings. session_steps;
    [apply get_traffic_settings_inv|by apply settings_kept].
Qed.
Lemma update_remnawave_settings_inv data : kept (update_remnawave_settings data).
Proof. unfold update_remnawave_settings. session_steps. Qed.
Lemma test_remnawave_connection_inv : kept test_remnawave_connection.
Proof. unfold test_remnawave_connection, now. session_steps. Qed.
Lemma trigger_remnawave_sync_inv : kept trigger_remnawave_sync.
Proof.
  unfold trigger_remnawave_sync. session_steps;
    [apply pure_draw_preserves, pure_draw_new_operation|apply enqueue_operation_inv].
Qed.
Lemma trigger_remnawave_user_sync_inv uuid : kept (trigger_remnawave_user_sync uuid).
Proof.
  unfold trigger_remnawave_user_sync. session_steps;
    [apply pure_draw_preserves, pure_draw_new_operation|apply enqueue_operation_inv].
Qed.
Lemma remnawave_webhook_inv body signature timestamp :
  kept (remnawave_webhook body signature timestamp).
Proof.
  unfold remnawave_webhook, authenticate_webhook, process_webhook, now. session_steps.
Qed.
End invariants.

(** ** Who may deliver an event *)

(** The signature is the keyed hash of the body under the stored secret, and the timestamp is close. *)
Definition authentic `{Vault} `{Remote} (settings : RemnawaveSettings) (body : bytes)
    (signature timestamp : option string) (at_ : Z) : Prop :=
  RwSettings_enabled settings = true ∧
  ∃ stored secret ts event_ts,
    RwSettings_webhook_secret settings = Some stored ∧ stored ≠ "" ∧
    RemnawaveCrypto.decrypt (Some stored) = Ok (Some secret) ∧
    signature = Some (hmac_sha256_hex (encode_utf8 secret) body) ∧
    hmac_sha256_hex (encode_utf8 secret) body ≠ "" ∧
    timestamp = Some ts ∧ py_int ts = Some event_ts ∧
    (Z.abs (at_ / seconds 1 - event_ts) <= WEBHOOK_TIMESTAMP_TOLERANCE_SECONDS)%Z.

Section webhook.
Context `{Env} `{Vault} `{RemoteLaws}.

Lemma compare_digest_hmac a key body :
  compare_digest a (hmac_sha256_hex key body) = Ok true ↔ a = hmac_sha256_hex key body.
Proof.
  unfold compare_digest. split.
  - destruct (forallb _ _); [|done]. by intros [= ->%bool_decide_eq_true_1].
  - intros ->. rewrite forallb_app, !hmac_ascii. simpl. by rewrite bool_decide_true.
Qed.

(** It succeeds exactly for an authentic delivery, and changes nothing. *)
Lemma authenticate_webhook_spec settings body signature timestamp s :
  let r := authenticate_webhook settings body signature timestamp s in
  (r.1 = Ok tt ↔ authentic settings body signature timestamp (clock (draws s))) ∧
  (r.1 = Ok tt → r.2 = s <| draws := S (draws s) |>) ∧
  work r.2 = work s ∧ committed r.2 = committed s ∧ pending r.2 = pending s ∧ trace r.2 = trace s.
Proof.
  intros r. subst r. unfold authenticate_webhook, authentic.
  destruct (RwSettings_enabled settings); [|split; [split; [done|by intros []]|done]].
  destruct (RwSettings_webhook_secret settings) as [stored|];
    [|split; [split; [done|naive_solver]|done]].
  destruct (truthy (Some stored)) eqn:Est; cbn [negb orb].
  2:{ split; [|done]. split; [done|]. intros (_ & ? & ? & ? & ? & [= <-] & Hne & _). by destruct stored. }
  destruct (truthy signature) eqn:Esig; cbn [negb orb].
  2:{ split; [|done]. split; [done|]. intros (_ & ? & ? & ? & ? & _ & _ & _ & -> & Hne & _).
      by destruct (hmac_sha256_hex _ _). }
  destruct (truthy timestamp) eqn:Ets; cbn [negb orb].
  2:{ split; [|done]. split; [done|].
      intros (_ & ? & ? & ts' & ? & _ & _ & _ & _ & _ & -> & Hint & _).
      destruct ts'; [by vm_compute in Hint|done]. }
  destruct signature as [sg|], timestamp as [ts|]; try done.
  change (default "" (Some ts)) with ts. change (default "" (Some sg)) with sg.
  destruct (py_int ts) as [v|] eqn:Ev.
  2:{ split; [|done]. split; [done|]. intros (_ & ? & ? & ? & ? & _ & _ & _ & _ & _ & [= <-] & ? & _).
      congruence. }
  rewrite bind_run. unfold now, draw. rewrite instant_utc.
  destruct (Z.ltb_spec WEBHOOK_TIMESTAMP_TOLERANCE_SECONDS
    (Z.abs (clock (draws s) / seconds 1 - v))) as [Hfar|Hnear].
  { split; [|done]. split; [done|]. intros (_ & ? & ? & ? & ? & _ & _ & _ & _ & _ & [= <-] & ? & ?).
    simplify_eq. lia. }
  rewrite bind_run. unfold lift at 1.
  destruct (RemnawaveCrypto.decrypt (Some stored)) as [[secret|]|e] eqn:Ed;
    [|split; [|done]; split; [done|]; intros (_ & ? & ? & ? & ? & [= <-] & _ & Hd & _); congruence..].
  rewrite bind_run. unfold lift. pose proof (compare_digest_hmac sg (encode_utf8 secret) body) as Hcmp.
  destruct (compare_digest sg (hmac_sha256_hex (encode_utf8 secret) body)) as [[]|e].
  - split; [|done]. split; [intros _|by intros _]. split; [done|]. exists stored, secret, ts, v.
    pose proof (proj1 Hcmp eq_refl) as ->. split_and!; try done; [by intros ->|].
    intros Hn. by rewrite Hn in Esig.
  - split; [|done]. split; [done|]. intros (_ & ? & x0 & ? & ? & [= <-] & _ & Hd & [= ->] & _).
    assert (x0 = secret) as -> by congruence. by pose proof (proj2 Hcmp eq_refl).
  - split; [|done]. split; [done|]. intros (_ & ? & x0 & ? & ? & [= <-] & _ & Hd & [= ->] & _).
    assert (x0 = secret) as -> by congruence. by pose proof (proj2 Hcmp eq_refl).
Qed.

(** An authentic delivery with a readable body, up to the look-up of the event. *)
Lemma webhook_admitted settings body signature timestamp d n payload event_type existing :
  rw_settings d = [settings] → authentic settings body signature timestamp (clock n) →
  parse_webhook body = Ok (payload, event_type) →
  one_or_none (select (fun e => Webhook_event_key e == webhook_event_key payload)
                 (webhook_events d)) = Ok existing →
  remnawave_webhook body signature timestamp (start d n) =
  process_webhook payload event_type existing (mkSession d d [] [] (S n)).
Proof.
  intros Hs Ha Hp He. unfold remnawave_webhook, get_rw_settings. rewrite !bind_run. unfold reads at 1.
  change (work (start d n)) with d. rewrite Hs. unfold lift at 1. cbn [one_or_none]. rewrite bind_run.
  destruct (authenticate_webhook_spec settings body signature timestamp (start d n))
    as ([_ Hok] & Hrun & _). specialize (Hok Ha). specialize (Hrun Hok). unfold retM at 1. rewrite bind_run.
  destruct (authenticate_webhook _ _ _ _ _) as [o s']. simpl in Hok, Hrun. subst o s'.
  rewrite bind_run, Hp. unfold lift at 1. cbv beta iota zeta. rewrite bind_run. unfold reads at 1.
  cbn [work start draws]. rewrite bind_run. unfold lift at 1. by rewrite He.
Qed.

(** Storing a new event and committing it. *)
Definition stored_event (key event_type : string) (uuid : option string) (n : nat) (d : db) : db :=
  d <| webhook_events := <[uuid4 n := mkRemnawaveWebhookEvent (uuid4 n) key event_type uuid
                                        (utc (clock (S n))) None]> (webhook_events d) |>.

Lemma process_new_event `{!Quiet} payload event_type user_uuid d n :
  let uuid := json_get (obj_fields (json_get payload "data")) "uuid" in
  let d' := stored_event (webhook_event_key payload) event_type user_uuid n d in
  text_column uuid = Ok user_uuid →
  select (fun e => Webhook_event_key e == webhook_event_key payload) (webhook_events d) = [] →
  process_webhook payload (JStr event_type) None (mkSession d d [] [] n) =
  (do* enqueue_webhook_command uuid in retM Queued) (mkSession d' d' [] [EvCommit d'] (3 + n)).
Proof.
  intros uuid d' Ht He. unfold process_webhook. cbv zeta. fold uuid.
  assert (existsb (fun e => Webhook_event_key e == webhook_event_key payload)
            (rows (webhook_events d)) = false) as Hnone.
  { apply not_true_is_false. intros (e & Hin & Hk)%existsb_exists.
    assert (e ∈ select (fun e => Webhook_event_key e == webhook_event_key payload) (webhook_events d)) as Hsel.
    { unfold select. rewrite elem_of_lfilter, list_elem_of_In. done. }
    rewrite He in Hsel. by apply elem_of_nil in Hsel. }
  unfold insert_webhook_event, new_uuid, now. rewrite Ht.
  unfold draw, lift, race, reads, modify, commit, raise, bindM. cbn [text_column default draws work committed].
  rewrite !quiet_raced. change (work _) with d at 1. rewrite Hnone. reflexivity.
Qed.

(** The message of a webhook: fresh identifiers, tracked. *)
Definition webhook_payload (command target_type : string) (target_id : option string) (n : nat)
    : Payload :=
  {| Payload_command := command; Payload_idempotency_key := uuid4 n;
     Payload_operation_id := uuid4 (S n); Payload_track_operation := true;
     Payload_target_type := target_type; Payload_target_id := target_id;
     Payload_created_at := utc (clock (2 + n)) |}.

Lemma enqueue_fresh_run command key target_type target_id s :
  routing_key_for_command command = Ok key →
  let p := webhook_payload command target_type target_id (draws s) in
  let s' := s <| draws := 4 + draws s |> in
  enqueue_command command (payload_of command target_type target_id no_overrides) s =
  match broker_error (3 + draws s) with
  | Some message => (Raise (BrokerError message), s')
  | None => (Ok p, s' <| trace := EvPublish key p :: trace s |>)
  end.
Proof.
  intros Hk. unfold enqueue_command, payload_of, no_overrides, given_or_uuid, new_uuid, now, draw,
    publish_command, publish, bindM, lift, retM. simpl. rewrite Hk.
  by destruct (broker_error _).
Qed.

(** The command of an event: the user's, or a full reconcile. *)
Definition webhook_command_of (user_uuid : option string) : string * option string :=
  match user_uuid with
  | Some u => if truthy_str u then ("remnawave_sync_user", Some u) else ("remnawave_full_reconcile", None)
  | None => ("remnawave_full_reconcile", None)
  end.

Lemma enqueue_webhook_command_run uuid user_uuid s :
  text_column uuid = Ok user_uuid →
  ∃ key p, Payload_command p = (webhook_command_of user_uuid).1 ∧
    Payload_target_id p = (webhook_command_of user_uuid).2 ∧
    Payload_track_operation p = true ∧ Payload_operation_id p = uuid4 (S (draws s)) ∧
    routing_key_for_command (Payload_command p) = Ok key ∧
  enqueue_webhook_command uuid s =
  match broker_error (3 + draws s) with
  | Some message => (Raise (BrokerError message), s <| draws := 4 + draws s |>)
  | None => (Ok tt, s <| draws := 4 + draws s |> <| trace := EvPublish key p :: trace s |>)
  end.
Proof.
  intros Ht. assert (∀ c k tt_ tid, routing_key_for_command c = Ok k →
    (do* enqueue_command c (payload_of c tt_ tid no_overrides) in retM tt) s =
    match broker_error (3 + draws s) with
    | Some message => (Raise (BrokerError message), s <| draws := 4 + draws s |>)
    | None => (Ok tt, s <| draws := 4 + draws s |>
                        <| trace := EvPublish k (webhook_payload c tt_ tid (draws s)) :: trace s |>)
    end) as Hrun.
  { intros c k tt_ tid Hk. rewrite bind_run, (enqueue_fresh_run c k) by done.
    by destruct (broker_error _). }
  destruct uuid as [| |u| | | |]; simplify_eq/=; unfold webhook_command_of, enqueue_webhook_command;
    [|destruct (truthy_str u)].
  all: eexists _, (webhook_payload _ _ _ (draws s)); simpl; split_and!; try reflexivity.
  all: by apply Hrun.
Qed.
End webhook.

(** ** Properties *)


(** An event is acted upon at most once, and is lost when the broker refuses its command. The first
    authentic delivery stores the event and commits before it publishes; if the broker takes the
    command, exactly one tracked message leaves, for the user named or for a full reconcile; if it
    refuses, the request fails although the event is stored. Either way every later delivery of the
    same event, however authentic, is answered [already_processed] and publishes nothing. *)
Lemma webhook_event_once_or_lost `{Quiet} `{Vault} `{RemoteLaws}
    settings body signature timestamp d n payload event_type user_uuid :
  rw_settings d = [settings] → authentic settings body signature timestamp (clock n) →
  parse_webhook body = Ok (payload, JStr event_type) →
  text_column (json_get (obj_fields (json_get payload "data")) "uuid") = Ok user_uuid →
  select (fun e => Webhook_event_key e == webhook_event_key payload) (webhook_events d) = [] →
  webhook_events d !! uuid4 (S n) = None →
  let r := remnawave_webhook body signature timestamp (start d n) in
  let d' := stored_event (webhook_event_key payload) event_type user_uuid (S n) d in
  committed r.2 = d' ∧
  match broker_error (7 + n) with
  | None => r.1 = Ok Queued ∧ ∃ key p, trace r.2 = [EvPublish key p; EvCommit d'] ∧
      Payload_command p = (webhook_command_of user_uuid).1 ∧
      Payload_target_id p = (webhook_command_of user_uuid).2 ∧ Payload_track_operation p = true
  | Some message => r.1 = Raise (BrokerError message) ∧ trace r.2 = [EvCommit d']
  end ∧
  ∀ signature' timestamp' m, authentic settings body signature' timestamp' (clock m) →
    let again := remnawave_webhook body signature' timestamp' (start d' m) in
    again.1 = Ok AlreadyProcessed ∧ committed again.2 = d' ∧ trace again.2 = [].
Proof.
  intros Hs Ha Hp Hu He Hfresh r d'. subst r.
  rewrite (webhook_admitted settings _ _ _ _ _ payload (JStr event_type) None) by (by rewrite ?He).
  rewrite (process_new_event payload event_type user_uuid) by done. fold d'.
  destruct (enqueue_webhook_command_run _ user_uuid (mkSession d' d' [] [EvCommit d'] (4 + n)) Hu)
    as (key & p & Hc1 & Hc2 & Hc3 & _ & _ & Hrun).
  change (3 + S n) with (4 + n). rewrite bind_run, Hrun. cbn [draws].
  split; [by destruct (broker_error _)|]. split.
  { change (3 + (4 + n)) with (7 + n). destruct (broker_error (7 + n)); [done|].
    split; [done|]. exists key, p. by split_and!. }
  intros signature' timestamp' m Ha'.
  rewrite (webhook_admitted settings _ _ _ d' m payload (JStr event_type)
    (Some (mkRemnawaveWebhookEvent (uuid4 (S n)) (webhook_event_key payload) event_type user_uuid
       (utc (clock (S (S n)))) None))); try done.
  pose proof (select_insert (fun e => Webhook_event_key e == webhook_event_key payload)
    (webhook_events d) _ (mkRemnawaveWebhookEvent (uuid4 (S n)) (webhook_event_key payload) event_type
      user_uuid (utc (clock (S (S n)))) None) Hfresh) as Hsel.
  simpl in Hsel. rewrite bool_decide_true, He in Hsel by done.
  symmetry in Hsel. apply Permutation_singleton_l in Hsel. simpl. by rewrite <- Hsel.
Qed.

(** A remote side for the witnesses: every body is one user event. *)
#[export] Instance sample_remote : Remote := {
  hmac_sha256_hex key body := if (length key =? 4)%nat then "0f" else "f0";
  json_loads body :=
    match body with
    | [] => Raise (JSONDecodeError "Expecting value")
    | _ => Ok (JObj [("event", JStr "user.modified"); ("data", JObj [("uuid", JStr "u-1")])])
    end;
  probe url token n := Ok tt }.
#[export] Instance sample_remote_laws : RemoteLaws.
Proof. split. intros key body. simpl. by case_match. Qed.

Definition sample_settings : RemnawaveSettings :=
  mkRemnawaveSettings "s" (Some "http://remote") true false 300 None
    (Some (match RemnawaveCrypto.fernet with Ok key => key +:+ "hook" | Raise _ => "" end))
    None None None None None t0 t0.
Definition settings_db : db := sample_db <| rw_settings := [sample_settings] |>.

Lemma sample_authentic : authentic sample_settings [1%Z] (Some "0f") (Some "10") (clock 10).
Proof.
  split; [reflexivity|].
  exists (default "" (RwSettings_webhook_secret sample_settings)), "hook", "10", 10%Z.
  split_and!; try (vm_compute; reflexivity); vm_compute; discriminate.
Qed.


Lemma webhook_event_once_or_lost_witness :
  let r := remnawave_webhook [1%Z] (Some "0f") (Some "10") (start settings_db 10) in
  committed r.2 = stored_event "user.modified::u-1" "user.modified" (Some "u-1") 11 settings_db.
Proof.
  assert (parse_webhook [1%Z] = Ok ([("event", JStr "user.modified"); ("data", JObj [("uuid", JStr "u-1")])],
    JStr "user.modified")) as Hp by (vm_compute; reflexivity).
  assert (webhook_events settings_db !! uuid4 11 = None) as Hf by (vm_compute; reflexivity).
  exact (proj1 (webhook_event_once_or_lost sample_settings [1%Z] (Some "0f") (Some "10") settings_db 10
    _ "user.modified" (Some "u-1") eq_refl sample_authentic Hp eq_refl eq_refl Hf)).
Defined.
