(* ===== verification/Panel.v ===== *)
(** * The panel as a whole

    Every route of the panel that opens a database session, as one request type ([request]) with one
    dispatcher ([serve]) over the handlers of the component files, and the runs of the panel: requests
    served one after the other, each interleaved with whatever other sessions commit at its lock
    waits and inserts. The theorems are the properties no single route can break. *)
From S2P Require Import Prelude Json Bytes Models Session Sample Secrets AccountPolicy Devices Jobs Events.
From S2P Require Import NodeSync RemnawaveSync WorkerApi WorkerRemnawave TelegramProxy UserApi NodeApi.
From S2P Require Import Downloads PublicPage RemnawaveApi.

(** ** Requests *)
Inductive request :=
  (* api_parts/users.py *)
  | AddUser (name : string) (device_limit : Z)
  | UpdateDeviceLimit (user_id : string) (device_limit : Z)
  | BlockUser (user_id : string)
  | UnblockUser (user_id : string)
  | UpdateLocalLifecycle (user_id : string) (expire_at : option datetime) (limit : Z) (policy : string)
  | ResetLocalTraffic (user_id : string)
  | RegeneratePublicLink (user_id : string)
  | DeleteUser (user_id : string)
  (* api_parts/nodes.py and operations.py *)
  | AddNode (data : NodeIn)
  | ProvisionNode (node_id : string)
  | UpdateNode (node_id : string) (data : list node_field)
  | DeleteNode (node_id : string)
  | TriggerSync
  | RetryOperation (operation_id : string)
  (* user_page.py *)
  | PublicInfoOf (token_or_id : string)
  | PublicAddDevice (token_or_id name : string)
  | PublicDeleteDevice (token_or_id device_id : string)
  | PublicDeviceConfig (token_or_id device_id node_id : string)
  | PublicLegacyConfig (token_or_id node_id : string)
  (* api_parts/configs.py *)
  | AdminDeviceConfig (user_id device_id node_id : string)
  (* internal_worker_parts *)
  | NodeSyncResult (node_id : string) (data : SyncResult)
  | NodeProvisionResult (node_id : string) (data : ProvisionResult)
  | NodeProvisionRecovery (pending_after failed_after : Z) (limit : nat)
  | NodeHeartbeatResult (node_id : string) (data : HeartbeatResult)
  | StartOperation (operation_id : string)
  | SucceedOperation (operation_id : string) (result : option json)
  | FailOperation (operation_id : string) (error : option string) (result : option json)
  | TimeoutOperation (operation_id : string)
  | CleanupRawTrafficSamples (now_ : option datetime)
  | UpsertRemnawaveUsers (data : list RemnawaveUserIn)
  | MarkRemnawaveUserDeleted (user_uuid : string)
  | RemnawaveReconcileComplete (seen_uuids : list string)
  | ReportTelegramProxy (node_id : string) (data : TelegramProxyResultIn)
  (* telegram_proxy.py *)
  | UpdateTelegramProxySettings (data : TelegramProxySettingsIn)
  | ApplyTelegramProxy
  | DisableTelegramProxy
  | RotateTelegramProxySecret
  (* remnawave.py and api_parts/remnawave.py *)
  | GetRemnawaveStatus
  | UpdateRemnawaveSettings (data : RemnawaveSettingsIn)
  | UpdateLocalTrafficSettings (raw_sample_retention_days peer_online_threshold_seconds : Z)
  | TestRemnawaveConnection
  | TriggerRemnawaveSync
  | TriggerRemnawaveUserSync (user_uuid : string)
  | RemnawaveWebhook (body : bytes) (signature timestamp : option string).

Definition answered {A} (m : M A) : M unit := do* m in retM tt.

Section with_env.
Context `{Env} `{Vault} `{Renderer} `{Remote}.

Definition serve (r : request) : M unit :=
  match r with
  | AddUser name limit => answered (api_add_user name limit)
  | UpdateDeviceLimit uid limit => answered (api_update_device_limit uid limit)
  | BlockUser uid => api_block_user uid
  | UnblockUser uid => api_unblock_user uid
  | UpdateLocalLifecycle uid expire_at limit policy =>
      api_update_local_lifecycle uid expire_at limit policy
  | ResetLocalTraffic uid => api_reset_local_traffic uid
  | RegeneratePublicLink uid => answered (api_regenerate_public_link uid)
  | DeleteUser uid => api_delete_user uid
  | AddNode data => answered (api_add_node data)
  | ProvisionNode nid => answered (api_provision_node nid)
  | UpdateNode nid data => api_update_node nid data
  | DeleteNode nid => api_delete_node nid
  | TriggerSync => answered api_trigger_sync
  | RetryOperation oid => answered (api_retry_operation oid)
  | PublicInfoOf token => answered (pub_user_info token)
  | PublicAddDevice token name => answered (pub_add_device token name)
  | PublicDeleteDevice token did => answered (pub_delete_device token did)
  | PublicDeviceConfig token did nid => answered (pub_device_awg_config token did nid)
  | PublicLegacyConfig token nid => answered (pub_awg_config token nid)
  | AdminDeviceConfig uid did nid => answered (api_device_config_for_node uid did nid)
  | NodeSyncResult nid data => answered (node_sync_result nid data)
  | NodeProvisionResult nid data => answered (node_provision_result nid data)
  | NodeProvisionRecovery p f limit => answered (node_provision_recovery p f limit)
  | NodeHeartbeatResult nid data => answered (node_heartbeat_result nid data)
  | StartOperation oid => answered (start_operation oid)
  | SucceedOperation oid result => answered (succeed_operation oid result)
  | FailOperation oid error result => answered (fail_operation oid error result)
  | TimeoutOperation oid => answered (timeout_operation oid)
  | CleanupRawTrafficSamples now_ => answered (cleanup_raw_traffic_samples now_)
  | UpsertRemnawaveUsers data => answered (upsert_remnawave_users data)
  | MarkRemnawaveUserDeleted uuid => answered (mark_remnawave_user_deleted uuid)
  | RemnawaveReconcileComplete seen => answered (remnawave_reconcile_complete seen)
  | ReportTelegramProxy nid data => answered (report_telegram_proxy_node_result nid data)
  | UpdateTelegramProxySettings data => answered (update_telegram_proxy_settings data)
  | ApplyTelegramProxy => answered apply_telegram_proxy
  | DisableTelegramProxy => answered disable_telegram_proxy
  | RotateTelegramProxySecret => answered rotate_telegram_proxy_secret
  | GetRemnawaveStatus => answered get_remnawave_status
  | UpdateRemnawaveSettings data => answered (update_remnawave_settings data)
  | UpdateLocalTrafficSettings days threshold =>
      answered (update_local_traffic_settings days threshold)
  | TestRemnawaveConnection => answered test_remnawave_connection
  | TriggerRemnawaveSync => answered trigger_remnawave_sync
  | TriggerRemnawaveUserSync uuid => answered (trigger_remnawave_user_sync uuid)
  | RemnawaveWebhook body signature timestamp =>
      answered (remnawave_webhook body signature timestamp)
  end.

(** ** Runs

    The durable tables, what left the process so far (newest first), and how much of the
    environment was consumed. *)
Record panel := mkPanel { tables : db; history : list event; drawn : nat }.

Definition session_of (p : panel) : session :=
  mkSession (tables p) (tables p) [] (history p) (drawn p).
Definition serve_one (p : panel) (r : request) : panel :=
  let s := (serve r (session_of p)).2 in mkPanel (committed s) (trace s) (draws s).
Definition run_panel (p : panel) (rs : list request) : panel := foldl serve_one p rs.
End with_env.

(** ** The invariant of the tables *)
Section invariant.
Context `{EnvLaws} `{Vault} `{Renderer} `{Remote}.

Lemma answered_inv {A} (I : session → Prop) (m : M A) : preserves I m → preserves I (answered m).
Proof. intros Hm. apply preserves_bind; [exact Hm|]. intros a. apply preserves_ret. Qed.

Lemma guard_active_account_inv uid : preserves (holds db_inv) (guard_active_account uid).
Proof. unfold guard_active_account, fresh_account_status, now. session_steps. Qed.

Lemma serve_inv r : preserves (holds db_inv) (serve r).
Proof.
  destruct r; simpl; try (apply answered_inv).
  - apply api_add_user_inv.
  - apply api_update_device_limit_inv.
  - apply api_block_user_inv.
  - apply api_unblock_user_inv.
  - apply api_update_local_lifecycle_inv.
  - apply api_reset_local_traffic_inv.
  - apply api_regenerate_public_link_inv.
  - apply api_delete_user_inv.
  - apply api_add_node_inv.
  - apply api_provision_node_inv.
  - apply api_update_node_inv.
  - apply api_delete_node_inv.
  - apply api_trigger_sync_inv.
  - apply api_retry_operation_inv.
  - apply pub_user_info_inv.
  - apply pub_add_device_inv.
  - apply pub_delete_device_inv.
  - apply resolve_device_download_inv.
  - apply resolve_legacy_download_inv.
  - unfold api_device_config_for_node, device_download. session_steps.
    all: try apply guard_active_account_inv.
  - apply node_sync_result_inv.
  - apply node_provision_result_inv.
  - apply node_provision_recovery_inv.
  - apply node_heartbeat_result_inv.
  - apply start_operation_inv.
  - apply finish_operation_inv.
  - apply finish_operation_inv.
  - apply finish_operation_inv.
  - apply cleanup_raw_traffic_samples_inv.
  - apply upsert_remnawave_users_inv.
  - apply mark_remnawave_user_deleted_inv.
  - apply remnawave_reconcile_complete_inv.
  - apply report_telegram_proxy_node_result_inv.
  - apply update_telegram_proxy_settings_inv.
  - apply apply_telegram_proxy_inv.
  - apply disable_telegram_proxy_inv.
  - apply rotate_telegram_proxy_secret_inv.
  - unfold get_remnawave_status. session_steps. apply get_rw_settings_inv.
  - apply update_remnawave_settings_inv.
  - apply update_local_traffic_settings_inv.
  - apply test_remnawave_connection_inv.
  - apply trigger_remnawave_sync_inv.
  - apply trigger_remnawave_user_sync_inv.
  - apply remnawave_webhook_inv.
Qed.

Lemma run_panel_inv p rs : db_inv (tables p) → db_inv (tables (run_panel p rs)).
Proof.
  revert p. induction rs as [|r rs IH]; intros p Hp; [done|]. apply IH.
  by apply (serve_inv r (session_of p)).
Qed.
End invariant.

(** ** Commands are announced by committed rows

    [announced p past]: some commit of the past holds the operation row the command names, of the
    command's kind and, if the command has a target, with that target. *)
Definition announced (p : Payload) (past : list event) : Prop :=
  ∃ d o, EvCommit d ∈ past ∧ operations d !! Payload_operation_id p = Some o ∧
    Op_kind o = Payload_command p ∧
    ∀ t, Payload_target_id p = Some t → default "" (Op_target_id o) = t.

Fixpoint all_announced (history : list event) : Prop :=
  match history with
  | [] => True
  | EvPublish _ p :: past => announced p past ∧ all_announced past
  | _ :: past => all_announced past
  end.

Definition announcing (s : session) : Prop := all_announced (trace s).

Section announcing.
Context `{EnvLaws} `{Vault} `{Renderer} `{Remote}.
Abbreviation tracked := (preserves announcing).

Lemma tracked_pure {A} (m : M A) : pure_draw m → tracked m.
Proof. intros Hm s Hs. destruct (Hm s) as (_ & _ & _ & Ht). unfold announcing. by rewrite Ht. Qed.
Lemma tracked_modify f : tracked (modify f).
Proof. by intros s. Qed.
Lemma tracked_transact {A} (f : db → A * db) : tracked (transact f).
Proof. intros s Hs. unfold transact. by destruct (f (work s)). Qed.
Lemma tracked_draw {A} (f : nat → A) : tracked (draw f).
Proof. by intros s. Qed.
Lemma tracked_rollback : tracked rollback.
Proof. by intros s. Qed.
Lemma tracked_lock_wait : tracked lock_wait.
Proof. by intros s. Qed.
Lemma tracked_race : tracked race.
Proof. by intros s. Qed.
Lemma tracked_notify uid r : tracked (record_notification uid r).
Proof. by intros s. Qed.
Lemma tracked_savepoint {A} (m : M A) : tracked m → tracked (savepoint m).
Proof.
  intros Hm s Hs. unfold savepoint. specialize (Hm s Hs). by destruct (m s) as [[a|e] s'].
Qed.
Lemma notified_all_announced (l : list (string * string)) past :
  all_announced past → all_announced (((fun ur => EvNotify ur.1 ur.2) <$> l) ++ past).
Proof. intros Hp. by induction l. Qed.
Lemma tracked_commit : tracked commit.
Proof. intros s Hs. unfold announcing, commit. simpl. by apply notified_all_announced. Qed.
#[local] Hint Resolve tracked_modify tracked_transact tracked_draw tracked_rollback
  tracked_lock_wait tracked_race tracked_notify tracked_savepoint tracked_commit : preserves.

(** A row as [new_operation] makes it. *)
Definition named (kind : string) (target_id : option string) (o : AsyncOperation) : Prop :=
  Op_kind o = kind ∧ Op_target_id o = target_id ∧
  truthy_str (Op_id o) = true ∧ truthy_str (Op_idempotency_key o) = true.

Lemma new_operation_named kind tt_ tid s :
  ∃ o s', new_operation kind tt_ tid s = (Ok o, s') ∧ named kind tid o ∧ trace s' = trace s.
Proof.
  unfold new_operation, new_uuid, now, draw, bindM, retM. simpl. do 2 eexists.
  split; [reflexivity|]. split; [|done]. unfold named. simpl.
  split_and!; try done; (destruct (uuid4 _) eqn:E; [by apply uuid4_nonempty in E|done]).
Qed.
Lemma tracked_new_operation {A} kind tt_ tid (k : AsyncOperation → M A) :
  (∀ o, named kind tid o → tracked (k o)) → tracked (bindM (new_operation kind tt_ tid) k).
Proof.
  intros Hk s Hs. rewrite bind_run.
  destruct (new_operation_named kind tt_ tid s) as (o & s' & -> & Ho & Ht).
  apply (Hk o Ho). unfold announcing. by rewrite Ht.
Qed.

Lemma tracked_enqueue_operation kind op_target op target_type target_id :
  named kind op_target op → (∀ t, target_id = Some t → default "" op_target = t) →
  tracked (enqueue_operation op
             (fun o => enqueue_command kind (payload_of kind target_type target_id o))).
Proof.
  intros (Hk & Ht & Hid & Hkey) Htarget s Hs. unfold enqueue_operation.
  rewrite bind_run. cbn [modify]. rewrite bind_run.
  set (s1 := (commit (s <| work := update_operation op (work s) |>)).2).
  assert (announcing s1) as Hs1 by by apply tracked_commit.
  assert (∃ d, EvCommit d ∈ trace s1 ∧ operations d !! Op_id op = Some op) as (d & Hd & Hop).
  { exists (update_operation op (work s)). split; [|by simpl; rewrite lookup_insert_eq].
    unfold s1, commit. simpl. rewrite elem_of_app. right. left. }
  change (commit (s <| work := update_operation op (work s) |>)) with (Ok tt, s1). cbv beta iota.
  clearbody s1. clear s Hs. unfold try_except, enqueue_command. rewrite !bind_run, payload_of_run by done.
  rewrite bind_run. unfold lift. destruct (routing_key_for_command kind) as [key|e].
  - rewrite bind_run. unfold publish_command, publish.
    destruct (broker_error _) as [message|]; simpl; [by apply notified_all_announced|].
    split; [|done]. exists d, op. rewrite Ht, Hk. by split_and!.
  - simpl. by apply notified_all_announced.
Qed.

(** Closing [tracked m] along the structure of [m], opening definitions that are not known yet. *)
Ltac head_of t := match t with ?f _ => head_of f | _ => t end.
Ltac tracked_step :=
  match goal with
  | |- preserves _ (let _ := _ in _) => cbv zeta
  | |- preserves _ (bindM (new_operation _ _ _) _) => apply tracked_new_operation; intros ? ?
  | |- preserves _ (bindM _ _) => apply preserves_bind; [|intros ?]
  | |- preserves _ (match ?x with _ => _ end) => destruct x
  | |- preserves _ (try_except _ _) => apply preserves_try; [|intros ?]
  | |- preserves _ (savepoint _) => apply tracked_savepoint
  | |- preserves _ (for_fold _ _ _) => apply preserves_for_fold; intros ? ? _
  | |- preserves _ (for_each _ _) => apply preserves_for_each; intros ? _
  | |- preserves _ (enqueue_operation _ _) =>
      eapply tracked_enqueue_operation; [eassumption|by intros ? [= <-]]
  | |- preserves _ _ => solve [auto 2 with preserves]
  | |- preserves _ ?m =>
      let f := head_of m in
      lazymatch f with enqueue_operation => fail | _ => unfold f end
  end.
Ltac tracked_steps := repeat (cbv beta; tracked_step).

Lemma tracked_lock_owner_rows attempts nid locked : tracked (lock_owner_rows attempts nid locked).
Proof.
  revert locked. induction attempts as [|n IH]; intros locked; simpl; [apply preserves_ret|].
  tracked_steps.
Qed.
Lemma tracked_insert_device attempts uid name public_key private_key :
  tracked (insert_device_attempts attempts uid name public_key private_key).
Proof. induction attempts as [|n IH]; simpl; tracked_steps. Qed.
Lemma tracked_enqueue_retry op : tracked (enqueue_retry op).
Proof.
  unfold enqueue_retry. apply tracked_new_operation. intros retried Hnamed. cbv zeta.
  apply preserves_bind; [|intros ?; apply preserves_ret].
  repeat match goal with |- preserves _ (if ?a == ?b then _ else _) =>
    destruct (bool_decide_reflect (a = b)) as [E|_]; [rewrite E in Hnamed|] end.
  all: try (eapply tracked_enqueue_operation; [eassumption|by intros ? [= <-]]).
  apply preserves_raise.
Qed.
Lemma tracked_persist_and_publish ids : tracked (persist_and_publish_sync ids).
Proof.
  pose (made (ops : list (AsyncOperation * string)) :=
    Forall (fun on => named "sync_node" (Some on.2) on.1) ops).
  apply hoare_preserves. unfold persist_and_publish_sync.
  apply hoare_bind with (R := fun ops s => announcing s ∧ made ops).
  - eapply hoare_weaken; [apply (hoare_for_fold _ _ (fun ops s => announcing s ∧ made ops)
      (fun _ => announcing))|intros s Hs; split; [exact Hs|constructor]|done|done].
    intros ops nid _ s [Hs Hops]. rewrite bind_run.
    destruct (new_operation_named "sync_node" (Some "node") (Some nid) s) as (o & s' & -> & Ho & Ht).
    split; [unfold announcing; by rewrite Ht|]. apply Forall_app. split; [exact Hops|].
    by constructor.
  - intros ops s [Hs Hops]. assert (tracked (for_each ops (fun on => modify (update_operation on.1)))).
    { apply preserves_for_each. intros. apply tracked_modify. }
    assert (tracked (for_each ops (fun on => enqueue_operation on.1 (enqueue_sync_node on.2)))).
    { apply preserves_for_each. intros on Hon. unfold made in Hops; rewrite Forall_forall in Hops.
      eapply tracked_enqueue_operation; [by apply Hops|by intros ? [= <-]]. }
    revert s Hs. apply hoare_preserves. destruct ops; [apply tracked_commit|].
    repeat (apply preserves_bind; [first [assumption | apply tracked_commit]|intros _]). assumption.
Qed.
#[local] Hint Resolve tracked_lock_owner_rows tracked_insert_device tracked_enqueue_retry
  tracked_persist_and_publish : preserves.

(** Every route but the webhook, whose commands have no operation. *)
Definition is_webhook (r : request) : bool :=
  match r with RemnawaveWebhook _ _ _ => true | _ => false end.

Lemma serve_tracked r : is_webhook r = false → tracked (serve r).
Proof. destruct r; intros Hr; try discriminate Hr; simpl; tracked_steps. Qed.

Lemma run_panel_announced p rs :
  Forall (fun r => is_webhook r = false) rs →
  all_announced (history p) → all_announced (history (run_panel p rs)).
Proof.
  intros Hrs. revert p. induction Hrs as [|r rs Hr Hrs IH]; intros p Hp; [done|]. apply IH.
  by apply (serve_tracked r Hr (session_of p)).
Qed.
End announcing.

Lemma all_announced_app before after :
  all_announced (before ++ after) → all_announced after.
Proof. induction before as [|[] before IH]; simpl; naive_solver. Qed.

(** ** Properties *)


(** C3: no route sends a command before its operation is durable. In every run of the panel without
    webhook deliveries, each
    message given to the broker is preceded by a commit that holds the operation row the message
    names, and that row has the command's kind and target. *)
Theorem published_commands_are_durable `{EnvLaws} `{Vault} `{Renderer} `{Remote} n d rs before key payload past :
  Forall (fun r => is_webhook r = false) rs →
  history (run_panel (mkPanel d [] n) rs) = before ++ EvPublish key payload :: past →
  ∃ d' o, EvCommit d' ∈ past ∧ operations d' !! Payload_operation_id payload = Some o ∧
    Op_kind o = Payload_command payload ∧
    ∀ t, Payload_target_id payload = Some t → default "" (Op_target_id o) = t.
Proof.
  intros Hrs Hh. pose proof (run_panel_announced (mkPanel d [] n) rs Hrs I) as Ha.
  rewrite Hh in Ha. by apply all_announced_app in Ha as [? _].
Qed.

(** An account, a node, a device of the account and a scheduled sync. *)
Definition sample_requests : list request :=
  [AddUser "ann" 2;
   AddNode {| NodeIn_name := "berlin"; NodeIn_url := "http://10.0.0.2"; NodeIn_token := "t";
     NodeIn_server_endpoint := None; NodeIn_listen_port := None; NodeIn_jc := None;
     NodeIn_jmin := None; NodeIn_jmax := None; NodeIn_s1 := None; NodeIn_s2 := None;
     NodeIn_s3 := None; NodeIn_s4 := None; NodeIn_h1 := None; NodeIn_h2 := None;
     NodeIn_h3 := None; NodeIn_h4 := None; NodeIn_i1 := None; NodeIn_i2 := None;
     NodeIn_i3 := None; NodeIn_i4 := None; NodeIn_i5 := None; NodeIn_mtu := None |};
   PublicAddDevice "token-1" "phone"; TriggerSync].


Lemma published_commands_are_durable_witness :
  ∃ key payload past,
    history (run_panel (mkPanel empty_db [] 0) [TriggerSync]) = EvPublish key payload :: past ∧
    ∃ d' o, EvCommit d' ∈ past ∧ operations d' !! Payload_operation_id payload = Some o ∧
      Op_kind o = Payload_command payload.
Proof.
  destruct (history (run_panel (mkPanel empty_db [] 0) [TriggerSync])) as [|[d|key payload|u r] past] eqn:E;
    try (vm_compute in E; discriminate E).
  assert (Forall (fun r => is_webhook r = false) [TriggerSync]) as Hrs by (repeat constructor).
  exists key, payload, past. split; [reflexivity|].
  destruct (published_commands_are_durable 0 empty_db [TriggerSync] [] key payload past
    Hrs E)
    as (d' & o & H1 & H2 & H3 & _).
  exists d', o. split; [exact H1|]. split; [exact H2|exact H3].
Defined.
