(* ===== verification/RequestBodies.v ===== *)
(** * Request bodies and the values they may leave in the tables

    The pydantic bodies of [panel/backend/app/models.py] by which an administrator sets numbers and
    policies ([UserIn], [LocalDeviceLimitUpdate], [LocalUserLifecycleUpdate],
    [LocalAmneziawgTrafficSettingsIn], [RemnawaveSettingsIn]), with their constraints, read from the JSON of
    the request; the answer to a body that is refused ([error_handlers.py]); and the requests themselves,
    from body to committed tables. How a single value is read (which strings count as an integer, say) is
    pydantic's and a parameter ([Pydantic]). *)
From S2P Require Import Prelude PyStr Json Bytes Models Session Sample Secrets Accounts Crypto Devices Lifecycle Jobs.
From S2P Require Import WorkerApi WorkerRemnawave UserApi Downloads RemnawaveApi Panel.

(** ** Reading *)
Class Pydantic := {
  (* a value of a type, or the message of the failure *)
  str_field : json → string + string;
  int_field : json → string + Z;
  bool_field : json → string + bool;
  datetime_field : json → string + datetime;
  missing_message : string;
  bound_message : Z → string;
  pattern_message : string → string;
  object_message : string }.

(** What went wrong, by location. *)
Abbreviation field_error := (list string * string)%type.
Abbreviation validated A := (list field_error + A)%type.
Abbreviation reader A := (json → string + A).
(** Every field is read; the errors of all of them are reported, in the order of the fields. *)
Definition vpure {A} (a : A) : validated A := inr a.
Definition vapp {A B} (f : validated (A → B)) (x : validated A) : validated B :=
  match f, x with
  | inr f, inr a => inr (f a)
  | inl e1, inl e2 => inl (e1 ++ e2)
  | inl e, _ | _, inl e => inl e
  end.
Infix "<@>" := vapp (at level 61, left associativity) : py_scope.

(** A repeated key counts with its last value. *)
Definition obj_find (name : string) (obj : list (string * json)) : option json :=
  snd <$> last (List.filter (fun kv : string * json => kv.1 == name) obj).

Section readers.
Context `{Pydantic}.

Definition at_field {A} (name : string) (r : string + A) : validated A :=
  match r with inl m => inl [(["body"; name], m)] | inr a => inr a end.
(** A field without a default, and one with; [T | None]. *)
Definition required {A} (name : string) (read : reader A) (obj : list (string * json)) : validated A :=
  match obj_find name obj with
  | Some v => at_field name (read v)
  | None => inl [(["body"; name], missing_message)]
  end.
Definition defaulted {A} (name : string) (d : A) (read : reader A) (obj : list (string * json)) : validated A :=
  match obj_find name obj with
  | Some v => at_field name (read v)
  | None => inr d
  end.
Definition nullable {A} (read : reader A) : reader (option A) := fun v =>
  match v with
  | JNull => inr None
  | _ => match read v with inl m => inl m | inr a => inr (Some a) end
  end.
(** [Field(ge=n)], [Field(pattern='^(a|b)$')]. *)
Definition ge (n : Z) : reader Z := fun v =>
  match int_field v with
  | inl m => inl m
  | inr z => if (n <=? z)%Z then inr z else inl (bound_message n)
  end.
Definition one_of (options : list string) : reader string := fun v =>
  match str_field v with
  | inl m => inl m
  | inr s => if s isin options then inr s else inl (pattern_message ("^(" +:+ join "|" options +:+ ")$"))
  end.

(** ** The bodies *)
Definition RESET_POLICIES : list string := ["manual"; "no_reset"].
Definition UserIn (obj : list (string * json)) : validated (string * Z) :=
  vpure pair <@> required "name" str_field obj <@> defaulted "device_limit" 0%Z (ge 0) obj.
Definition LocalDeviceLimitUpdate (obj : list (string * json)) : validated Z :=
  required "device_limit" (ge 0) obj.
Definition LocalUserLifecycleUpdate (obj : list (string * json)) : validated (option datetime * Z * string) :=
  vpure (fun e l p => (e, l, p)) <@> defaulted "expire_at" None (nullable datetime_field) obj
    <@> defaulted "traffic_limit_bytes" 0%Z (ge 0) obj
    <@> defaulted "traffic_reset_policy" "manual" (one_of RESET_POLICIES) obj.
Definition LocalAmneziawgTrafficSettingsIn (obj : list (string * json)) : validated (Z * Z) :=
  vpure pair <@> defaulted "raw_sample_retention_days" 90%Z (ge 0) obj
    <@> defaulted "peer_online_threshold_seconds" 180%Z (ge 1) obj.
Definition RemnawaveSettingsIn_of (obj : list (string * json)) : validated RemnawaveSettingsIn :=
  vpure mkRemnawaveSettingsIn <@> defaulted "base_url" None (nullable str_field) obj
    <@> defaulted "enabled" false bool_field obj <@> defaulted "polling_enabled" false bool_field obj
    <@> defaulted "polling_interval_seconds" 300%Z (ge 60) obj
    <@> defaulted "api_token" None (nullable str_field) obj <@> defaulted "webhook_secret" None (nullable str_field) obj
    <@> defaulted "subscription_url" None (nullable str_field) obj
    <@> defaulted "clear_api_token" false bool_field obj <@> defaulted "clear_webhook_secret" false bool_field obj.

(** ** The routes that take them *)
Inductive route :=
  | PostUser
  | PutDeviceLimit (user_id : string)
  | PutLocalLifecycle (user_id : string)
  | PutTrafficSettings
  | PutRemnawaveSettings.
Definition vmap {A B} (f : A → B) (x : validated A) : validated B := vpure f <@> x.
Definition read_fields (r : route) (obj : list (string * json)) : validated request :=
  match r with
  | PostUser => vmap (fun b => AddUser b.1 b.2) (UserIn obj)
  | PutDeviceLimit uid => vmap (UpdateDeviceLimit uid) (LocalDeviceLimitUpdate obj)
  | PutLocalLifecycle uid => vmap (fun b => UpdateLocalLifecycle uid b.1.1 b.1.2 b.2) (LocalUserLifecycleUpdate obj)
  | PutTrafficSettings => vmap (fun b => UpdateLocalTrafficSettings b.1 b.2) (LocalAmneziawgTrafficSettingsIn obj)
  | PutRemnawaveSettings => vmap UpdateRemnawaveSettings (RemnawaveSettingsIn_of obj)
  end.
Definition read_body (r : route) (body : json) : validated request :=
  match body with
  | JObj obj => read_fields r obj
  | _ => inl [(["body"], object_message)]
  end.
End readers.

(** [_validation_location], [_validation_error_message], [validation_exception_handler] *)
Definition validation_location (location : list string) : string :=
  join "." (List.filter (fun part => negb (part isin ["body"; "query"; "path"])) location).
Definition validation_error_message (error : field_error) : string :=
  let location := validation_location error.1 in
  let message := if truthy_str error.2 then error.2 else "Invalid value" in
  if truthy_str location then location +:+ ": " +:+ message else message.
Definition validation_exception_handler (errors : list field_error) : exn :=
  HTTPException 422
    match validation_error_message <$> errors with
    | [] => "Invalid request"
    | messages => "Invalid request: " +:+ join "; " messages
    end.

Section with_env.
Context `{Env} `{Vault} `{Renderer} `{Remote} `{Pydantic}.

Definition serve_body (rb : route * json) : M unit :=
  match read_body rb.1 rb.2 with
  | inl errors => raise (validation_exception_handler errors)
  | inr r => serve r
  end.
Definition body_one (p : panel) (rb : route * json) : panel :=
  let s := (serve_body rb (session_of p)).2 in mkPanel (committed s) (trace s) (draws s).
Definition run_bodies (p : panel) (rbs : list (route * json)) : panel := foldl body_one p rbs.
End with_env.

(** ** The values the tables may hold

    What the constraints of the bodies and the widths of the columns leave. *)
Definition user_in_bounds (u : User) : Prop :=
  (0 <= User_device_limit u < 2 ^ 31)%Z ∧ (0 <= User_traffic_limit_bytes u < 2 ^ 63)%Z ∧
  User_traffic_reset_policy u ∈ RESET_POLICIES.
Definition traffic_settings_in_bounds (r : LocalAmneziawgTrafficSettings) : Prop :=
  (0 <= TrafficSettings_raw_sample_retention_days r < 2 ^ 31)%Z ∧
  (1 <= TrafficSettings_peer_online_threshold_seconds r < 2 ^ 31)%Z.
Definition rw_settings_in_bounds (r : RemnawaveSettings) : Prop :=
  (60 <= RwSettings_polling_interval_seconds r < 2 ^ 31)%Z.
Definition in_bounds (d : db) : Prop :=
  (∀ k u, users d !! k = Some u → user_in_bounds u) ∧ Forall traffic_settings_in_bounds (traffic_settings d) ∧
  Forall rw_settings_in_bounds (rw_settings d).
(** Requests whose arguments satisfy the constraints of their body. *)
Definition request_in_bounds (r : request) : Prop :=
  match r with
  | AddUser _ limit | UpdateDeviceLimit _ limit => (0 <= limit)%Z
  | UpdateLocalLifecycle _ _ limit policy => (0 <= limit)%Z ∧ policy ∈ RESET_POLICIES
  | UpdateLocalTrafficSettings days threshold => (0 <= days)%Z ∧ (1 <= threshold)%Z
  | UpdateRemnawaveSettings data => (60 <= RwIn_polling_interval_seconds data)%Z
  | _ => False
  end.

(** ** What a body that is read satisfies *)
Section reading.
Context `{Pydantic}.

Lemma vapp_ok {A B} (f : validated (A → B)) (x : validated A) b :
  f <@> x = inr b → ∃ g a, f = inr g ∧ x = inr a ∧ b = g a.
Proof. destruct f as [|g], x as [|a]; simpl; try done. intros [= <-]. by exists g, a. Qed.
Lemma defaulted_ok {A} name d (read : reader A) obj a (P : A → Prop) :
  defaulted name d read obj = inr a → P d → (∀ v a, read v = inr a → P a) → P a.
Proof.
  unfold defaulted, at_field. intros Ha Hd Hr. destruct (obj_find name obj) as [v|]; [|by injection Ha as <-].
  destruct (read v) as [m|a'] eqn:E; [done|]. injection Ha as <-. by eapply Hr.
Qed.
Lemma ge_ok n v z : ge n v = inr z → (n <= z)%Z.
Proof. unfold ge. destruct (int_field v) as [|z']; [done|]. destruct (n <=? z')%Z eqn:E; [|done]. intros [= <-]. lia. Qed.
Lemma one_of_ok l v s : one_of l v = inr s → s ∈ l.
Proof.
  unfold one_of. destruct (str_field v) as [|s']; [done|]. destruct (s' isin l) eqn:E; [|done]. intros [= <-]. by py_bool.
Qed.
Ltac read_parts := repeat match goal with H : _ <@> _ = inr _ |- _ => apply vapp_ok in H as (? & ? & H & ? & ?); simplify_eq end;
  repeat match goal with H : vpure _ = inr _ |- _ => injection H as <- end.
Lemma read_body_in_bounds rt body r : read_body rt body = inr r → request_in_bounds r.
Proof.
  destruct body as [| | | | | |obj]; try done. intros Hr. cbn [read_body] in Hr.
  destruct rt; cbn [read_fields] in Hr; unfold vmap, UserIn, LocalUserLifecycleUpdate, LocalAmneziawgTrafficSettingsIn,
    RemnawaveSettingsIn_of in Hr; read_parts; cbn.
  - eapply (defaulted_ok _ _ _ _ _ (fun z => 0 <= z)%Z); [done|lia|apply ge_ok].
  - unfold LocalDeviceLimitUpdate, required, at_field in *. destruct (obj_find _ _) as [v|]; [|done].
    destruct (ge 0 v) eqn:E; [done|]. simplify_eq. by apply ge_ok in E.
  - split.
    + eapply (defaulted_ok _ _ _ _ _ (fun z => 0 <= z)%Z); [done|lia|apply ge_ok].
    + eapply (defaulted_ok _ _ _ _ _ (fun s => s ∈ RESET_POLICIES)); [done|left|apply one_of_ok].
  - split.
    + eapply (defaulted_ok _ _ _ _ _ (fun z => 0 <= z)%Z); [done|lia|apply ge_ok].
    + eapply (defaulted_ok _ _ _ _ _ (fun z => 1 <= z)%Z); [done|lia|apply ge_ok].
  - eapply (defaulted_ok _ _ _ _ _ (fun z => 60 <= z)%Z); [done|lia|apply ge_ok].
Qed.
End reading.

(** ** The routes keep the bounds *)
Class OthersInBounds `{Env} := {
  concurrent_in_bounds : ∀ n d, in_bounds d → in_bounds (concurrent n d);
  raced_in_bounds : ∀ n d, in_bounds d → in_bounds (raced n d) }.

Section keeping.
Context `{E : Env} `{OB : !OthersInBounds}.
Abbreviation kept := (preserves (holds in_bounds)).

Lemma untouched f (d : db) :
  users (f d) = users d → traffic_settings (f d) = traffic_settings d → rw_settings (f d) = rw_settings d →
  in_bounds d → in_bounds (f d).
Proof. unfold in_bounds. by intros -> -> ->. Qed.
Lemma update_user_bounds u d : user_in_bounds u → in_bounds d → in_bounds (update_user u d).
Proof.
  intros Hu (Hus & Hts & Hrw). split; [|by split]. intros k v. simpl. destruct (decide (User_id u = k)) as [<-|Hk].
  - rewrite lookup_insert_eq. by intros [= <-].
  - rewrite lookup_insert_ne by done. apply Hus.
Qed.
Lemma fits_range w z : fits w z = true → (- 2 ^ (w - 1) <= z < 2 ^ (w - 1))%Z.
Proof. unfold fits. lia. Qed.
Lemma after_width {A} w z (m : M A) :
  ((- 2 ^ (w - 1) <= z < 2 ^ (w - 1))%Z → kept m) → kept (do* lift (int_column w z) in m).
Proof.
  intros Hm s Hs. rewrite bind_run. unfold lift, int_column. destruct (fits w z) eqn:Ez; [|done].
  apply Hm; [by apply fits_range|done].
Qed.
Lemma lifecycle_rows_bounds t total u d : user_in_bounds u → in_bounds d → in_bounds (lifecycle_rows t total u d).2.
Proof.
  intros Hu Hd. unfold lifecycle_rows. set (u' := u <| User_lifecycle_status := _ |> <| User_is_blocked := _ |>).
  assert (in_bounds (update_user u' d)) as Hd1 by by apply update_user_bounds.
  revert Hd1. generalize (update_user u' d). intros d1 Hd1.
  apply (foldl_invariant (fun acc : gset string * db => in_bounds acc.2)); [done|].
  intros [aff d2] p _ Hd2. unfold lifecycle_peer. repeat case_match; try done; by apply (untouched (update_peer _)).
Qed.
Lemma insert_peer_bounds p : kept (insert_peer p).
Proof.
  unfold insert_peer. assert (kept (modify (update_peer p))) as Hm by
    (apply holds_modify; intros d; by apply (untouched (update_peer p))). session_steps.
Qed.
Lemma race_bounds : kept race.
Proof. apply holds_race. apply raced_in_bounds. Qed.
Lemma lock_wait_bounds : kept lock_wait.
Proof. apply holds_lock_wait. apply concurrent_in_bounds. Qed.
#[local] Hint Resolve insert_peer_bounds race_bounds lock_wait_bounds : preserves.
Lemma create_pending_peer_bounds nid v : kept (create_pending_peer nid v).
Proof.
  unfold create_pending_peer, generate_psk, new_uuid, now. session_steps.
  apply preserves_try; [|intros e; session_steps].
  apply preserves_bind; [apply holds_savepoint, insert_peer_bounds|intros []; apply preserves_ret].
Qed.
#[local] Hint Resolve create_pending_peer_bounds : preserves.
Lemma restore_missing_peers_bounds uid : kept (restore_missing_peers_for_user uid).
Proof.
  unfold restore_missing_peers_for_user, create_pending_peers_for_device. session_steps.
  apply preserves_for_fold. intros b v _. session_steps.
Qed.
#[local] Hint Resolve restore_missing_peers_bounds : preserves.
Lemma enqueue_sync_nodes_bounds uid : kept (enqueue_sync_nodes_for_user uid).
Proof.
  unfold enqueue_sync_nodes_for_user. apply preserves_bind; [apply preserves_reads|intros ids].
  apply preserves_for_each. intros nid _. unfold enqueue_sync. session_steps; [apply pure_draw_preserves, pure_draw_new_operation|].
  apply enqueue_operation_keeps. intros o d. by apply (untouched (update_operation o)).
Qed.
#[local] Hint Resolve enqueue_sync_nodes_bounds : preserves.
Lemma apply_and_sync_bounds u total : user_in_bounds u → kept (apply_and_sync u total).
Proof.
  intros Hu. unfold apply_and_sync, apply_local_lifecycle_state, now. session_steps.
  - apply holds_modify. intros d. by apply update_user_bounds.
  - apply holds_transact. intros d. by apply lifecycle_rows_bounds.
Qed.

(** *** The five routes *)
Lemma new_user_run name blocked limit s : holds in_bounds s →
  ∃ u s', new_user name blocked limit s = (Ok u, s') ∧ User_device_limit u = limit ∧ User_traffic_limit_bytes u = 0%Z ∧
    User_traffic_reset_policy u = "manual" ∧ holds in_bounds s'.
Proof. intros Hs. by eexists _, _. Qed.
Lemma insert_user_bounds u : user_in_bounds u → kept (insert_user u).
Proof.
  intros Hu. unfold insert_user. assert (kept (modify (update_user u))) as Hm by
    (apply holds_modify; intros d; by apply update_user_bounds). session_steps.
Qed.
Lemma add_user_bounds name limit : (0 <= limit)%Z → kept (api_add_user name limit).
Proof.
  intros Hl. unfold api_add_user. apply preserves_bind; [|intros u; session_steps].
  intros s Hs. unfold create_local_user. rewrite bind_run.
  destruct (new_user_run name false limit s Hs) as (u & s' & -> & H1 & H2 & H3 & Hs').
  apply after_width; [|done]. intros Hw. apply preserves_bind; [|intros []; session_steps].
  apply insert_user_bounds. rewrite <- H1 in *. unfold user_in_bounds. rewrite H2, H3. cbn in Hw.
  split_and!; try lia. left.
Qed.
Lemma the_user_bounds {A} uid (k : User → M A) :
  (∀ u, user_in_bounds u → kept (k u)) → kept (let* user := the_user uid in do* guard_not_remnawave_managed user in k user).
Proof.
  intros Hk s Hs. unfold the_user. rewrite !bind_run. unfold reads at 1.
  destruct (users (work s) !! uid) as [u|] eqn:Hu; [|done]. cbn [retM].
  apply preserves_bind; [unfold guard_not_remnawave_managed; session_steps| |done].
  intros []. apply Hk. destruct Hs as [(Hus & _) _]. by eapply Hus.
Qed.
Lemma update_local_lifecycle_bounds uid e limit policy :
  (0 <= limit)%Z → policy ∈ RESET_POLICIES → kept (api_update_local_lifecycle uid e limit policy).
Proof.
  intros Hl Hp. apply the_user_bounds. intros u (Hdev & _ & _). apply after_width. cbn. intros Hw.
  apply apply_and_sync_bounds. unfold user_in_bounds. cbn. split_and!; try lia; done.
Qed.
Lemma update_device_limit_bounds uid limit : (0 <= limit)%Z → kept (api_update_device_limit uid limit).
Proof.
  intros Hl s Hs. unfold api_update_device_limit. rewrite bind_run. unfold try_except.
  rewrite lock_owner_run. assert (holds in_bounds (after_lock s)) as Hs1.
  { destruct Hs as [Hw Hc]. split; by apply concurrent_in_bounds. }
  destruct (users (locked_view s) !! uid) as [u|] eqn:Hu; [|done].
  assert (user_in_bounds u) as (_ & Hlim & Hpol) by by eapply (proj1 (proj1 Hs1)).
  apply preserves_bind; [unfold guard_not_remnawave_managed; session_steps| |done].
  intros []. apply after_width. cbn. intros Hw. apply preserves_bind; [|intros []; session_steps].
  apply holds_modify. intros d. apply update_user_bounds. unfold user_in_bounds. cbn. split_and!; try lia; done.
Qed.
Lemma put_settings_bounds {A} (key : A → string) (P : A → Prop) row (l : list A) :
  P row → Forall P l → Forall P ((fun r => if key r == key row then row else r) <$> l).
Proof. 
  intros Hrow Hl. apply Forall_fmap. eapply Forall_impl; [exact Hl|]. intros r Hr. simpl. by case_bool_decide.
 Qed.
Lemma get_traffic_settings_kept : kept get_traffic_settings.
Proof.
  unfold get_traffic_settings, new_uuid, now. session_steps. apply holds_modify. intros d (Hus & Hts & Hrw).
  split; [done|]. split; [|done]. cbn. apply Forall_app. split; [done|]. repeat constructor; cbn; lia.
Qed.
Lemma put_traffic_settings_bounds row : traffic_settings_in_bounds row → kept (put_traffic_settings row).
Proof.
  intros Hrow. apply holds_modify. intros d (Hus & Hts & Hrw). split; [done|]. split; [|done]. cbn.
  by apply (put_settings_bounds TrafficSettings_id).
Qed.
Lemma update_local_traffic_settings_bounds days threshold :
  (0 <= days)%Z → (1 <= threshold)%Z → kept (update_local_traffic_settings days threshold).
Proof.
  intros Hd Ht. unfold update_local_traffic_settings. apply preserves_bind; [apply get_traffic_settings_kept|].
  intros row. apply after_width. cbn. intros Hw1. apply after_width. cbn. intros Hw2.
  apply preserves_bind; [|intros []; session_steps]. apply put_traffic_settings_bounds. split; cbn; lia.
Qed.
Lemma put_rw_settings_bounds row : rw_settings_in_bounds row → kept (put_rw_settings row).
Proof.
  intros Hrow. apply holds_modify. intros d (Hus & Hts & Hrw). split; [done|]. split; [done|]. cbn.
  by apply (put_settings_bounds RwSettings_id).
Qed.
Lemma get_rw_settings_kept : kept get_rw_settings.
Proof.
  unfold get_rw_settings, new_uuid, now. session_steps. apply holds_modify. intros d (Hus & Hts & Hrw).
  split; [done|]. split; [done|]. cbn. apply Forall_app. split; [done|]. repeat constructor; cbn; lia.
Qed.
Lemma update_remnawave_settings_bounds `{Vault} data :
  (60 <= RwIn_polling_interval_seconds data)%Z → kept (update_remnawave_settings data).
Proof.
  intros Hp. unfold update_remnawave_settings. apply preserves_bind; [apply get_rw_settings_kept|]. intros row. cbv zeta.
  assert (∀ clear given stored, kept (updated_secret clear given stored)) as Hsec.
  { intros. unfold updated_secret, RemnawaveCrypto.encrypt. session_steps. }
  apply preserves_bind; [apply Hsec|intros token]. apply preserves_bind; [apply Hsec|intros secret].
  apply after_width. cbn. intros Hw. apply preserves_bind; [|intros []; session_steps].
  apply put_rw_settings_bounds. unfold rw_settings_in_bounds. destruct (RwIn_subscription_url data); cbn; lia.
Qed.
Lemma serve_bounds `{Vault} `{Renderer} `{Remote} r : request_in_bounds r → kept (serve r).
Proof.
  intros Hr. assert (∀ A (m : M A), kept m → kept (answered m)) as Ha by (intros A m Hm; unfold answered; session_steps).
  destruct r; try done; cbn [serve request_in_bounds] in *; try apply Ha.
  - by apply add_user_bounds.
  - by apply update_device_limit_bounds.
  - destruct Hr. by apply update_local_lifecycle_bounds.
  - by apply update_remnawave_settings_bounds.
  - destruct Hr. by apply update_local_traffic_settings_bounds.
Qed.
Lemma body_one_bounds `{Vault} `{Renderer} `{Remote} `{Pydantic} p rb :
  in_bounds (tables p) → in_bounds (tables (body_one p rb)).
Proof.
  intros Hp. unfold body_one, serve_body. destruct (read_body rb.1 rb.2) as [errors|r] eqn:Er; [done|].
  apply read_body_in_bounds in Er. apply (serve_bounds r Er (session_of p)). by split.
Qed.
End keeping.

(** ** Retention and the calendar *)
Section retention.
Context `{E : Env} `{Vault} `{Renderer} `{Remote}.

Lemma get_traffic_settings_one s row :
  traffic_settings (work s) = [row] → get_traffic_settings s = (Ok row, s).
Proof. intros Hrow. unfold get_traffic_settings. rewrite bind_run. unfold reads at 1. by rewrite Hrow. Qed.
Lemma settings_written p row n k :
  traffic_settings (tables p) = [row] → fits 32 n = true → fits 32 k = true →
  (serve (UpdateLocalTrafficSettings n k) (session_of p)).1 = Ok tt ∧
  traffic_settings (tables (serve_one p (UpdateLocalTrafficSettings n k))) =
    [row <| TrafficSettings_raw_sample_retention_days := n |> <| TrafficSettings_peer_online_threshold_seconds := k |>].
Proof.
  intros Hrow Hn Hk. unfold serve_one. cbn [serve]. unfold answered, update_local_traffic_settings.
  rewrite !bind_run, (get_traffic_settings_one _ row) by exact Hrow. rewrite bind_run. unfold lift, int_column. rewrite Hn.
  rewrite bind_run. unfold lift. rewrite Hk. cbn. rewrite Hrow. cbn. by rewrite bool_decide_eq_true_2.
Qed.
Lemma timedelta_days n : (0 <= n)%Z → timedelta n day_us = Ok (n * day_us)%Z ∨
  (999999999 < n)%Z ∧ ∃ m, timedelta n day_us = Raise (OverflowError m).
Proof.
  intros Hn. unfold timedelta. rewrite Z.div_mul by done. destruct (fits 32 n) eqn:Hf; cbn [negb].
  - destruct (999999999 <? Z.abs n)%Z eqn:Hb; [right|by left]. split; [lia|by eexists].
  - right. unfold fits in Hf. change (2 ^ (32 - 1))%Z with 2147483648%Z in Hf. split; [lia|by eexists].
Qed.
Lemma minus_days t n : (0 <= n)%Z → (dt_wall t <= MAX_DATETIME)%Z →
  datetime_minus t n day_us = Ok (DT (dt_wall t - n * day_us) (dt_offset t)) ∧ (MIN_DATETIME <= dt_wall t - n * day_us)%Z ∨
  (∃ m, datetime_minus t n day_us = Raise (OverflowError m)) ∧ (dt_wall t - n * day_us < MIN_DATETIME)%Z.
Proof.
  intros Hn Ht. assert (day_us = 86400000000%Z) as Hday by done.
  assert (MIN_DATETIME = (-62135596800000000)%Z ∧ MAX_DATETIME = 253402300799999999%Z) as [Hmin Hmax] by done.
  unfold datetime_minus. destruct (timedelta_days n Hn) as [-> | (Hbig & m & ->)]; cbn [mbind outcome_bind].
  - destruct (MIN_DATETIME <=? dt_wall t - n * day_us)%Z eqn:Hb; cbn [andb].
    + left. destruct (dt_wall t - n * day_us <=? MAX_DATETIME)%Z eqn:Hc; [split; [done|lia]|lia].
    + right. split; [by eexists|lia].
  - right. split; [by eexists|]. lia.
Qed.
Lemma cleanup_run s row n t :
  traffic_settings (work s) = [row] → TrafficSettings_raw_sample_retention_days row = n → n ≠ 0%Z →
  (∀ m, datetime_minus t n day_us = Raise (OverflowError m) → ∃ s',
     cleanup_raw_traffic_samples (Some t) s = (Raise (OverflowError m), s') ∧ committed s' = committed s) ∧
  (∀ c, datetime_minus t n day_us = Ok c → is_ok (cleanup_raw_traffic_samples (Some t) s).1 = true).
Proof.
  intros Hrow <- Hn. unfold cleanup_raw_traffic_samples. rewrite bind_run, (get_traffic_settings_one s row) by done.
  rewrite bool_decide_eq_false_2 by done. rewrite bind_run. unfold now, draw. rewrite bind_run. change (default _ (Some t)) with t. split.
  - intros m Hm. unfold lift. rewrite Hm. by eexists.
  - intros c Hc. unfold lift. rewrite Hc. rewrite bind_run. unfold reads. by case_match.
Qed.
End retention.

(** ** Properties *)

(** C32: whatever JSON bodies an administrator sends to the routes that set numbers and policies, the
    tables stay within their bounds: device limits and traffic limits are not negative, the reset policy is
    one of the two, retention is not negative, the online threshold at least one second, the polling
    interval at least a minute, and each fits the column that holds it. A body with a wrong field is
    answered with status 422, naming every wrong field, and nothing changes; a negative device limit is
    such a field. *)
Theorem admin_bodies_stay_in_bounds `{E : Env} `{OB : !OthersInBounds} `{Vault} `{Renderer} `{Remote} `{Pydantic}
    (p : panel) (rbs : list (route * json)) :
  in_bounds (tables p) →
  in_bounds (tables (run_bodies p rbs)) ∧
  (∀ rb errors, read_body rb.1 rb.2 = inl errors →
     (serve_body rb (session_of p)).1 = Raise (validation_exception_handler errors) ∧ body_one p rb = p) ∧
  (∀ uid obj v z, obj_find "device_limit" obj = Some v → int_field v = inr z → (z < 0)%Z →
     read_body (PutDeviceLimit uid) (JObj obj) = inl [(["body"; "device_limit"], bound_message 0)]).
Proof.
  intros Hp. split_and!.
  - apply (foldl_invariant (fun p => in_bounds (tables p))); [exact Hp|]. intros p' rb _. apply body_one_bounds.
  - intros rb errors Herr. unfold body_one, serve_body. rewrite Herr. split; [done|]. by destruct p.
  - intros uid obj v z Hv Hz Hneg. cbn. unfold LocalDeviceLimitUpdate, required. rewrite Hv. unfold ge. rewrite Hz.
    by destruct (0 <=? z)%Z eqn:Hb; [lia|].
Qed.

(** C40: a retention the settings route takes can be longer than the calendar. After a request that sets
    [n] days, a cleanup at [t] returns exactly when retention is off or the cutoff lies in the year 1 or
    later; otherwise it raises [OverflowError], is answered as an internal error, and deletes nothing. *)
Theorem long_retention_stops_cleanup `{E : Env} `{Vault} `{Renderer} `{Remote} (p : panel)
    (row : LocalAmneziawgTrafficSettings) (n k : Z) (t : datetime) :
  traffic_settings (tables p) = [row] → (0 <= n < 2 ^ 31)%Z → (1 <= k < 2 ^ 31)%Z →
  (MIN_DATETIME <= dt_wall t <= MAX_DATETIME)%Z →
  (serve (UpdateLocalTrafficSettings n k) (session_of p)).1 = Ok tt ∧
  let p' := serve_one p (UpdateLocalTrafficSettings n k) in
  let reply := (cleanup_raw_traffic_samples (Some t) (session_of p')).1 in
  (n = 0 ∨ MIN_DATETIME <= dt_wall t - n * day_us → is_ok reply = true)%Z ∧
  (n ≠ 0 → dt_wall t - n * day_us < MIN_DATETIME →
     (∃ m, reply = Raise (OverflowError m)) ∧ tables (serve_one p' (CleanupRawTrafficSamples (Some t))) = tables p')%Z.
Proof.
  intros Hrow Hn Hk [Hmin Hmax].
  destruct (settings_written p row n k Hrow) as [Hok Hnew]; [unfold fits; lia..|]. split; [exact Hok|]. intros p' reply.
  fold p' in Hnew. pose proof (minus_days t n ltac:(lia) Hmax) as Hcases.
  destruct (decide (n = 0%Z)) as [->|Hn0].
  - split; [|done]. intros _. unfold reply, cleanup_raw_traffic_samples.
    by rewrite bind_run, (get_traffic_settings_one (session_of p') _ Hnew).
  - destruct (cleanup_run (session_of p') _ n t Hnew eq_refl Hn0) as [Hbad Hgood]. split.
    + intros [?|Hcal]; [done|]. destruct Hcases as [[Hc _]|[_ ?]]; [by eapply Hgood|lia].
    + intros _ Hcal. destruct Hcases as [[_ ?]|[[m Hm] _]]; [lia|]. destruct (Hbad m Hm) as (s' & Hs' & Hcom).
      split; [exists m; unfold reply; by rewrite Hs'|]. unfold serve_one. cbn [serve]. unfold answered.
      rewrite bind_run, Hs'. exact Hcom.
Qed.

(** ** Concrete bodies *)
#[export] Instance sample_pydantic : Pydantic := {
  str_field v := match v with JStr s => inr s | _ => inl "Input should be a valid string" end;
  int_field v := match v with JInt z => inr z | _ => inl "Input should be a valid integer" end;
  bool_field v := match v with JBool b => inr b | _ => inl "Input should be a valid boolean" end;
  datetime_field v := match v with JInt z => inr (utc (seconds z)) | _ => inl "Input should be a valid datetime" end;
  missing_message := "Field required";
  bound_message n := "Input should be greater than or equal to " +:+ pretty n;
  pattern_message p := "String should match pattern '" +:+ p +:+ "'";
  object_message := "Input should be a valid dictionary" }.
#[export] Instance sample_others_in_bounds : OthersInBounds (H := sample_env).
Proof. by split. Qed.

Lemma refused_body :
  read_body PostUser (JObj [("device_limit", JInt (-1))]) =
    inl [(["body"; "name"], "Field required"); (["body"; "device_limit"], "Input should be greater than or equal to 0")] ∧
  validation_exception_handler [(["body"; "name"], "Field required"); (["body"; "device_limit"], "Input should be greater than or equal to 0")]
  = HTTPException 422 "Invalid request: name: Field required; device_limit: Input should be greater than or equal to 0".
Proof. split; vm_compute; reflexivity. Qed.

Definition sample_bodies : list (route * json) := [
  (PostUser, JObj [("name", JStr "ann"); ("device_limit", JInt 3)]); (PostUser, JObj [("device_limit", JInt (-1))]);
  (PostUser, JObj [("name", JStr "bob"); ("device_limit", JInt 4294967296)]);
  (PutTrafficSettings, JObj [("raw_sample_retention_days", JInt 30)])].
Lemma admin_bodies_stay_in_bounds_witness :
  let d := tables (run_bodies (mkPanel empty_db [] 0) sample_bodies) in
  User_device_limit <$> rows (users d) = [3%Z] ∧
  TrafficSettings_raw_sample_retention_days <$> traffic_settings d = [30%Z] ∧ in_bounds d.
Proof.
  split; [vm_compute; reflexivity|]. split; [vm_compute; reflexivity|].
  refine (proj1 (admin_bodies_stay_in_bounds (mkPanel empty_db [] 0) sample_bodies _)).
  split; [intros k u Hu; discriminate Hu|split; constructor].
Defined.
Definition sample_retention : panel :=
  mkPanel (empty_db <| traffic_settings := [mkLocalAmneziawgTrafficSettings "s" 90 180 t0 t0] |>) [] 0.
Lemma long_retention_stops_cleanup_witness :
  ∃ m, (cleanup_raw_traffic_samples (Some t0)
          (session_of (serve_one sample_retention (UpdateLocalTrafficSettings 800000 180)))).1 = Raise (OverflowError m).
Proof.
  refine (proj1 (proj2 (proj2 (long_retention_stops_cleanup sample_retention _ 800000 180 t0 eq_refl _ _ _)) _ _));
    [lia|lia|vm_compute; split; discriminate|done|vm_compute; reflexivity].
Defined.
