(* ===== verification/Auth.v ===== *)
(** * Who may ask for what

    [panel/backend/app/routers/auth.py] (the administrator's login, its token and the check of it),
    [internal_worker_parts/auth.py] (the worker's token, defined in [WorkerApi]) and the routers that
    ask for them ([routers/api.py], [routers/internal_worker.py], [routers/remnawave.py],
    [routers/telegram_proxy.py]). The token library is the class [Jwt]; [http_bearer] is FastAPI's
    extraction of a bearer credential from the Authorization header. *)
From S2P Require Import Prelude PyStr Json Bytes Models Session Sample Secrets WorkerApi Downloads.
From S2P Require Import RemnawaveApi Panel.

Class Jwt := {
  (* expiry in whole seconds, key: the token *)
  jwt_encode : Z → string → string;
  (* token, key, the instant of the check *)
  jwt_decode : string → string → Z → outcome unit;
  http_bearer : option string → option string }.
(** What the library documents of a token it signed itself: it is accepted under the same key until
    its expiry. *)
Class JwtLaws `{Jwt} : Prop := {
  jwt_decode_own exp key t :
    jwt_decode (jwt_encode exp key) key t
    = if (t <? seconds exp)%Z then Ok tt else Raise (InvalidTokenError "Signature has expired");
  (* a decoder raises its own errors only *)
  jwt_decode_errors token key t :
    jwt_decode token key t = Ok tt ∨ ∃ m, jwt_decode token key t = Raise (InvalidTokenError m) }.

(** The process's settings; [SECRET_KEY] falls back to a random key drawn at start-up. *)
Record AuthSettings := mkAuthSettings {
  ADMIN_PASSWORD : option string;
  SECRET_KEY : string;
  WORKER_TOKEN : option string }.
Definition auth_settings (admin_password secret_key worker_token : option string) (token_hex : string)
    : AuthSettings :=
  mkAuthSettings admin_password (str_or secret_key token_hex) worker_token.
Definition TOKEN_EXPIRE : Z := (7 * 86400)%Z.

Section auth.
Context `{Jwt} (settings : AuthSettings).

Definition login (password : string) (at_ : Z) : outcome string :=
  match ADMIN_PASSWORD settings with
  | None => Raise (HTTPException 503 "ADMIN_PASSWORD is not configured on the server")
  | Some admin_password =>
      if negb (truthy_str admin_password)
      then Raise (HTTPException 503 "ADMIN_PASSWORD is not configured on the server")
      else if password != admin_password then Raise (HTTPException 401 "Invalid password")
      else Ok (jwt_encode (at_ / seconds 1 + TOKEN_EXPIRE) (SECRET_KEY settings))
  end.

Definition require_auth (credentials : string) (at_ : Z) : outcome unit :=
  match jwt_decode credentials (SECRET_KEY settings) at_ with
  | Raise (InvalidTokenError _) => Raise (HTTPException 401 "Invalid or expired token")
  | o => o
  end.
(** The dependency, with the header it reads. *)
Definition admin_auth (authorization : option string) (at_ : Z) : outcome unit :=
  match http_bearer authorization with
  | None => Raise (HTTPException 401 "Not authenticated")
  | Some credentials => require_auth credentials at_
  end.

(** ** Which router asks for what *)
Inductive guard := Administrator | Worker | Anyone.
Definition guard_of (r : request) : guard :=
  match r with
  | AddUser _ _ | UpdateDeviceLimit _ _ | BlockUser _ | UnblockUser _ | UpdateLocalLifecycle _ _ _ _
  | ResetLocalTraffic _ | RegeneratePublicLink _ | DeleteUser _
  | AddNode _ | ProvisionNode _ | UpdateNode _ _ | DeleteNode _ | TriggerSync | RetryOperation _
  | AdminDeviceConfig _ _ _
  | UpdateTelegramProxySettings _ | ApplyTelegramProxy | DisableTelegramProxy | RotateTelegramProxySecret
  | GetRemnawaveStatus | UpdateRemnawaveSettings _ | UpdateLocalTrafficSettings _ _
  | TestRemnawaveConnection | TriggerRemnawaveSync | TriggerRemnawaveUserSync _ => Administrator
  | NodeSyncResult _ _ | NodeProvisionResult _ _ | NodeProvisionRecovery _ _ _
  | NodeHeartbeatResult _ _ | StartOperation _ | SucceedOperation _ _ | FailOperation _ _ _
  | TimeoutOperation _ | CleanupRawTrafficSamples _ | UpsertRemnawaveUsers _
  | MarkRemnawaveUserDeleted _ | RemnawaveReconcileComplete _ | ReportTelegramProxy _ _ => Worker
  | PublicInfoOf _ | PublicAddDevice _ _ | PublicDeleteDevice _ _ | PublicDeviceConfig _ _ _
  | PublicLegacyConfig _ _ | RemnawaveWebhook _ _ _ => Anyone
  end.

(** A request as it arrives: its Authorization header and its instant. *)
Record http_request := mkHttpRequest {
  rq_authorization : option string; rq_at : Z; rq_request : request }.
Definition credentials_of (q : http_request) : outcome unit :=
  match guard_of (rq_request q) with
  | Administrator => admin_auth (rq_authorization q) (rq_at q)
  | Worker => require_worker_token (WORKER_TOKEN settings) (rq_authorization q)
  | Anyone => Ok tt
  end.
Definition serve_http `{Env} `{Vault} `{Renderer} `{Remote} (q : http_request) : M unit :=
  do* lift (credentials_of q) in serve (rq_request q).
Definition serve_http_one `{Env} `{Vault} `{Renderer} `{Remote} (p : panel) (q : http_request) : panel :=
  let s := (serve_http q (session_of p)).2 in mkPanel (committed s) (trace s) (draws s).
Definition run_http `{Env} `{Vault} `{Renderer} `{Remote} (p : panel) (qs : list http_request) : panel :=
  foldl serve_http_one p qs.

Lemma admin_credential q :
  guard_of (rq_request q) = Administrator →
  credentials_of q = Ok tt →
  ∃ credentials, http_bearer (rq_authorization q) = Some credentials ∧
    jwt_decode credentials (SECRET_KEY settings) (rq_at q) = Ok tt.
Proof.
  unfold credentials_of, admin_auth, require_auth. intros ->. destruct (http_bearer _) as [c|]; [|done].
  destruct (jwt_decode _ _ _) as [[]|[]] eqn:E; try done. eauto.
Qed.
Lemma worker_credential q :
  guard_of (rq_request q) = Worker →
  credentials_of q = Ok tt →
  ∃ token rest, WORKER_TOKEN settings = Some token ∧ token ≠ "" ∧
    rq_authorization q = Some rest ∧ startswith rest "Bearer " = true ∧
    strip (removeprefix rest "Bearer ") = token.
Proof.
  unfold credentials_of, require_worker_token. intros ->. destruct (WORKER_TOKEN settings) as [token|]; [|done].
  destruct (rq_authorization q) as [rest|]; [|done].
  destruct (truthy_str token) eqn:Et; [|done]. destruct (truthy_str rest) eqn:Er; [|done].
  destruct (startswith rest "Bearer ") eqn:Es; [|done]. cbn [negb orb].
  destruct (strip _ == token) eqn:E; [|done]. intros _. apply bool_decide_eq_true in E.
  exists token, rest. split_and!; try done. intros ->. done.
Qed.
End auth.

(** ** Properties *)

(** The administrator logs in with the password and nothing else, and stays logged in for seven
    days. A server without a password refuses every login with 503; otherwise exactly the configured
    password gets a token, any other a 401. The token is accepted at every later instant up to the
    second of the login plus seven days, and answered 401 from then on. *)
Lemma issued_token_is_accepted `{JwtLaws} settings password at_ :
  match login settings password at_ with
  | Ok token =>
      ADMIN_PASSWORD settings = Some password ∧ password ≠ "" ∧
      ∀ later, require_auth settings token later
               = if (later <? seconds (at_ / seconds 1) + 7 * day_us)%Z then Ok tt
                 else Raise (HTTPException 401 "Invalid or expired token")
  | Raise exc =>
      exc = (if truthy (ADMIN_PASSWORD settings) then HTTPException 401 "Invalid password"
             else HTTPException 503 "ADMIN_PASSWORD is not configured on the server") ∧
      (ADMIN_PASSWORD settings = Some password → password = "")
  end.
Proof.
  unfold login. destruct (ADMIN_PASSWORD settings) as [pw|] eqn:E; cbn [truthy]; [|done].
  destruct (truthy_str pw) eqn:Ep; cbn [negb].
  - destruct (password == pw) eqn:Eq; cbn [negb].
    + apply bool_decide_eq_true in Eq as ->. split; [done|]. split; [intros ->; done|].
      intros later. unfold require_auth. rewrite jwt_decode_own.
      replace (seconds (at_ / seconds 1 + TOKEN_EXPIRE)) with (seconds (at_ / seconds 1) + 7 * day_us)%Z
        by (unfold seconds, TOKEN_EXPIRE, day_us, seconds; lia).
      by destruct (later <? _)%Z.
    + apply bool_decide_eq_false in Eq. split; [done|]. congruence.
  - split; [done|]. intros [= ->]. unfold truthy_str in Ep.
    by apply negb_false_iff, bool_decide_eq_true in Ep.
Qed.


(** A token library that keeps the key and the expiry readable. *)
#[export] Instance sample_jwt : Jwt := {
  jwt_encode exp key := to_str (bits_of (encode (exp, key)));
  jwt_decode token key t :=
    match of_bits (of_str token) ≫= decode (A := Z * string) with
    | Some (exp, signed_with) =>
        if signed_with != key then Raise (InvalidTokenError "Signature verification failed")
        else if (t <? seconds exp)%Z then Ok tt else Raise (InvalidTokenError "Signature has expired")
    | None => Raise (InvalidTokenError "Not enough segments")
    end;
  http_bearer header :=
    match header with
    | Some header => if startswith header "Bearer " then Some (removeprefix header "Bearer ") else None
    | None => None
    end }.
#[export] Instance sample_jwt_laws : JwtLaws.
Proof.
  split.
  - intros exp key t. cbn [jwt_decode jwt_encode sample_jwt]. rewrite of_to_str.
    rewrite <- (app_nil_r (bits_of _)), of_bits_of. cbn [mbind option_bind]. rewrite decode_encode.
    by rewrite bool_decide_eq_true_2.
  - intros token key t. cbn [jwt_decode sample_jwt].
    destruct (of_bits (of_str token) ≫= decode) as [[exp signed]|]; [|right; by eexists].
    destruct (signed != key); [right; by eexists|]. destruct (t <? seconds exp)%Z; [by left|right; by eexists].
Qed.
Definition sample_auth : AuthSettings := auth_settings (Some "hunter2") (Some "key") (Some "worker") "00".

Lemma issued_token_is_accepted_witness :
  match login sample_auth "hunter2" (seconds 100) with
  | Ok token => require_auth sample_auth token (seconds 604799) = Ok tt ∧
                require_auth sample_auth token (seconds 604900) = Raise (HTTPException 401 "Invalid or expired token")
  | Raise _ => False
  end.
Proof.
  pose proof (issued_token_is_accepted sample_auth "hunter2" (seconds 100)) as H.
  destruct (login sample_auth "hunter2" (seconds 100)) as [token|exc] eqn:E.
  - destruct H as (_ & _ & H). split; rewrite H; reflexivity.
  - discriminate (proj2 H eq_refl).
Defined.

