(* ===== verification/AgentConfig.v ===== *)
(** * The node agent's configuration file

    The text functions of [node/agent/agent.py] on the [awg] configuration file: reading the peers,
    putting one in, taking one out, and replacing the interface section, exactly as the code scans
    lines. [Holds] relates a text to the list of peers it configures; every operation is shown to be
    the operation on that list. *)
From S2P Require Import Prelude PyStr Json.
From Stdlib Require Import Ascii.

(** ** Lines *)
Definition LF : ascii := ascii_of_nat 10.
Definition CR : ascii := ascii_of_nat 13.
(** The line boundaries of [str.splitlines] below U+0100. *)
Definition is_break (c : ascii) : bool := code c isin [10; 11; 12; 13; 28; 29; 30; 133].

(** [s.splitlines(keepends)]; [cur] is the line read so far, reversed. *)
Fixpoint splitlines_go (keepends : bool) (cur l : chars) : list chars :=
  match l with
  | [] => match cur with [] => [] | _ => [rev cur] end
  | c :: l =>
      if is_break c then
        match l with
        | d :: l' =>
            if (c == CR) && (d == LF)
            then (rev cur ++ (if keepends then [c; d] else [])) :: splitlines_go keepends [] l'
            else (rev cur ++ (if keepends then [c] else [])) :: splitlines_go keepends [] l
        | [] => [rev cur ++ (if keepends then [c] else [])]
        end
      else splitlines_go keepends (c :: cur) l
  end.
Definition splitlines (s : string) : list string := to_str <$> splitlines_go false [] (of_str s).
Definition splitlines_keepends (s : string) : list string :=
  to_str <$> splitlines_go true [] (of_str s).

(** Reading a text file: universal newlines. *)
Fixpoint universal_newlines (l : chars) : chars :=
  match l with
  | [] => []
  | c :: l =>
      if c == CR then
        match l with
        | d :: l' => if d == LF then LF :: universal_newlines l' else LF :: universal_newlines l
        | [] => [LF]
        end
      else c :: universal_newlines l
  end.
Definition read_text (content : string) : string := to_str (universal_newlines (of_str content)).

(** [f.readlines()] *)
Fixpoint readlines_go (cur l : chars) : list chars :=
  match l with
  | [] => match cur with [] => [] | _ => [rev cur] end
  | c :: l => if c == LF then rev (c :: cur) :: readlines_go [] l else readlines_go (c :: cur) l
  end.
Definition readlines (content : string) : list string :=
  to_str <$> readlines_go [] (of_str (read_text content)).

(** ** Reading the peers *)
Record ConfiguredPeer := mkConfiguredPeer {
  cp_public_key : option string;
  cp_psk_key : string;
  cp_allowed_ips : list string }.
#[export] Instance ConfiguredPeer_eta : Eta ConfiguredPeer := fun r =>
  mkConfiguredPeer (cp_public_key r) (cp_psk_key r) (cp_allowed_ips r).
#[export] Instance ConfiguredPeer_eq_dec : EqDecision ConfiguredPeer.
Proof. solve_decision. Defined.

Abbreviation scan := (gmap string ConfiguredPeer * option ConfiguredPeer)%type.

(** Storing the peer read last. *)
Definition close_peer (st : scan) : gmap string ConfiguredPeer :=
  match st.2 with
  | Some current =>
      match cp_public_key current with
      | Some k => if truthy_str k then <[k := current]> st.1 else st.1
      | None => st.1
      end
  | None => st.1
  end.

(** One [key = value] line of a peer section. *)
Definition read_peer_field (current : ConfiguredPeer) (line : string) : ConfiguredPeer :=
  if negb (contains line "=") then current else
  let '(key, _, value) := partition line "=" in
  let key := lower (strip key) in
  let value := strip value in
  if key == "publickey" then current <| cp_public_key := Some value |>
  else if key == "presharedkey" then current <| cp_psk_key := value |>
  else if key == "allowedips" then
    current <| cp_allowed_ips := List.filter truthy_str (strip <$> split_char value ",") |>
  else current.
Definition read_peer_line (st : scan) (raw : string) : scan :=
  let line := strip raw in
  if negb (truthy_str line) then st
  else if line == "[Peer]" then (close_peer st, Some (mkConfiguredPeer None "" []))
  else match st.2 with
       | None => st
       | Some current => (st.1, Some (read_peer_field current line))
       end.
Definition scan_peers (lines : list string) : gmap string ConfiguredPeer :=
  close_peer (foldl read_peer_line (∅, None) lines).
(** The peers of the file, [None] when it does not exist. *)
Definition configured_peers (content : option string) : gmap string ConfiguredPeer :=
  match content with
  | None => ∅
  | Some content => scan_peers (splitlines (read_text content))
  end.

(** ** Putting a peer in, taking one out *)
Definition peer_block (pubkey allowed_ip psk_key : string) : list string :=
  [newline +:+ "[Peer]" +:+ newline; "PublicKey = " +:+ pubkey +:+ newline] ++
  (if truthy_str psk_key then ["PresharedKey = " +:+ psk_key +:+ newline] else []) ++
  ["AllowedIPs = " +:+ allowed_ip +:+ "/32" +:+ newline].

(** [f.writelines(lines)] to an empty file. *)
Definition writelines (lines : list string) : string := to_str (concat (of_str <$> lines)).

(** [stripped.split('=', 1)[1].strip()] *)
Definition after_equals (stripped : string) : string :=
  let '(_, _, value) := partition stripped "=" in strip value.
Definition next_key (key : option string) (stripped : string) : option string :=
  if startswith stripped "PublicKey = " then Some (after_equals stripped) else key.

Record rewriting := mkRewriting {
  new_lines : list string;
  peer_buffer : list string;
  peer_pubkey : option string;
  replaced : bool }.

Definition flush_peer_buffer (pubkey : string) (block : list string) (st : rewriting) : rewriting :=
  match peer_buffer st with
  | [] => st
  | buffer =>
      if peer_pubkey st == Some pubkey
      then mkRewriting (new_lines st ++ block) [] None true
      else mkRewriting (new_lines st ++ buffer) [] None (replaced st)
  end.
Definition persist_line (pubkey : string) (block : list string) (st : rewriting) (line : string)
    : rewriting :=
  let stripped := strip line in
  if startswith stripped "[Peer]" then
    let st := flush_peer_buffer pubkey block st in
    mkRewriting (new_lines st) [line] (peer_pubkey st) (replaced st)
  else match peer_buffer st with
  | [] => mkRewriting (new_lines st ++ [line]) [] (peer_pubkey st) (replaced st)
  | buffer =>
      mkRewriting (new_lines st) (buffer ++ [line]) (next_key (peer_pubkey st) stripped) (replaced st)
  end.
Definition persisted_lines (pubkey : string) (block lines : list string) : list string :=
  let st := flush_peer_buffer pubkey block
              (foldl (persist_line pubkey block) (mkRewriting [] [] None false) lines) in
  if replaced st then new_lines st else new_lines st ++ block.
(** The new content of the file. *)
Definition persist_peer (content : option string) (pubkey allowed_ip psk_key : string) : string :=
  let block := peer_block pubkey allowed_ip psk_key in
  match content with
  | None => writelines block
  | Some content => writelines (persisted_lines pubkey block (splitlines_keepends (read_text content)))
  end.

(** [_unpersist_peer] closes a section without a flag, and resets the key at every section. *)
Definition keep_buffer (pubkey : string) (st : rewriting) : list string :=
  match peer_buffer st with
  | [] => new_lines st
  | buffer => if peer_pubkey st == Some pubkey then new_lines st else new_lines st ++ buffer
  end.
Definition unpersist_line (pubkey : string) (st : rewriting) (line : string) : rewriting :=
  let stripped := strip line in
  if startswith stripped "[Peer]" then mkRewriting (keep_buffer pubkey st) [line] None false
  else match peer_buffer st with
  | [] => mkRewriting (new_lines st ++ [line]) [] (peer_pubkey st) false
  | buffer => mkRewriting (new_lines st) (buffer ++ [line]) (next_key (peer_pubkey st) stripped) false
  end.
Definition unpersisted_lines (pubkey : string) (lines : list string) : list string :=
  keep_buffer pubkey (foldl (unpersist_line pubkey) (mkRewriting [] [] None false) lines).
Definition unpersist_peer (content pubkey : string) : string :=
  writelines (unpersisted_lines pubkey (readlines content)).

(** ** The interface section *)
Definition split_config_sections (config_text : string) : string * string :=
  let '(interface_part, sep, peer_part) := partition config_text "[Peer]" in
  if negb (truthy_str sep) then (config_text, "")
  else (interface_part, newline +:+ sep +:+ peer_part).

Record InterfaceConfig := mkInterfaceConfig {
  private_key : string;
  address : string;
  listen_port : Z;
  jc : Z; jmin : Z; jmax : Z;
  s1 : Z; s2 : Z; s3 : Z; s4 : Z;
  h1 : string; h2 : string; h3 : string; h4 : string;
  i1 : string; i2 : string; i3 : string; i4 : string; i5 : string;
  post_up : string;
  post_down : string }.
(** The defaults of the request body, with the private key given. *)
Definition default_interface (key : string) : InterfaceConfig :=
  mkInterfaceConfig key "10.8.0.1/24" 51820 4 40 70 0 0 0 0 "1" "2" "3" "4" "" "" "" "" "" "" "".

Definition optional_lines (items : list (string * string)) : list string :=
  concat ((fun kv : string * string =>
             if truthy_str kv.2 then [kv.1 +:+ " = " +:+ kv.2] else []) <$> items).
Definition interface_lines (cfg : InterfaceConfig) : list string :=
  ["[Interface]";
   "PrivateKey = " +:+ private_key cfg;
   "Address = " +:+ address cfg;
   "ListenPort = " +:+ pretty (listen_port cfg);
   "Jc = " +:+ pretty (jc cfg); "Jmin = " +:+ pretty (jmin cfg); "Jmax = " +:+ pretty (jmax cfg);
   "S1 = " +:+ pretty (s1 cfg); "S2 = " +:+ pretty (s2 cfg);
   "S3 = " +:+ pretty (s3 cfg); "S4 = " +:+ pretty (s4 cfg);
   "H1 = " +:+ h1 cfg; "H2 = " +:+ h2 cfg; "H3 = " +:+ h3 cfg; "H4 = " +:+ h4 cfg] ++
  optional_lines [("I1", i1 cfg); ("I2", i2 cfg); ("I3", i3 cfg); ("I4", i4 cfg); ("I5", i5 cfg)] ++
  optional_lines [("PostUp", post_up cfg); ("PostDown", post_down cfg)].
Definition build_interface_block (cfg : InterfaceConfig) : string :=
  writelines ((fun l => l +:+ newline) <$> interface_lines cfg).

(** [None]: the file already is what the request asks for. *)
Definition configured_text (content : option string) (cfg : InterfaceConfig)
    : string * option string :=
  let existing := match content with Some c => read_text c | None => "" end in
  let '(existing_interface, peer_tail) :=
    match content with Some _ => split_config_sections existing | None => ("", "") end in
  let desired := build_interface_block cfg +:+ peer_tail in
  (existing_interface, if existing == desired then None else Some desired).

(** [re.compile(rf'^{re.escape(key)}\s*=.*$', re.MULTILINE).search(text)]: [^] is the start of the
    text and after each line feed, and the blanks may span lines. *)
Fixpoint has_key_go (key : chars) (line_start : bool) (l : chars) : bool :=
  (line_start && prefix_of key l &&
   (match lstrip_with is_space (drop (length key) l) with c :: _ => c == "="%char | [] => false end)) ||
  match l with
  | [] => false
  | c :: l => has_key_go key (c == LF) l
  end.
Definition interface_has_key (interface_text key : string) : bool :=
  has_key_go (of_str key) true (of_str interface_text).

Definition live_interface_set_args (interface : string) (cfg : InterfaceConfig)
    (private_key_path previous_interface_text : string) : list string :=
  ["awg"; "set"; interface; "private-key"; private_key_path;
   "listen-port"; pretty (listen_port cfg);
   "jc"; pretty (jc cfg); "jmin"; pretty (jmin cfg); "jmax"; pretty (jmax cfg);
   "s1"; pretty (s1 cfg); "s2"; pretty (s2 cfg); "s3"; pretty (s3 cfg); "s4"; pretty (s4 cfg);
   "h1"; h1 cfg; "h2"; h2 cfg; "h3"; h3 cfg; "h4"; h4 cfg] ++
  concat ((fun item : string * string * string =>
    let '(key, key_upper, val) := item in
    if truthy_str val || interface_has_key previous_interface_text key_upper
    then [key; val] else [])
    <$> [("i1", "I1", i1 cfg); ("i2", "I2", i2 cfg); ("i3", "I3", i3 cfg);
         ("i4", "I4", i4 cfg); ("i5", "I5", i5 cfg)]).

(** ** Sanity on concrete files *)
Example persist_then_read :
  configured_peers (Some (persist_peer (Some (build_interface_block (default_interface "k")))
                            "pub=" "10.8.0.2" "psk="))
  = {["pub=" := mkConfiguredPeer (Some "pub=") "psk=" ["10.8.0.2/32"]]}.
Proof. vm_compute. reflexivity. Qed.
Example persist_unpersist :
  unpersist_peer (persist_peer (Some (build_interface_block (default_interface "k")))
                    "pub=" "10.8.0.2" "") "pub="
  = build_interface_block (default_interface "k") +:+ newline.
Proof. vm_compute. reflexivity. Qed.

(** ** Plain texts

    A line is plain when no character of it ends a line; a plain text is lines each closed by a line
    feed, as everything the agent writes. *)
Definition plain (s : string) : bool := forallb (fun c => negb (is_break c)) (of_str s).
Definition with_newline (s : string) : string := s +:+ newline.
Definition unlines (bodies : list string) : string := writelines (with_newline <$> bodies).

Lemma of_str_newline : of_str newline = [LF].
Proof. done. Qed.

Lemma writelines_app a b : writelines (a ++ b) = writelines a +:+ writelines b.
Proof. unfold writelines. by rewrite fmap_app, concat_app, to_str_app. Qed.
Lemma unlines_app a b : unlines (a ++ b) = unlines a +:+ unlines b.
Proof. unfold unlines. by rewrite fmap_app, writelines_app. Qed.
Lemma of_str_unlines bs : of_str (unlines bs) = concat ((fun b => of_str b ++ [LF]) <$> bs).
Proof.
  unfold unlines, writelines. rewrite of_to_str, <- list_fmap_compose. f_equal.
  apply list_fmap_ext. intros _ b _. apply of_str_app.
Qed.

Lemma universal_newlines_id l : CR ∉ l → universal_newlines l = l.
Proof.
  induction l as [|c l IH]; intros H; simpl; [done|]. apply not_elem_of_cons in H as [Hc Hl].
  rewrite bool_decide_eq_false_2 by done. by rewrite IH.
Qed.
Lemma plain_no_cr b : plain b = true → CR ∉ of_str b.
Proof. intros H Hc. unfold plain in H. rewrite forallb_forall in H. by apply list_elem_of_In, H in Hc. Qed.
Lemma read_text_unlines bs : Forall (fun b => plain b = true) bs → read_text (unlines bs) = unlines bs.
Proof.
  intros H. unfold read_text. rewrite universal_newlines_id; [apply to_of_str|].
  rewrite of_str_unlines. induction H as [|b bs Hb _ IH]; simpl; [apply not_elem_of_nil|].
  rewrite !not_elem_of_app, not_elem_of_cons. split_and!; [by apply plain_no_cr|done|apply not_elem_of_nil|done].
Qed.

Lemma splitlines_line keep cur b l :
  forallb (fun c => negb (is_break c)) b = true →
  splitlines_go keep cur (b ++ LF :: l)
  = (rev cur ++ b ++ (if keep then [LF] else [])) :: splitlines_go keep [] l.
Proof.
  revert cur; induction b as [|c b IH]; intros cur H.
  - by destruct l.
  - simpl in H. py_bool. cbn [app splitlines_go]. rewrite H, IH by done. simpl.
    by rewrite <- app_assoc.
Qed.
Lemma readlines_line cur b l :
  forallb (fun c => negb (is_break c)) b = true →
  readlines_go cur (b ++ LF :: l) = (rev cur ++ b ++ [LF]) :: readlines_go [] l.
Proof.
  revert cur; induction b as [|c b IH]; intros cur H; [done|].
  simpl in H. py_bool. cbn [app readlines_go]. rewrite bool_decide_eq_false_2 by (by intros ->).
  rewrite IH by done. simpl. by rewrite <- app_assoc.
Qed.

Lemma splitlines_unlines_go keep bs :
  Forall (fun b => plain b = true) bs →
  splitlines_go keep [] (of_str (unlines bs))
  = (fun b => of_str b ++ (if keep then [LF] else [])) <$> bs.
Proof.
  rewrite of_str_unlines. induction 1 as [|b bs Hb _ IH]; [done|].
  cbn [fmap list_fmap concat]. rewrite <- app_assoc. cbn [app]. rewrite splitlines_line by done.
  simpl. by rewrite IH.
Qed.
Lemma splitlines_unlines bs :
  Forall (fun b => plain b = true) bs → splitlines (unlines bs) = bs.
Proof.
  intros H. unfold splitlines. rewrite splitlines_unlines_go by done.
  rewrite <- list_fmap_compose. erewrite list_fmap_ext; [apply list_fmap_id|].
  intros _ b _. simpl. by rewrite app_nil_r, to_of_str.
Qed.
Lemma splitlines_keepends_unlines bs :
  Forall (fun b => plain b = true) bs → splitlines_keepends (unlines bs) = with_newline <$> bs.
Proof.
  intros H. unfold splitlines_keepends. rewrite splitlines_unlines_go by done.
  rewrite <- list_fmap_compose. apply list_fmap_ext. intros _ b _. simpl.
  apply (inj of_str). unfold with_newline. by rewrite of_to_str, of_str_app.
Qed.
Lemma readlines_unlines bs :
  Forall (fun b => plain b = true) bs → readlines (unlines bs) = with_newline <$> bs.
Proof.
  intros H. unfold readlines. rewrite read_text_unlines, of_str_unlines by done.
  induction H as [|b bs Hb _ IH]; [done|]. cbn [fmap list_fmap concat].
  rewrite <- app_assoc. cbn [app]. rewrite readlines_line by done. cbn [fmap list_fmap].
  f_equal; [|apply IH]. apply (inj of_str). unfold with_newline. by rewrite of_to_str, of_str_app.
Qed.

Lemma strip_with_newline b : strip (with_newline b) = strip b.
Proof.
  unfold strip, strip_with, with_newline. rewrite of_str_app, of_str_newline. f_equal.
  unfold rstrip_with. generalize (of_str b). intros l.
  assert (lstrip_with is_space (l ++ [LF])
          = match lstrip_with is_space l with [] => [] | l' => l' ++ [LF] end) as ->.
  { induction l as [|c l IH]; [done|]. simpl. destruct (is_space c); [exact IH|done]. }
  destruct (lstrip_with is_space l) as [|c l'] eqn:E; [done|].
  f_equal. rewrite rev_app_distr. simpl. done.
Qed.

(** ** Sections

    What the two rewriting loops do to any list of lines, cut into the lines before the first
    section and the sections. *)
Definition starts_peer (line : string) : bool := startswith (strip line) "[Peer]".
Definition scan_key (key : option string) (lines : list string) : option string :=
  foldl (fun k l => next_key k (strip l)) key lines.
Definition section_key (section : list string) : option string := scan_key None (tail section).
Definition is_section (section : list string) : Prop :=
  ∃ h t, section = h :: t ∧ starts_peer h = true ∧ Forall (fun l => starts_peer l = false) t.
Definition has_key (pubkey : string) (section : list string) : bool := section_key section == Some pubkey.

Lemma persist_tail pubkey block n buf key r t :
  buf ≠ [] → Forall (fun l => starts_peer l = false) t →
  foldl (persist_line pubkey block) (mkRewriting n buf key r) t
  = mkRewriting n (buf ++ t) (scan_key key t) r.
Proof.
  intros Hb Ht. revert buf key Hb. induction Ht as [|l t Hl _ IH]; intros buf key Hb; simpl.
  - by rewrite app_nil_r.
  - unfold persist_line at 2. fold (starts_peer l). rewrite Hl. cbn [peer_buffer].
    destruct buf as [|b buf]; [done|]. rewrite IH by done. by rewrite <- app_assoc.
Qed.

Lemma flush_section pubkey block n h t r :
  flush_peer_buffer pubkey block (mkRewriting n (h :: t) (scan_key None t) r)
  = if has_key pubkey (h :: t) then mkRewriting (n ++ block) [] None true
    else mkRewriting (n ++ h :: t) [] None r.
Proof. done. Qed.

Lemma persist_sections pubkey block st sections :
  (peer_buffer st = [] → peer_pubkey st = None) → Forall is_section sections →
  let st0 := flush_peer_buffer pubkey block st in
  flush_peer_buffer pubkey block (foldl (persist_line pubkey block) st (concat sections))
  = mkRewriting
      (new_lines st0 ++ concat ((fun b => if has_key pubkey b then block else b) <$> sections))
      [] None (replaced st0 || existsb (has_key pubkey) sections).
Proof.
  intros Hst Hs. revert st Hst. induction Hs as [|b sections (h & t & -> & Hh & Ht) _ IH]; intros st Hst.
  - simpl. rewrite app_nil_r, orb_false_r. unfold flush_peer_buffer.
    destruct st as [n [|x buf] key r]; cbn in *; [by rewrite Hst|by case_bool_decide].
  - cbn [concat app foldl]. rewrite foldl_app.
    unfold persist_line at 3. fold (starts_peer h). rewrite Hh.
    rewrite persist_tail by done. rewrite IH by done.
    assert (peer_pubkey (flush_peer_buffer pubkey block st) = None) as ->.
    { unfold flush_peer_buffer. destruct st as [n [|x buf] key r]; cbn in *; [by rewrite Hst|].
      by case_bool_decide. }
    cbn [app]. rewrite !flush_section. cbn [fmap list_fmap concat existsb].
    destruct (has_key pubkey (h :: t)); cbn [new_lines replaced];
      rewrite <- app_assoc; cbn [orb]; by rewrite ?orb_true_r.
Qed.

Lemma persist_interface pubkey block n ifc rest :
  Forall (fun l => starts_peer l = false) ifc →
  foldl (persist_line pubkey block) (mkRewriting n [] None false) (ifc ++ rest)
  = foldl (persist_line pubkey block) (mkRewriting (n ++ ifc) [] None false) rest.
Proof.
  intros H. revert n. induction H as [|l ifc Hl _ IH]; intros n; cbn [app foldl]; [by rewrite app_nil_r|].
  unfold persist_line at 2. fold (starts_peer l). rewrite Hl. cbn. rewrite IH. by rewrite <- app_assoc.
Qed.

Lemma persisted_lines_spec pubkey block ifc sections :
  Forall (fun l => starts_peer l = false) ifc → Forall is_section sections →
  persisted_lines pubkey block (ifc ++ concat sections)
  = ifc ++ concat ((fun b => if has_key pubkey b then block else b) <$> sections)
        ++ (if existsb (has_key pubkey) sections then [] else block).
Proof.
  intros Hi Hs. unfold persisted_lines. rewrite persist_interface by done.
  rewrite persist_sections by done. cbn.
  destruct (existsb _ _); by rewrite ?app_nil_r, <- ?app_assoc.
Qed.

Lemma unpersist_tail pubkey n buf key t :
  buf ≠ [] → Forall (fun l => starts_peer l = false) t →
  foldl (unpersist_line pubkey) (mkRewriting n buf key false) t
  = mkRewriting n (buf ++ t) (scan_key key t) false.
Proof.
  intros Hb Ht. revert buf key Hb. induction Ht as [|l t Hl _ IH]; intros buf key Hb; simpl.
  - by rewrite app_nil_r.
  - unfold unpersist_line at 2. fold (starts_peer l). rewrite Hl. cbn [peer_buffer].
    destruct buf as [|b buf]; [done|]. rewrite IH by done. by rewrite <- app_assoc.
Qed.

Lemma unpersisted_lines_spec pubkey ifc sections :
  Forall (fun l => starts_peer l = false) ifc → Forall is_section sections →
  unpersisted_lines pubkey (ifc ++ concat sections)
  = ifc ++ concat (List.filter (fun b => negb (has_key pubkey b)) sections).
Proof.
  intros Hi Hs. unfold unpersisted_lines.
  assert (∀ n, foldl (unpersist_line pubkey) (mkRewriting n [] None false) (ifc ++ concat sections)
          = foldl (unpersist_line pubkey) (mkRewriting (n ++ ifc) [] None false) (concat sections)) as ->.
  { induction Hi as [|l ifc Hl _ IH]; intros n; cbn [app foldl]; [by rewrite app_nil_r|].
    unfold unpersist_line at 2. fold (starts_peer l). rewrite Hl. cbn. rewrite IH. by rewrite <- app_assoc. }
  cbn [app].
  enough (∀ st, keep_buffer pubkey (foldl (unpersist_line pubkey) st (concat sections))
    = keep_buffer pubkey st ++ concat (List.filter (fun b => negb (has_key pubkey b)) sections)) as ->; [done|].
  induction Hs as [|b sections (h & t & -> & Hh & Ht) _ IH]; intros st.
  - by rewrite app_nil_r.
  - cbn [concat app foldl]. rewrite foldl_app.
    assert (unpersist_line pubkey st h = mkRewriting (keep_buffer pubkey st) [h] None false) as ->
      by (unfold unpersist_line; fold (starts_peer h); by rewrite Hh).
    rewrite unpersist_tail by done. rewrite IH.
    cbn [List.filter]. unfold keep_buffer at 1. cbn [peer_buffer peer_pubkey new_lines app].
    change (scan_key None t == Some pubkey) with (has_key pubkey (h :: t)).
    by destruct (has_key pubkey (h :: t)); cbn [negb concat]; rewrite <- ?app_assoc.
Qed.

(** ** What a text configures *)
Definition token (s : string) : bool :=
  truthy_str s && forallb (fun c => negb (is_space c)) (of_str s).
Definition quiet (line : string) : bool := negb (starts_peer line) && negb (contains line "[Peer]").
Definition no_peer : ConfiguredPeer := mkConfiguredPeer None "" [].
Definition read_fields (cp : ConfiguredPeer) (lines : list string) : ConfiguredPeer :=
  foldl (fun cp l => if negb (truthy_str (strip l)) then cp else read_peer_field cp (strip l)) cp lines.

(** A section both scanners read alike: [_configured_peers] as the peer [e.2] and the rewriting
    loops as the section of the key [e.1]. *)
Definition section_for (section : list string) (e : string * ConfiguredPeer) : Prop :=
  ∃ t, section = "[Peer]" :: t ∧ Forall (fun l => starts_peer l = false) t ∧
    scan_key None t = Some e.1 ∧ e.1 ≠ "" ∧
    read_fields no_peer t = e.2 ∧ cp_public_key e.2 = Some e.1.

Definition Holds (text : string) (entries : list (string * ConfiguredPeer)) : Prop :=
  ∃ ifc sections,
    text = unlines (ifc ++ concat sections) ∧
    Forall (fun b => plain b = true) (ifc ++ concat sections) ∧
    Forall (fun l => quiet l = true) ifc ∧
    Forall2 section_for sections entries ∧ NoDup entries.*1.

(** The entry the agent writes, and the operations on the list. *)
Definition written_peer (pubkey allowed_ip psk_key : string) : ConfiguredPeer :=
  mkConfiguredPeer (Some pubkey) psk_key [allowed_ip +:+ "/32"].
Definition put_entry (e : string * ConfiguredPeer) (es : list (string * ConfiguredPeer)) :=
  if existsb (fun x => x.1 == e.1) es
  then (fun x => if x.1 == e.1 then e else x) <$> es
  else es ++ [e].
Definition drop_entry (k : string) (es : list (string * ConfiguredPeer)) :=
  List.filter (fun x => negb (x.1 == k)) es.

Lemma section_for_is_section b e : section_for b e → is_section b.
Proof. intros (t & -> & Ht & _). exists "[Peer]", t. split_and!; [done|reflexivity|done]. Qed.
Lemma section_for_has_key k b e : section_for b e → has_key k b = (e.1 == k).
Proof.
  intros (t & -> & _ & Hk & _). unfold has_key, section_key. cbn [tail]. rewrite Hk.
  apply bool_decide_ext. split; [by intros [= ->]|by intros ->].
Qed.
Lemma quiet_starts l : quiet l = true → starts_peer l = false.
Proof. unfold quiet. intros H. by py_bool. Qed.

(** *** Reading *)
Lemma scan_quiet m ls :
  Forall (fun l => starts_peer l = false) ls → foldl read_peer_line (m, None) ls = (m, None).
Proof.
  induction 1 as [|l ls Hl _ IH]; [done|]. cbn [foldl].
  assert (read_peer_line (m, None) l = (m, None)) as ->; [|done].
  unfold read_peer_line. destruct (negb _); [done|]. case_bool_decide as E; [|done].
  unfold starts_peer in Hl. by rewrite E in Hl.
Qed.
Lemma scan_fields m cp ls :
  Forall (fun l => starts_peer l = false) ls →
  foldl read_peer_line (m, Some cp) ls = (m, Some (read_fields cp ls)).
Proof.
  intros H. revert cp. induction H as [|l ls Hl _ IH]; intros cp; [done|]. cbn [foldl read_fields].
  unfold read_peer_line at 2. destruct (negb _) eqn:E; [apply IH|].
  case_bool_decide as E'; [|apply IH]. unfold starts_peer in Hl. by rewrite E' in Hl.
Qed.
Lemma scan_sections st sections es :
  Forall2 section_for sections es →
  close_peer (foldl read_peer_line st (concat sections))
  = foldl (fun m e => <[e.1 := e.2]> m) (close_peer st) es.
Proof.
  intros H. revert st. induction H as [|b e sections es (t & -> & Ht & Hk & Hne & Hf & Hcp) _ IH]; intros st;
    [done|].
  cbn [concat app foldl]. rewrite foldl_app.
  assert (read_peer_line st "[Peer]" = (close_peer st, Some no_peer)) as -> by done.
  rewrite scan_fields by done. rewrite IH. f_equal. unfold close_peer at 1. cbn [snd fst].
  rewrite Hf, Hcp. unfold truthy_str. by rewrite bool_decide_eq_false_2.
Qed.
Lemma foldl_insert_list_to_map (m : gmap string ConfiguredPeer) es :
  NoDup es.*1 → foldl (fun m e => <[e.1 := e.2]> m) m es = list_to_map es ∪ m.
Proof.
  revert m; induction es as [|[k v] es IH]; intros m Hnd; cbn [foldl fst snd];
    [by rewrite list_to_map_nil, map_empty_union|].
  cbn in Hnd. apply NoDup_cons in Hnd as [Hk Hnd]. rewrite IH by done. cbn [list_to_map foldr].
  rewrite <- insert_union_l, insert_union_r; [done|by apply not_elem_of_list_to_map_1].
Qed.
Lemma holds_nodup text es : Holds text es → NoDup es.*1.
Proof. by intros (ifc & sections & _ & _ & _ & _ & ?). Qed.
Lemma holds_configured text es : Holds text es → configured_peers (Some text) = list_to_map es.
Proof.
  intros (ifc & sections & -> & Hp & Hq & Hs & Hnd). unfold configured_peers, scan_peers.
  rewrite read_text_unlines, splitlines_unlines, foldl_app by done.
  rewrite scan_quiet by (eapply Forall_impl; [done|apply quiet_starts]).
  rewrite (scan_sections _ _ es), foldl_insert_list_to_map by done. cbn. by rewrite map_union_empty.
Qed.

(** *** Blank lines between sections *)
Lemma section_for_blank b e : section_for b e → section_for (b ++ [""]) e.
Proof.
  intros (t & -> & Ht & Hk & Hne & Hf & Hcp). exists (t ++ [""]). split_and!; [done| | |done| |done].
  - apply Forall_app. split; [done|]. by constructor.
  - unfold scan_key. rewrite foldl_app. exact Hk.
  - unfold read_fields. rewrite foldl_app. exact Hf.
Qed.
Definition loose_section (b : list string) (e : string * ConfiguredPeer) : Prop :=
  section_for b e ∨ ∃ b', b = "" :: b' ∧ section_for b' e.
Lemma settle_blanks bs es :
  Forall2 loose_section bs es →
  ∃ pre bs', concat bs = pre ++ concat bs' ∧ (pre = [] ∨ pre = [""]) ∧ Forall2 section_for bs' es.
Proof.
  induction 1 as [|b e bs es Hb _ (pre & bs' & Hc & Hpre & Hs)].
  - exists [], []. split_and!; [done|by left|constructor].
  - assert (∀ b', section_for b' e → section_for (b' ++ pre) e) as Hext.
    { intros b' Hb'. destruct Hpre as [->| ->]; [by rewrite app_nil_r|by apply section_for_blank]. }
    destruct Hb as [Hb|(b' & -> & Hb)].
    + exists [], ((b ++ pre) :: bs'). split_and!; [|by left|by constructor; [apply Hext|]].
      cbn [concat]. by rewrite Hc, !app_assoc.
    + exists [""], ((b' ++ pre) :: bs'). split_and!; [|by right|by constructor; [apply Hext|]].
      cbn [concat app]. by rewrite Hc, !app_assoc.
Qed.
Lemma holds_loose ifc bs es :
  Forall (fun b => plain b = true) (ifc ++ concat bs) → Forall (fun l => quiet l = true) ifc →
  Forall2 loose_section bs es → NoDup es.*1 →
  Holds (unlines (ifc ++ concat bs)) es.
Proof.
  intros Hp Hq Hb Hnd. destruct (settle_blanks bs es Hb) as (pre & bs' & Hc & Hpre & Hs).
  exists (ifc ++ pre), bs'. rewrite Hc, app_assoc in Hp |- *. split_and!; [done|done| |done|done].
  apply Forall_app. split; [done|]. destruct Hpre as [->| ->]; by repeat constructor.
Qed.

(** *** The section the agent writes *)
Definition written_section (pubkey allowed_ip psk_key : string) : list string :=
  ["[Peer]"; "PublicKey = " +:+ pubkey] ++
  (if truthy_str psk_key then ["PresharedKey = " +:+ psk_key] else []) ++
  ["AllowedIPs = " +:+ allowed_ip +:+ "/32"].

Lemma writelines_block k ip psk :
  writelines (peer_block k ip psk) = unlines ("" :: written_section k ip psk).
Proof.
  unfold unlines, peer_block, written_section. rewrite !fmap_cons, fmap_app.
  apply (inj of_str). unfold writelines. rewrite !of_to_str.
  destruct (truthy_str psk); unfold with_newline; cbn [fmap list_fmap app concat];
    rewrite !of_str_app, ?app_nil_r; by rewrite <- ?app_assoc.
Qed.

Lemma partition_equals a b :
  "="%char ∉ of_str a → partition (a +:+ "=" +:+ b) "=" = (a, "=", b).
Proof.
  intros Ha.
  assert (∀ l i, "="%char ∉ l → find_from ["="%char] (l ++ "="%char :: of_str b) i = Some (i + length l)) as Hf.
  { induction l as [|c l IH]; intros i Hl; cbn; [by rewrite Nat.add_0_r|].
    apply not_elem_of_cons in Hl as [Hc Hl]. rewrite bool_decide_eq_false_2 by done. cbn.
    rewrite IH by done. f_equal. lia. }
  unfold partition, find. rewrite !of_str_app. change (of_str "=") with ["="%char]. cbn [app].
  rewrite Hf by done. cbn [Nat.add]. rewrite take_app_length. change (str_len "=") with 1.
  rewrite Nat.add_comm. change (1 + length (of_str a)) with (S (length (of_str a))).
  rewrite drop_app_ge by lia. replace (S (length (of_str a)) - length (of_str a)) with 1 by lia.
  rewrite to_of_str. cbn [drop]. change (drop 0 (of_str b)) with (of_str b). by rewrite to_of_str.
Qed.
Lemma contains_equals a b : "="%char ∉ of_str a → contains (a +:+ "=" +:+ b) "=" = true.
Proof.
  intros Ha. pose proof (partition_equals a b Ha) as H. unfold partition in H. unfold contains.
  by destruct (find _ _).
Qed.

Lemma token_strip s : token s = true → strip s = s.
Proof. unfold token. intros H. py_bool. by apply strip_with_clean. Qed.
Lemma token_truthy s : token s = true → truthy_str s = true.
Proof. unfold token. intros H. by py_bool. Qed.
Lemma token_app_r s t : token s = true → forallb (fun c => negb (is_space c)) (of_str t) = true →
  token (s +:+ t) = true.
Proof.
  unfold token. intros H Ht. py_bool. rewrite of_str_app, forallb_app. rewrite H0, Ht.
  unfold truthy_str in *. py_bool. rewrite bool_decide_eq_false_2; [done|]. by destruct s.
Qed.

(** [strip] leaves a line alone that begins and ends with a printed character. *)
Lemma strip_with_ends f a l z :
  f a = false → f z = false → strip_with f (to_str (a :: l ++ [z])) = to_str (a :: l ++ [z]).
Proof.
  intros Ha Hz. unfold strip_with, rstrip_with. rewrite of_to_str. cbn [lstrip_with]. rewrite Ha.
  rewrite app_comm_cons, rev_unit. cbn [lstrip_with]. rewrite Hz.
  by rewrite <- rev_unit, rev_involutive.
Qed.
Lemma strip_field_line a name v :
  is_space a = false → token v = true →
  strip (to_str (a :: of_str name) +:+ v) = to_str (a :: of_str name) +:+ v.
Proof.
  intros Ha Hv. unfold token in Hv. py_bool.
  destruct (exists_last (l := of_str v)) as (l & z & Hl).
  { unfold truthy_str in H. py_bool. intros E. apply H. by apply (inj of_str). }
  assert (to_str (a :: of_str name) +:+ v = to_str (a :: (of_str name ++ l) ++ [z])) as ->.
  { apply (inj of_str). rewrite of_str_app, !of_to_str, Hl. cbn. by rewrite <- app_assoc. }
  apply strip_with_ends; [done|]. rewrite Hl, forallb_app in H0. py_bool. cbn in *. by py_bool.
Qed.

(** A line [name = value] of a peer section, read by both scanners. *)
Lemma strip_value v : token v = true → strip (" " +:+ v) = v.
Proof. intros Hv. change (strip (" " +:+ v)) with (strip v). by apply token_strip. Qed.

Lemma read_publickey cp k :
  token k = true → read_peer_field cp ("PublicKey = " +:+ k) = cp <| cp_public_key := Some k |>.
Proof.
  intros Hk. unfold read_peer_field.
  change ("PublicKey = " +:+ k) with ("PublicKey " +:+ "=" +:+ (" " +:+ k)).
  rewrite contains_equals, partition_equals by literal_in. cbn [negb].
  rewrite strip_value by done. reflexivity.
Qed.
Lemma read_psk cp k :
  token k = true → read_peer_field cp ("PresharedKey = " +:+ k) = cp <| cp_psk_key := k |>.
Proof.
  intros Hk. unfold read_peer_field.
  change ("PresharedKey = " +:+ k) with ("PresharedKey " +:+ "=" +:+ (" " +:+ k)).
  rewrite contains_equals, partition_equals by literal_in. cbn [negb].
  rewrite strip_value by done. reflexivity.
Qed.
Lemma split_on_none c l : c ∉ l → split_on c l = [l].
Proof.
  induction l as [|a l IH]; intros H; simpl; [done|]. apply not_elem_of_cons in H as [Ha Hl].
  rewrite bool_decide_eq_false_2 by done. by rewrite IH.
Qed.
Lemma read_allowed cp ip :
  token ip = true → ","%char ∉ of_str ip →
  read_peer_field cp ("AllowedIPs = " +:+ ip) = cp <| cp_allowed_ips := [ip] |>.
Proof.
  intros Hk Hc. unfold read_peer_field.
  change ("AllowedIPs = " +:+ ip) with ("AllowedIPs " +:+ "=" +:+ (" " +:+ ip)).
  rewrite contains_equals, partition_equals by literal_in. cbn [negb].
  rewrite strip_value by done. unfold split_char. rewrite split_on_none by done.
  cbn [fmap list_fmap]. rewrite to_of_str, (token_strip ip) by done. cbn [List.filter].
  rewrite token_truthy by done. reflexivity.
Qed.

Lemma is_break_space c : is_space c = false → is_break c = false.
Proof.
  unfold is_space, is_break. rewrite !bool_decide_eq_false. intros H Hb. apply H.
  revert Hb. rewrite !elem_of_cons, elem_of_nil. tauto.
Qed.
Lemma token_plain s : token s = true → plain s = true.
Proof.
  unfold token, plain. intros H. py_bool. rewrite forallb_forall in *. intros c Hc.
  apply H0 in Hc. py_bool. by rewrite is_break_space.
Qed.
Lemma plain_app a b : plain (a +:+ b) = plain a && plain b.
Proof. unfold plain. by rewrite of_str_app, forallb_app. Qed.

(** What a request may carry for the agent's file to stay readable. *)
Definition clean_peer (pubkey allowed_ip psk_key : string) : bool :=
  token pubkey && token allowed_ip && negb (","%char isin of_str allowed_ip) &&
  (negb (truthy_str psk_key) || token psk_key).
Definition clean_interface (cfg : InterfaceConfig) : bool :=
  forallb (fun l => plain l && quiet l) (interface_lines cfg).

Lemma field_lines_strip k :
  token k = true →
  strip ("PublicKey = " +:+ k) = "PublicKey = " +:+ k ∧
  strip ("PresharedKey = " +:+ k) = "PresharedKey = " +:+ k ∧
  strip ("AllowedIPs = " +:+ k) = "AllowedIPs = " +:+ k.
Proof.
  intros Hk. split_and!; [apply (strip_field_line "P" "ublicKey = ")
    |apply (strip_field_line "P" "resharedKey = ")|apply (strip_field_line "A" "llowedIPs = ")]; done.
Qed.

Lemma written_section_for k ip psk :
  clean_peer k ip psk = true → section_for (written_section k ip psk) (k, written_peer k ip psk).
Proof.
  unfold clean_peer. intros H. apply andb_true_iff in H as [H Hpsk]. py_bool.
  assert (token (ip +:+ "/32") = true) as Hip by by apply token_app_r.
  assert (","%char ∉ of_str (ip +:+ "/32")) as Hc.
  { rewrite of_str_app, not_elem_of_app. split; [done|literal_in]. }
  destruct (field_lines_strip k H) as (Sk & _ & _).
  destruct (field_lines_strip _ Hip) as (_ & _ & Sip).
  assert (next_key None ("PublicKey = " +:+ k) = Some k) as Hkey.
  { unfold next_key, after_equals. change ("PublicKey = " +:+ k) with ("PublicKey " +:+ "=" +:+ (" " +:+ k)).
    rewrite partition_equals by literal_in. by rewrite strip_value. }
  eexists. split; [reflexivity|]. unfold written_peer.
  assert (k ≠ "") as Hne by (intros ->; done).
  destruct (truthy_str psk) eqn:E; cbn [app].
  - cbn [orb negb] in Hpsk. destruct (field_lines_strip psk Hpsk) as (_ & Sp & _).
    split_and!; [| |done| |done].
    + repeat constructor; unfold starts_peer; by rewrite ?Sk, ?Sp, ?Sip.
    + unfold scan_key. cbn [foldl]. rewrite Sk, Sp, Sip, Hkey. reflexivity.
    + unfold read_fields. cbn [foldl]. rewrite Sk, Sp, Sip.
      rewrite read_publickey, read_psk, read_allowed by done. reflexivity.
  - split_and!; [| |done| |done].
    + repeat constructor; unfold starts_peer; by rewrite ?Sk, ?Sip.
    + unfold scan_key. cbn [foldl]. rewrite Sk, Sip, Hkey. reflexivity.
    + unfold read_fields. cbn [foldl]. rewrite Sk, Sip.
      rewrite read_publickey, read_allowed by done. unfold truthy_str in E. py_bool. by subst psk.
Qed.
Lemma written_section_plain k ip psk :
  clean_peer k ip psk = true → Forall (fun b => plain b = true) (written_section k ip psk).
Proof.
  unfold clean_peer. intros H. apply andb_true_iff in H as [H Hpsk]. py_bool.
  unfold written_section.
  assert (∀ a b, plain a = true → token b = true → plain (a +:+ b) = true) as Hpl
    by (intros a b Ha Hb; by rewrite plain_app, Ha, token_plain).
  assert (token (ip +:+ "/32") = true) as Hip by by apply token_app_r.
  destruct (truthy_str psk); cbn [app orb negb] in Hpsk |- *;
    repeat (apply Forall_cons; split); try apply Forall_nil; first [by apply Hpl | done].
Qed.

(** *** Every operation is the operation on the entries *)
Lemma writelines_concat f g (bs : list (list string)) :
  (∀ b, b ∈ bs → writelines (f b) = unlines (g b)) →
  writelines (concat (f <$> bs)) = unlines (concat (g <$> bs)).
Proof.
  induction bs as [|b bs IH]; intros H; [done|]. cbn [fmap list_fmap concat].
  rewrite writelines_app, unlines_app, H by left. rewrite IH; [done|]. intros c Hc. apply H. by right.
Qed.

Lemma starts_peer_newline l : starts_peer (with_newline l) = starts_peer l.
Proof. unfold starts_peer. by rewrite strip_with_newline. Qed.
Lemma is_section_newline b : is_section b → is_section (with_newline <$> b).
Proof.
  intros (h & t & -> & Hh & Ht). exists (with_newline h), (with_newline <$> t).
  split_and!; [done|by rewrite starts_peer_newline|]. apply Forall_fmap.
  eapply Forall_impl; [done|]. intros l. unfold compose. by rewrite starts_peer_newline.
Qed.
Lemma has_key_newline k b : has_key k (with_newline <$> b) = has_key k b.
Proof.
  unfold has_key. assert (section_key (with_newline <$> b) = section_key b) as ->; [|done].
  unfold section_key. destruct b as [|h t]; [done|]. cbn [fmap list_fmap tail].
  generalize (@None string). induction t as [|l t IH]; intros key; [done|].
  cbn [fmap list_fmap]. unfold scan_key in *. cbn [foldl]. by rewrite strip_with_newline, IH.
Qed.
Lemma quiet_newline ifc :
  Forall (fun l => quiet l = true) ifc →
  Forall (fun l => starts_peer l = false) (with_newline <$> ifc).
Proof.
  intros H. apply Forall_fmap. eapply Forall_impl; [done|]. intros l Hl. unfold compose.
  rewrite starts_peer_newline. by apply quiet_starts.
Qed.
Lemma concat_newline (sections : list (list string)) :
  with_newline <$> concat sections
  = concat ((fun b : list string => list_fmap _ _ with_newline b) <$> sections).
Proof. induction sections as [|b l IH]; [done|]. cbn. by rewrite fmap_app, IH. Qed.

Lemma existsb_sections k sections es :
  Forall2 section_for sections es →
  existsb (has_key k) sections = existsb (fun e => e.1 == k) es.
Proof.
  induction 1 as [|b e sections es Hb _ IH]; [done|]. cbn [existsb].
  by rewrite (section_for_has_key _ _ _ Hb), IH.
Qed.

Lemma put_entry_keys e es :
  NoDup es.*1 → NoDup (put_entry e es).*1.
Proof.
  intros H. unfold put_entry. destruct (existsb _ es) eqn:E.
  - assert (((fun x => if x.1 == e.1 then e else x) <$> es).*1 = es.*1) as ->; [|done].
    rewrite <- list_fmap_compose. apply list_fmap_ext. intros _ x _. unfold compose.
    by case_bool_decide.
  - rewrite fmap_app. apply NoDup_app. split_and!; [done| |apply NoDup_singleton].
    intros k Hk [->|[]%elem_of_nil]%elem_of_cons.
    apply list_elem_of_fmap in Hk as (x & Hx & Hin). apply list_elem_of_In in Hin.
    assert (existsb (fun x => x.1 == e.1) es = true) as E'; [|congruence].
    apply existsb_exists. exists x. split; [done|]. by apply bool_decide_eq_true.
Qed.

Lemma holds_persist text es k ip psk :
  Holds text es → clean_peer k ip psk = true →
  Holds (persist_peer (Some text) k ip psk) (put_entry (k, written_peer k ip psk) es).
Proof.
  intros (ifc & sections & -> & Hp & Hq & Hs & Hnd) Hclean.
  assert (Forall is_section sections) as Hsec.
  { clear -Hs. induction Hs; constructor; [by eapply section_for_is_section|done]. }
  pose proof (written_section_for k ip psk Hclean) as Hnew.
  pose proof (written_section_plain k ip psk Hclean) as Hnewp.
  set (w := written_section k ip psk) in *.
  set (g := fun b => if has_key k b then "" :: w else b).
  assert (persist_peer (Some (unlines (ifc ++ concat sections))) k ip psk
    = unlines (ifc ++ concat ((g <$> sections) ++ if existsb (has_key k) sections then [] else ["" :: w])))
    as ->.
  { unfold persist_peer. rewrite read_text_unlines, splitlines_keepends_unlines by done.
    rewrite fmap_app, concat_newline, persisted_lines_spec
      by (try apply quiet_newline; try apply Forall_fmap; try (eapply Forall_impl; [done|apply is_section_newline]); done).
    rewrite !writelines_app, unlines_app, concat_app, unlines_app. f_equal. f_equal.
    - rewrite <- list_fmap_compose. apply writelines_concat. intros b _. unfold compose, g.
      rewrite has_key_newline. destruct (has_key k b); [apply writelines_block|done].
    - assert (existsb (has_key k) ((fun b : list string => list_fmap _ _ with_newline b) <$> sections)
              = existsb (has_key k) sections) as ->.
      { clear. induction sections as [|b l IH]; [done|]. cbn. by rewrite has_key_newline, IH. }
      destruct (existsb _ _); [done|]. cbn [concat]. rewrite app_nil_r. apply writelines_block. }
  apply holds_loose.
  - apply Forall_app in Hp as [Hpi Hps]. apply Forall_app. split; [done|].
    rewrite concat_app. apply Forall_app. split.
    + clear -Hps Hnewp. induction sections as [|b l IH]; [constructor|]. cbn in Hps |- *.
      apply Forall_app in Hps as [Hb Hl]. apply Forall_app. split; [|by apply IH].
      unfold g. destruct (has_key k b); [by constructor|done].
    + destruct (existsb _ _); [constructor|]. cbn. rewrite app_nil_r. by constructor.
  - done.
  - unfold put_entry. cbn [fst]. rewrite (existsb_sections _ _ es) by done.
    assert (Forall2 loose_section (g <$> sections)
              ((fun x => if x.1 == k then (k, written_peer k ip psk) else x) <$> es)) as Hg.
    { apply Forall2_fmap. eapply Forall2_impl; [done|]. intros b e Hb. unfold g.
      rewrite (section_for_has_key _ _ _ Hb). destruct (e.1 == k); [right; by exists w|by left]. }
    destruct (existsb _ es) eqn:E; [by rewrite app_nil_r|].
    apply Forall2_app; [|constructor; [right; by exists w|constructor]].
    assert (((fun x => if x.1 == k then (k, written_peer k ip psk) else x) <$> es) = es) as He;
      [|by rewrite He in Hg].
    clear -E. induction es as [|x es IH]; [done|]. cbn in E |- *. py_bool. rewrite IH by done.
    by rewrite bool_decide_eq_false_2.
  - by apply put_entry_keys.
Qed.

Lemma drop_entry_keys k es : NoDup es.*1 → NoDup (drop_entry k es).*1.
Proof.
  induction es as [|x es IH]; [done|]. cbn [fmap list_fmap drop_entry List.filter].
  intros [Hx Hnd]%NoDup_cons. destruct (negb _); [|by apply IH]. cbn [fmap list_fmap].
  apply NoDup_cons. split; [|by apply IH]. intros (y & Hy & Hin)%list_elem_of_fmap. apply Hx.
  apply list_elem_of_In, List.filter_In in Hin as [Hin _]. rewrite Hy. apply list_elem_of_fmap.
  exists y. split; [done|]. by apply list_elem_of_In.
Qed.

Lemma holds_unpersist text es k :
  Holds text es → Holds (unpersist_peer text k) (drop_entry k es).
Proof.
  intros (ifc & sections & -> & Hp & Hq & Hs & Hnd).
  assert (Forall is_section sections) as Hsec.
  { clear -Hs. induction Hs; constructor; [by eapply section_for_is_section|done]. }
  set (kept := List.filter (fun b => negb (has_key k b)) sections).
  assert (unpersist_peer (unlines (ifc ++ concat sections)) k = unlines (ifc ++ concat kept)) as ->.
  { unfold unpersist_peer. rewrite readlines_unlines by done.
    rewrite fmap_app, concat_newline, unpersisted_lines_spec
      by (try apply quiet_newline; try apply Forall_fmap; try (eapply Forall_impl; [done|apply is_section_newline]); done).
    rewrite writelines_app, unlines_app. f_equal. unfold kept. clear. induction sections as [|b l IH]; [done|].
    cbn [fmap list_fmap List.filter]. rewrite has_key_newline. destruct (negb (has_key k b)); [|done].
    cbn [concat]. by rewrite writelines_app, unlines_app, IH. }
  exists ifc, kept. split_and!; [done| |done| |by apply drop_entry_keys].
  - apply Forall_app in Hp as [Hpi Hps]. apply Forall_app. split; [done|]. unfold kept.
    clear -Hps. induction sections as [|b l IH]; [done|]. cbn in Hps |- *.
    apply Forall_app in Hps as [Hb Hl]. destruct (negb _); [|by apply IH].
    cbn. apply Forall_app. split; [done|by apply IH].
  - unfold kept. clear -Hs. induction Hs as [|b e l es Hb _ IH]; [constructor|].
    cbn [List.filter drop_entry]. rewrite (section_for_has_key _ _ _ Hb).
    destruct (negb _); [by constructor|done].
Qed.

Lemma holds_new_file k ip psk :
  clean_peer k ip psk = true →
  Holds (persist_peer None k ip psk) [(k, written_peer k ip psk)].
Proof.
  intros Hc. unfold persist_peer. rewrite writelines_block.
  exists [""], [written_section k ip psk]. cbn [concat app]. rewrite app_nil_r. split_and!; [done| | | |].
  - constructor; [done|]. by apply written_section_plain.
  - by repeat constructor.
  - by repeat constructor; apply written_section_for.
  - apply NoDup_singleton.
Qed.

(** *** The interface section *)
Lemma prefix_of_line p l rest : LF ∉ p → prefix_of p (l ++ LF :: rest) = prefix_of p l.
Proof.
  revert l; induction p as [|a p IH]; intros l Hp; [by destruct l|].
  apply not_elem_of_cons in Hp as [Ha Hp]. destruct l as [|b l]; cbn.
  - by rewrite bool_decide_eq_false_2.
  - by rewrite IH.
Qed.
Lemma find_from_line p l rest i j :
  LF ∉ p → p ≠ [] → find_from p l i = None →
  find_from p (l ++ LF :: rest) j = find_from p rest (j + length l + 1).
Proof.
  intros Hp Hne. revert i j. induction l as [|c l IH]; intros i j Hl.
  - pose proof (prefix_of_line p [] rest Hp) as E. cbn [app] in E. cbn [app find_from]. rewrite E.
    destruct p; [done|]. cbn [prefix_of]. f_equal. cbn. lia.
  - cbn [app find_from] in *. rewrite app_comm_cons, prefix_of_line by done.
    destruct (prefix_of p (c :: l)); [done|]. rewrite (IH (S i)) by done. f_equal. cbn. lia.
Qed.
Lemma contains_none l p : contains l p = false → find_from (of_str p) (of_str l) 0 = None.
Proof. unfold contains, find. by destruct (find_from _ _ _). Qed.

Lemma find_quiet ifc rest j :
  Forall (fun l => quiet l = true) ifc →
  find_from (of_str "[Peer]") (of_str (unlines ifc) ++ rest) j
  = find_from (of_str "[Peer]") rest (j + length (of_str (unlines ifc))).
Proof.
  rewrite of_str_unlines. intros H. revert j. induction H as [|l ifc Hl _ IH]; intros j; cbn [fmap list_fmap concat].
  - by rewrite Nat.add_0_r.
  - unfold quiet in Hl. py_bool. apply contains_none in H0. rewrite <- !app_assoc. cbn [app].
    rewrite (find_from_line _ _ _ 0) by (done || literal_in). rewrite IH. f_equal.
    rewrite !length_app. cbn. lia.
Qed.
Lemma partition_quiet ifc rest :
  Forall (fun l => quiet l = true) ifc →
  partition (unlines ifc +:+ "[Peer]" +:+ rest) "[Peer]" = (unlines ifc, "[Peer]", rest).
Proof.
  intros H. unfold partition, find. rewrite !of_str_app, find_quiet by done.
  change (of_str "[Peer]" ++ of_str rest) with (of_str ("[Peer]" +:+ rest)).
  assert (∀ n, find_from (of_str "[Peer]") (of_str ("[Peer]" +:+ rest)) n = Some n) as -> by (by intros n).
  rewrite Nat.add_0_l, take_app_length, <- drop_drop, drop_app_length.
  f_equal; [by rewrite to_of_str|]. change (of_str ("[Peer]" +:+ rest)) with (of_str "[Peer]" ++ of_str rest).
  change (str_len "[Peer]") with (length (of_str "[Peer]")). by rewrite drop_app_length, to_of_str.
Qed.
Lemma partition_no_peer ifc :
  Forall (fun l => quiet l = true) ifc → partition (unlines ifc) "[Peer]" = (unlines ifc, "", "").
Proof.
  intros H. unfold partition, find. rewrite <- (app_nil_r (of_str (unlines ifc))), find_quiet by done.
  done.
Qed.

(** The text of a configuration with the interface [cfg] and the sections of [text]. *)
Definition rewritten (cfg : InterfaceConfig) (sections : list (list string)) : list string :=
  interface_lines cfg ++ (match sections with [] => [] | _ => [""] end).

Lemma rewritten_quiet cfg sections :
  clean_interface cfg = true →
  Forall (fun b => plain b = true) (rewritten cfg sections) ∧
  Forall (fun l => quiet l = true) (rewritten cfg sections).
Proof.
  unfold clean_interface, rewritten. intros H. rewrite forallb_forall in H.
  assert (∀ l, l ∈ interface_lines cfg → plain l = true ∧ quiet l = true) as Hl.
  { intros l Hl. apply list_elem_of_In, H in Hl. by py_bool. }
  split; apply Forall_app; (split; [apply Forall_forall; intros l Hl'; by apply Hl|]);
    destruct sections; by repeat constructor.
Qed.

Lemma configured_text_spec cfg ifc sections :
  Forall (fun b => plain b = true) (ifc ++ concat sections) →
  Forall (fun l => quiet l = true) ifc →
  Forall (fun b => head b = Some "[Peer]") sections →
  configured_text (Some (unlines (ifc ++ concat sections))) cfg
  = (unlines ifc,
     let desired := unlines (rewritten cfg sections ++ concat sections) in
     if unlines (ifc ++ concat sections) == desired then None else Some desired).
Proof.
  intros Hp Hq Hh. unfold configured_text. rewrite read_text_unlines by done.
  assert (build_interface_block cfg = unlines (interface_lines cfg)) as -> by done.
  unfold split_config_sections, rewritten. destruct Hh as [|b sections Hb Hh].
  - cbn [concat]. rewrite !app_nil_r, partition_no_peer by done. cbn [truthy_str].
    change (negb (truthy_str "")) with true. cbv iota.
    assert (∀ s, s +:+ "" = s) as -> by (intros s; apply (inj of_str); by rewrite of_str_app, app_nil_r).
    done.
  - destruct b as [|h t]; [done|]. injection Hb as ->.
    assert (unlines (concat (("[Peer]" :: t) :: sections))
      = "[Peer]" +:+ (newline +:+ unlines (t ++ concat sections))) as E.
    { cbn [concat app]. unfold unlines, writelines. cbn [fmap list_fmap concat]. apply (inj of_str).
      rewrite !of_str_app, !of_to_str. unfold with_newline at 1. rewrite of_str_app. by rewrite <- app_assoc. }
    rewrite unlines_app, E, partition_quiet by done.
    change (negb (truthy_str "[Peer]")) with false. cbv iota.
    rewrite <- E, !unlines_app. 
    assert (unlines [""] = newline) as -> by done. rewrite !str_app_assoc. rewrite E. done.
Qed.

Lemma holds_head sections es :
  Forall2 section_for sections es → Forall (fun b => head b = Some "[Peer]") sections.
Proof. induction 1 as [|b e ? ? (t & -> & _)]; by constructor. Qed.

Lemma holds_interface text es cfg :
  Holds text es → clean_interface cfg = true →
  Holds (default text (configured_text (Some text) cfg).2) es.
Proof.
  intros (ifc & sections & -> & Hp & Hq & Hs & Hnd) Hc.
  rewrite configured_text_spec by (done || by eapply holds_head). cbn [snd].
  assert (Holds (unlines (rewritten cfg sections ++ concat sections)) es) as Hnew.
  { destruct (rewritten_quiet cfg sections Hc) as [Hrp Hrq].
    exists (rewritten cfg sections), sections. split_and!; [done| |done..].
    apply Forall_app in Hp as [_ Hp]. by apply Forall_app. }
  case_bool_decide as E; [|done]. cbn [default]. by rewrite E.
Qed.
Lemma holds_first_interface cfg :
  clean_interface cfg = true → Holds (default "" (configured_text None cfg).2) [].
Proof.
  intros Hc. unfold configured_text.
  assert (build_interface_block cfg +:+ "" = unlines (rewritten cfg [] ++ [])) as ->.
  { unfold rewritten. rewrite !app_nil_r. apply (inj of_str). by rewrite of_str_app, app_nil_r. }
  case_bool_decide as E.
  - exfalso. apply (f_equal of_str) in E. rewrite of_str_unlines in E. discriminate E.
  - destruct (rewritten_quiet cfg [] Hc) as [Hrp Hrq]. exists (rewritten cfg []), [].
    cbn [default concat]. rewrite app_nil_r in *. by split_and!; [| | |constructor|constructor].
Qed.

(** *** As finite maps *)
Lemma put_entry_map e es :
  NoDup es.*1 →
  (list_to_map (put_entry e es) : gmap string ConfiguredPeer) = <[e.1 := e.2]> (list_to_map es).
Proof.
  intros Hnd. apply map_eq. intros k. unfold put_entry.
  destruct (existsb _ es) eqn:E.
  - clear Hnd. revert E. induction es as [|[k' v] es IH]; intros E; [done|]. cbn [existsb fst] in E.
    cbn [fmap list_fmap fst snd]. destruct (k' == e.1) eqn:Ek.
    + py_bool. subst k'. cbn [list_to_map foldr fst snd uncurry].
      destruct (decide (k = e.1)) as [->|Hk]; [by rewrite !lookup_insert_eq|].
      rewrite !lookup_insert_ne by done. clear -Hk. destruct e as [k0 v0].
      induction es as [|[k' v'] es IH]; [done|]. cbn in *. case_bool_decide as E; cbn; simplify_eq.
      * by rewrite !lookup_insert_ne.
      * destruct (decide (k = k')) as [->|]; [by rewrite !lookup_insert_eq|by rewrite !lookup_insert_ne].
    + py_bool. cbn [orb] in E. cbn [list_to_map foldr fst snd uncurry].
      destruct (decide (k = k')) as [->|Hk].
      * rewrite lookup_insert_eq, lookup_insert_ne by done. by rewrite lookup_insert_eq.
      * rewrite lookup_insert_ne by done. rewrite IH by done.
        destruct (decide (k = e.1)) as [->|]; [by rewrite !lookup_insert_eq|by rewrite !lookup_insert_ne].
  - rewrite list_to_map_app. destruct e as [k0 v0]. cbn [fst snd] in *.
    assert (k0 ∉ es.*1) as Hk0.
    { intros (x & -> & Hin)%list_elem_of_fmap. apply list_elem_of_In in Hin.
      assert (existsb (fun y => y.1 == x.1) es = true) as E'; [|congruence].
      apply existsb_exists. exists x. split; [done|]. by apply bool_decide_eq_true. }
    cbn. rewrite <- insert_union_r by (by apply not_elem_of_list_to_map_1). by rewrite map_union_empty.
Qed.
Lemma drop_entry_map k es :
  NoDup es.*1 →
  (list_to_map (drop_entry k es) : gmap string ConfiguredPeer) = delete k (list_to_map es).
Proof.
  induction es as [|[k' v] es IH]; cbn [fmap list_fmap fst drop_entry List.filter list_to_map foldr];
    [by rewrite delete_empty|].
  intros [Hk Hnd]%NoDup_cons. unfold drop_entry in IH. case_bool_decide as E; cbn.
  - subst k'. rewrite IH by done. by rewrite delete_insert_eq.
  - rewrite IH by done. by rewrite delete_insert_ne.
Qed.
