(* ===== verification/EventHub.v ===== *)
(** * The event hub and the event streams

    [panel/backend/app/services/events.py] ([UserEventHub], [user_event_stream]) and
    [routers/user_events.py]: one process fans change notifications out to its open streams. The hub
    is a state machine over an event loop: its objects (fan-outs, subscriptions with their queues,
    timer handles) live in stores, because the loop, the streams and the hub share them; one event is
    one callback of the loop. Times are microseconds of the loop's clock. The listening connection is
    a state of its own; what it receives arrives as [Notified]. *)
From S2P Require Import Prelude PyStr Json Models Session Accounts Events.

(** The DSN of the listener, none for a backend without NOTIFY. *)
Definition asyncpg_dsn (database_url : option string) : option string :=
  match database_url with
  | None => None
  | Some url =>
      if negb (truthy_str url) then None
      else if startswith url "postgresql+asyncpg://"
      then Some ("postgresql://" +:+ removeprefix url "postgresql+asyncpg://")
      else if startswith url "postgresql://" || startswith url "postgres://" then Some url
      else None
  end.

(** ** State *)
Inductive queue_item :=
  | Reason (reason : string)
  | TIMER
  | TERMINATED.
#[export] Instance queue_item_eq_dec : EqDecision queue_item.
Proof. solve_decision. Defined.

Record subscription := mkSubscription { sub_user : string; sub_queue : list queue_item }.
#[export] Instance subscription_eta : Eta subscription := fun r =>
  mkSubscription (sub_user r) (sub_queue r).
Record fanout := mkFanout {
  subscriptions : list nat;
  last_delivered_at : option Z;
  trailing : option nat }.
#[export] Instance fanout_eta : Eta fanout := fun r =>
  mkFanout (subscriptions r) (last_delivered_at r) (trailing r).
Inductive handle_state := Pending | Cancelled | Fired.
#[export] Instance handle_state_eq_dec : EqDecision handle_state.
Proof. solve_decision. Defined.
Record timer_handle := mkTimer {
  tm_due : Z; tm_fanout : nat; tm_reason : string; tm_state : handle_state }.
#[export] Instance timer_eta : Eta timer_handle := fun r =>
  mkTimer (tm_due r) (tm_fanout r) (tm_reason r) (tm_state r).

(** [_listen_forever]: where its task is. *)
Inductive listener :=
  | NotRunning
  | Connecting (attempt : nat)
  | Sleeping (attempt : nat) (delay : Z)
  | Listening.
#[export] Instance listener_eq_dec : EqDecision listener.
Proof. solve_decision. Defined.

Record hub := mkHub {
  fanouts : gmap string nat;
  fanout_objects : gmap nat fanout;
  subs : gmap nat subscription;
  timers : gmap nat timer_handle;
  stopping : bool;
  listening : listener;
  clock : Z;
  next_id : nat }.
#[export] Instance hub_eta : Eta hub := fun r =>
  mkHub (fanouts r) (fanout_objects r) (subs r) (timers r) (stopping r) (listening r) (clock r) (next_id r).
Definition new_hub (now : Z) : hub := mkHub ∅ ∅ ∅ ∅ false NotRunning now 0.

Record HubConfig := mkHubConfig {
  dsn : option string;
  coalesce_seconds : Z;
  max_subscriptions : nat;
  reconnect_backoff : list Z;
  queue_size : nat }.
Definition default_config (database_url : option string) : HubConfig :=
  mkHubConfig (asyncpg_dsn database_url) (seconds 2) 1000
    [500000%Z; seconds 1; seconds 2; seconds 5; seconds 10] 1.

Definition available (h : hub) : bool := listening h == Listening.

(** ** Queues *)

(** [queue.put_nowait(item)], [None] for [QueueFull]; a queue of size 0 is unbounded. *)
Definition put_nowait (size : nat) (item : queue_item) (q : list queue_item) : option (list queue_item) :=
  if (size == 0) || (length q <? size)%nat then Some (q ++ [item]) else None.
(** [with suppress(QueueFull)]. *)
Definition put_or_drop (size : nat) (item : queue_item) (q : list queue_item) : list queue_item :=
  default q (put_nowait size item q).

Section hub.
Context (config : HubConfig).

Definition on_sub (s : nat) (f : subscription → subscription) (h : hub) : hub :=
  h <| subs := alter f s (subs h) |>.
Definition put_into (item : queue_item) (h : hub) (s : nat) : hub :=
  on_sub s (fun sub => sub <| sub_queue := put_or_drop (queue_size config) item (sub_queue sub) |>) h.
(** [UserEventSubscription.terminate] *)
Definition terminate (h : hub) (s : nat) : hub :=
  on_sub s (fun sub => sub <| sub_queue :=
    put_or_drop (queue_size config) TERMINATED (tail (sub_queue sub)) |>) h.
(** [TimerHandle.cancel()] *)
Definition cancel (t : timer_handle) : timer_handle :=
  match tm_state t with Pending => t <| tm_state := Cancelled |> | _ => t end.
Definition cancel_timer (t : option nat) (h : hub) : hub :=
  match t with Some t => h <| timers := alter cancel t (timers h) |> | None => h end.
Definition cancelled (h : hub) (t : nat) : bool :=
  match timers h !! t with Some handle => tm_state handle == Cancelled | None => false end.

Definition subscription_count (h : hub) : nat :=
  sum_list ((fun uf : string * nat =>
    match fanout_objects h !! uf.2 with Some f => length (subscriptions f) | None => 0 end)
    <$> map_to_list (fanouts h)).

(** ** Streams come and go *)
Definition subscribe (user_id : string) (h : hub) : outcome nat * hub :=
  if stopping h then (Raise EventStreamsStoppedError, h)
  else if (max_subscriptions config <=? subscription_count h)%nat
  then (Raise (SubscriptionLimitExceededError (Z.of_nat (max_subscriptions config))), h)
  else
    let '(f, h) :=
      match fanouts h !! user_id with
      | Some f => (f, h)
      | None =>
          let f := next_id h in
          (f, h <| fanouts := <[user_id := f]> (fanouts h) |>
                <| fanout_objects := <[f := mkFanout [] None None]> (fanout_objects h) |>
                <| next_id := S f |>)
      end in
    let s := next_id h in
    (Ok s, h <| subs := <[s := mkSubscription user_id []]> (subs h) |>
             <| fanout_objects := alter (fun fo => fo <| subscriptions := subscriptions fo ++ [s] |>) f
                                    (fanout_objects h) |>
             <| next_id := S s |>).

(** [list.remove] of the first equal element; subscriptions are equal when they share the queue. *)
Fixpoint remove_first (s : nat) (l : list nat) : list nat :=
  match l with
  | [] => []
  | x :: l => if x == s then l else x :: remove_first s l
  end.
Definition drop_stream (s : nat) (fo : fanout) : fanout :=
  fo <| subscriptions := remove_first s (subscriptions fo) |>.
Definition unsubscribe (s : nat) (h : hub) : hub :=
  match subs h !! s with
  | None => h
  | Some sub =>
      match fanouts h !! sub_user sub with
      | None => h
      | Some f =>
          let h := h <| fanout_objects := alter (drop_stream s) f (fanout_objects h) |> in
          match fanout_objects h !! f with
          | Some fo =>
              match subscriptions fo with
              | [] =>
                  let h := cancel_timer (trailing fo) h in
                  h <| fanouts := delete (sub_user sub) (fanouts h) |>
              | _ => h
              end
          | None => h
          end
      end
  end.

(** ** Delivery *)
Definition deliver (f : nat) (reason : string) (h : hub) : hub :=
  match fanout_objects h !! f with
  | None => h
  | Some fo =>
      let h := cancel_timer (trailing fo) h in
      let h := h <| fanout_objects := <[f := fo <| trailing := None |>
                                          <| last_delivered_at := Some (clock h) |>]> (fanout_objects h) |> in
      foldl (put_into (Reason reason)) h (subscriptions fo)
  end.

Definition fan_out (user_id reason : string) (h : hub) : hub :=
  match fanouts h !! user_id with
  | None => h
  | Some f =>
      match fanout_objects h !! f with
      | None => h
      | Some fo =>
          let elapsed := (fun at_ => clock h - at_)%Z <$> last_delivered_at fo in
          let due_now :=
            match elapsed with
            | None => true
            | Some e => negb (reason isin COALESCED_REASONS) || (coalesce_seconds config <=? e)%Z
            end in
          if due_now then deliver f reason h
          else if match trailing fo with None => true | Some t => cancelled h t end then
            let t := next_id h in
            h <| timers := <[t := mkTimer (clock h + (coalesce_seconds config - default 0 elapsed))%Z
                                    f reason Pending]> (timers h) |>
              <| fanout_objects := <[f := fo <| trailing := Some t |>]> (fanout_objects h) |>
              <| next_id := S t |>
          else h
      end
  end.

(** A payload as [json.loads] reads it; anything malformed is dropped. *)
Definition deliver_payload (data : outcome json) (h : hub) : hub :=
  match data with
  | Ok (JObj fields) =>
      match json_get fields "user_id" with
      | JStr user_id =>
          if truthy_str user_id then
            fan_out user_id (match json_get fields "reason" with JStr r => r | _ => "" end) h
          else h
      | _ => h
      end
  | _ => h
  end.
(** The loop calls a handle whose time has come. *)
Definition fire (t : nat) (h : hub) : hub :=
  match timers h !! t with
  | Some handle =>
      if (tm_state handle == Pending) && (tm_due handle <=? clock h)%Z
      then deliver (tm_fanout handle) (tm_reason handle)
             (h <| timers := <[t := handle <| tm_state := Fired |>]> (timers h) |>)
      else h
  | None => h
  end.

(** ** Starting and stopping *)
Definition start (h : hub) : hub :=
  match dsn config, listening h with
  | Some _, NotRunning => h <| stopping := false |> <| listening := Connecting 0 |>
  | _, _ => h
  end.
Definition stop_fanout (h : hub) (f : nat) : hub :=
  match fanout_objects h !! f with
  | Some fo => foldl terminate (cancel_timer (trailing fo) h) (subscriptions fo)
  | None => h
  end.
(** [stop] up to its [await task], where other callbacks may run, and from there on. *)
Definition stop_requested (h : hub) : hub := h <| stopping := true |>.
Definition stop_finished (h : hub) : hub :=
  let h := h <| listening := NotRunning |> in
  let h := foldl stop_fanout h ((map_to_list (fanouts h)).*2) in
  h <| fanouts := ∅ |>.

(** The listening task: connecting, backing off, listening, losing the connection. *)
Definition backoff (attempt : nat) : Z :=
  default 0%Z (reconnect_backoff config !! (min attempt (length (reconnect_backoff config) - 1))).
Definition connected (h : hub) : hub :=
  match listening h with Connecting _ => h <| listening := Listening |> | _ => h end.
Definition connect_failed (h : hub) : hub :=
  match listening h with
  | Connecting attempt => h <| listening := Sleeping (S attempt) (backoff attempt) |>
  | _ => h
  end.
Definition backoff_over (h : hub) : hub :=
  match listening h with Sleeping attempt _ => h <| listening := Connecting attempt |> | _ => h end.
Definition connection_lost (h : hub) : hub :=
  match listening h with Listening => h <| listening := Connecting 0 |> | _ => h end.

(** ** What the event loop runs *)
Inductive hub_event :=
  | Subscribe (user_id : string)
  | Unsubscribe (s : nat)
  | Notified (data : outcome json)
  | TimerDue (t : nat)
  (* the ticker of a stream, [_put_after], has slept *)
  | Ticked (s : nat)
  (* a stream resumes from [queue.get()] *)
  | Took (s : nat)
  | Start
  | StopRequested
  | StopFinished
  | Connected
  | ConnectFailed
  | BackoffOver
  | ConnectionLost
  | Elapse (microseconds : N).

Definition take_item (s : nat) (h : hub) : hub :=
  on_sub s (fun sub => sub <| sub_queue := tail (sub_queue sub) |>) h.
Definition hub_step (h : hub) (e : hub_event) : hub :=
  match e with
  | Subscribe u => (subscribe u h).2
  | Unsubscribe s => unsubscribe s h
  | Notified data => deliver_payload data h
  | TimerDue t => fire t h
  | Ticked s => put_into TIMER h s
  | Took s => take_item s h
  | Start => start h
  | StopRequested => stop_requested h
  | StopFinished => stop_finished h
  | Connected => connected h
  | ConnectFailed => connect_failed h
  | BackoffOver => backoff_over h
  | ConnectionLost => connection_lost h
  | Elapse d => h <| clock := (clock h + Z.of_N d)%Z |>
  end.
Definition run_hub (events : list hub_event) (h : hub) : hub := foldl hub_step h events.
End hub.

(** ** One stream: [user_event_stream] *)
Record StreamTiming := mkStreamTiming {
  heartbeat_seconds : Z; auth_recheck_seconds : Z; disconnect_poll_seconds : Z }.
Definition DEFAULT_STREAM_TIMING : StreamTiming := mkStreamTiming (seconds 20) (seconds 60) (seconds 5).
Definition MIN_WAIT : Z := 50000.

(** [json.dumps] of a flat dictionary, in its own order. *)
Definition dumps_flat (fields : list (string * json)) : string :=
  "{" +:+ join ", " ((fun kv : string * json => json_string kv.1 +:+ ": " +:+ dumps_default kv.2) <$> fields)
  +:+ "}".
Definition sse_frame (name : string) (data : list (string * json)) : string :=
  "event: " +:+ name +:+ newline +:+ "data: " +:+ dumps_flat data +:+ newline +:+ newline.
Definition connected_frame (user_id : string) (notifications : bool) : string :=
  sse_frame "connected" [("user_id", JStr user_id); ("notifications", JBool notifications)].
Definition changed_frame (reason : string) : string := sse_frame "changed" [("reason", JStr reason)].
Definition unauthorized_frame : string := sse_frame "unauthorized" [("reason", JStr "token")].
Definition keepalive_frame : string := ": keepalive" +:+ newline +:+ newline.

Record stream := mkStream { next_heartbeat : Z; next_auth : Z }.
Definition open_stream (timing : StreamTiming) (now : Z) : stream :=
  mkStream (now + heartbeat_seconds timing) (now + auth_recheck_seconds timing).
(** How long the ticker sleeps before it wakes the stream. *)
Definition stream_wait (timing : StreamTiming) (now : Z) (st : stream) : Z :=
  Z.max MIN_WAIT
    (Z.min (Z.min (next_heartbeat st) (next_auth st)) (now + disconnect_poll_seconds timing) - now).

(** One turn of the loop: the item the queue gave, and the clock, the client's state and the
    authorization as the stream then finds them. The frames, and the stream if it goes on. *)
Record resume := mkResume {
  rs_item : queue_item; rs_disconnected : bool; rs_now : Z; rs_authorized : bool }.
Definition stream_resume (timing : StreamTiming) (st : stream) (r : resume) : list string * option stream :=
  match rs_item r with
  | TERMINATED => ([], None)
  | item =>
      let changed := match item with Reason reason => [changed_frame reason] | _ => [] end in
      if rs_disconnected r then (changed, None) else
      let due := (next_auth st <=? rs_now r)%Z in
      if due && negb (rs_authorized r) then (changed ++ [unauthorized_frame], None) else
      let next_auth := if due then (rs_now r + auth_recheck_seconds timing)%Z else next_auth st in
      if (next_heartbeat st <=? rs_now r)%Z
      then (changed ++ [keepalive_frame],
            Some (mkStream (rs_now r + heartbeat_seconds timing) next_auth))
      else (changed, Some (mkStream (next_heartbeat st) next_auth))
  end.
(** The frames of a run, and the turns the stream lived through. *)
Fixpoint stream_run (timing : StreamTiming) (st : stream) (rs : list resume) : list string * list resume :=
  match rs with
  | [] => ([], [])
  | r :: rs =>
      match stream_resume timing st r with
      | (frames, None) => (frames, [r])
      | (frames, Some st) =>
          let '(more, lived) := stream_run timing st rs in (frames ++ more, r :: lived)
      end
  end.
Definition user_event_stream (timing : StreamTiming) (user_id : string) (notifications : bool)
    (now : Z) (rs : list resume) : list string * list resume :=
  let '(frames, lived) := stream_run timing (open_stream timing now) rs in
  (connected_frame user_id notifications :: frames, lived).

(** [routers/user_events.py]: a stream for an account the token resolves to, or the refusals. *)
Definition pub_user_events (config : HubConfig) (resolved : option string) (h : hub) : outcome nat * hub :=
  match resolved with
  | None => (Raise (HTTPException 404 "Not Found"), h)
  | Some user_id =>
      match subscribe config user_id h with
      | (Raise (SubscriptionLimitExceededError _), h) =>
          (Raise (HTTPException 503 "Too many open event streams"), h)
      | (Raise EventStreamsStoppedError, h) =>
          (Raise (HTTPException 503 "Event streams are unavailable"), h)
      | r => r
      end
  end.

(** ** What holds of every hub

    [except] is a fan-out whose trailing timer is just being called. *)
Record hub_inv_except (config : HubConfig) (except : option nat) (h : hub) : Prop := {
  inv_fanout : ∀ u f, fanouts h !! u = Some f → ∃ fo, fanout_objects h !! f = Some fo ∧
    subscriptions fo ≠ [] ∧ NoDup (subscriptions fo) ∧
    ∀ s, s ∈ subscriptions fo → ∃ sub, subs h !! s = Some sub ∧ sub_user sub = u;
  inv_inj : ∀ u u' f, fanouts h !! u = Some f → fanouts h !! u' = Some f → u = u';
  inv_timer : ∀ t handle, timers h !! t = Some handle → tm_state handle = Pending →
    ∃ u fo l, fanouts h !! u = Some (tm_fanout handle) ∧ fanout_objects h !! tm_fanout handle = Some fo ∧
      trailing fo = Some t ∧ last_delivered_at fo = Some l ∧
      tm_due handle = (l + coalesce_seconds config)%Z ∧ tm_reason handle ∈ COALESCED_REASONS;
  inv_trailing : ∀ u f fo t, except ≠ Some f → fanouts h !! u = Some f → fanout_objects h !! f = Some fo →
    trailing fo = Some t → ∃ handle, timers h !! t = Some handle ∧ tm_fanout handle = f ∧
      tm_state handle = Pending;
  inv_except : ∀ f fo t handle, except = Some f → fanout_objects h !! f = Some fo →
    trailing fo = Some t → timers h !! t = Some handle → tm_state handle ≠ Pending;
  inv_queue : ∀ s sub, subs h !! s = Some sub → queue_size config ≠ 0 →
    length (sub_queue sub) ≤ queue_size config;
  inv_clock : ∀ f fo l, fanout_objects h !! f = Some fo → last_delivered_at fo = Some l → (l <= clock h)%Z;
  inv_ids : (∀ f fo, fanout_objects h !! f = Some fo → f < next_id h) ∧
            (∀ s sub, subs h !! s = Some sub → s < next_id h) ∧
            (∀ t handle, timers h !! t = Some handle → t < next_id h);
  inv_count : subscription_count h ≤ max_subscriptions config }.
Definition hub_inv (config : HubConfig) : hub → Prop := hub_inv_except config None.

Section facts.
Context (config : HubConfig).

Lemma put_or_drop_length item q :
  (queue_size config ≠ 0 → length q ≤ queue_size config) →
  queue_size config ≠ 0 → length (put_or_drop (queue_size config) item q) ≤ queue_size config.
Proof.
  intros Hq H0. unfold put_or_drop, put_nowait. case_bool_decide; [done|]. cbn [orb].
  destruct (_ <? _)%nat eqn:E; [|by apply Hq]. apply Nat.ltb_lt in E. cbn. rewrite length_app. cbn. lia.
Qed.

(** A delivery into the streams of a fan-out writes to their queues and to nothing else. *)
Lemma put_all_frame item l h :
  let h' := foldl (put_into config item) h l in
  fanouts h' = fanouts h ∧ fanout_objects h' = fanout_objects h ∧ timers h' = timers h ∧
  stopping h' = stopping h ∧ listening h' = listening h ∧ clock h' = clock h ∧ next_id h' = next_id h.
Proof. cbv zeta. revert h. induction l as [|s l IH]; intros h; [done|]. cbn [foldl]. destruct (IH (put_into config item h s)) as (-> & -> & -> & -> & -> & -> & ->). done. Qed.
Lemma put_all_subs item l h s :
  NoDup l →
  subs (foldl (put_into config item) h l) !! s =
  (if s isin l
   then (fun sub => sub <| sub_queue := put_or_drop (queue_size config) item (sub_queue sub) |>) <$> subs h !! s
   else subs h !! s).
Proof.
  intros Hnd. revert h. induction Hnd as [|x l Hx _ IH]; intros h; [done|]. cbn [foldl]. rewrite IH.
  unfold put_into, on_sub. cbn [subs set_field].
  destruct (decide (s = x)) as [->|Hne].
  - rewrite (bool_decide_eq_false_2 _ Hx), (bool_decide_eq_true_2 (x ∈ x :: l)) by by left.
    by rewrite lookup_alter_eq.
  - rewrite lookup_alter_ne by done. by rewrite (bool_decide_ext (s ∈ x :: l) (s ∈ l))
      by (rewrite elem_of_cons; naive_solver).
Qed.

Lemma cancel_frame t h :
  let h' := cancel_timer t h in
  fanouts h' = fanouts h ∧ fanout_objects h' = fanout_objects h ∧ subs h' = subs h ∧
  stopping h' = stopping h ∧ listening h' = listening h ∧ clock h' = clock h ∧ next_id h' = next_id h.
Proof. by destruct t. Qed.
Lemma cancel_timers t h x :
  timers (cancel_timer t h) !! x = (if Some x == t then cancel <$> timers h !! x else timers h !! x).
Proof.
  destruct t as [t|]; [|done]. cbn. destruct (decide (x = t)) as [->|Hne].
  - rewrite lookup_alter_eq. by rewrite bool_decide_eq_true_2.
  - rewrite lookup_alter_ne by done. rewrite bool_decide_eq_false_2 by congruence. done.
Qed.
Lemma cancel_not_pending t : tm_state (cancel t) ≠ Pending.
Proof. unfold cancel. by destruct (tm_state t) eqn:E; rewrite ?E. Qed.

(** The number of open streams only depends on the registered fan-outs and their streams. *)
Lemma count_ext h h' :
  fanouts h' = fanouts h →
  (∀ u f, fanouts h !! u = Some f →
     subscriptions <$> fanout_objects h' !! f = subscriptions <$> fanout_objects h !! f) →
  subscription_count h' = subscription_count h.
Proof.
  intros Hf Hs. unfold subscription_count. rewrite Hf. f_equal. apply list_fmap_ext.
  intros i [u f] Hi. apply list_elem_of_lookup_2, elem_of_map_to_list in Hi. cbn [snd].
  specialize (Hs u f Hi). destruct (fanout_objects h' !! f), (fanout_objects h !! f); cbn in Hs; congruence.
Qed.

Lemma deliver_spec f r h fo :
  fanout_objects h !! f = Some fo → NoDup (subscriptions fo) →
  let h' := deliver config f r h in
  fanouts h' = fanouts h ∧
  fanout_objects h' = <[f := mkFanout (subscriptions fo) (Some (clock h)) None]> (fanout_objects h) ∧
  (∀ x, timers h' !! x = if Some x == trailing fo then cancel <$> timers h !! x else timers h !! x) ∧
  (∀ s, subs h' !! s =
     if s isin subscriptions fo
     then (fun sub => sub <| sub_queue := put_or_drop (queue_size config) (Reason r) (sub_queue sub) |>) <$> subs h !! s
     else subs h !! s) ∧
  stopping h' = stopping h ∧ listening h' = listening h ∧ clock h' = clock h ∧ next_id h' = next_id h.
Proof.
  intros Hf Hnd. cbv zeta. unfold deliver. rewrite Hf.
  set (h1 := cancel_timer (trailing fo) h).
  destruct (cancel_frame (trailing fo) h) as (E1 & E2 & E3 & E4 & E5 & E6 & E7). fold h1 in E1, E2, E3, E4, E5, E6, E7.
  set (h2 := h1 <| fanout_objects := _ |>).
  destruct (put_all_frame (Reason r) (subscriptions fo) h2) as (-> & -> & -> & -> & -> & -> & ->).
  cbn [fanouts fanout_objects timers stopping listening clock next_id h2 set_field].
  rewrite E1, E2, E4, E5, E6, E7. split_and!; try done.
  - intros x. apply cancel_timers.
  - intros s. rewrite put_all_subs by done. cbn [subs h2 set_field]. by rewrite E3.
Qed.

Lemma deliver_inv u f r h except :
  hub_inv_except config except h → (except = None ∨ except = Some f) → fanouts h !! u = Some f →
  hub_inv config (deliver config f r h).
Proof.
  intros [Ifan Iinj Itim Itrail Iex Iq Icl [Iif [Iis Iit]] Icnt] Hex Hu.
  destruct (Ifan u f Hu) as (fo & Hfo & Hne & Hnd & Hsub).
  destruct (deliver_spec f r h fo Hfo Hnd) as (E1 & E2 & E3 & E4 & E5 & E6 & E7 & E8).
  set (h' := deliver config f r h) in *. clearbody h'.
  assert (∀ s sub, subs h' !! s = Some sub → ∃ sub0, subs h !! s = Some sub0 ∧ sub_user sub = sub_user sub0) as Hback.
  { intros s sub Hs. rewrite E4 in Hs. case_bool_decide; [|by exists sub].
    destruct (subs h !! s) as [sub0|]; [|done]. injection Hs as <-. by exists sub0. }
  assert (∀ s sub, subs h !! s = Some sub → ∃ sub', subs h' !! s = Some sub' ∧ sub_user sub' = sub_user sub) as Hfwd.
  { intros s sub Hs. rewrite E4, Hs. case_bool_decide; by eexists. }
  split; unfold hub_inv.
  - intros u' f' Hu'. rewrite E1 in Hu'. destruct (Ifan u' f' Hu') as (fo' & Hfo' & Hne' & Hnd' & Hsub').
    rewrite E2. destruct (decide (f' = f)) as [->|Hf'].
    + rewrite lookup_insert_eq. eexists. split; [reflexivity|]. cbn. rewrite Hfo in Hfo'. injection Hfo' as <-.
      split_and!; [done|done|]. intros s Hs. destruct (Hsub' s Hs) as (sub & Hs' & <-).
      destruct (Hfwd s sub Hs') as (sub' & ? & ?). by exists sub'.
    + rewrite lookup_insert_ne by done. exists fo'. split_and!; [done|done|done|].
      intros s Hs. destruct (Hsub' s Hs) as (sub & Hs' & <-).
      destruct (Hfwd s sub Hs') as (sub' & ? & ?). by exists sub'.
  - intros u1 u2 f'. rewrite E1. apply Iinj.
  - intros t handle Ht Hp. rewrite E3 in Ht. case_bool_decide as Et.
    { destruct (timers h !! t) as [h0|]; [|done]. injection Ht as <-. by destruct (cancel_not_pending h0). }
    destruct (Itim t handle Ht Hp) as (u' & fo' & l & Hu' & Hfo' & Htr & Hl & Hdue & Hr').
    rewrite E1, E2. destruct (decide (tm_fanout handle = f)) as [Ef|Hf'].
    { rewrite Ef, Hfo in Hfo'. injection Hfo' as <-. congruence. }
    exists u', fo', l. rewrite lookup_insert_ne by done. done.
  - intros u' f' fo' t _ Hu' Hfo' Htr. rewrite E1 in Hu'. rewrite E2 in Hfo'.
    destruct (decide (f' = f)) as [->|Hf'].
    { rewrite lookup_insert_eq in Hfo'. injection Hfo' as <-. done. }
    rewrite lookup_insert_ne in Hfo' by done.
    destruct (Itrail u' f' fo' t) as (handle & Ht & Htf & Hp); [destruct Hex as [->| ->]; congruence|done..|].
    exists handle. rewrite E3. case_bool_decide as Et; [|done]. exfalso.
    destruct (Itim t handle Ht Hp) as (u2 & fo2 & l & Hu2 & Hfo2 & Htr2 & _).
    destruct Hex as [->| ->].
    + destruct (Itrail u f fo t) as (h2 & Ht2 & Htf2 & _); [done|done|done|done|]. congruence.
    + by apply (Iex f fo t handle eq_refl Hfo).
  - done.
  - intros s sub Hs H0. rewrite E4 in Hs. case_bool_decide; [|by eapply Iq].
    destruct (subs h !! s) as [sub0|] eqn:Es; [|done]. injection Hs as <-. cbn.
    apply put_or_drop_length; [intros _; by eapply Iq|done].
  - intros f' fo' l Hfo' Hl. rewrite E2 in Hfo'. rewrite E7. destruct (decide (f' = f)) as [->|Hf'].
    + rewrite lookup_insert_eq in Hfo'. injection Hfo' as <-. injection Hl as <-. done.
    + rewrite lookup_insert_ne in Hfo' by done. by eapply Icl.
  - rewrite E8. split_and!.
    + intros f' fo' Hfo'. rewrite E2 in Hfo'. destruct (decide (f' = f)) as [->|Hf'].
      * by eapply Iif.
      * rewrite lookup_insert_ne in Hfo' by done. by eapply Iif.
    + intros s sub Hs. destruct (Hback s sub Hs) as (sub0 & Hs0 & _). by eapply Iis.
    + intros t handle Ht. rewrite E3 in Ht. case_bool_decide; [|by eapply Iit].
      destruct (timers h !! t) as [h0|] eqn:Eh; [|done]. by eapply Iit.
  - rewrite (count_ext h h'); [done|done|]. intros u' f' Hu'. rewrite E2.
    destruct (decide (f' = f)) as [->|Hf']; [|by rewrite lookup_insert_ne].
    rewrite lookup_insert_eq, Hfo. done.
Qed.

Lemma sum_list_perm (l k : list nat) : l ≡ₚ k → sum_list l = sum_list k.
Proof. induction 1; cbn; lia. Qed.

(** The open streams, one registered fan-out taken apart. *)
Definition streams_of (objects : gmap nat fanout) (f : nat) : nat :=
  match objects !! f with Some fo => length (subscriptions fo) | None => 0 end.
Lemma count_delete h u f :
  fanouts h !! u = Some f →
  subscription_count h
  = streams_of (fanout_objects h) f + subscription_count (h <| fanouts := delete u (fanouts h) |>).
Proof.
  intros Hu. unfold subscription_count. cbn [fanouts fanout_objects set_field].
  rewrite <- (sum_list_perm _ _ (fmap_Permutation _ _ _ (map_to_list_delete _ _ _ Hu))). done.
Qed.
Lemma count_insert h u f :
  fanouts h !! u = None →
  subscription_count (h <| fanouts := <[u := f]> (fanouts h) |>)
  = streams_of (fanout_objects h) f + subscription_count h.
Proof.
  intros Hu. unfold subscription_count. cbn [fanouts fanout_objects set_field].
  by rewrite (sum_list_perm _ _ (fmap_Permutation _ _ _ (map_to_list_insert _ _ f Hu))).
Qed.

Lemma fan_out_inv u r h : hub_inv config h → hub_inv config (fan_out config u r h).
Proof.
  intros Hinv. unfold fan_out. destruct (fanouts h !! u) as [f|] eqn:Hu; [|done].
  destruct (fanout_objects h !! f) as [fo|] eqn:Hfo; [|done].
  destruct (last_delivered_at fo) as [l|] eqn:Hl; [|eapply deliver_inv; [done|by left|done]].
  cbn [fmap option_fmap option_map].
  destruct (negb (r isin COALESCED_REASONS) || (coalesce_seconds config <=? clock h - l)%Z) eqn:Edue;
    [eapply deliver_inv; [done|by left|done]|].
  apply orb_false_iff in Edue as [Er Ee]. apply negb_false_iff, bool_decide_eq_true in Er.
  apply Z.leb_gt in Ee. cbn [default id].
  destruct Hinv as [Ifan Iinj Itim Itrail Iex Iq Icl [Iif [Iis Iit]] Icnt].
  assert (trailing fo = None ∨ ∃ t, trailing fo = Some t ∧ cancelled h t = false) as [Htr|(t & Htr & Hc)].
  { destruct (trailing fo) as [t|] eqn:Htr; [|by left]. right. exists t. split; [done|].
    destruct (Itrail u f fo t) as (handle & Ht & _ & Hp); [done..|]. unfold cancelled. rewrite Ht, Hp. done. }
  2:{ rewrite Htr, Hc. by split. }
  rewrite Htr. set (t := next_id h).
  assert (timers h !! t = None) as Hnew.
  { destruct (timers h !! t) as [x|] eqn:E; [|done]. apply Iit in E. unfold t in E. lia. }
  split; cbn [fanouts fanout_objects subs timers clock next_id set_field].
  - intros u' f' Hu'. destruct (Ifan u' f' Hu') as (fo' & Hfo' & ?).
    destruct (decide (f' = f)) as [->|Hf']; [|by rewrite lookup_insert_ne; [exists fo'|]].
    rewrite lookup_insert_eq. rewrite Hfo in Hfo'. injection Hfo' as <-. by eexists.
  - done.
  - intros t' handle Ht Hp. destruct (decide (t' = t)) as [->|Ht'].
    + rewrite lookup_insert_eq in Ht. injection Ht as <-. cbn.
      exists u, (fo <| trailing := Some t |>), l. rewrite lookup_insert_eq. split_and!; try done. lia.
    + rewrite lookup_insert_ne in Ht by done.
      destruct (Itim t' handle Ht Hp) as (u' & fo' & l' & Hu' & Hfo' & Htr' & ?).
      destruct (decide (tm_fanout handle = f)) as [Ef|Hf'].
      { rewrite Ef, Hfo in Hfo'. injection Hfo' as <-. congruence. }
      exists u', fo', l'. by rewrite lookup_insert_ne.
  - intros u' f' fo' t' _ Hu' Hfo' Htr'. destruct (decide (f' = f)) as [->|Hf'].
    + rewrite lookup_insert_eq in Hfo'. injection Hfo' as <-. injection Htr' as <-.
      rewrite lookup_insert_eq. by eexists.
    + rewrite lookup_insert_ne in Hfo' by done. destruct (Itrail u' f' fo' t') as (handle & Ht & ?); [done..|].
      exists handle. rewrite lookup_insert_ne by congruence. done.
  - done.
  - done.
  - intros f' fo' l' Hfo' Hl'. destruct (decide (f' = f)) as [->|Hf'].
    + rewrite lookup_insert_eq in Hfo'. injection Hfo' as <-. by eapply Icl.
    + rewrite lookup_insert_ne in Hfo' by done. by eapply Icl.
  - split_and!.
    + intros f' fo' Hfo'. destruct (decide (f' = f)) as [->|Hf'].
      * apply Iif in Hfo. lia.
      * rewrite lookup_insert_ne in Hfo' by done. apply Iif in Hfo'. lia.
    + intros s sub Hs. apply Iis in Hs. lia.
    + intros t' handle Ht. destruct (decide (t' = t)) as [->|Ht']; [unfold t; lia|].
      rewrite lookup_insert_ne in Ht by done. apply Iit in Ht. lia.
  - erewrite (count_ext h); [exact Icnt|done|]. intros u' f' Hu'. cbn [fanout_objects set_field].
    destruct (decide (f' = f)) as [->|Hf']; [|by rewrite lookup_insert_ne].
    by rewrite lookup_insert_eq, Hfo.
Qed.

(** A pending handle belongs to a registered fan-out, whose delivery is under way once it fires. *)
Lemma fired_inv t h handle :
  hub_inv config h → timers h !! t = Some handle → tm_state handle = Pending →
  hub_inv_except config (Some (tm_fanout handle))
    (h <| timers := <[t := handle <| tm_state := Fired |>]> (timers h) |>).
Proof.
  intros [Ifan Iinj Itim Itrail Iex Iq Icl [Iif [Iis Iit]] Icnt] Ht Hp.
  destruct (Itim t handle Ht Hp) as (u & fo & l & Hu & Hfo & Htr & _).
  split; cbn [fanouts fanout_objects subs timers clock next_id set_field]; try done.
  - intros t' handle' Ht' Hp'. destruct (decide (t' = t)) as [->|Hne].
    + rewrite lookup_insert_eq in Ht'. by injection Ht' as <-.
    + rewrite lookup_insert_ne in Ht' by done. by eapply Itim.
  - intros u' f' fo' t' Hex Hu' Hfo' Htr'. destruct (Itrail u' f' fo' t') as (handle' & Ht' & Hf' & Hp'); [done..|].
    exists handle'. rewrite lookup_insert_ne; [done|]. intros <-. congruence.
  - intros f' fo' t' handle' [= <-] Hfo' Htr' Ht'. rewrite Hfo in Hfo'. injection Hfo' as <-.
    assert (t' = t) as -> by congruence. rewrite lookup_insert_eq in Ht'. by injection Ht' as <-.
  - split_and!; [done|done|]. intros t' handle' Ht'. destruct (decide (t' = t)) as [->|Hne]; [by eapply Iit|].
    rewrite lookup_insert_ne in Ht' by done. by eapply Iit.
Qed.
Lemma fire_inv t h : hub_inv config h → hub_inv config (fire config t h).
Proof.
  intros Hinv. unfold fire. destruct (timers h !! t) as [handle|] eqn:Ht; [|done].
  destruct (tm_state handle == Pending) eqn:Hp; [|done]. destruct (tm_due handle <=? clock h)%Z; [|done].
  apply bool_decide_eq_true in Hp. cbn [andb].
  destruct (inv_timer _ _ _ Hinv t handle Ht Hp) as (u & fo & l & Hu & _).
  eapply (deliver_inv u _ _ _ (Some (tm_fanout handle))); [by apply fired_inv|by right|done].
Qed.

Lemma attach_count h u f s old h' :
  (∀ u', fanouts h !! u' = Some f → u' = u) →
  (fanouts h !! u = Some f ∧ fanout_objects h !! f = Some old ∨
   fanouts h !! u = None ∧ fanout_objects h !! f = None ∧ old = mkFanout [] None None) →
  fanouts h' = <[u := f]> (fanouts h) →
  fanout_objects h' = <[f := old <| subscriptions := subscriptions old ++ [s] |>]> (fanout_objects h) →
  subscription_count h' = S (subscription_count h).
Proof.
  intros Hone Hold E1 E2.
  assert (fanouts h' !! u = Some f) as Hu' by (by rewrite E1, lookup_insert_eq).
  rewrite (count_delete h' u f Hu').
  assert (streams_of (fanout_objects h') f = S (length (subscriptions old))) as ->.
  { unfold streams_of. rewrite E2, lookup_insert_eq. cbn. rewrite length_app. cbn. lia. }
  assert (subscription_count (h' <| fanouts := delete u (fanouts h') |>)
    = subscription_count (h <| fanouts := delete u (fanouts h) |>)) as ->.
  { apply count_ext; cbn [fanouts fanout_objects set_field].
    - by rewrite E1, delete_insert_eq.
    - intros u0 f0 [Hne Hu0]%lookup_delete_Some. rewrite E2, lookup_insert_ne; [done|].
      intros <-. by apply Hone in Hu0. }
  destruct Hold as [[Hu Hfo]|(Hno & Hnone & ->)].
  - rewrite (count_delete h u f Hu). unfold streams_of. rewrite Hfo. done.
  - rewrite delete_id by done. by destruct h.
Qed.
(** A stream more in the fan-out of [u], which may be new. *)
Lemma attach_inv h u f s old h' :
  hub_inv config h → subscription_count h < max_subscriptions config →
  (fanouts h !! u = Some f ∧ fanout_objects h !! f = Some old ∨
   fanouts h !! u = None ∧ fanout_objects h !! f = None ∧ old = mkFanout [] None None) →
  subs h !! s = None → f < next_id h' → s < next_id h' → next_id h ≤ next_id h' →
  fanouts h' = <[u := f]> (fanouts h) →
  fanout_objects h' = <[f := old <| subscriptions := subscriptions old ++ [s] |>]> (fanout_objects h) →
  subs h' = <[s := mkSubscription u []]> (subs h) →
  timers h' = timers h → clock h' = clock h → hub_inv config h'.
Proof.
  intros [Ifan Iinj Itim Itrail Iex Iq Icl [Iif [Iis Iit]] Icnt] Hlt Hold Hs Hf Hs' Hn E1 E2 E3 E4 E5.
  assert (∀ u', fanouts h !! u' = Some f → u' = u) as Hone.
  { intros u' Hu'. destruct Hold as [[Hu _]|(_ & Hnew & _)]; [by eapply Iinj|].
    destruct (Ifan u' f Hu') as (fo & Hfo & _). congruence. }
  assert (∀ x, x ∈ subscriptions old → x ≠ s ∧ ∃ sub, subs h !! x = Some sub ∧ sub_user sub = u) as Holds.
  { destruct Hold as [[Hu Hfo]|(_ & _ & ->)]; [|by intros x ?%elem_of_nil]. intros x Hx.
    destruct (Ifan u f Hu) as (fo & Hfo' & _ & _ & Hsub). rewrite Hfo in Hfo'. injection Hfo' as <-.
    destruct (Hsub x Hx) as (sub & Hsub' & ?). split; [congruence|by exists sub]. }
  assert (NoDup (subscriptions old)) as Hnd.
  { destruct Hold as [[Hu Hfo]|(_ & _ & ->)]; [|constructor].
    destruct (Ifan u f Hu) as (fo & Hfo' & _ & Hnd & _). rewrite Hfo in Hfo'. by injection Hfo' as <-. }
  assert (∀ u' f', fanouts h' !! u' = Some f' → f' = f ∧ u' = u ∨ f' ≠ f ∧ u' ≠ u ∧ fanouts h !! u' = Some f') as Hreg.
  { intros u' f'. rewrite E1. destruct (decide (u' = u)) as [->|Hne].
    - rewrite lookup_insert_eq. intros [= <-]. by left.
    - rewrite lookup_insert_ne by done. intros Hu'. right. split_and!; [|done|done]. intros ->.
      by apply Hone in Hu'. }
  split.
  - intros u' f' Hu'. destruct (Hreg u' f' Hu') as [[-> ->]|(Hf' & Hne & Hu0)].
    + rewrite E2, lookup_insert_eq. eexists. split; [reflexivity|]. cbn. split_and!.
      * by destruct (subscriptions old).
      * apply NoDup_app. split_and!; [done| |apply NoDup_singleton].
        intros x Hx ->%list_elem_of_singleton. by destruct (Holds s Hx).
      * intros x [Hx| ->%list_elem_of_singleton]%elem_of_app; rewrite E3.
        -- destruct (Holds x Hx) as (Hxs & sub & ? & ?). exists sub. by rewrite lookup_insert_ne.
        -- eexists. by rewrite lookup_insert_eq.
    + destruct (Ifan u' f' Hu0) as (fo & Hfo & Hnil & Hnd' & Hsub). exists fo.
      rewrite E2, lookup_insert_ne by done. split_and!; [done|done|done|].
      intros x Hx. destruct (Hsub x Hx) as (sub & Hx' & ?). exists sub. rewrite E3, lookup_insert_ne; [done|congruence].
  - intros u1 u2 f' H1 H2. destruct (Hreg u1 f' H1) as [[-> ->]|(? & ? & H1')], (Hreg u2 _ H2) as [[? ->]|(? & ? & H2')];
      try done. by eapply Iinj.
  - intros t handle Ht Hp. rewrite E4 in Ht.
    destruct (Itim t handle Ht Hp) as (u' & fo & l & Hu' & Hfo & Htr & Hl & Hrest).
    destruct (decide (tm_fanout handle = f)) as [Ef|Hf'].
    + assert (u' = u) as -> by (rewrite Ef in Hu'; by apply Hone).
      destruct Hold as [[_ Hfo']|(Hno & _)]; [|congruence].
      exists u, (old <| subscriptions := subscriptions old ++ [s] |>), l.
      rewrite E1, E2, Ef, !lookup_insert_eq. rewrite Ef, Hfo' in Hfo. injection Hfo as <-. done.
    + exists u', fo, l. rewrite E1, E2, lookup_insert_ne by (intros <-; destruct Hold as [[? _]|[? _]]; congruence).
      by rewrite lookup_insert_ne.
  - intros u' f' fo t _ Hu' Hfo Htr. rewrite E4.
    destruct (Hreg u' f' Hu') as [[-> ->]|(Hf' & Hne & Hu0)].
    + rewrite E2, lookup_insert_eq in Hfo. injection Hfo as <-. cbn in Htr.
      destruct Hold as [[Hu Hfo]|(_ & _ & ->)]; [by eapply Itrail|done].
    + rewrite E2, lookup_insert_ne in Hfo by done. by eapply Itrail.
  - done.
  - intros x sub Hx H0. rewrite E3 in Hx. destruct (decide (x = s)) as [->|Hne].
    + rewrite lookup_insert_eq in Hx. injection Hx as <-. cbn. lia.
    + rewrite lookup_insert_ne in Hx by done. by eapply Iq.
  - intros f' fo l Hfo Hl. rewrite E5. rewrite E2 in Hfo. destruct (decide (f' = f)) as [->|Hf'].
    + rewrite lookup_insert_eq in Hfo. injection Hfo as <-. cbn in Hl.
      destruct Hold as [[_ Hfo]|(_ & _ & ->)]; [by eapply Icl|done].
    + rewrite lookup_insert_ne in Hfo by done. by eapply Icl.
  - split_and!.
    + intros f' fo Hfo. rewrite E2 in Hfo. destruct (decide (f' = f)) as [->|Hf']; [done|].
      rewrite lookup_insert_ne in Hfo by done. apply Iif in Hfo. lia.
    + intros x sub Hx. rewrite E3 in Hx. destruct (decide (x = s)) as [->|Hne]; [done|].
      rewrite lookup_insert_ne in Hx by done. apply Iis in Hx. lia.
    + intros t handle Ht. rewrite E4 in Ht. apply Iit in Ht. lia.
  - rewrite (attach_count h u f s old h') by done. lia.
Qed.

Lemma subscribe_inv u h : hub_inv config h → hub_inv config (subscribe config u h).2.
Proof.
  intros Hinv. unfold subscribe. destruct (stopping h); [done|].
  destruct (_ <=? _)%nat eqn:Ec; [done|]. apply Nat.leb_gt in Ec.
  pose proof Hinv as [Ifan _ _ _ _ _ _ [Iif [Iis _]] _].
  destruct (fanouts h !! u) as [f|] eqn:Hu; cbn [snd].
  - destruct (Ifan u f Hu) as (fo & Hfo & _).
    eapply (attach_inv h u f (next_id h) fo); try done; cbn [fanouts fanout_objects subs timers clock next_id set_field].
    + by left.
    + destruct (subs h !! next_id h) eqn:E; [|done]. apply Iis in E. lia.
    + apply Iif in Hfo. lia.
    + lia.
    + lia.
    + by rewrite insert_id.
    + apply map_eq. intros x. destruct (decide (x = f)) as [->|Hx].
      * by rewrite lookup_alter_eq, lookup_insert_eq, Hfo.
      * by rewrite lookup_alter_ne, lookup_insert_ne.
  - assert (fanout_objects h !! next_id h = None) as Hnew.
    { destruct (fanout_objects h !! next_id h) eqn:E; [|done]. apply Iif in E. lia. }
    eapply (attach_inv h u (next_id h) (S (next_id h)) (mkFanout [] None None)); try done;
      cbn [fanouts fanout_objects subs timers clock next_id set_field].
    + by right.
    + destruct (subs h !! S (next_id h)) eqn:E; [|done]. apply Iis in E. lia.
    + lia.
    + lia.
    + lia.
    + apply map_eq. intros x. destruct (decide (x = next_id h)) as [->|Hx].
      * by rewrite lookup_alter_eq, !lookup_insert_eq.
      * by rewrite lookup_alter_ne, !lookup_insert_ne.
Qed.

Lemma remove_first_elem s l x : x ∈ remove_first s l → x ∈ l.
Proof.
  induction l as [|y l IH]; [done|]. cbn. case_bool_decide; [by right|].
  intros [->|Hx]%elem_of_cons; [by left|right; by apply IH].
Qed.
Lemma remove_first_nodup s l : NoDup l → NoDup (remove_first s l).
Proof.
  induction 1 as [|y l Hy Hnd IH]; [constructor|]. cbn. case_bool_decide; [done|].
  constructor; [|done]. by intros Hx%remove_first_elem.
Qed.
Lemma remove_first_length s l : length (remove_first s l) ≤ length l.
Proof. induction l as [|y l IH]; [done|]. cbn. case_bool_decide; cbn; lia. Qed.
Lemma remove_first_gone s l : NoDup l → s ∉ remove_first s l.
Proof.
  induction 1 as [|y l Hy Hnd IH]; [apply not_elem_of_nil|]. cbn. case_bool_decide as E; [by subst|].
  rewrite not_elem_of_cons. by split; [congruence|].
Qed.
Lemma remove_first_other s l x : x ≠ s → x ∈ l → x ∈ remove_first s l.
Proof.
  intros Hne. induction l as [|y l IH]; [done|]. cbn. intros [->|Hx]%elem_of_cons.
  - rewrite bool_decide_eq_false_2 by done. by left.
  - case_bool_decide; [done|right; by apply IH].
Qed.

(** The fan-out object of a user, rewritten with the same times and timer. *)
Definition rewritten (f : nat) (fo fo' : fanout) (h : hub) : Prop :=
  fanout_objects h !! f = Some fo ∧ trailing fo' = trailing fo ∧ last_delivered_at fo' = last_delivered_at fo.
Lemma rewritten_clock h f fo fo' :
  hub_inv config h → rewritten f fo fo' h →
  ∀ f' x l, <[f := fo']> (fanout_objects h) !! f' = Some x → last_delivered_at x = Some l → (l <= clock h)%Z.
Proof.
  intros Hinv (Hfo & _ & El) f' x l Hx Hl. destruct (decide (f' = f)) as [->|Hf'].
  - rewrite lookup_insert_eq in Hx. injection Hx as <-. rewrite El in Hl. by eapply (inv_clock _ _ _ Hinv).
  - rewrite lookup_insert_ne in Hx by done. by eapply (inv_clock _ _ _ Hinv).
Qed.
Lemma rewritten_ids h f fo fo' :
  hub_inv config h → rewritten f fo fo' h → ∀ x y, <[f := fo']> (fanout_objects h) !! x = Some y → x < next_id h.
Proof.
  intros Hinv (Hfo & _) x y Hx. destruct (inv_ids _ _ _ Hinv) as [Iif _].
  destruct (decide (x = f)) as [->|Hf']; [by eapply Iif|]. rewrite lookup_insert_ne in Hx by done. by eapply Iif.
Qed.

(** The last stream of a user: the fan-out goes, and its timer is cancelled. *)
Lemma forget_fanout_inv h u f fo fo' :
  hub_inv config h → fanouts h !! u = Some f → rewritten f fo fo' h →
  let h2 := cancel_timer (trailing fo) (h <| fanout_objects := <[f := fo']> (fanout_objects h) |>) in
  hub_inv config (h2 <| fanouts := delete u (fanouts h2) |>).
Proof.
  intros Hinv Hu Hre. pose proof Hre as (Hfo & Etr' & El').
  pose proof Hinv as [Ifan Iinj Itim Itrail Iex Iq Icl [Iif [Iis Iit]] Icnt]. cbv zeta.
  pose proof (rewritten_clock h f fo fo' Hinv Hre) as Hcl. pose proof (rewritten_ids h f fo fo' Hinv Hre) as Hids.
  set (h1 := h <| fanout_objects := <[f := fo']> (fanout_objects h) |>).
  change (cancel_timer (trailing fo) _) with (cancel_timer (trailing fo) h1).
  destruct (cancel_frame (trailing fo) h1) as (E1 & E2 & E3 & E4 & E5 & E6 & E7).
  pose proof (cancel_timers (trailing fo) h1) as Et. set (h2 := cancel_timer (trailing fo) h1) in *. clearbody h2.
  cbn [fanouts fanout_objects subs timers clock next_id set_field h1] in E1, E2, E3, E6, E7, Et.
  assert (∀ u' f', delete u (fanouts h) !! u' = Some f' → f' ≠ f ∧ fanouts h !! u' = Some f') as Hreg.
  { intros u' f' [Hu' Hlk]%lookup_delete_Some. split; [|done]. intros ->. apply Hu'. symmetry. by eapply Iinj. }
  split; cbn [fanouts fanout_objects subs timers clock next_id set_field]; rewrite ?E1, ?E2, ?E3, ?E6, ?E7.
  - intros u' f' [Hf' Hu']%Hreg. rewrite lookup_insert_ne by done. by apply Ifan.
  - intros u1 u2 f' [_ H1]%Hreg [_ H2]%Hreg. by eapply Iinj.
  - intros t handle Ht Hp. rewrite Et in Ht. case_bool_decide as Etr.
    { destruct (timers h !! t) as [h0|]; [|done]. injection Ht as <-. by destruct (cancel_not_pending h0). }
    destruct (Itim t handle Ht Hp) as (u' & fo0 & l & Hu' & Hfo0 & Htr & Hrest).
    assert (tm_fanout handle ≠ f) as Hf' by (intros Ef; rewrite Ef, Hfo in Hfo0; injection Hfo0 as <-; congruence).
    exists u', fo0, l. rewrite lookup_insert_ne by done. split; [|done].
    rewrite lookup_delete_ne; [done|]. intros Euu. rewrite <- Euu in Hu'. congruence.
  - intros u' f' fo0 t _ [Hf' Hu']%Hreg Hfo0 Htr. rewrite lookup_insert_ne in Hfo0 by done.
    destruct (Itrail u' f' fo0 t) as (handle & Ht & Htf & Hp); [done..|]. exists handle.
    rewrite Et. case_bool_decide as Etr; [|done]. exfalso.
    destruct (Itrail u f fo t) as (h2' & Ht2 & Htf2 & _); [done|done|done|done|]. congruence.
  - done.
  - done.
  - intros f' x l. by apply Hcl.
  - split_and!; [done|done|]. intros t handle Ht. rewrite Et in Ht. case_bool_decide; [|by eapply Iit].
    destruct (timers h !! t) as [h0|] eqn:Eh; [|done]. by eapply Iit.
  - etrans; [|exact Icnt]. rewrite (count_delete h u f Hu).
    rewrite (count_ext (h <| fanouts := delete u (fanouts h) |>)); [lia| |];
      cbn [fanouts fanout_objects set_field].
    + by rewrite ?E1.
    + intros u' f' [Hf' Hu']%Hreg. by rewrite ?E2, lookup_insert_ne.
Qed.
(** A stream less in a fan-out that keeps others. *)
Lemma shrink_fanout_inv h u f fo s :
  hub_inv config h → fanouts h !! u = Some f → fanout_objects h !! f = Some fo →
  remove_first s (subscriptions fo) ≠ [] →
  hub_inv config (h <| fanout_objects := <[f := drop_stream s fo]> (fanout_objects h) |>).
Proof.
  intros Hinv Hu Hfo Hkept. set (fo' := drop_stream s fo). assert (rewritten f fo fo' h) as Hre by done.
  pose proof Hinv as [Ifan Iinj Itim Itrail Iex Iq Icl [Iif [Iis Iit]] Icnt].
  destruct (Ifan u f Hu) as (fo0 & Hfo0 & Hne & Hnd & Hsub). rewrite Hfo in Hfo0. injection Hfo0 as <-.
  pose proof (rewritten_clock h f fo fo' Hinv Hre) as Hcl. pose proof (rewritten_ids h f fo fo' Hinv Hre) as Hids.
  split; cbn [fanouts fanout_objects subs timers clock next_id set_field].
  - intros u' f' Hu'. destruct (decide (f' = f)) as [->|Hf'].
    + rewrite lookup_insert_eq. eexists. split; [reflexivity|]. change (subscriptions fo') with (remove_first s (subscriptions fo)).
      split_and!; [done|by apply remove_first_nodup|].
      intros y Hy. assert (u' = u) as -> by by eapply Iinj. apply Hsub.
      by eapply remove_first_elem.
    + rewrite lookup_insert_ne by done. by apply Ifan.
  - done.
  - intros t handle Ht Hp. destruct (Itim t handle Ht Hp) as (u' & fo0 & l & Hu' & Hfo0 & Hrest).
    destruct (decide (tm_fanout handle = f)) as [Ef|Hf'].
    + exists u', fo', l. rewrite Ef, lookup_insert_eq. rewrite Ef, Hfo in Hfo0. injection Hfo0 as <-.
      split_and!; [by rewrite <- Ef|done|apply Hrest..].
    + exists u', fo0, l. by rewrite lookup_insert_ne.
  - intros u' f' fo0 t _ Hu' Hfo0 Htr. destruct (decide (f' = f)) as [->|Hf'].
    + rewrite lookup_insert_eq in Hfo0. injection Hfo0 as <-. by eapply (Itrail u' f fo).
    + rewrite lookup_insert_ne in Hfo0 by done. by eapply Itrail.
  - done.
  - done.
  - exact Hcl.
  - by split_and!.
  - etrans; [|exact Icnt]. set (h3 := h <| fanout_objects := <[f := fo']> (fanout_objects h) |>).
    assert (streams_of (fanout_objects h3) f = length (remove_first s (subscriptions fo))) as E3.
    { unfold streams_of, h3. cbn [fanout_objects set_field]. rewrite lookup_insert_eq.
      by change (subscriptions fo') with (remove_first s (subscriptions fo)). }
    assert (streams_of (fanout_objects h) f = length (subscriptions fo)) as E0 by (unfold streams_of; by rewrite Hfo).
    assert (subscription_count (h3 <| fanouts := delete u (fanouts h) |>)
            = subscription_count (h <| fanouts := delete u (fanouts h) |>)) as Ec.
    { symmetry. apply count_ext; [done|]. cbn [fanouts fanout_objects set_field h3].
      intros u' f' [Hu' Hlk]%lookup_delete_Some. rewrite lookup_insert_ne; [done|].
      intros <-. apply Hu'. by eapply Iinj. }
    pose proof (count_delete h u f Hu) as C0. pose proof (count_delete h3 u f Hu : subscription_count h3 = _) as C3.
    change (fanouts h3) with (fanouts h) in C3. rewrite E3, Ec in C3. rewrite E0 in C0.
    pose proof (remove_first_length s (subscriptions fo)).
    change (subscription_count h3 ≤ subscription_count h). lia.
Qed.
Lemma unsubscribe_inv s h : hub_inv config h → hub_inv config (unsubscribe s h).
Proof.
  intros Hinv. unfold unsubscribe. destruct (subs h !! s) as [sub|] eqn:Hs; [|done].
  set (u := sub_user sub). destruct (fanouts h !! u) as [f|] eqn:Hu; [|done].
  destruct (inv_fanout _ _ _ Hinv u f Hu) as (fo & Hfo & _). set (fo' := drop_stream s fo).
  assert (alter (drop_stream s) f (fanout_objects h) = <[f := fo']> (fanout_objects h)) as Eobj.
  { apply map_eq. intros x. destruct (decide (x = f)) as [->|Hx].
    - by rewrite lookup_alter_eq, lookup_insert_eq, Hfo.
    - by rewrite lookup_alter_ne, lookup_insert_ne. }
  cbn [fanouts fanout_objects set_field]. rewrite Eobj, lookup_insert_eq.
  change (subscriptions fo') with (remove_first s (subscriptions fo)). change (trailing fo') with (trailing fo).
  destruct (remove_first s (subscriptions fo)) as [|x rest] eqn:Erest.
  - by apply (forget_fanout_inv h u f fo fo').
  - apply (shrink_fanout_inv h u f fo s); [done|done|done|]. by rewrite Erest.
Qed.

(** ** Stopping *)
Definition bounded (sub : subscription) : Prop :=
  queue_size config ≠ 0 → length (sub_queue sub) ≤ queue_size config.
(** A stream that reads the end of its queue ends. *)
Definition ended (sub : subscription) : Prop := last (sub_queue sub) = Some TERMINATED.

(** What [stop] does to the objects of the hub, one after the other. *)
Record closes (h h' : hub) : Prop := {
  cl_frame : fanouts h' = fanouts h ∧ fanout_objects h' = fanout_objects h ∧ stopping h' = stopping h ∧
    listening h' = listening h ∧ clock h' = clock h ∧ next_id h' = next_id h;
  cl_timers : ∀ t handle, timers h' !! t = Some handle →
    ∃ handle0, timers h !! t = Some handle0 ∧ (tm_state handle = Pending → handle = handle0);
  cl_subs : ∀ s sub', subs h' !! s = Some sub' → ∃ sub, subs h !! s = Some sub ∧
    sub_user sub' = sub_user sub ∧ (bounded sub → bounded sub' ∧ (ended sub → ended sub'));
  cl_subs_keep : ∀ s sub, subs h !! s = Some sub → is_Some (subs h' !! s) }.

#[local] Instance closes_preorder : PreOrder closes.
Proof.
  split.
  - intros h. split; [done|intros t x Hx; by exists x|intros s x Hx; exists x; naive_solver|by eexists].
  - intros h1 h2 h3 [(A1 & A2 & A3 & A4 & A5 & A6) T1 S1 K1] [(B1 & B2 & B3 & B4 & B5 & B6) T2 S2 K2]. split.
    + split_and!; congruence.
    + intros t x Hx. destruct (T2 t x Hx) as (y & Hy & Ey). destruct (T1 t y Hy) as (z & Hz & Ez).
      exists z. split; [done|]. intros Hp. specialize (Ey Hp). subst y. by apply Ez.
    + intros s x Hx. destruct (S2 s x Hx) as (y & Hy & Uy & Ey). destruct (S1 s y Hy) as (z & Hz & Uz & Ez).
      exists z. split_and!; [done|congruence|]. intros Hb. destruct (Ez Hb) as [Hby Hzy].
      destruct (Ey Hby) as [Hbx Hyx]. naive_solver.
    + intros s x Hx. destruct (K1 s x Hx) as [y Hy]. by eapply K2.
Qed.

Lemma terminate_ends q :
  (queue_size config ≠ 0 → length q ≤ queue_size config) →
  put_or_drop (queue_size config) TERMINATED (tail q) = tail q ++ [TERMINATED].
Proof.
  intros Hq. unfold put_or_drop, put_nowait. case_bool_decide as E; [done|]. cbn [orb].
  destruct (_ <? _)%nat eqn:El; [done|]. apply Nat.ltb_ge in El. destruct q; cbn in *; [lia|].
  specialize (Hq E). lia.
Qed.
Lemma terminate_closes h s : closes h (terminate config h s).
Proof.
  unfold terminate, on_sub. split; cbn [fanouts fanout_objects timers subs stopping listening clock next_id set_field].
  - done.
  - intros t x Hx. by exists x.
  - intros s' sub' Hs. destruct (decide (s' = s)) as [->|Hne].
    + rewrite lookup_alter_eq in Hs. destruct (subs h !! s) as [sub|]; [|done]. injection Hs as <-.
      exists sub. split_and!; [done|done|]. intros Hb. unfold bounded, ended. cbn [sub_queue set_field].
      rewrite terminate_ends by done. split.
      * intros H0. specialize (Hb H0). rewrite length_app. cbn. destruct (sub_queue sub); cbn in *; lia.
      * intros _. by rewrite last_snoc.
    + rewrite lookup_alter_ne in Hs by done. exists sub'. naive_solver.
  - intros s' sub Hs. destruct (decide (s' = s)) as [->|Hne].
    + rewrite lookup_alter_eq, Hs. by eexists.
    + rewrite lookup_alter_ne by done. by eexists.
Qed.
Lemma terminate_ended h s sub sub' :
  subs h !! s = Some sub → bounded sub → subs (terminate config h s) !! s = Some sub' → ended sub'.
Proof.
  intros Hs Hb. unfold terminate, on_sub. cbn [subs set_field]. rewrite lookup_alter_eq, Hs.
  intros [= <-]. unfold ended. cbn [sub_queue set_field]. rewrite terminate_ends by done. by rewrite last_snoc.
Qed.
Lemma cancel_closes h t : closes h (cancel_timer t h).
Proof.
  destruct (cancel_frame t h) as (E1 & E2 & E3 & E4 & E5 & E6 & E7). split.
  - by rewrite E1, E2, E4, E5, E6, E7.
  - intros x handle Hx. rewrite cancel_timers in Hx. case_bool_decide; [|by exists handle].
    destruct (timers h !! x) as [h0|]; [|done]. injection Hx as <-. exists h0. split; [done|].
    intros Hp. by destruct (cancel_not_pending h0).
  - rewrite E3. intros s sub Hs. exists sub. naive_solver.
  - rewrite E3. by eexists.
Qed.
Lemma foldl_closes {A} (f : hub → A → hub) l h : (∀ h x, closes h (f h x)) → closes h (foldl f h l).
Proof.
  intros Hf. revert h. induction l as [|x l IH]; intros h; cbn [foldl]; [reflexivity|].
  etrans; [apply Hf|apply IH].
Qed.
Lemma stop_fanout_closes h f : closes h (stop_fanout config h f).
Proof.
  unfold stop_fanout. destruct (fanout_objects h !! f) as [fo|]; [|reflexivity].
  etrans; [apply cancel_closes|apply foldl_closes; intros; apply terminate_closes].
Qed.
(** A step of a closing loop settles its own element for good. *)
Lemma foldl_settles {A} (f : hub → A → hub) (P : hub → Prop) l x h :
  (∀ h x, closes h (f h x)) → (∀ h h', closes h h' → P h → P h') →
  x ∈ l → (∀ h', closes h h' → P (f h' x)) → P (foldl f h l).
Proof.
  intros Hf HP Hx Hset. revert h Hx Hset. induction l as [|y l IH]; intros h Hx Hset; [by apply elem_of_nil in Hx|].
  cbn [foldl]. apply elem_of_cons in Hx as [->|Hx].
  - apply (HP (f h y)); [by apply foldl_closes|]. apply Hset. reflexivity.
  - apply IH; [done|]. intros h' Hh'. apply Hset. etrans; [apply Hf|done].
Qed.

Definition over (s : nat) (h : hub) : Prop := ∃ sub, subs h !! s = Some sub ∧ bounded sub ∧ ended sub.
Lemma over_closes s h h' : closes h h' → over s h → over s h'.
Proof.
  intros [_ _ S K] (sub & Hs & Hb & He). destruct (K s sub Hs) as [sub' Hs'].
  destruct (S s sub' Hs') as (sub0 & Hs0 & _ & Hx). assert (sub0 = sub) as -> by congruence.
  exists sub'. destruct (Hx Hb). naive_solver.
Qed.
Definition idle_timer (t : nat) (h : hub) : Prop :=
  ∀ handle, timers h !! t = Some handle → tm_state handle ≠ Pending.
Lemma idle_closes t h h' : closes h h' → idle_timer t h → idle_timer t h'.
Proof.
  intros [_ T _ _] Hi x Hx Hp. destruct (T t x Hx) as (y & Hy & E). specialize (E Hp). subst y. by apply (Hi x).
Qed.
Lemma bounded_closes h h' :
  closes h h' → (∀ s sub, subs h !! s = Some sub → bounded sub) → ∀ s sub, subs h' !! s = Some sub → bounded sub.
Proof. intros [_ _ S _] Hb s sub Hs. destruct (S s sub Hs) as (sub0 & Hs0 & _ & Hx). by apply Hx, (Hb s). Qed.

(** What [stop] leaves once its listener is gone: no registered stream, no timer to come, and the
    end at the end of the queue of every stream that was open. *)
Lemma stop_finished_spec h :
  hub_inv config h →
  let h' := stop_finished config h in
  hub_inv config h' ∧ fanouts h' = ∅ ∧ listening h' = NotRunning ∧
  (∀ t, idle_timer t h') ∧
  (∀ u f fo s, fanouts h !! u = Some f → fanout_objects h !! f = Some fo → s ∈ subscriptions fo → over s h').
Proof.
  intros [Ifan Iinj Itim Itrail _ Iq Icl [Iif [Iis Iit]] Icnt]. cbv zeta. unfold stop_finished.
  set (h0 := h <| listening := NotRunning |>).
  change (fanouts h0) with (fanouts h). set (fs := (map_to_list (fanouts h)).*2).
  assert (∀ u f, fanouts h !! u = Some f → f ∈ fs) as Hfs.
  { intros u f Hu. unfold fs. apply list_elem_of_fmap. exists (u, f). split; [done|]. by apply elem_of_map_to_list. }
  pose proof (foldl_closes (stop_fanout config) fs h0 stop_fanout_closes) as C.
  assert (∀ t, idle_timer t (foldl (stop_fanout config) h0 fs)) as Hidle.
  { intros t handle Ht Hp. destruct (cl_timers _ _ C t handle Ht) as (y & Hy & E). specialize (E Hp). subst y.
    destruct (Itim t handle Hy Hp) as (u & fo & l & Hu & Hfo & Htr & _).
    assert (idle_timer t (foldl (stop_fanout config) h0 fs)) as Hi; [|by apply (Hi handle)].
    apply (foldl_settles _ (idle_timer t) fs (tm_fanout handle)); [apply stop_fanout_closes|apply idle_closes|by eapply Hfs|].
    intros h2 [(_ & F & _) _ _ _]. unfold stop_fanout. rewrite F. change (fanout_objects h0) with (fanout_objects h).
    rewrite Hfo, Htr. eapply idle_closes; [apply foldl_closes; intros; apply terminate_closes|].
    intros x Hx. rewrite cancel_timers, bool_decide_eq_true_2 in Hx by done.
    destruct (timers h2 !! t) as [x0|]; [|done]. injection Hx as <-. apply cancel_not_pending. }
  assert (∀ u f fo s, fanouts h !! u = Some f → fanout_objects h !! f = Some fo → s ∈ subscriptions fo →
    over s (foldl (stop_fanout config) h0 fs)) as Hover.
  { intros u f fo s Hu Hfo Hs.
    apply (foldl_settles _ (over s) fs f); [apply stop_fanout_closes|apply over_closes|by eapply Hfs|].
    intros h2 C2. pose proof C2 as [(_ & F & _) _ _ K]. unfold stop_fanout. rewrite F.
    change (fanout_objects h0) with (fanout_objects h). rewrite Hfo.
    apply (foldl_settles _ (over s) _ s); [apply terminate_closes|apply over_closes|done|].
    intros h3 C3. destruct (Ifan u f Hu) as (fo' & Hfo' & _ & _ & Hsub). assert (fo' = fo) as -> by congruence.
    destruct (Hsub s Hs) as (sub & Hsl & _). assert (closes h0 h3) as C03.
    { etrans; [done|]. etrans; [apply cancel_closes|done]. }
    destruct (cl_subs_keep _ _ C03 s sub Hsl) as [sub3 Hs3].
    assert (bounded sub3) as Hb3 by (eapply (bounded_closes h0 h3); [done|exact Iq|done]).
    destruct (cl_subs_keep _ _ (terminate_closes h3 s) s sub3 Hs3) as [sub4 Hs4]. exists sub4.
    split; [done|]. split; [|exact (terminate_ended h3 s sub3 sub4 Hs3 Hb3 Hs4)].
    eapply (bounded_closes h0); [etrans; [done|apply terminate_closes]|exact Iq|done]. }
  pose proof (bounded_closes _ _ C Iq) as Hb.
  destruct C as [(E1 & E2 & E3 & E4 & E5 & E6) CT CS CK]. set (h1 := foldl _ h0 fs) in *. clearbody h1.
  split; [|by split_and!].
  split; cbn [fanouts fanout_objects timers subs stopping listening clock next_id set_field]; try done.
  - intros t handle Ht Hp. by destruct (Hidle t handle Ht).
  - rewrite E2, E5. done.
  - rewrite E2, E6. split_and!; [done| |].
    + intros s sub Hs. destruct (CS s sub Hs) as (sub0 & Hs0 & _). by eapply Iis.
    + intros t handle Ht. destruct (CT t handle Ht) as (y & Hy & _). by eapply Iit.
  - unfold subscription_count. cbn [fanouts set_field]. rewrite map_to_list_empty. cbn. lia.
Qed.

(** A queue written or read by a stream or by its ticker. *)
Lemma queue_inv h s (f : subscription → subscription) :
  hub_inv config h → (∀ sub, sub_user (f sub) = sub_user sub) → (∀ sub, bounded sub → bounded (f sub)) →
  hub_inv config (on_sub s f h).
Proof.
  intros [Ifan Iinj Itim Itrail _ Iq Icl [Iif [Iis Iit]] Icnt] Hu Hb. unfold on_sub.
  split; cbn [fanouts fanout_objects timers subs stopping listening clock next_id set_field]; try done.
  - intros u f' Hf. destruct (Ifan u f' Hf) as (fo & Hfo & Hne & Hnd & Hsub). exists fo. split_and!; [done..|].
    intros s' Hs. destruct (Hsub s' Hs) as (sub & Hs' & <-). destruct (decide (s' = s)) as [->|Hne'].
    + rewrite lookup_alter_eq, Hs'. eexists. split; [reflexivity|apply Hu].
    + rewrite lookup_alter_ne by done. by exists sub.
  - intros s' sub Hs. destruct (decide (s' = s)) as [->|Hne'].
    + rewrite lookup_alter_eq in Hs. destruct (subs h !! s) as [sub0|] eqn:E; [|done]. injection Hs as <-.
      apply Hb. intros H0. by eapply Iq.
    + rewrite lookup_alter_ne in Hs by done. by eapply Iq.
  - split_and!; [done| |done]. intros s' sub Hs. destruct (decide (s' = s)) as [->|Hne'].
    + rewrite lookup_alter_eq in Hs. destruct (subs h !! s) as [sub0|] eqn:E; [|done]. by eapply Iis.
    + rewrite lookup_alter_ne in Hs by done. by eapply Iis.
Qed.
(** The listener and the clock. *)
Lemma listener_inv h l b d :
  hub_inv config h → (0 <= d)%Z →
  hub_inv config (mkHub (fanouts h) (fanout_objects h) (subs h) (timers h) b l (clock h + d)%Z (next_id h)).
Proof.
  intros [Ifan Iinj Itim Itrail _ Iq Icl Iid Icnt] Hd.
  split; cbn [fanouts fanout_objects timers subs stopping listening clock next_id]; try done.
  intros f fo l' Hf Hl. specialize (Icl f fo l' Hf Hl). lia.
Qed.
Lemma listener_inv_now h l b :
  hub_inv config h → hub_inv config (h <| stopping := b |> <| listening := l |>).
Proof. intros H. pose proof (listener_inv h l b 0 H ltac:(lia)) as H1. by rewrite Z.add_0_r in H1. Qed.

Lemma hub_step_inv h e : hub_inv config h → hub_inv config (hub_step config h e).
Proof.
  intros H. destruct e as [u|s|data|t|s|s| | | | | | | |d]; cbn [hub_step].
  - by apply subscribe_inv.
  - by apply unsubscribe_inv.
  - unfold deliver_payload. destruct data as [[]|]; try done. destruct (json_get _ _); try done.
    destruct (truthy_str _); [|done]. by apply fan_out_inv.
  - by apply fire_inv.
  - apply queue_inv; [done|done|]. intros sub Hb. unfold bounded. cbn [sub_queue set_field].
    by apply put_or_drop_length.
  - apply queue_inv; [done|done|]. intros sub Hb H0. cbn [sub_queue set_field]. specialize (Hb H0).
    destruct (sub_queue sub); cbn in *; lia.
  - unfold start. destruct (dsn config), (listening h) eqn:E; try done. by apply listener_inv_now.
  - apply (listener_inv_now h (listening h)). done.
  - by apply stop_finished_spec.
  - unfold connected. destruct (listening h) eqn:E; try done. apply (listener_inv_now h _ (stopping h)). done.
  - unfold connect_failed. destruct (listening h) eqn:E; try done. apply (listener_inv_now h _ (stopping h)). done.
  - unfold backoff_over. destruct (listening h) eqn:E; try done. apply (listener_inv_now h _ (stopping h)). done.
  - unfold connection_lost. destruct (listening h) eqn:E; try done. apply (listener_inv_now h _ (stopping h)). done.
  - apply (listener_inv h (listening h) (stopping h)); [done|lia].
Qed.
(** Only [start] takes the stop flag back. *)
Lemma hub_step_stopping h e : e ≠ Start → stopping h = true → stopping (hub_step config h e) = true.
Proof.
  intros He H. assert (∀ f r h, stopping h = true → stopping (deliver config f r h) = true) as Hd.
  { intros f r h0 H0. unfold deliver. destruct (fanout_objects h0 !! f) as [fo|]; [|done].
    set (h1 := _ <| fanout_objects := _ |>).
    destruct (put_all_frame (Reason r) (subscriptions fo) h1) as (_ & _ & _ & -> & _).
    unfold h1. by destruct (trailing fo). }
  destruct e as [u|s|data|t|s|s| | | | | | | |d]; cbn [hub_step]; try done.
  - unfold subscribe. by rewrite H.
  - unfold unsubscribe. repeat (case_match; try done). by destruct (trailing _).
  - unfold deliver_payload, fan_out. repeat (case_match; try done); by apply Hd.
  - unfold fire. repeat (case_match; try done). by apply Hd.
  - unfold stop_finished. cbn [stopping set_field].
    set (h0 := h <| listening := NotRunning |>).
    destruct (foldl_closes (stop_fanout config) ((map_to_list (fanouts h0)).*2) h0 stop_fanout_closes)
      as [(_ & _ & E & _) _ _ _]. etrans; [exact E|exact H].
  - unfold connected. by case_match.
  - unfold connect_failed. by case_match.
  - unfold backoff_over. by case_match.
  - unfold connection_lost. by case_match.
Qed.
Lemma run_hub_inv events h : hub_inv config h → hub_inv config (run_hub config events h).
Proof. revert h. induction events as [|e events IH]; intros h H; [done|]. by apply IH, hub_step_inv. Qed.
Lemma new_hub_inv now : hub_inv config (new_hub now).
Proof.
  split; unfold new_hub, subscription_count; cbn [fanouts fanout_objects timers subs clock next_id];
    try (intros; rewrite lookup_empty in *; done).
  - split_and!; intros *; rewrite lookup_empty; done.
  - rewrite map_to_list_empty. cbn. lia.
Qed.
End facts.

(** ** What a stream is promised *)

(** The stream has a change to read, or its queue is full of items that are none: ticks, or its end. *)
Definition told (config : HubConfig) (sub : subscription) : Prop :=
  (∃ r, Reason r ∈ sub_queue sub) ∨
  (queue_size config ≠ 0 ∧ length (sub_queue sub) = queue_size config ∧
   ∀ item, item ∈ sub_queue sub → item = TIMER ∨ item = TERMINATED).
(** The hub owes the streams of a fan-out a change, at the latest when its window ends. *)
Definition owed (config : HubConfig) (h : hub) (f : nat) : Prop :=
  ∃ t handle, timers h !! t = Some handle ∧ tm_state handle = Pending ∧ tm_fanout handle = f ∧
    (tm_due handle <= clock h + coalesce_seconds config)%Z.
(** The open streams of a user. *)
Definition streams_of_user (h : hub) (u : string) (f : nat) (l : list nat) : Prop :=
  fanouts h !! u = Some f ∧ subscriptions <$> fanout_objects h !! f = Some l.

Section promises.
Context (config : HubConfig).
Lemma put_tells r q :
  bounded config (mkSubscription "" q) →
  told config (mkSubscription "" (put_or_drop (queue_size config) (Reason r) q)).
Proof.
  intros Hb. unfold put_or_drop, put_nowait. case_bool_decide as E0.
  { left. exists r. cbn. apply elem_of_app. right. by apply list_elem_of_singleton. }
  cbn [orb]. destruct (_ <? _)%nat eqn:El.
  { left. exists r. cbn. apply elem_of_app. right. by apply list_elem_of_singleton. }
  apply Nat.ltb_ge in El. cbn [default]. specialize (Hb E0). cbn in Hb.
  destruct (existsb (fun i => match i with Reason _ => true | _ => false end) q) eqn:He.
  - apply existsb_exists in He as ([r'| |] & Hi & Hr); [|done..]. left. exists r'. by apply list_elem_of_In.
  - right. split_and!; [done|cbn; lia|]. intros item Hi. destruct item as [r'| |]; [|by left|by right].
    assert (existsb (fun i => match i with Reason _ => true | _ => false end) q = true); [|congruence].
    apply existsb_exists. exists (Reason r'). split; [by apply list_elem_of_In|done].
Qed.
Lemma told_queue s s' : sub_queue s = sub_queue s' → told config s → told config s'.
Proof. unfold told. by intros ->. Qed.

Lemma deliver_tells u f r h l except :
  hub_inv_except config except h → streams_of_user h u f l →
  ∀ s, s ∈ l → ∃ sub, subs (deliver config f r h) !! s = Some sub ∧ told config sub.
Proof.
  intros I [Hu Hl] s Hs. destruct (fanout_objects h !! f) as [fo|] eqn:Hfo; [|done]. injection Hl as <-.
  destruct (inv_fanout _ _ _ I u f Hu) as (fo' & Hfo' & _ & Hnd & Hsub). assert (fo' = fo) as -> by congruence.
  destruct (deliver_spec config f r h fo Hfo Hnd) as (_ & _ & _ & E & _).
  destruct (Hsub s Hs) as (sub & Hsu & _). rewrite E, (bool_decide_eq_true_2 _ Hs), Hsu.
  eexists. split; [reflexivity|]. eapply told_queue; [|apply (put_tells r (sub_queue sub))]; [done|].
  intros H0. exact (inv_queue _ _ _ I s sub Hsu H0).
Qed.
(** Delivery stays inside the fan-out. *)
Lemma deliver_isolates u f r h except s sub :
  hub_inv_except config except h → fanouts h !! u = Some f → subs h !! s = Some sub → sub_user sub ≠ u →
  subs (deliver config f r h) !! s = Some sub.
Proof.
  intros I Hu Hs Hne. destruct (inv_fanout _ _ _ I u f Hu) as (fo & Hfo & _ & Hnd & Hsub).
  destruct (deliver_spec config f r h fo Hfo Hnd) as (_ & _ & _ & E & _). rewrite E.
  rewrite bool_decide_eq_false_2; [done|]. intros Hin. destruct (Hsub s Hin) as (sub' & Hs' & <-). congruence.
Qed.

(** A change handed to the fan-out of a user: told at once, or owed. *)
Lemma fan_out_tells u f r h l :
  hub_inv config h → streams_of_user h u f l →
  let h' := fan_out config u r h in
  streams_of_user h' u f l ∧
  ((∀ s, s ∈ l → ∃ sub, subs h' !! s = Some sub ∧ told config sub) ∨
   (r ∈ COALESCED_REASONS ∧ owed config h' f)).
Proof.
  intros I Hl. pose proof Hl as [Hu Hf]. destruct (fanout_objects h !! f) as [fo|] eqn:Hfo; [|done].
  injection Hf as Hf. pose proof (inv_fanout _ _ _ I u f Hu) as (fo' & Hfo' & _ & Hnd & _).
  assert (fo' = fo) as -> by congruence. cbv zeta. unfold fan_out. rewrite Hu, Hfo.
  destruct (match (fun at_ => clock h - at_)%Z <$> last_delivered_at fo with None => true | Some e => _ end) eqn:Edue.
  - destruct (deliver_spec config f r h fo Hfo Hnd) as (E1 & E2 & _). split.
    + split; [by rewrite E1|]. rewrite E2, lookup_insert_eq. cbn. by rewrite Hf.
    + left. intros s Hs. by eapply (deliver_tells u f r h l None).
  - destruct (last_delivered_at fo) as [d|] eqn:Hd; [|done]. cbn [fmap option_fmap option_map] in Edue |- *.
    apply orb_false_iff in Edue as [Er Ee]. apply negb_false_iff, bool_decide_eq_true in Er.
    pose proof (inv_clock _ _ _ I f fo d Hfo Hd) as Hc.
    destruct (match trailing fo with None => true | Some t => cancelled h t end) eqn:Et.
    + split.
      * split; cbn [fanouts fanout_objects set_field]; [done|]. rewrite lookup_insert_eq. cbn. by rewrite Hf.
      * right. split; [done|]. exists (next_id h). cbn [timers clock set_field]. rewrite lookup_insert_eq.
        eexists. split_and!; [reflexivity|done|done|]. cbn. lia.
    + split; [done|]. right. split; [done|]. destruct (trailing fo) as [t|] eqn:Htr; [|done].
      destruct (inv_trailing _ _ _ I u f fo t) as (handle & Ht & Hft & Hp); [done..|].
      destruct (inv_timer _ _ _ I t handle Ht Hp) as (u' & fo' & d' & _ & Hfo2 & _ & Hd' & Hdue & _).
      exists t, handle. split_and!; [done..|]. rewrite Hft, Hfo in Hfo2. injection Hfo2 as <-.
      assert (d' = d) by congruence. lia.
Qed.
Lemma fan_out_isolates u r h s sub :
  hub_inv config h → subs h !! s = Some sub → sub_user sub ≠ u → subs (fan_out config u r h) !! s = Some sub.
Proof.
  intros I Hs Hne. unfold fan_out. destruct (fanouts h !! u) as [f|] eqn:Hu; [|done].
  destruct (fanout_objects h !! f) as [fo|]; [|done].
  destruct (match (fun at_ => clock h - at_)%Z <$> last_delivered_at fo with None => true | Some e => _ end).
  - by eapply deliver_isolates.
  - by destruct (match trailing fo with None => true | Some t => cancelled h t end).
Qed.
(** The debt is paid when the loop calls the timer, which it may do from its due time on. *)
Lemma fire_tells h t handle u l :
  hub_inv config h → timers h !! t = Some handle → tm_state handle = Pending →
  (tm_due handle <= clock h)%Z → streams_of_user h u (tm_fanout handle) l →
  ∀ s, s ∈ l → ∃ sub, subs (fire config t h) !! s = Some sub ∧ told config sub.
Proof.
  intros I Ht Hp Hdue Hl. unfold fire. rewrite Ht, Hp, bool_decide_eq_true_2, (proj2 (Z.leb_le _ _)) by done.
  cbn [andb]. eapply (deliver_tells u); [by apply fired_inv|exact Hl].
Qed.
End promises.

Section sse.
Context (timing : StreamTiming).
(** The turns of a stream whose account lost its authorization at [T0]. *)
Lemma stream_run_revoked st rs T0 :
  (0 <= auth_recheck_seconds timing)%Z → (next_auth st <= T0 + auth_recheck_seconds timing)%Z →
  (∀ r, r ∈ rs → (T0 <= rs_now r)%Z → rs_authorized r = false) →
  ∀ pre r post, rs = pre ++ r :: post → (T0 + auth_recheck_seconds timing <= rs_now r)%Z →
    let '(frames, lived) := stream_run timing st rs in
    length lived ≤ S (length pre) ∧
    (lived = pre ++ [r] → rs_item r ≠ TERMINATED → rs_disconnected r = false →
     last frames = Some unauthorized_frame).
Proof.
  intros H0 Hst Hrev pre. revert st rs Hst Hrev.
  induction pre as [|x pre IH]; intros st rs Hst Hrev r post -> Hr; cbn [stream_run app].
  - unfold stream_resume. destruct (rs_item r) eqn:Ei; [| |cbn; split; [lia|done]];
      (destruct (rs_disconnected r) eqn:Ed; [cbn; split; [lia|done]|]);
      rewrite (proj2 (Z.leb_le _ _)), Hrev by (by left || lia); cbn [andb negb]; (split; [cbn; lia|]); intros _ _ _;
      by rewrite last_snoc.
  - destruct (stream_resume timing st x) as [frames [st'|]] eqn:Ex; [|cbn; split; [lia|]].
    + assert (next_auth st' <= T0 + auth_recheck_seconds timing)%Z as Hst'.
      { unfold stream_resume in Ex. destruct (rs_item x); [| |done];
          (destruct (rs_disconnected x); [done|]);
          destruct (next_auth st <=? rs_now x)%Z eqn:En; cbn [andb] in Ex;
          try (destruct (rs_authorized x) eqn:Ea; cbn [negb] in Ex; [|done]);
          destruct (next_heartbeat st <=? rs_now x)%Z; injection Ex as _ <-; cbn [next_auth]; try done;
          (destruct (decide (T0 <= rs_now x)%Z) as [Hx|Hx]; [|lia]);
          rewrite Hrev in Ea by (done || by left); done. }
      specialize (IH st' (pre ++ r :: post) Hst' (fun y Hy => Hrev y (list_elem_of_further _ _ _ Hy)) r post eq_refl Hr).
      destruct (stream_run timing st' (pre ++ r :: post)) as [more lived]. destruct IH as [IH1 IH2].
      split; [cbn; lia|]. intros [= E]. intros Hi Hd. rewrite last_app, IH2; done.
    + intros [= E]. by destruct pre.
Qed.
End sse.

(** ** Properties *)

(** C15: Whatever the event loop does with a hub (streams coming and going, notifications of any
    shape, timers called early or late, ticks, stops and restarts of the listener, in any order), the
    hub keeps its limits and its bookkeeping: at most [max_subscriptions] open streams, no queue over
    its size, a fan-out only for a user with an open stream, and at most one live timer for it, due
    one coalescing window after its last delivery. *)
Theorem hub_invariant config now events :
  let h := run_hub config events (new_hub now) in
  subscription_count h ≤ max_subscriptions config ∧
  (∀ s sub, subs h !! s = Some sub → queue_size config ≠ 0 → length (sub_queue sub) ≤ queue_size config) ∧
  (∀ u f, fanouts h !! u = Some f → ∃ fo, fanout_objects h !! f = Some fo ∧ subscriptions fo ≠ [] ∧
     ∀ s, s ∈ subscriptions fo → ∃ sub, subs h !! s = Some sub ∧ sub_user sub = u) ∧
  (∀ t t' handle handle', timers h !! t = Some handle → timers h !! t' = Some handle' →
     tm_state handle = Pending → tm_state handle' = Pending → tm_fanout handle = tm_fanout handle' → t = t') ∧
  (∀ t handle, timers h !! t = Some handle → tm_state handle = Pending →
     ∃ u fo l, fanouts h !! u = Some (tm_fanout handle) ∧ fanout_objects h !! tm_fanout handle = Some fo ∧
       last_delivered_at fo = Some l ∧ (l <= clock h)%Z ∧ tm_due handle = (l + coalesce_seconds config)%Z).
Proof.
  cbv zeta. pose proof (run_hub_inv config events _ (new_hub_inv config now)) as I.
  set (h := run_hub config events (new_hub now)) in *. clearbody h.
  split; [apply (inv_count _ _ _ I)|]. split; [apply (inv_queue _ _ _ I)|]. split; [|split].
  - intros u f Hu. destruct (inv_fanout _ _ _ I u f Hu) as (fo & Hfo & Hne & _ & Hsub). by exists fo.
  - intros t t' x x' Ht Ht' Hp Hp' Hf.
    destruct (inv_timer _ _ _ I t x Ht Hp) as (u & fo & l & _ & Hfo & Htr & _).
    destruct (inv_timer _ _ _ I t' x' Ht' Hp') as (u' & fo' & l' & _ & Hfo' & Htr' & _). congruence.
  - intros t x Ht Hp. destruct (inv_timer _ _ _ I t x Ht Hp) as (u & fo & l & Hu & Hfo & _ & Hl & Hd & _).
    exists u, fo, l. split_and!; try done. exact (inv_clock _ _ _ I _ fo l Hfo Hl).
Qed.


(** A heartbeat inside the window of an earlier one: owed, and told when the window ends. *)
Definition demo_config : HubConfig := default_config (Some "postgresql+asyncpg://panel").
Definition demo_fields (u r : string) : list (string * json) := [("user_id", JStr u); ("reason", JStr r)].
Definition demo_events : list hub_event :=
  [Start; Connected; Subscribe "u1"; Subscribe "u2";
   Notified (Ok (JObj (demo_fields "u1" "device"))); Took 1; Elapse 700000%N].

(** A tick in a stream's queue swallows a change that arrives before the stream has read it: with
    the queue of size one the backend uses, a change of any reason is dropped, nothing is
    left to deliver it, and the stream that then reads the tick has nothing more to read. *)
Lemma tick_swallows_a_change u r url :
  truthy_str u = true →
  let config := default_config url in
  let h := run_hub config [Subscribe u; Ticked 1; Notified (Ok (JObj (demo_fields u r))); Took 1] (new_hub 0) in
  sub_queue <$> subs h !! 1 = Some [] ∧ timers h = ∅.
Proof.
  intros Hu. cbv zeta. cbn [run_hub foldl hub_step deliver_payload].
  change (json_get (demo_fields u r) "user_id") with (JStr u). change (json_get (demo_fields u r) "reason") with (JStr r).
  cbn iota. rewrite Hu. set (c := default_config url).
  assert ((subscribe c u (new_hub 0)).2
          = mkHub {[u := 0]} {[0 := mkFanout [1] None None]} {[1 := mkSubscription u []]} ∅ false NotRunning 0 2) as ->.
  { unfold subscribe, new_hub. cbn [stopping fanouts]. rewrite lookup_empty. reflexivity. }
  unfold fan_out, put_into, on_sub. cbn [fanouts set_field subs].
  rewrite lookup_singleton_eq. cbn [fanout_objects set_field]. rewrite lookup_singleton_eq.
  cbn [last_delivered_at fmap option_fmap option_map]. split; reflexivity.
Qed.
Lemma tick_swallows_a_change_witness :
  truthy_str "u1" = true ∧
  sub_queue <$> subs (run_hub (default_config None)
    [Subscribe "u1"; Ticked 1; Notified (Ok (JObj (demo_fields "u1" "device"))); Took 1] (new_hub 0)) !! 1 = Some [].
Proof. split; [reflexivity|]. apply (tick_swallows_a_change "u1" "device" None). reflexivity. Defined.

(** C37: Shutting down ends every stream and starts no other: whatever ran before, and whatever runs
    while the listener is being stopped (unless the hub is started again), after [stop] the last item
    of every stream that was still open is the end of the stream, no timer will deliver anything, and
    a page that asks for a stream is told they are unavailable. *)
Theorem stop_ends_every_stream config now events events' u :
  ¬ Start ∈ events' →
  let h := run_hub config events' (stop_requested (run_hub config events (new_hub now))) in
  let h' := hub_step config h StopFinished in
  (∀ u f l s, streams_of_user h u f l → s ∈ l →
     ∃ sub, subs h' !! s = Some sub ∧ last (sub_queue sub) = Some TERMINATED) ∧
  (∀ t handle, timers h' !! t = Some handle → tm_state handle ≠ Pending) ∧
  subscription_count h' = 0 ∧
  pub_user_events config (Some u) h' = (Raise (HTTPException 503 "Event streams are unavailable"), h').
Proof.
  intros Hst. cbv zeta. pose proof (run_hub_inv config events _ (new_hub_inv config now)) as I0.
  set (h0 := run_hub config events (new_hub now)) in *. clearbody h0.
  assert (hub_inv config (stop_requested h0)) as I1 by exact (hub_step_inv config h0 StopRequested I0).
  assert (stopping (run_hub config events' (stop_requested h0)) = true) as Hstop.
  { assert (stopping (stop_requested h0) = true) as H by done. set (h1 := stop_requested h0) in *. clearbody h1.
    clear I0 I1 h0. revert h1 H. induction events' as [|e events' IH]; intros h1 H; [done|]. cbn [run_hub foldl].
    apply IH; [intros He; apply Hst; by right|]. apply hub_step_stopping; [|done]. intros ->. apply Hst. by left. }
  pose proof (run_hub_inv config events' _ I1) as I2.
  set (h := run_hub config events' (stop_requested h0)) in *. clearbody h.
  destruct (stop_finished_spec config h I2) as (_ & Hf & _ & Hidle & Hover). cbn [hub_step].
  assert (stopping (stop_finished config h) = true) as Hstop'.
  { by apply (hub_step_stopping config h StopFinished). }
  set (h' := stop_finished config h) in *. clearbody h'. split_and!.
  - intros u' f l s [Hu Hl] Hs. destruct (fanout_objects h !! f) as [fo|] eqn:Hfo; [|done]. injection Hl as <-.
    destruct (Hover u' f fo s) as (sub & Hsub & _ & He); [done..|]. by exists sub.
  - intros t handle. apply Hidle.
  - unfold subscription_count. by rewrite Hf.
  - unfold pub_user_events, subscribe. by rewrite Hstop'.
Qed.
Lemma stop_ends_every_stream_witness :
  ∃ sub, subs (hub_step demo_config (run_hub demo_config [Ticked 1]
      (stop_requested (run_hub demo_config demo_events (new_hub 0)))) StopFinished) !! 1 = Some sub ∧
    last (sub_queue sub) = Some TERMINATED.
Proof.
  destruct (stop_ends_every_stream demo_config 0 demo_events [Ticked 1] "u1") as (H & _).
  - intros Hin. by apply list_elem_of_singleton in Hin.
  - apply (H "u1" 0 [1] 1); [split; reflexivity|by left].
Defined.

(** A stream does not outlive its account's authorization by more than one recheck: if the token
    stops resolving at [T0], the stream takes at most one turn from [T0 + auth_recheck_seconds] on,
    and unless the client or the hub ended it first, the last thing it sends is the [unauthorized]
    event. *)
Lemma revoked_stream_ends timing user_id notifications opened rs T0 pre r post :
  (0 <= auth_recheck_seconds timing)%Z → (opened <= T0)%Z →
  (∀ r, r ∈ rs → (T0 <= rs_now r)%Z → rs_authorized r = false) →
  rs = pre ++ r :: post → (T0 + auth_recheck_seconds timing <= rs_now r)%Z →
  let '(frames, lived) := user_event_stream timing user_id notifications opened rs in
  length lived ≤ S (length pre) ∧
  (lived = pre ++ [r] → rs_item r ≠ TERMINATED → rs_disconnected r = false →
   last frames = Some unauthorized_frame).
Proof.
  intros H0 Hop Hrev Hrs Hr. unfold user_event_stream.
  pose proof (stream_run_revoked timing (open_stream timing opened) rs T0 H0
                ltac:(cbn [next_auth open_stream]; lia) Hrev pre r post Hrs Hr) as H.
  destruct (stream_run timing (open_stream timing opened) rs) as [frames lived]. destruct H as [H1 H2].
  split; [done|]. intros E Hi Hd. change (last ([connected_frame user_id notifications] ++ frames) = Some unauthorized_frame).
  by rewrite last_app, H2.
Qed.
Lemma revoked_stream_ends_witness :
  last (user_event_stream DEFAULT_STREAM_TIMING "u1" true 0
          [mkResume TIMER false 5000000 true; mkResume (Reason "device") false 67000000 false;
           mkResume (Reason "device") false 70000000 false]).1 = Some unauthorized_frame.
Proof.
  refine (proj2 (revoked_stream_ends DEFAULT_STREAM_TIMING "u1" true 0
          [mkResume TIMER false 5000000 true; mkResume (Reason "device") false 67000000 false;
           mkResume (Reason "device") false 70000000 false] 6000000
          [mkResume TIMER false 5000000 true] (mkResume (Reason "device") false 67000000 false)
          [mkResume (Reason "device") false 70000000 false] _ _ _ eq_refl _) _ _ _); try (vm_compute; discriminate); try reflexivity.
  intros r Hr Ht. rewrite !elem_of_cons, elem_of_nil in Hr. destruct Hr as [->|[->|[->|[]]]]; [|reflexivity..].
  exfalso. apply Ht. reflexivity.
Defined.
