(* ===== verification/ParkedEvents.v ===== *)
(** * Notifications parked on a session

    [panel/backend/app/services/events.py] on a backend without NOTIFY: [notify_user_changes] parks
    the payloads in [session.info], one list per savepoint level, and the session's event listeners
    drop or deliver them. [session_op] is what the application does with its session; the listeners
    run in the order in which SQLAlchemy calls them: a savepoint ends before its rollback is
    announced, and the savepoints inside it end first. The specification is what a backend with
    NOTIFY does: a stack of scopes, of which a release keeps and a rollback drops the innermost. *)
From S2P Require Import Prelude PyStr Models Session Events.

Abbreviation payload := (string * string)%type.

(** [session.info] and what the listeners see of the session. *)
Record parked := mkParked {
  user_event_payloads : option (list (list payload));
  user_event_savepoints : option (list nat);
  (* the nested transactions in progress, innermost last *)
  nested_transactions : list nat;
  next_transaction : nat }.
#[export] Instance parked_eta : Eta parked := fun r =>
  mkParked (user_event_payloads r) (user_event_savepoints r) (nested_transactions r) (next_transaction r).
Definition new_parked : parked := mkParked None None [] 0.

(** ** Recording *)
Definition savepoint_depth (s : parked) : nat := length (default [] (user_event_savepoints s)).
(** [while len(levels) <= depth: levels.append([])] *)
Definition pad_levels (depth : nat) (levels : list (list payload)) : list (list payload) :=
  levels ++ replicate (S depth - length levels) [].
Definition park_user_changes (user_ids : gset string) (reason : string) (s : parked) : parked :=
  match payloads user_ids reason with
  | [] => s
  | ps =>
      let levels := pad_levels (savepoint_depth s) (default [] (user_event_payloads s)) in
      s <| user_event_payloads := Some (alter (fun level => level ++ ps) (savepoint_depth s) levels) |>
  end.

(** ** The listeners *)
Fixpoint index_of (t : nat) (l : list nat) : option nat :=
  match l with
  | [] => None
  | x :: l => if x == t then Some 0 else S <$> index_of t l
  end.
Definition rolled_back_savepoint_depth (t : nat) (s : parked) : nat :=
  let savepoints := default [] (user_event_savepoints s) in
  match index_of t savepoints with Some index => S index | None => S (length savepoints) end.
(** after_transaction_create of a nested transaction *)
Definition track_savepoint (t : nat) (s : parked) : parked :=
  s <| user_event_savepoints := Some (default [] (user_event_savepoints s) ++ [t]) |>.
(** after_transaction_end; [None] is the outermost transaction, after which none is left *)
Definition end_of_transaction (t : option nat) (s : parked) : parked :=
  let savepoints := default [] (user_event_savepoints s) in
  let savepoints := if last savepoints == t then removelast savepoints else savepoints in
  let s := s <| user_event_savepoints := match savepoints with [] => None | l => Some l end |> in
  match t with Some _ => s | None => s <| user_event_payloads := None |> end.
(** after_commit: what is handed to the hub *)
Definition flush_committed_payloads (s : parked) : list payload * parked :=
  match nested_transactions s with
  | [] => (concat (default [] (user_event_payloads s)), s <| user_event_payloads := None |>)
  | _ => ([], s)
  end.
(** after_rollback *)
Definition drop_rolled_back_payloads (s : parked) : parked :=
  match nested_transactions s with
  | [] => s <| user_event_payloads := None |> <| user_event_savepoints := None |>
  | _ => s
  end.
(** after_soft_rollback: [Nested] with the session still in a transaction, or anything else *)
Definition drop_rolled_back_savepoint_payloads (nested : option nat) (s : parked) : parked :=
  match nested with
  | None => s <| user_event_payloads := None |>
  | Some t =>
      match user_event_payloads s with
      | Some levels =>
          s <| user_event_payloads := Some (take (rolled_back_savepoint_depth t s) levels) |>
      | None => s
      end
  end.

(** ** The session *)
Inductive session_op :=
  | NotifyChanges (user_ids : gset string) (reason : string)
  | BeginNested
  (* the innermost savepoint is released *)
  | Release
  (* the savepoint with this many around it is rolled back, with those inside it *)
  | RollbackTo (outer : nat)
  (* a flush fails: its subtransaction rolls back the innermost transaction *)
  | FlushFailed
  | Commit
  | Rollback.

(** The innermost nested transaction is closed. *)
Definition close_nested (s : parked) : parked :=
  match last (nested_transactions s) with
  | Some t => end_of_transaction (Some t) (s <| nested_transactions := removelast (nested_transactions s) |>)
  | None => s
  end.
Definition release (s : parked) : parked :=
  match nested_transactions s with
  | [] => s
  | _ => close_nested (flush_committed_payloads s).2
  end.
Definition rollback_to (outer : nat) (s : parked) : parked :=
  match nested_transactions s !! outer with
  | None => s
  | Some t =>
      let inner := length (nested_transactions s) - S outer in
      let s := Nat.iter inner close_nested s in
      let s := drop_rolled_back_payloads s in
      drop_rolled_back_savepoint_payloads (Some t) (close_nested s)
  end.
Definition parked_step (s : parked) (op : session_op) : list payload * parked :=
  match op with
  | NotifyChanges user_ids reason => ([], park_user_changes user_ids reason s)
  | BeginNested =>
      let t := next_transaction s in
      ([], track_savepoint t (s <| nested_transactions := nested_transactions s ++ [t] |>
                                <| next_transaction := S t |>))
  | Release => ([], release s)
  | RollbackTo outer => ([], rollback_to outer s)
  | FlushFailed => ([], drop_rolled_back_savepoint_payloads None (drop_rolled_back_payloads s))
  | Commit =>
      let s := Nat.iter (length (nested_transactions s)) release s in
      let '(delivered, s) := flush_committed_payloads s in
      (delivered, end_of_transaction None s)
  | Rollback =>
      let s := foldr rollback_to s (seq 0 (length (nested_transactions s))) in
      ([], drop_rolled_back_savepoint_payloads None (end_of_transaction None (drop_rolled_back_payloads s)))
  end.
(** What each commit of a session delivers. *)
Fixpoint deliveries (s : parked) (ops : list session_op) : list (list payload) :=
  match ops with
  | [] => []
  | op :: ops =>
      let '(delivered, s) := parked_step s op in
      match op with Commit => delivered :: deliveries s ops | _ => deliveries s ops end
  end.

(** ** The specification: NOTIFY inside transactions

    The open scopes, outermost first. *)
Definition on_last {A} (f : A → A) (l : list A) : list A := alter f (length l - 1) l.
Definition scope_step (scopes : list (list payload)) (op : session_op) : list (list payload) :=
  match op with
  | NotifyChanges user_ids reason => on_last (fun scope => scope ++ payloads user_ids reason) scopes
  | BeginNested => scopes ++ [[]]
  | Release =>
      match last scopes, scopes with
      | Some inner, _ :: _ :: _ => on_last (fun scope => scope ++ inner) (removelast scopes)
      | _, _ => scopes
      end
  | RollbackTo outer => if (S outer <? length scopes)%nat then take (S outer) scopes else scopes
  | FlushFailed => on_last (fun _ => []) scopes
  | Commit | Rollback => [[]]
  end.
Fixpoint notified (scopes : list (list payload)) (ops : list session_op) : list (list payload) :=
  match ops with
  | [] => []
  | op :: ops =>
      match op with
      | Commit => concat scopes :: notified (scope_step scopes op) ops
      | _ => notified (scope_step scopes op) ops
      end
  end.

(** ** The listeners keep track of the savepoints *)
Definition tracked_as (l : list nat) : option (list nat) := match l with [] => None | _ => Some l end.
Definition with_nested (l : list nat) (s : parked) : parked :=
  mkParked (user_event_payloads s) (tracked_as l) l (next_transaction s).
Definition with_payloads (levels : option (list (list payload))) (s : parked) : parked :=
  s <| user_event_payloads := levels |>.

Lemma default_tracked l : default [] (tracked_as l) = l.
Proof. by destruct l. Qed.
Lemma close_with_nested l t s : close_nested (with_nested (l ++ [t]) s) = with_nested l s.
Proof.
  unfold close_nested, end_of_transaction, with_nested. cbn [nested_transactions user_event_savepoints set_field].
  rewrite last_snoc. cbn [set_field user_event_payloads user_event_savepoints nested_transactions next_transaction].
  rewrite default_tracked, last_snoc, bool_decide_eq_true_2, removelast_last by done. by destruct l.
Qed.
Lemma close_all_inner l1 l2 s :
  Nat.iter (length l2) close_nested (with_nested (l1 ++ l2) s) = with_nested l1 s.
Proof.
  revert l2. induction l2 as [|t l2 IH] using rev_ind; [by rewrite app_nil_r|].
  rewrite length_app, Nat.add_1_r, Nat.iter_succ_r, app_assoc, close_with_nested. apply IH.
Qed.
Lemma release_with_nested l t s : release (with_nested (l ++ [t]) s) = with_nested l s.
Proof.
  unfold release, flush_committed_payloads.
  change (nested_transactions (with_nested (l ++ [t]) s)) with (l ++ [t]).
  destruct (l ++ [t]) as [|x l'] eqn:E; [by destruct l|]. cbn iota. cbn [snd]. rewrite <- E. apply close_with_nested.
Qed.
Lemma release_all l s : Nat.iter (length l) release (with_nested l s) = with_nested [] s.
Proof.
  induction l as [|t l IH] using rev_ind; [done|].
  by rewrite length_app, Nat.add_1_r, Nat.iter_succ_r, release_with_nested.
Qed.
Lemma index_of_none t l : t ∉ l → index_of t l = None.
Proof.
  induction l as [|x l IH]; intros Hn; [done|]. cbn. rewrite elem_of_cons in Hn.
  rewrite bool_decide_eq_false_2 by naive_solver. by rewrite IH by naive_solver.
Qed.
Lemma rollback_with_nested outer l s :
  NoDup l → outer < length l →
  rollback_to outer (with_nested l s)
  = with_nested (take outer l) (with_payloads (take (S outer) <$> user_event_payloads s) s).
Proof.
  intros Hnd Ho. destruct (lookup_lt_is_Some_2 l outer Ho) as [t Ht].
  pose proof (take_drop_middle l outer t Ht) as El.
  unfold rollback_to. change (nested_transactions (with_nested l s)) with l. rewrite Ht.
  replace (length l - S outer) with (length (drop (S outer) l)) by (by rewrite length_drop).
  rewrite <- El at 2. rewrite (cons_middle t), app_assoc, close_all_inner.
  unfold drop_rolled_back_payloads.
  change (nested_transactions (with_nested (take outer l ++ [t]) s)) with (take outer l ++ [t]).
  destruct (take outer l ++ [t]) as [|x l'] eqn:E; [by destruct (take outer l)|].
  rewrite <- E, close_with_nested. unfold drop_rolled_back_savepoint_payloads.
  change (user_event_payloads (with_nested (take outer l) s)) with (user_event_payloads s).
  assert (t ∉ take outer l) as Hni.
  { rewrite <- El in Hnd. apply NoDup_app in Hnd as (_ & Hd & _). intros Hin. apply (Hd t Hin). by left. }
  unfold rolled_back_savepoint_depth.
  change (user_event_savepoints (with_nested (take outer l) s)) with (tracked_as (take outer l)).
  rewrite default_tracked, index_of_none by done. rewrite length_take_le by lia.
  by destruct s as [[levels|] ? ? ?].
Qed.
Lemma rollback_all l s :
  NoDup l → ∃ levels, foldr rollback_to (with_nested l s) (seq 0 (length l)) = with_nested [] (with_payloads levels s).
Proof.
  revert s. induction l as [|t l IH] using rev_ind; intros s Hnd.
  - exists (user_event_payloads s). by destruct s.
  - rewrite length_app, Nat.add_1_r, seq_S, foldr_app. cbn [foldr Nat.add].
    rewrite rollback_with_nested; [|done|rewrite length_app; cbn; lia].
    rewrite take_app_length. apply NoDup_app in Hnd as (Hnd & _ & _).
    destruct (IH (with_payloads (take (S (length l)) <$> user_event_payloads s) s) Hnd) as [levels ->].
    exists levels. by destruct s.
Qed.

(** ** The levels against the scopes *)
Definition levels_of (s : parked) : list (list payload) := default [] (user_event_payloads s).
Record park_inv (s : parked) (scopes : list (list payload)) : Prop := {
  park_tracked : s = with_nested (nested_transactions s) s;
  park_nodup : NoDup (nested_transactions s);
  park_fresh : ∀ t, t ∈ nested_transactions s → t < next_transaction s;
  park_depth : length scopes = S (length (nested_transactions s)) }.
(** Every prefix of the open scopes holds what the levels below it hold. *)
Definition within (levels scopes : list (list payload)) : Prop :=
  concat levels ⊆+ concat scopes ∧
  ∀ k, k < length scopes → concat (take k levels) ⊆+ concat (take k scopes).
Definition level_at (levels : list (list payload)) (i : nat) : list payload := default [] (levels !! i).
Definition same_levels (levels scopes : list (list payload)) : Prop :=
  ∀ i, level_at levels i = level_at scopes i.

(** What an operation does to the levels, at the depth [depth]. *)
Definition level_step (depth : nat) (levels : list (list payload)) (op : session_op) : list (list payload) :=
  match op with
  | NotifyChanges user_ids reason =>
      match payloads user_ids reason with
      | [] => levels
      | ps => alter (fun level => level ++ ps) depth (pad_levels depth levels)
      end
  | BeginNested | Release => levels
  | RollbackTo outer => if (outer <? depth)%nat then take (S outer) levels else levels
  | FlushFailed | Commit | Rollback => []
  end.

(** The payloads are apart from the savepoints. *)
Lemma park_inv_payloads s scopes levels scopes' :
  park_inv s scopes → length scopes' = length scopes → park_inv (with_payloads levels s) scopes'.
Proof.
  intros [Ht Hnd Hfr Hd] Hl. split; [|done|done|by rewrite Hl].
  pose proof (f_equal user_event_savepoints Ht) as Hsv. cbn in Hsv.
  unfold with_nested, with_payloads. cbn [user_event_payloads user_event_savepoints nested_transactions
    next_transaction set_field]. by rewrite Hsv.
Qed.

Lemma parked_step_spec s scopes op :
  park_inv s scopes →
  let s' := (parked_step s op).2 in
  park_inv s' (scope_step scopes op) ∧
  levels_of s' = level_step (length (nested_transactions s)) (levels_of s) op ∧
  (op = Commit → (parked_step s op).1 = concat (levels_of s)).
Proof.
  intros I. pose proof I as [Ht Hnd Hfr Hd]. cbv zeta. set (l := nested_transactions s) in *.
  assert (user_event_savepoints s = tracked_as l) as Hsv by exact (f_equal user_event_savepoints Ht).
  assert (∀ ops', length (on_last ops' scopes) = length scopes) as Hlast
    by (intros; apply length_alter).
  destruct op as [ids reason| | |outer| | |]; cbn [parked_step scope_step level_step snd].
  - assert (savepoint_depth s = length l) as Edepth
      by (unfold savepoint_depth; by rewrite Hsv, default_tracked).
    unfold park_user_changes. rewrite Edepth. destruct (payloads ids reason) as [|p ps] eqn:Ep.
    + split; [|done]. split; [done..|by rewrite Hlast].
    + split; [|done]. exact (park_inv_payloads s scopes _ _ I (Hlast _)).
  - split; [|done]. split.
    + unfold track_savepoint, with_nested. cbn [user_event_savepoints nested_transactions set_field
        user_event_payloads next_transaction]. rewrite Hsv, default_tracked. fold l. by destruct l.
    + cbn. fold l. apply NoDup_app. split; [done|]. split; [|apply NoDup_singleton].
      intros t Hin ->%list_elem_of_singleton. specialize (Hfr _ Hin). lia.
    + cbn. fold l. intros t [Hin|Hin%list_elem_of_singleton]%elem_of_app; [|lia]. specialize (Hfr _ Hin). lia.
    + cbn. fold l. rewrite !length_app, Hd. cbn. lia.
  - rewrite Ht. fold l. destruct l as [|t l0 _] using rev_ind.
    + destruct scopes as [|x [|y r]]; [done| |done]. cbn. split; [|done]. split; [done..|done].
    + rewrite release_with_nested. split; [|done]. rewrite length_app in Hd. cbn in Hd.
      split; cbn [with_nested nested_transactions next_transaction].
      * done.
      * by apply NoDup_app in Hnd as (? & _).
      * intros x Hx. apply Hfr, elem_of_app. by left.
      * destruct (last scopes) as [inner|] eqn:El; [|by apply last_None in El as ->].
        destruct scopes as [|x [|y r]]; [done|cbn in *; lia|]. unfold on_last. rewrite length_alter.
        rewrite removelast_firstn_len, length_take. lia.
  - destruct (outer <? length l)%nat eqn:Eo.
    + apply Nat.ltb_lt in Eo. rewrite Ht. fold l. rewrite rollback_with_nested by done.
      replace (S outer <? length scopes)%nat with true by (symmetry; apply Nat.ltb_lt; lia).
      split; [|split; [|done]].
      * split; cbn [with_nested with_payloads set_field nested_transactions next_transaction].
        -- done.
        -- rewrite <- (take_drop outer l) in Hnd. by apply NoDup_app in Hnd as (? & _).
        -- intros x Hx. apply Hfr. rewrite <- (take_drop outer l). apply elem_of_app. by left.
        -- rewrite !length_take. lia.
      * unfold levels_of. cbn. by destruct (user_event_payloads s).
    + apply Nat.ltb_ge in Eo.
      replace (S outer <? length scopes)%nat with false by (symmetry; apply Nat.ltb_ge; lia).
      unfold rollback_to. fold l. rewrite (lookup_ge_None_2 l outer) by lia. split; [|done]. done.
  - unfold drop_rolled_back_payloads. fold l. destruct l as [|t l0] eqn:El.
    + split; [|done]. rewrite Ht. split; [done..|by rewrite Hlast].
    + split; [|done]. exact (park_inv_payloads s scopes None _ I (Hlast _)).
  - fold l. rewrite Ht. fold l. rewrite release_all. unfold flush_committed_payloads.
    cbn [nested_transactions with_nested]. split; [|done]. split; [done|apply NoDup_nil_2| |done].
    intros t Hin. by apply elem_of_nil in Hin.
  - fold l. rewrite Ht at 1. fold l. destruct (rollback_all l s Hnd) as [levels ->].
    unfold drop_rolled_back_payloads. cbn [nested_transactions with_nested]. split; [|done].
    split; [done|apply NoDup_nil_2| |done]. intros t Hin. by apply elem_of_nil in Hin.
Qed.

(** ** The lists of levels and scopes *)
Lemma on_last_snoc {A} (f : A → A) r x : on_last f (r ++ [x]) = r ++ [f x].
Proof.
  unfold on_last. rewrite length_app. cbn. replace (length r + 1 - 1) with (length r + 0) by lia.
  by rewrite alter_app_r.
Qed.
Lemma concat_empties {A} n : concat (replicate n (@nil A)) = [].
Proof. by induction n. Qed.
Lemma concat_pad depth (levels : list (list payload)) : concat (pad_levels depth levels) = concat levels.
Proof. unfold pad_levels. by rewrite concat_app, concat_empties, app_nil_r. Qed.
Lemma concat_take_pad depth k (levels : list (list payload)) :
  concat (take k (pad_levels depth levels)) = concat (take k levels).
Proof. unfold pad_levels. by rewrite take_app, concat_app, take_replicate, concat_empties, app_nil_r. Qed.
Lemma concat_alter_app {A} (ps : list A) i l :
  i < length l → concat (alter (fun level => level ++ ps) i l) ≡ₚ concat l ++ ps.
Proof.
  intros Hi. destruct (lookup_lt_is_Some_2 l i Hi) as [x Hx].
  rewrite <- (take_drop_middle l i x Hx) at 2. rewrite <- (take_drop_middle l i x Hx) at 1.
  rewrite alter_app_r_alt by (rewrite length_take; lia).
  rewrite length_take_le, Nat.sub_diag by lia. cbn [alter list_alter]. rewrite !concat_app. cbn [concat].
  rewrite <- !app_assoc. do 2 f_equiv. apply Permutation_app_comm.
Qed.
Lemma length_pad depth levels : depth < length (pad_levels depth levels).
Proof. unfold pad_levels. rewrite length_app, length_replicate. lia. Qed.
Lemma level_at_pad depth levels i : level_at (pad_levels depth levels) i = level_at levels i.
Proof.
  unfold level_at, pad_levels. destruct (decide (i < length levels)) as [Hi|Hi].
  - by rewrite lookup_app_l.
  - rewrite lookup_app_r by lia. rewrite (lookup_ge_None_2 levels) by lia.
    destruct (replicate _ _ !! _) as [x|] eqn:E; [|done]. by apply lookup_replicate in E as [-> _].
Qed.
Lemma level_at_take levels n i : level_at (take n levels) i = if decide (i < n) then level_at levels i else [].
Proof.
  unfold level_at. case_decide as Hi; [by rewrite lookup_take_lt|]. by rewrite lookup_take_ge by lia.
Qed.
Lemma same_levels_concat levels scopes : same_levels levels scopes → concat levels = concat scopes.
Proof.
  assert (∀ l n, length l ≤ n → concat (level_at l <$> seq 0 n) = concat l) as H.
  { intros l n Hn. assert (level_at l <$> seq 0 n = l ++ replicate (n - length l) []) as ->.
    { apply list_eq. intros i. rewrite list_lookup_fmap. destruct (decide (i < n)) as [Hi|Hi].
      - rewrite lookup_seq_lt by done. cbn. unfold level_at. destruct (decide (i < length l)) as [Hl|Hl].
        + rewrite lookup_app_l by done. by destruct (lookup_lt_is_Some_2 l i Hl) as [x ->].
        + rewrite lookup_app_r, (lookup_ge_None_2 l), lookup_replicate_2 by lia. done.
      - rewrite lookup_seq_ge, lookup_ge_None_2 by (rewrite ?length_app, ?length_replicate; lia). done. }
    by rewrite concat_app, concat_empties, app_nil_r. }
  intros Hs. rewrite <- (H levels (length levels + length scopes)), <- (H scopes (length levels + length scopes)) by lia.
  f_equal. apply list_fmap_ext. intros i x _. apply Hs.
Qed.

(** ** A step of both *)
Lemma within_step depth levels scopes op :
  length scopes = S depth → within levels scopes → within (level_step depth levels op) (scope_step scopes op).
Proof.
  intros Hd [Hall Hk]. destruct scopes as [|x r _] using rev_ind; [done|].
  rewrite length_app in Hd. cbn in Hd. assert (length r = depth) as Hr by lia.
  assert (∀ k z, k ≤ depth → take k (r ++ z) = take k r) as Htk.
  { intros k z Hle. rewrite take_app. replace (k - length r) with 0 by lia. by rewrite take_0, app_nil_r. }
  destruct op as [ids reason| | |outer| | |]; cbn [level_step scope_step].
  - rewrite on_last_snoc. destruct (payloads ids reason) as [|p ps] eqn:Ep; [by rewrite app_nil_r|].
    rewrite <- Ep. split.
    + rewrite concat_alter_app by apply length_pad. rewrite concat_pad. rewrite !concat_app. cbn [concat].
      rewrite concat_app in Hall. cbn in Hall. rewrite !app_nil_r in *. rewrite app_assoc.
      by apply submseteq_app.
    + intros k Hlt. rewrite length_app in Hlt. cbn in Hlt. rewrite take_alter_ge by lia. rewrite concat_take_pad.
      rewrite Htk by lia. rewrite <- (Htk k [x]) by lia. apply Hk. rewrite length_app. cbn. lia.
  - split.
    + rewrite (concat_app (r ++ [x])). cbn. by rewrite app_nil_r.
    + intros k Hlt. rewrite !length_app in Hlt. cbn in Hlt. destruct (decide (k = S depth)) as [->|Hne].
      * rewrite take_app_le by (rewrite length_app; cbn; lia). rewrite (take_ge (r ++ [x])) by (rewrite length_app; cbn; lia).
        etrans; [|exact Hall]. rewrite <- (take_drop (S depth) levels) at 2. rewrite concat_app. by apply submseteq_inserts_r.
      * rewrite take_app_le by (rewrite length_app; cbn; lia). apply Hk. rewrite length_app. cbn. lia.
  - rewrite last_snoc. destruct r as [|y r' _] using rev_ind; [done|].
    assert (match (r' ++ [y]) ++ [x] with _ :: _ :: _ => True | _ => False end) as Hm
      by (destruct r' as [|? [|? ?]]; done).
    destruct ((r' ++ [y]) ++ [x]) as [|a [|b l]] eqn:E; [done|done|]. rewrite <- E. rewrite <- E in Hall, Hk.
    rewrite removelast_last, on_last_snoc. split.
    + etrans; [exact Hall|]. rewrite !concat_app. cbn. by rewrite !app_nil_r, app_assoc.
    + intros k Hlt. rewrite length_app in Hlt, Hr. cbn in Hlt, Hr.
      rewrite take_app_le by lia. rewrite <- (take_app_le r' [y]) by lia.
      rewrite <- (Htk k [x]) by lia. apply Hk. rewrite !length_app. cbn. lia.
  - rewrite length_app. cbn [length]. replace (S outer <? length r + 1)%nat with (outer <? depth)%nat
      by (rewrite Bool.eq_iff_eq_true, !Nat.ltb_lt; lia).
    destruct (outer <? depth)%nat eqn:Eo; [|done]. apply Nat.ltb_lt in Eo. split.
    + apply Hk. rewrite length_app. cbn. lia.
    + intros k Hlt. rewrite length_take in Hlt. rewrite !take_take. replace (min k (S outer)) with k by lia.
      apply Hk. lia.
  - split; [apply submseteq_nil_l|]. intros k _. rewrite take_nil. apply submseteq_nil_l.
  - split; [apply submseteq_nil_l|]. intros k _. rewrite take_nil. apply submseteq_nil_l.
  - split; [apply submseteq_nil_l|]. intros k _. rewrite take_nil. apply submseteq_nil_l.
Qed.

(** Without releases the levels are the scopes. *)
Lemma same_levels_step depth levels scopes op :
  length scopes = S depth → op ≠ Release → op ≠ FlushFailed →
  same_levels levels scopes → same_levels (level_step depth levels op) (scope_step scopes op).
Proof.
  intros Hd H1 H2 Hs. destruct op as [ids reason| | |outer| | |]; cbn [level_step scope_step]; try done.
  - destruct scopes as [|x r _] using rev_ind; [done|]. rewrite length_app in Hd. cbn in Hd.
    assert (length r = depth) as Hr by lia. rewrite on_last_snoc.
    destruct (payloads ids reason) as [|p ps] eqn:Ep; [by rewrite app_nil_r|]. rewrite <- Ep. clear Ep.
    intros i. pose proof (length_pad depth levels) as Hp. specialize (Hs i). unfold level_at in *.
    destruct (decide (i = depth)) as [->|Hne].
    + rewrite list_lookup_alter_eq. destruct (lookup_lt_is_Some_2 _ _ Hp) as [y Hy]. rewrite Hy. cbn.
      rewrite <- Hr, list_lookup_middle by done. rewrite <- Hr, list_lookup_middle in Hs by done. cbn in *.
      pose proof (level_at_pad depth levels depth) as Hl. unfold level_at in Hl. rewrite Hy in Hl. cbn in Hl.
      rewrite Hl, <- Hr, Hs. done.
    + rewrite list_lookup_alter_ne by done. pose proof (level_at_pad depth levels i) as Hl. unfold level_at in Hl.
      rewrite Hl, Hs. destruct (decide (i < depth)).
      * by rewrite !lookup_app_l by lia.
      * rewrite !lookup_ge_None_2; [done|rewrite length_app; cbn; lia..].
  - intros i. rewrite (Hs i). unfold level_at. destruct (decide (i < length scopes)).
    + by rewrite lookup_app_l.
    + rewrite (lookup_ge_None_2 scopes), lookup_app_r by lia. by destruct (i - length scopes) as [|[]].
  - replace (S outer <? length scopes)%nat with (outer <? depth)%nat
      by (rewrite Bool.eq_iff_eq_true, !Nat.ltb_lt; lia).
    destruct (outer <? depth)%nat; [|done]. intros i. rewrite !level_at_take. case_decide; [apply Hs|done].
  - by intros [|].
  - by intros [|].
Qed.
(** Without rollbacks nothing is lost. *)
Lemma kept_step depth levels scopes op :
  length scopes = S depth → (∀ outer, op ≠ RollbackTo outer) → op ≠ FlushFailed →
  concat levels ≡ₚ concat scopes → concat (level_step depth levels op) ≡ₚ concat (scope_step scopes op).
Proof.
  intros Hd H1 H2 Hs. destruct op as [ids reason| | |outer| | |]; cbn [level_step scope_step]; try done.
  - destruct scopes as [|x r _] using rev_ind; [done|]. rewrite on_last_snoc.
    destruct (payloads ids reason) as [|p ps] eqn:Ep; [by rewrite app_nil_r|]. rewrite <- Ep.
    rewrite concat_alter_app by apply length_pad. rewrite concat_pad, Hs, !concat_app. cbn.
    by rewrite !app_nil_r, app_assoc.
  - rewrite (concat_app scopes). cbn. by rewrite app_nil_r.
  - destruct scopes as [|x r _] using rev_ind; [done|]. rewrite last_snoc.
    destruct r as [|y r' _] using rev_ind; [done|].
    assert (match (r' ++ [y]) ++ [x] with _ :: _ :: _ => True | _ => False end) as Hm
      by (destruct r' as [|? [|? ?]]; done).
    destruct ((r' ++ [y]) ++ [x]) as [|a [|b l]] eqn:E; [done|done|]. rewrite <- E, removelast_last, on_last_snoc.
    rewrite Hs, <- E, !concat_app. cbn. by rewrite !app_nil_r, app_assoc.
  - by destruct (H1 outer).
Qed.

(** ** Runs of both *)
Definition no_rollback (ops : list session_op) : Prop := ∀ outer, RollbackTo outer ∉ ops.
Lemma runs_within s scopes ops :
  park_inv s scopes → within (levels_of s) scopes → Forall2 submseteq (deliveries s ops) (notified scopes ops).
Proof.
  revert s scopes. induction ops as [|op ops IH]; intros s scopes I Hw; [constructor|].
  destruct (parked_step_spec s scopes op I) as (I' & Hl & Hc). cbn [deliveries notified].
  pose proof (within_step (length (nested_transactions s)) (levels_of s) scopes op (park_depth _ _ I) Hw) as Hw'.
  destruct (parked_step s op) as [delivered s'] eqn:Es. cbn [fst snd] in *. rewrite <- Hl in Hw'.
  specialize (IH s' _ I' Hw'). destruct op; try exact IH. constructor; [|exact IH].
  rewrite (Hc eq_refl). apply Hw.
Qed.
(** A relation that every step allowed by [ok] keeps, and that makes the commits agree. *)
Lemma runs_agree (R : list (list payload) → list (list payload) → Prop) (ok : session_op → Prop) s scopes ops :
  (∀ levels scopes, R levels scopes → concat levels ≡ₚ concat scopes) →
  (∀ depth levels scopes op, length scopes = S depth → ok op → R levels scopes →
     R (level_step depth levels op) (scope_step scopes op)) →
  Forall ok ops → park_inv s scopes → R (levels_of s) scopes →
  Forall2 (≡ₚ) (deliveries s ops) (notified scopes ops).
Proof.
  intros Hagree Hstep Hok. revert s scopes. induction Hok as [|op ops Hop _ IH]; intros s scopes I HR; [constructor|].
  destruct (parked_step_spec s scopes op I) as (I' & Hl & Hc). cbn [deliveries notified].
  pose proof (Hstep (length (nested_transactions s)) (levels_of s) scopes op (park_depth _ _ I) Hop HR) as HR'.
  destruct (parked_step s op) as [delivered s'] eqn:Es. cbn [fst snd] in *. rewrite <- Hl in HR'.
  specialize (IH s' _ I' HR'). destruct op; try exact IH. constructor; [|exact IH].
  rewrite (Hc eq_refl). by apply Hagree.
Qed.
Lemma new_parked_inv : park_inv new_parked [[]].
Proof. split; [done|apply NoDup_nil_2| |done]. intros t Ht. by apply elem_of_nil in Ht. Qed.

(** ** Properties *)


(** A savepoint rolled back inside a transaction that commits, and the two savepoints of which the
    second takes the first one's notification with it. *)
Definition sample_notes (u : string) : session_op := NotifyChanges {[u]} REASON_DEVICE_CREATED.
