(* ===== verification/Listener.v ===== *)
(** * The listening connection

    [UserEventHub._listen_forever], [_wait_for_loss] and [_discard] ([services/events.py]): the task
    that keeps one PostgreSQL connection listening, as the coroutine it is. It stops only at its awaits
    ([await]); each event is the answer of the await it stands at, a cancellation delivered there, or
    something that happens outside: the server closing a connection, [stop] setting its flags. The
    driver's [terminate] is taken to release the socket, as its documentation says; whether [close]
    released it is part of its answer. The state the hub shows ([EventHub.listener]) is this machine's
    abstraction. *)
From S2P Require Import Prelude PyStr Json Models Session Events EventHub.

(** What a coroutine that has discarded a connection goes on with. *)
Inductive after_discard :=
  (* [raise] of the CancelledError being handled *)
  | ThenReraise
  (* [except Exception]: sleep and try again *)
  | ThenBackoff
  (* the [finally] of [_wait_for_loss]: round the loop *)
  | ThenLoop.
Inductive await :=
  | AtConnect
  | AtAddListener (c : nat)
  | AtClose (c : nat) (next : after_discard)
  | AtSleep (delay : Z)
  | AtWait (c : nat)
  | Finished (cancelled : bool).

(** [connections]: those opened so far, with whether each is closed. *)
Record listening_task := mkTask {
  pc : await;
  attempt : nat;
  task_available : bool;
  connection : option nat;
  task_stopping : bool;
  disconnected : bool;
  connections : list bool }.
#[export] Instance task_eta : Eta listening_task := fun r =>
  mkTask (pc r) (attempt r) (task_available r) (connection r) (task_stopping r) (disconnected r)
    (connections r).

Inductive task_event :=
  | Opened
  | ConnectRaised
  | Attached
  | AttachRaised
  | CloseReturned (closed : bool)
  | CloseRaised (closed : bool)
  | Slept
  (* [wait_for] returned or timed out *)
  | Woke
  (* [closed]: the state of a connection whose [close] is interrupted *)
  | Cancel (closed : bool)
  | ServerClosed (c : nat)
  (* the flags [stop] sets *)
  | StopFlags.

#[export] Instance task_event_eq_dec : EqDecision task_event.
Proof. solve_decision. Defined.

Definition is_closed (c : nat) (s : listening_task) : bool := default true (connections s !! c).
Definition set_closed (c : nat) (closed : bool) (s : listening_task) : listening_task :=
  s <| connections := <[c := is_closed c s || closed]> (connections s) |>.
Definition terminate (c : nat) (s : listening_task) : listening_task := set_closed c true s.

Section listener.
Context (config : HubConfig).

Definition start_task : listening_task := mkTask AtConnect 0 false None false false [].

(** The head of the loop. *)
Definition top (s : listening_task) : listening_task :=
  if task_stopping s then s <| task_available := false |> <| pc := Finished false |> else s <| pc := AtConnect |>.
Definition sleep_backoff (s : listening_task) : listening_task :=
  s <| pc := AtSleep (backoff config (attempt s)) |> <| attempt := S (attempt s) |>.
Definition discarded (next : after_discard) (s : listening_task) : listening_task :=
  match next with
  | ThenReraise => s <| pc := Finished true |>
  | ThenBackoff => sleep_backoff s
  | ThenLoop => top s
  end.
(** [_discard], up to its await and from there on. *)
Definition discard (c : nat) (next : after_discard) (s : listening_task) : listening_task :=
  if is_closed c s then discarded next s else s <| pc := AtClose c next |>.
Definition close_answered (c : nat) (next : after_discard) (s : listening_task) : listening_task :=
  discarded next (if is_closed c s then s else terminate c s).
(** The [finally] around [_wait_for_loss]. *)
Definition release (c : nat) (next : after_discard) (s : listening_task) : listening_task :=
  discard c next (s <| task_available := false |> <| connection := None |>).
(** The condition of [_wait_for_loss]'s loop. *)
Definition wait_for_loss (c : nat) (s : listening_task) : listening_task :=
  if task_stopping s || is_closed c s then release c ThenLoop s else s <| pc := AtWait c |>.

Definition task_step (s : listening_task) (e : task_event) : listening_task :=
  match pc s, e with
  | AtConnect, Opened =>
      s <| connections := connections s ++ [false] |> <| pc := AtAddListener (length (connections s)) |>
  | AtConnect, ConnectRaised => sleep_backoff (s <| task_available := false |>)
  | AtConnect, Cancel _ => s <| pc := Finished true |>
  | AtAddListener c, Attached =>
      wait_for_loss c (s <| attempt := 0 |> <| connection := Some c |> <| task_available := true |>
                         <| disconnected := false |>)
  | AtAddListener c, AttachRaised => discard c ThenBackoff (s <| task_available := false |>)
  | AtAddListener c, Cancel _ => discard c ThenReraise s
  | AtClose c next, (CloseReturned closed | CloseRaised closed) => close_answered c next (set_closed c closed s)
  | AtClose c _, Cancel closed => (set_closed c closed s) <| pc := Finished true |>
  | AtSleep _, Slept => top s
  | AtSleep _, Cancel _ => s <| pc := Finished true |>
  | AtWait c, Woke => if disconnected s then release c ThenLoop s else wait_for_loss c s
  | AtWait c, Cancel _ => release c ThenReraise s
  | _, ServerClosed c => match connections s !! c with Some _ => set_closed c true s | None => s end
  | _, StopFlags => s <| task_stopping := true |> <| disconnected := true |>
  | _, _ => s
  end.
Definition run_task (events : list task_event) : listening_task := foldl task_step start_task events.

(** ** The hub's view *)
Definition hub_view (s : listening_task) : EventHub.listener :=
  match pc s with
  | AtWait _ => Listening
  | AtSleep delay => Sleeping (attempt s) delay
  | _ => Connecting (attempt s)
  end.
(** What the hub sees of a step, by where the coroutine was and where it stops next. *)
Definition shown (before : await) (e : task_event) (after : await) : list hub_event :=
  match before, after with
  | AtWait _, AtWait _ => []
  | AtWait _, _ => [ConnectionLost]
  | AtSleep _, AtSleep _ => []
  | AtSleep _, _ => [BackoffOver]
  | AtAddListener _, AtWait _ => [Connected]
  | _, AtSleep _ => [ConnectFailed]
  | AtAddListener _, _ => match e with Attached => [Connected; ConnectionLost] | _ => [] end
  | _, _ => []
  end.
(** The events of the hub's listener a step amounts to. *)
Definition hub_events (s : listening_task) (e : task_event) : list hub_event :=
  shown (pc s) e (pc (task_step s e)).
Fixpoint hub_trace (s : listening_task) (events : list task_event) : list hub_event :=
  match events with
  | [] => []
  | e :: events => hub_events s e ++ hub_trace (task_step s e) events
  end.
End listener.

(** ** The invariant *)
Definition held_connection (a : await) : option nat :=
  match a with AtAddListener c | AtClose c _ | AtWait c => Some c | _ => None end.
Definition attached (a : await) : bool := match a with AtWait _ => true | _ => false end.
(** Between losing the connection and the head of the loop, and while attached, [attempt] is zero. *)
Definition after_attaching (a : await) : bool := match a with AtWait _ | AtClose _ ThenLoop => true | _ => false end.

Record task_inv (s : listening_task) : Prop := {
  task_shows : task_available s = attached (pc s);
  task_names : connection s = (if attached (pc s) then held_connection (pc s) else None);
  task_attempt : after_attaching (pc s) = true → attempt s = 0;
  task_knows : ∀ c, held_connection (pc s) = Some c → is_Some (connections s !! c) }.
(** Every open connection is the one the coroutine holds. *)
Definition no_leak (s : listening_task) : Prop := ∀ c, is_closed c s = false → held_connection (pc s) = Some c.

Section facts.
Context (config : HubConfig).

Lemma is_closed_set c c' b s :
  is_Some (connections s !! c) →
  is_closed c' (set_closed c b s) = if decide (c' = c) then is_closed c s || b else is_closed c' s.
Proof.
  intros Hc. unfold is_closed at 1. unfold set_closed. simpl. destruct (decide (c' = c)) as [->|Hne].
  - rewrite list_lookup_insert_eq; [done|]. by apply lookup_lt_is_Some.
  - by rewrite list_lookup_insert_ne.
Qed.
Lemma known_set c c' b s : is_Some (connections (set_closed c b s) !! c') ↔ is_Some (connections s !! c').
Proof. simpl. by rewrite !lookup_lt_is_Some, length_insert. Qed.

(** Only [c] may be open. *)
Definition only_open (c : option nat) (s : listening_task) : Prop := ∀ c', is_closed c' s = false → c = Some c'.
Lemma only_open_none c s : only_open c s → (∀ c', c = Some c' → is_closed c' s = true) → only_open None s.
Proof. intros Ho Hc c' Hc'. specialize (Ho c' Hc'). subst c. by rewrite (Hc c' eq_refl) in Hc'. Qed.

(** A step that lets go of the connection, from a state that shows nothing any more. *)
Definition letting_go (next : after_discard) (s : listening_task) : Prop :=
  task_available s = false ∧ connection s = None ∧ (next = ThenLoop → attempt s = 0).
Lemma discarded_inv next s :
  task_available s = false → connection s = None →
  task_inv (discarded config next s) ∧ (only_open None s → no_leak (discarded config next s)).
Proof.
  intros Ha Hc. split.
  - destruct next; cbn; [|unfold sleep_backoff|unfold top; destruct (task_stopping s)]; by split.
  - intros Ho c Hop.
    assert (connections (discarded config next s) = connections s) as E
      by (destruct next; [done..|]; cbn; unfold top; by destruct (task_stopping s)).
    unfold is_closed in Hop. rewrite E in Hop. by specialize (Ho c Hop).
Qed.
Lemma discard_inv c next s :
  letting_go next s → is_Some (connections s !! c) →
  task_inv (discard config c next s) ∧ (only_open (Some c) s → no_leak (discard config c next s)).
Proof.
  intros L Hc. unfold discard. destruct (is_closed c s) eqn:E.
  - destruct (discarded_inv next s (proj1 L) (proj1 (proj2 L))) as [Hi Hl]. split; [done|]. intros Ho. apply Hl.
    apply (only_open_none _ _ Ho). by intros c' [= <-].
  - destruct L as (Ha & Hn & Hz). split; [|done]. split; cbn; [done|done| |by intros c' [= <-]].
    destruct next; [done|done|]. intros _. by apply Hz.
Qed.
Lemma close_answered_inv c next s :
  letting_go next s → is_Some (connections s !! c) →
  task_inv (close_answered config c next s) ∧ (only_open (Some c) s → no_leak (close_answered config c next s)).
Proof.
  intros L Hc. unfold close_answered. destruct (is_closed c s) eqn:E.
  - destruct (discarded_inv next s (proj1 L) (proj1 (proj2 L))) as [Hi Hl]. split; [done|]. intros Ho. apply Hl.
    apply (only_open_none _ _ Ho). by intros c' [= <-].
  - destruct (discarded_inv next (terminate c s) (proj1 L) (proj1 (proj2 L))) as [Hi Hl]. split; [done|]. intros Ho. apply Hl.
    intros c' Hc'. unfold terminate in Hc'. rewrite is_closed_set in Hc' by done.
    destruct (decide (c' = c)) as [->|Hne]; [by rewrite orb_true_r in Hc'|]. specialize (Ho c' Hc'). congruence.
Qed.
Lemma release_inv c next s :
  (next = ThenLoop → attempt s = 0) → is_Some (connections s !! c) →
  task_inv (release config c next s) ∧ (only_open (Some c) s → no_leak (release config c next s)).
Proof.
  intros Hz Hc. unfold release.
  destruct (discard_inv c next (s <| task_available := false |> <| connection := None |>)) as [H1 H2]; [by split_and!|done|].
  split; [exact H1|]. intros Ho. apply H2. exact Ho.
Qed.
Lemma wait_for_loss_inv c s :
  attempt s = 0 → is_Some (connections s !! c) → task_available s = true → connection s = Some c →
  task_inv (wait_for_loss config c s) ∧ (only_open (Some c) s → no_leak (wait_for_loss config c s)).
Proof.
  intros Hz Hc Ha Hn. unfold wait_for_loss. destruct (task_stopping s || is_closed c s).
  - by apply release_inv.
  - split; [|done]. split; cbn; [done|done|done|]. by intros c' [= <-].
Qed.

Lemma set_closed_inv c b s :
  task_inv s → is_Some (connections s !! c) →
  task_inv (set_closed c b s) ∧ (no_leak s → no_leak (set_closed c b s)).
Proof.
  intros [Hs Hn Hz Hk] Hc. split.
  - split; [done|done|done|]. intros c' Hc'. apply known_set. by apply Hk.
  - intros Hl c'. rewrite is_closed_set by done. destruct (decide (c' = c)) as [->|_]; [|apply Hl].
    intros [E _]%orb_false_iff. by apply Hl.
Qed.

(** [close] answers, either way. *)
Lemma close_event_inv s c next b :
  task_inv s → pc s = AtClose c next →
  task_inv (close_answered config c next (set_closed c b s)) ∧
  (no_leak s → no_leak (close_answered config c next (set_closed c b s))).
Proof.
  intros I Epc. pose proof I as [Hs Hn Hz Hk]. rewrite Epc in Hs, Hn, Hz, Hk. cbn in Hs, Hn, Hz, Hk.
  destruct (set_closed_inv c b s I) as [H1 H2]; [by apply Hk|].
  destruct (close_answered_inv c next (set_closed c b s)) as [H3 H4].
  { split_and!; [done|done|]. intros ->. by apply Hz. }
  { apply known_set. by apply Hk. }
  split; [exact H3|]. intros Hl. apply H4. intros c0 Hc0. specialize (H2 Hl c0 Hc0). simpl in H2.
  rewrite Epc in H2. exact H2.
Qed.
(** Events from outside. *)
Lemma server_closed_step s c :
  task_step config s (ServerClosed c) = match connections s !! c with Some _ => set_closed c true s | None => s end.
Proof. unfold task_step. by destruct (pc s). Qed.
Lemma stop_flags_step s : task_step config s StopFlags = s <| task_stopping := true |> <| disconnected := true |>.
Proof. unfold task_step. by destruct (pc s). Qed.

Lemma task_step_inv s e :
  task_inv s → task_inv (task_step config s e) ∧
  (e ≠ Cancel false → no_leak s → no_leak (task_step config s e)).
Proof.
  intros I. pose proof I as [Hs Hn Hz Hk].
  assert (∀ c, held_connection (pc s) = Some c → no_leak s → only_open (Some c) s) as Honly.
  { intros c Hc Hl c' Hc'. specialize (Hl c' Hc'). congruence. }
  assert (held_connection (pc s) = None → no_leak s → only_open None s) as Hnone.
  { intros Hc Hl c' Hc'. specialize (Hl c' Hc'). congruence. }
  destruct e as [| | | |b'|b'| | |b'|c'|].
  10:{ rewrite server_closed_step. destruct (connections s !! c') eqn:E; [|done].
       destruct (set_closed_inv c' true s I) as [H1 H2]; [by eexists|]. done. }
  10:{ rewrite stop_flags_step. split; [by split|done]. }
  all: unfold task_step; destruct (pc s) as [|c|c next|delay|c|b] eqn:Epc; cbn in Hs, Hn, Hz, Hk;
    try (split; [exact I|done]).
  - split.
    + split; cbn; [done|done|done|]. intros c [= <-]. rewrite lookup_app_r, Nat.sub_diag by lia. by eexists.
    + intros _ Hl c Hc. simpl. unfold is_closed in Hc. simpl in Hc.
      destruct (decide (c < length (connections s))) as [Hlt|Hge].
      * rewrite lookup_app_l in Hc by done. specialize (Hl c Hc). by rewrite Epc in Hl.
      * destruct (decide (c = length (connections s))) as [->|Hne]; [done|].
        rewrite lookup_ge_None_2 in Hc by (rewrite length_app; cbn; lia). done.
  - split; [by split|]. intros _ Hl c Hc. specialize (Hl c Hc). by rewrite Epc in Hl.
  - destruct (wait_for_loss_inv c (s <| attempt := 0 |> <| connection := Some c |> <| task_available := true |>
      <| disconnected := false |>)) as [H1 H2]; [done|by apply Hk|done|done|]. split; [exact H1|].
    intros _ Hl. apply H2. by apply Honly.
  - destruct (discard_inv c ThenBackoff (s <| task_available := false |>)) as [H1 H2]; [by split_and!|by apply Hk|].
    split; [exact H1|]. intros _ Hl. apply H2. by apply Honly.
  - destruct (close_event_inv s c next b' I Epc) as [H1 H2]. split; [exact H1|]. by intros _.
  - destruct (close_event_inv s c next b' I Epc) as [H1 H2]. split; [exact H1|]. by intros _.
  - destruct (discarded_inv ThenLoop s Hs Hn) as [H1 H2]. split; [exact H1|]. intros _ Hl. by apply H2, Hnone.
  - destruct (disconnected s).
    + destruct (release_inv c ThenLoop s) as [H1 H2]; [by intros _; apply Hz|by apply Hk|].
      split; [exact H1|]. intros _ Hl. by apply H2, Honly.
    + destruct (wait_for_loss_inv c s) as [H1 H2]; [by apply Hz|by apply Hk|done|done|].
      split; [exact H1|]. intros _ Hl. by apply H2, Honly.
  - split; [by split|]. intros _ Hl c Hc. specialize (Hl c Hc). by rewrite Epc in Hl.
  - destruct (discard_inv c ThenReraise s) as [H1 H2]; [by split_and!|by apply Hk|].
    split; [exact H1|]. intros _ Hl. by apply H2, Honly.
  - destruct (set_closed_inv c b' s I) as [[G1 G2 G3 G4] H2]; [by apply Hk|]. split.
    + split; cbn; [done|done|done|done].
    + intros Hb Hl c0 Hc0. destruct b'; [|done]. unfold is_closed in Hc0. simpl in Hc0.
      change (is_closed c0 (set_closed c true s) = false) in Hc0. rewrite is_closed_set in Hc0 by by apply Hk.
      destruct (decide (c0 = c)) as [->|Hne]; [by rewrite orb_true_r in Hc0|].
      specialize (Hl c0 Hc0). rewrite Epc in Hl. cbn in Hl. congruence.
  - split; [by split|]. intros _ Hl c Hc. specialize (Hl c Hc). by rewrite Epc in Hl.
  - destruct (release_inv c ThenReraise s) as [H1 H2]; [done|by apply Hk|].
    split; [exact H1|]. intros _ Hl. by apply H2, Honly.
Qed.
Lemma run_task_inv events :
  task_inv (run_task config events) ∧ (Cancel false ∉ events → no_leak (run_task config events)).
Proof.
  unfold run_task. induction events as [|e events IH] using rev_ind.
  - split; [by split|]. intros _ c Hc. done.
  - rewrite foldl_app. cbn [foldl]. destruct IH as [I Hl].
    destruct (task_step_inv _ e I) as [I' Hl']. split; [done|]. rewrite not_elem_of_app, list_elem_of_singleton.
    intros [Hev He]. apply Hl'; [by intros ->|by apply Hl].
Qed.

(** ** The hub *)
(** What [discarded] shows: nothing, or the backoff. *)
Lemma discarded_view next s :
  (next = ThenBackoff ∧ pc (discarded config next s) = AtSleep (backoff config (attempt s)) ∧
   attempt (discarded config next s) = S (attempt s)) ∨
  (hub_view (discarded config next s) = Connecting (attempt s) ∧
   match pc (discarded config next s) with AtConnect | Finished _ => True | _ => False end).
Proof. destruct next; cbn; [by right|by left|]. right. unfold top. by destruct (task_stopping s). Qed.
Lemma discard_view c next s :
  (next = ThenBackoff ∧ pc (discard config c next s) = AtSleep (backoff config (attempt s)) ∧
   attempt (discard config c next s) = S (attempt s)) ∨
  (hub_view (discard config c next s) = Connecting (attempt s) ∧
   match pc (discard config c next s) with AtConnect | AtClose _ _ | Finished _ => True | _ => False end).
Proof.
  unfold discard. destruct (is_closed c s); [|by right].
  destruct (discarded_view next s) as [H|[H1 H2]]; [by left|right]. split; [done|]. by case_match.
Qed.

Lemma hub_events_shown s e : hub_events config s e = shown (pc s) e (pc (task_step config s e)).
Proof. done. Qed.

Lemma release_view c next s :
  next ≠ ThenBackoff → hub_view (release config c next s) = Connecting (attempt s) ∧
  match pc (release config c next s) with AtConnect | AtClose _ _ | Finished _ => True | _ => False end.
Proof. intros Hn. by destruct (discard_view c next (s <| task_available := false |> <| connection := None |>)) as [[-> _]|H]. Qed.

Lemma close_answered_hub s c next b e h :
  pc s = AtClose c next →
  run_hub config (shown (AtClose c next) e (pc (close_answered config c next (set_closed c b s))))
    (h <| listening := hub_view s |>)
  = h <| listening := hub_view (close_answered config c next (set_closed c b s)) |>.
Proof.
  intros Epc. assert (hub_view s = Connecting (attempt s)) as -> by (unfold hub_view; by rewrite Epc).
  set (s1 := set_closed c b s). unfold close_answered. set (s2 := if is_closed c s1 then s1 else _).
  assert (attempt s2 = attempt s) as Ha by (unfold s2; by destruct (is_closed c s1)).
  destruct (discarded_view next s2) as [(_ & Hp & Hn)|[-> Hp]].
  - unfold hub_view. by rewrite Hp, Hn, Ha.
  - rewrite Ha. by destruct (pc (discarded config next s2)).
Qed.
Lemma task_step_hub s e h :
  task_inv s →
  run_hub config (hub_events config s e) (h <| listening := hub_view s |>)
  = h <| listening := hub_view (task_step config s e) |>.
Proof.
  intros I. rewrite hub_events_shown.
  destruct e as [| | | |b'|b'| | |b'|c'|].
  10:{ rewrite server_closed_step. destruct (connections s !! c'); unfold hub_view; simpl; by destruct (pc s). }
  10:{ rewrite stop_flags_step. unfold hub_view. simpl. by destruct (pc s). }
  all: pose proof (task_attempt _ I) as Hz; unfold task_step; destruct (pc s) as [|c|c next|delay|c|b] eqn:Epc;
    try (unfold hub_view; rewrite Epc; done).
  - (* Attached *)
    set (s1 := s <| attempt := 0 |> <| connection := _ |> <| task_available := _ |> <| disconnected := _ |>).
    unfold wait_for_loss. destruct (task_stopping s1 || is_closed c s1).
    + destruct (release_view c ThenLoop s1) as [-> Hpc]; [done|]. unfold hub_view. rewrite Epc.
      by destruct (pc (release config c ThenLoop s1)).
    + unfold hub_view. by rewrite Epc.
  - (* AttachRaised *)
    set (s1 := s <| task_available := false |>).
    assert (hub_view s = Connecting (attempt s)) as -> by (unfold hub_view; by rewrite Epc).
    destruct (discard_view c ThenBackoff s1) as [(_ & Hp & Ha)|[-> Hp]].
    + unfold hub_view at 1. rewrite Hp, Ha. done.
    + by destruct (pc (discard config c ThenBackoff s1)).
  - by apply close_answered_hub.
  - by apply close_answered_hub.
  - (* Slept *)
    unfold hub_view. rewrite Epc. unfold top. by destruct (task_stopping s).
  - (* Woke *)
    assert (hub_view s = Listening) as -> by (unfold hub_view; by rewrite Epc).
    set (s2 := if disconnected s then _ else _).
    assert (s2 = release config c ThenLoop s ∨ s2 = s <| pc := AtWait c |>) as [->| ->].
    { unfold s2, wait_for_loss. destruct (disconnected s); [by left|]. destruct (_ || _); [by left|by right]. }
    + destruct (release_view c ThenLoop s) as [-> Hpc]; [done|]. rewrite Hz by done.
      by destruct (pc (release config c ThenLoop s)).
    + done.
  - (* Cancel at AtAddListener *)
    assert (hub_view s = Connecting (attempt s)) as -> by (unfold hub_view; by rewrite Epc).
    destruct (discard_view c ThenReraise s) as [[? _]|[-> Hp]]; [done|].
    by destruct (pc (discard config c ThenReraise s)).
  - assert (hub_view s = Listening) as -> by (unfold hub_view; by rewrite Epc).
    destruct (release_view c ThenReraise s) as [-> Hpc]; [done|]. rewrite Hz by done.
    by destruct (pc (release config c ThenReraise s)).
Qed.
End facts.

(** ** Properties *)

(** C36: The hub's listener is what the listening task shows. Whatever the driver answers, whenever the
    task is cancelled, stopped or disconnected, the events of the hub the task's steps amount to take the
    hub through exactly the states the task shows - connecting, sleeping with this delay, listening -
    and nothing else of the hub changes; and the hub says it is available exactly when the task holds
    an attached connection. *)
Theorem listener_refines_hub config events h :
  let s := run_task config events in
  let h' := run_hub config (hub_trace config start_task events) (h <| listening := Connecting 0 |>) in
  h' = h <| listening := hub_view s |> ∧ available h' = task_available s ∧
  (available h' = true ↔ ∃ c, pc s = AtWait c ∧ connection s = Some c).
Proof.
  cbv zeta.
  assert (∀ s, task_inv s →
    run_hub config (hub_trace config s events) (h <| listening := hub_view s |>)
    = h <| listening := hub_view (foldl (task_step config) s events) |>) as Hrun.
  { induction events as [|e events IH]; intros s I; [done|]. cbn [hub_trace foldl].
    unfold run_hub. rewrite foldl_app. fold (run_hub config (hub_events config s e) (h <| listening := hub_view s |>)).
    rewrite task_step_hub by done. apply IH. by apply task_step_inv. }
  destruct (run_task_inv config events) as [I _].
  specialize (Hrun start_task (proj1 (run_task_inv config []))).
  change (hub_view start_task) with (Connecting 0) in Hrun.
  change (foldl (task_step config) start_task events) with (run_task config events) in Hrun. rewrite Hrun.
  destruct I as [Ha Hc _ _]. set (s := run_task config events) in *.
  split; [done|]. unfold available, hub_view. simpl. rewrite Ha, Hc.
  destruct (pc s); cbn; (split; [done|]); split; try done; try (intros (c' & ? & _); congruence); intros _; by eexists.
Qed.

(** The listening task never leaves a connection behind. As long as no [close] is interrupted with the
    connection still open, every connection the task has opened and that is not closed is the one it
    holds at its await, so at most one is open and none once the task has ended; and a cancellation,
    wherever it arrives, ends the task at once or at the next answer of the [close] it has to wait for. *)
Lemma listener_keeps_one_connection config events :
  (Cancel false ∉ events →
   ∀ c, is_closed c (run_task config events) = false → held_connection (pc (run_task config events)) = Some c) ∧
  ∀ b, let s := task_step config (run_task config events) (Cancel b) in
    (∃ cancelled, pc s = Finished cancelled) ∨
    ∃ c, pc s = AtClose c ThenReraise ∧
      ∀ b' e, e ∈ [CloseReturned b'; CloseRaised b'; Cancel b'] → pc (task_step config s e) = Finished true.
Proof.
  split; [apply run_task_inv|]. intros b. cbv zeta. set (s := run_task config events).
  assert (∀ c x, (∃ cancelled, pc (discard config c ThenReraise x) = Finished cancelled) ∨
    ∃ c', pc (discard config c ThenReraise x) = AtClose c' ThenReraise ∧
      ∀ b' e, e ∈ [CloseReturned b'; CloseRaised b'; Cancel b'] →
        pc (task_step config (discard config c ThenReraise x) e) = Finished true) as Hd.
  { intros c x. unfold discard. destruct (is_closed c x); [left; by eexists|]. right. exists c. split; [done|].
    intros b' e He. unfold task_step. cbn [pc]. repeat (apply elem_of_cons in He as [->|He]; [done|]).
    by apply elem_of_nil in He. }
  destruct (pc s) as [|c|c next|delay|c|cancelled] eqn:Epc; try (left; unfold task_step; rewrite Epc; by eexists).
  - assert (task_step config s (Cancel b) = discard config c ThenReraise s) as -> by (unfold task_step; by rewrite Epc).
    apply Hd.
  - assert (task_step config s (Cancel b) = release config c ThenReraise s) as -> by (unfold task_step; by rewrite Epc).
    apply Hd.
Qed.

(** A run: connect, fail to attach, close, back off, connect, attach. *)
Lemma listener_keeps_one_connection_witness :
  held_connection (pc (run_task (default_config (Some "postgresql+asyncpg://panel"))
    [Opened; AttachRaised; CloseRaised false; Slept; Opened; Attached])) = Some 1.
Proof.
  apply (proj1 (listener_keeps_one_connection (default_config (Some "postgresql+asyncpg://panel"))
    [Opened; AttachRaised; CloseRaised false; Slept; Opened; Attached])).
  - apply (bool_decide_eq_true_1 _). vm_compute. reflexivity.
  - vm_compute. reflexivity.
Defined.

(** A cancellation that interrupts [close] goes past [terminate]: [contextlib.suppress(Exception)] does not
    hold a CancelledError, so the socket is left to the driver. *)
Lemma interrupted_close_is_left config c0 :
  let s := run_task config [Opened; AttachRaised; Cancel c0] in
  pc s = Finished true ∧ is_closed 0 s = c0.
Proof. by destruct c0. Qed.
(** The hub learns that the connection is gone only when the wait wakes, at most [LISTENER_POLL_SECONDS]
    later; until then it says it is available. *)
Lemma availability_lags config :
  let s := run_task config [Opened; Attached; ServerClosed 0] in
  task_available s = true ∧ is_closed 0 s = true ∧ task_available (task_step config s Woke) = false.
Proof. done. Qed.
