(* ===== verification/WorkerClients.v ===== *)
(** * The worker's HTTP clients

    [panel/worker/app/backend_client.py], [node_client.py] and [remnawave_client.py]: the requests the
    worker makes to the panel, to the node agents and to the Remnawave API, how it reads their answers
    and how it reports their errors. The network is what the code takes from outside: the class
    [Transport] over an abstract world. *)
From S2P Require Import Prelude PyStr Json Bytes Models Session.
From Stdlib Require Import Ascii.

(** ** Computations over the outside world *)
Definition Act (W A : Type) : Type := W → outcome A * W.
Definition retA {W A} (a : A) : Act W A := fun w => (Ok a, w).
Definition raiseA {W A} (e : exn) : Act W A := fun w => (Raise e, w).
Definition bindA {W A B} (m : Act W A) (k : A → Act W B) : Act W B := fun w =>
  match m w with
  | (Ok a, w') => k a w'
  | (Raise e, w') => (Raise e, w')
  end.
Definition liftA {W A} (o : outcome A) : Act W A := fun w => (o, w).
(** [try: m except Exception as e: h]. *)
Definition tryA {W A} (m : Act W A) (h : exn → Act W A) : Act W A := fun w =>
  match m w with
  | (Ok a, w') => (Ok a, w')
  | (Raise e, w') => h e w'
  end.

Declare Scope act_scope.
Delimit Scope act_scope with act.
Notation "'let+' x ':=' m 'in' k" := (bindA m (fun x => k))
  (at level 200, x pattern, m at level 200, k at level 200, right associativity) : act_scope.
Notation "'do+' m 'in' k" := (bindA m (fun _ => k))
  (at level 200, m at level 200, k at level 200, right associativity) : act_scope.
Open Scope act_scope.

Lemma bindA_run {W A B} (m : Act W A) (k : A → Act W B) w :
  bindA m k w = match m w with (Ok a, w') => k a w' | (Raise e, w') => (Raise e, w') end.
Proof. done. Qed.

(** [for x in xs: acc.append(await f(x))] *)
Fixpoint mapA {W A B} (f : A → Act W B) (xs : list A) : Act W (list B) :=
  match xs with
  | [] => retA []
  | x :: xs => let+ y := f x in let+ ys := mapA f xs in retA (y :: ys)
  end.
Fixpoint eachA {W A} (f : A → Act W unit) (xs : list A) : Act W unit :=
  match xs with
  | [] => retA tt
  | x :: xs => do+ f x in eachA f xs
  end.

(** ** JSON objects as dictionaries *)
Definition json_find (fields : list (string * json)) (key : string) : option json :=
  dict_get fields key.
(** [dict(v)] and [list(v)]. *)
Definition dict_of (v : json) : outcome (list (string * json)) :=
  match v with
  | JObj fields => Ok fields
  | JArr [] => Ok []
  | JArr _ => Raise (TypeError "cannot convert dictionary update sequence element #0 to a sequence")
  | _ => Raise (TypeError "object is not iterable")
  end.
Definition list_of (v : json) : outcome (list json) :=
  match v with
  | JArr l => Ok l
  | JObj fields => Ok (JStr ∘ fst <$> fields)
  | JStr s => Ok ((fun c => JStr (to_str [c])) <$> of_str s)
  | _ => Raise (TypeError "object is not iterable")
  end.
(** [str(d.get(key) or default)]. *)
Definition get_str (fields : list (string * json)) (key fallback : string) : string :=
  py_str (json_or (json_get fields key) (JStr fallback)).

(** ** Responses *)
Record Response := mkResponse {
  R_status_code : Z;
  R_reason_phrase : string;
  (* [response.json()]: the value or the [ValueError] *)
  R_json : outcome json;
  R_text : string }.

Class Transport (W : Type) := {
  (* method, URL, bearer token, JSON body: an answer, or the transport's exception *)
  http_request : string → string → string → option json → W → outcome Response * W;
  (* the message of the exception [raise_for_status] raises *)
  httpx_error_text : string → Response → string }.

(** The path of an absolute URL. *)
Definition url_path (url : string) : string :=
  let rest := match find url "://" with Some i => str_drop (i + 3) url | None => url end in
  let path := match find rest "/" with Some i => str_drop i rest | None => "/" end in
  let '(path, _, _) := partition path "?" in
  let '(path, _, _) := partition path "#" in path.

Definition is_success (r : Response) : bool :=
  (200 <=? R_status_code r)%Z && (R_status_code r <? 300)%Z.

Section clients.
Context {W : Type} `{Transport W}.

(** [response.raise_for_status()] *)
Definition raise_for_status (url : string) (r : Response) : outcome Response :=
  if is_success r then Ok r
  else Raise (HTTPStatusError (R_status_code r) (url_path url) (R_text r) (httpx_error_text url r)).

(** *** [backend_client.py] *)
Definition response_error_detail (r : Response) : string :=
  match R_json r with
  | Ok (JObj payload) =>
      let detail := json_or (json_or (json_get payload "detail") (json_get payload "error"))
                      (json_get payload "message") in
      match detail with JNull => strip (R_text r) | _ => py_str detail end
  | _ => strip (R_text r)
  end.

Definition backend_raise_for_status (method url : string) (r : Response) : outcome Response :=
  match raise_for_status url r with
  | Ok r => Ok r
  | Raise exc =>
      let detail := response_error_detail r in
      if negb (truthy_str detail) then Raise exc
      else Raise (HTTPStatusError (R_status_code r) (url_path url) (R_text r)
             (method +:+ " " +:+ url +:+ " failed with " +:+ pretty (R_status_code r) +:+ " "
              +:+ R_reason_phrase r +:+ ": " +:+ detail))
  end.

(** The configuration of a client: the base URL and the token. *)
Record BackendClient := mkBackendClient { base_url : string; worker_token : string }.
Definition new_backend_client (url token : string) : BackendClient :=
  mkBackendClient (rstrip_char "/"%char url) token.

Section backend.
Context (self : BackendClient).

Definition backend_call (method path : string) (body : option json) : Act W Response :=
  let url := base_url self +:+ path in
  let+ response := http_request method url (worker_token self) body in
  liftA (backend_raise_for_status method url response).
Definition backend_dict (method path : string) (body : option json) : Act W (list (string * json)) :=
  let+ response := backend_call method path body in
  let+ v := liftA (R_json response) in
  liftA (dict_of v).
(** [list(response.json().get(key, []))] *)
Definition backend_list (method path key : string) (body : option json) : Act W (list json) :=
  let+ response := backend_call method path body in
  let+ v := liftA (R_json response) in
  match v with
  | JObj fields => liftA (list_of (default (JArr []) (json_find fields key)))
  | _ => raiseA (RuntimeError "object has no attribute 'get'")
  end.

Definition operation_path (operation_id action : string) : string :=
  "/internal/worker/operations/" +:+ operation_id +:+ "/" +:+ action.
Definition node_path (node_id action : string) : string :=
  "/internal/worker/nodes/" +:+ node_id +:+ "/" +:+ action.

Definition start_operation (operation_id : string) : Act W (list (string * json)) :=
  backend_dict "POST" (operation_path operation_id "start") None.
Definition succeed_operation (operation_id : string) (result : json) : Act W unit :=
  do+ backend_call "POST" (operation_path operation_id "succeed") (Some (JObj [("result", result)])) in
  retA tt.
Definition fail_operation (operation_id error : string) (result : json) : Act W unit :=
  do+ backend_call "POST" (operation_path operation_id "fail")
        (Some (JObj [("error", JStr error); ("result", result)])) in
  retA tt.
Definition timeout_operation (operation_id : string) : Act W unit :=
  do+ backend_call "POST" (operation_path operation_id "timeout") None in retA tt.

Definition fetch_sync_snapshot : Act W (list json) :=
  backend_list "GET" "/internal/worker/sync/snapshot" "nodes" None.
Definition fetch_node_sync_snapshot (node_id : string) : Act W (list (string * json)) :=
  backend_dict "GET" (node_path node_id "sync-snapshot") None.
Definition fetch_node_provision_snapshot (node_id : string) : Act W (list (string * json)) :=
  backend_dict "GET" (node_path node_id "provision-snapshot") None.
Definition report_sync_result (node_id : string) (result : json) : Act W unit :=
  do+ backend_call "POST" (node_path node_id "sync-result") (Some result) in retA tt.
Definition report_provision_result (node_id : string) (result : json) : Act W unit :=
  do+ backend_call "POST" (node_path node_id "provision-result") (Some result) in retA tt.
Definition report_heartbeat_result (node_id : string) (result : json) : Act W unit :=
  do+ backend_call "POST" (node_path node_id "heartbeat-result") (Some result) in retA tt.

Definition telegram_path (node_id action : string) : string :=
  "/internal/worker/telegram-proxy/nodes/" +:+ node_id +:+ "/" +:+ action.
Definition fetch_telegram_proxy_node_snapshot (node_id : string) : Act W (list (string * json)) :=
  backend_dict "GET" (telegram_path node_id "snapshot") None.
Definition report_telegram_proxy_node_result (node_id : string) (result : json)
    : Act W (list (string * json)) :=
  backend_dict "POST" (telegram_path node_id "result") (Some result).

Definition fetch_stale_operations (status : string) (older_than_seconds : Z) : Act W (list json) :=
  backend_list "GET" ("/internal/worker/operations/stale?status=" +:+ status
                      +:+ "&older_than_seconds=" +:+ pretty older_than_seconds) "operations" None.
Definition create_provision_recovery_operations (pending_after_seconds failed_after_seconds : Z)
    : Act W (list json) :=
  backend_list "POST" ("/internal/worker/nodes/provision-recovery?pending_after_seconds="
                       +:+ pretty pending_after_seconds +:+ "&failed_after_seconds="
                       +:+ pretty failed_after_seconds) "operations" None.
Definition fetch_remnawave_config : Act W (list (string * json)) :=
  backend_dict "GET" "/internal/worker/remnawave/config" None.
Definition cleanup_raw_traffic_samples : Act W (list (string * json)) :=
  backend_dict "POST" "/internal/worker/traffic/cleanup-raw-samples" None.
Definition fetch_remnawave_polling_state : Act W (list (string * json)) :=
  backend_dict "GET" "/internal/worker/remnawave/polling-state" None.
Definition upsert_remnawave_users (users : list json) : Act W (list (string * json)) :=
  backend_dict "POST" "/internal/worker/remnawave/users/upsert" (Some (JArr users)).
Definition mark_remnawave_user_deleted (uuid : string) : Act W (list (string * json)) :=
  backend_dict "POST" ("/internal/worker/remnawave/users/" +:+ uuid +:+ "/deleted") None.
Definition complete_remnawave_reconcile (result : json) : Act W (list (string * json)) :=
  backend_dict "POST" "/internal/worker/remnawave/reconcile-complete" (Some result).
End backend.

(** *** [node_client.py] *)
Definition node_request (method endpoint token path : string) (body : option json) : Act W Response :=
  let url := rstrip_char "/"%char endpoint +:+ path in
  let+ response := http_request method url token body in
  liftA (raise_for_status url response).
Definition node_dict (method endpoint token path : string) (body : option json)
    : Act W (list (string * json)) :=
  let+ response := node_request method endpoint token path body in
  let+ v := liftA (R_json response) in
  liftA (dict_of v).

Definition node_status_request (endpoint token : string) := node_dict "GET" endpoint token "/status" None.
Definition node_health (endpoint : string) := node_dict "GET" endpoint "" "/health" None.
Definition node_dump (endpoint token : string) := node_dict "GET" endpoint token "/dump" None.
Definition put_mtproxy (endpoint token : string) (config : json) :=
  node_dict "PUT" endpoint token "/mtproxy" (Some config).
Definition get_mtproxy_status (endpoint token : string) :=
  node_dict "GET" endpoint token "/mtproxy/status" None.
Definition delete_mtproxy (endpoint token : string) := node_dict "DELETE" endpoint token "/mtproxy" None.
Definition put_interface (endpoint token : string) (interface : json) :=
  node_dict "PUT" endpoint token "/interface" (Some interface).
(** One request per peer. *)
Definition put_peers (endpoint token : string) (peers : list json) : Act W nat :=
  do+ eachA (fun peer => do+ node_request "PUT" endpoint token "/peers" (Some peer) in retA tt) peers in
  retA (length peers).
Definition delete_peer (endpoint token public_key : string) : Act W unit :=
  do+ node_request "DELETE" endpoint token ("/peers/" +:+ public_key) None in retA tt.
End clients.

(** ** [remnawave_client.py] *)
Definition PAGE_SIZE : Z := 25.

(** [_value(user, *names, default=...)]: the first name that is present. *)
Fixpoint value_of (fields : list (string * json)) (names : list string) (fallback : json) : json :=
  match names with
  | [] => fallback
  | name :: names =>
      match json_find fields name with Some v => v | None => value_of fields names fallback end
  end.

Definition unwrap_payload (payload : list (string * json)) : outcome (list (string * json)) :=
  match json_or (json_or (json_get payload "response") (json_get payload "data")) (JObj payload) with
  | JObj data => Ok data
  | _ => Raise (TypeError "Malformed Remnawave response: payload must be an object")
  end.

(** The keys of a normalised profile, the names they are read from, and their defaults. *)
Definition profile_fields : list (string * list string * json) :=
  [("remnawave_id", ["id"; "remnawave_id"], JNull);
   ("short_uuid", ["shortUuid"; "short_uuid"], JNull);
   ("username", ["username"], JStr "");
   ("status", ["status"], JStr "UNKNOWN");
   ("expire_at", ["expireAt"; "expire_at"], JNull);
   ("email", ["email"], JNull);
   ("tag", ["tag"], JNull);
   ("telegram_id", ["telegramId"; "telegram_id"], JNull);
   ("description", ["description"], JNull);
   ("traffic_limit_bytes", ["trafficLimitBytes"; "traffic_limit_bytes"], JInt 0);
   ("traffic_limit_strategy", ["trafficLimitStrategy"; "traffic_limit_strategy"], JStr "NO_RESET");
   ("traffic_used_bytes", ["trafficUsedBytes"; "traffic_used_bytes"], JInt 0);
   ("lifetime_used_traffic_bytes", ["lifetimeUsedTrafficBytes"; "lifetime_used_traffic_bytes"], JInt 0);
   ("last_traffic_reset_at", ["lastTrafficResetAt"; "last_traffic_reset_at"], JNull);
   ("online_at", ["onlineAt"; "online_at"], JNull);
   ("first_connected_at", ["firstConnectedAt"; "first_connected_at"], JNull);
   ("last_connected_node_uuid", ["lastConnectedNodeUuid"; "last_connected_node_uuid"], JNull);
   ("hwid_device_limit", ["hwidDeviceLimit"; "hwid_device_limit"], JNull);
   ("external_squad_uuid", ["externalSquadUuid"; "external_squad_uuid"], JNull);
   ("active_internal_squads", ["activeInternalSquads"; "active_internal_squads"], JNull);
   ("subscription_url", ["subscriptionUrl"; "subscription_url"], JNull);
   ("created_at", ["createdAt"; "created_at"], JNull);
   ("updated_at", ["updatedAt"; "updated_at"], JNull)].

Definition normalize_user (user : list (string * json)) : outcome (list (string * json)) :=
  let remnawave_uuid := value_of user ["uuid"; "remnawave_uuid"] JNull in
  if negb (json_truthy remnawave_uuid)
  then Raise (ValueError "Malformed Remnawave user response: uuid is missing")
  else Ok (("remnawave_uuid", JStr (py_str remnawave_uuid)) ::
    ((fun f : string * list string * json =>
        let '(key, names, fallback) := f in
        let v := value_of user names fallback in
        (key, if key isin ["username"; "status"] then JStr (py_str v) else v)) <$> profile_fields)).

Definition normalize_user_payload (payload : list (string * json)) : outcome (list (string * json)) :=
  data ← unwrap_payload payload;
  match json_find data "user" with
  | Some (JObj user) => normalize_user user
  | Some _ => Raise (ValueError "Malformed Remnawave user response: user must be an object")
  | None => normalize_user data
  end.

(** [isinstance(total, int)]: a boolean is an integer. *)
Definition int_value (v : json) : option Z :=
  match v with
  | JInt z => Some z
  | JBool b => Some (if b then 1 else 0)%Z
  | _ => None
  end.

Definition extract_users_page (payload : list (string * json))
    : outcome (list (list (string * json)) * option Z) :=
  data ← unwrap_payload payload;
  match value_of data ["users"; "items"; "data"] JNull with
  | JArr users =>
      let total := json_or (json_or (json_get data "total") (json_get data "totalCount"))
                     (json_get data "count") in
      total ← match total with
              | JNull => Ok None
              | _ => match int_value total with
                     | Some z => Ok (Some z)
                     | None => Raise (ValueError "Malformed Remnawave users response: total must be an integer")
                     end
              end;
      users ← map_outcome (fun user =>
        match user with
        | JObj fields => normalize_user fields
        | _ => Raise (TypeError "Malformed Remnawave users response: user must be an object")
        end) users;
      Ok (users, total)
  | _ => Raise (TypeError "Malformed Remnawave users response: users list is missing")
  end.

Section remnawave.
Context {W : Type} `{Transport W}.

Record RemnawaveClient := mkRemnawaveClient { rw_base_url : string; rw_token : string }.
Definition new_remnawave_client (url token : string) : RemnawaveClient :=
  mkRemnawaveClient (rstrip_char "/"%char url) token.

Context (self : RemnawaveClient).
Definition remnawave_request (method path : string) : Act W (string * Response) :=
  let url := rw_base_url self +:+ path in
  let+ response := http_request method url (rw_token self) None in
  retA (url, response).
Definition remnawave_dict (url : string) (response : Response) : Act W (list (string * json)) :=
  do+ liftA (raise_for_status url response) in
  let+ v := liftA (R_json response) in
  liftA (dict_of v).

Definition list_users (start size : Z) : Act W (list (string * json)) :=
  let+ ur := remnawave_request "GET"
    ("/api/users?start=" +:+ pretty start +:+ "&size=" +:+ pretty size) in
  remnawave_dict ur.1 ur.2.
Definition get_user (uuid : string) : Act W (option (list (string * json))) :=
  let+ ur := remnawave_request "GET" ("/api/users/" +:+ uuid) in
  if R_status_code ur.2 == 404%Z then retA None else
  let+ fields := remnawave_dict ur.1 ur.2 in
  retA (Some fields).
Definition disable_user (uuid : string) : Act W (list (string * json)) :=
  let+ ur := remnawave_request "POST" ("/api/users/" +:+ uuid +:+ "/actions/disable") in
  remnawave_dict ur.1 ur.2.
End remnawave.
