(* ===== verification/Publishers.v ===== *)
(** * The publishers' connections

    [_publisher_exchange_for_url] and [publish_command] of the panel ([panel/backend/app/queue.py]), and
    [RabbitQueue._publisher_exchange], [publish_command] and [close] of the worker
    ([panel/worker/app/queue.py]): the connection, channel and exchange each process keeps between two
    messages and opens again when they are closed. Both hold a lock from the first test to the last
    assignment, so one lookup is one uninterrupted computation; what the objects report changes between
    lookups. The AMQP client is the class [Amqp]; its objects are numbers. *)
From S2P Require Import Prelude PyStr Json Models Session Jobs WorkerClients.

Class Amqp (W M : Type) := {
  (* [connect_robust(url)] *)
  connect_robust : string → Act W nat;
  (* [connection.channel()] *)
  open_channel : nat → Act W nat;
  (* [declare_topology(channel)]: the exchange *)
  declare_on : nat → Act W nat;
  (* [exchange.publish(message, routing_key)] *)
  exchange_publish : nat → string → M → Act W unit;
  (* the attribute [is_closed], if the object has one *)
  closed_attribute : nat → W → option bool;
  (* [close()] of a channel or a connection *)
  close_object : nat → Act W unit }.

Record publisher := mkPublisher {
  pub_connection : option nat; pub_channel : option nat; pub_exchange : option nat }.
#[export] Instance publisher_eta : Eta publisher := fun r =>
  mkPublisher (pub_connection r) (pub_channel r) (pub_exchange r).
Definition new_publisher : publisher := mkPublisher None None None.

Section publishers.
Context {W M : Type} `{Amqp W M}.
Abbreviation Pub := (Act (publisher * W)).

Definition outside {A} (m : Act W A) : Pub A := fun s => let '(r, w) := m s.2 in (r, (s.1, w)).
Definition cached : Pub publisher := fun s => (Ok s.1, s).
Definition assign (f : publisher → publisher) : Pub unit := fun s => (Ok tt, (f s.1, s.2)).
(** [o is not None and not getattr(o, 'is_closed', closed_by_default)] *)
Definition usable (closed_by_default : bool) (o : option nat) : Pub (option nat) := fun s =>
  (Ok (match o with
       | Some x => if default closed_by_default (closed_attribute x s.2) then None else Some x
       | None => None
       end), s).

Definition connect_if_closed (url : string) : Pub nat :=
  let+ p := cached in
  let+ connection := usable true (pub_connection p) in
  match connection with
  | Some c => retA c
  | None =>
      let+ c := outside (connect_robust url) in
      do+ assign (fun p => p <| pub_connection := Some c |>) in
      retA c
  end.
Definition open_and_declare (connection : nat) : Pub unit :=
  let+ ch := outside (open_channel connection) in
  do+ assign (fun p => p <| pub_channel := Some ch |>) in
  let+ exchange := outside (declare_on ch) in
  assign (fun p => p <| pub_exchange := Some exchange |>).

(** The panel. *)
Definition publisher_exchange_for_url (url : string) : Pub (option nat) :=
  let+ p := cached in
  let+ exchange := usable false (pub_exchange p) in
  match exchange with
  | Some e => retA (Some e)
  | None =>
      let+ channel := usable true (pub_channel p) in
      do+ match channel with
          | Some _ => retA tt
          | None => let+ connection := connect_if_closed url in open_and_declare connection
          end in
      let+ p := cached in
      retA (pub_exchange p)
  end.
(** The worker, which looks after the connection first. *)
Definition publisher_exchange (url : string) : Pub (option nat) :=
  let+ p := cached in
  let+ exchange := usable false (pub_exchange p) in
  match exchange with
  | Some e => retA (Some e)
  | None =>
      let+ connection := connect_if_closed url in
      let+ channel := usable true (pub_channel p) in
      do+ match channel with
          | Some _ => retA tt
          | None => open_and_declare connection
          end in
      let+ p := cached in
      retA (pub_exchange p)
  end.
Definition publish_on (exchange : option nat) (routing_key : string) (message : M) : Pub unit :=
  match exchange with
  | Some e => outside (exchange_publish e routing_key message)
  | None => raiseA (AttributeError "'NoneType' object has no attribute 'publish'")
  end.
Definition panel_publish (url routing_key : string) (message : M) : Pub unit :=
  let+ exchange := publisher_exchange_for_url url in publish_on exchange routing_key message.
Definition worker_publish (url routing_key : string) (message : M) : Pub unit :=
  let+ exchange := publisher_exchange url in publish_on exchange routing_key message.
(** The worker's [close]. *)
Definition close_if_open (o : option nat) : Pub unit :=
  let+ open := usable true o in
  match open with Some x => outside (close_object x) | None => retA tt end.
Definition close_publisher : Pub unit :=
  let+ p := cached in
  do+ close_if_open (pub_channel p) in
  do+ close_if_open (pub_connection p) in
  assign (fun _ => new_publisher).

(** A process that publishes one message after the other; before each, the objects may have closed or
    reopened. *)
Fixpoint publishes (publish : string → M → Pub unit) (calls : list (string * M * (W → W))) (s : publisher * W)
    : list (outcome unit) * (publisher * W) :=
  match calls with
  | [] => ([], s)
  | (key, message, between) :: calls =>
      let '(r, s) := publish key message (s.1, between s.2) in
      let '(rs, s) := publishes publish calls s in
      (r :: rs, s)
  end.
End publishers.

(** ** Facts *)
Section facts.
Context {W M : Type} `{Amqp W M}.
Implicit Types (p : publisher) (w : W).

(** The cache after a lookup whose declarations all succeeded: a channel has its exchange. *)
Definition complete p : Prop := pub_channel p ≠ None → pub_exchange p ≠ None.
(** A result that is not the attribute error of a missing exchange. *)
Definition real {A} (r : outcome A) : Prop := ∀ message, r ≠ Raise (AttributeError message).
Record honest_client : Prop := {
  honest_connect : ∀ url w, real (connect_robust url w).1;
  honest_channel : ∀ c w, real (open_channel c w).1;
  honest_publish : ∀ e key message w, real (exchange_publish e key message w).1 }.
Definition declares : Prop := ∀ ch w, ∃ e w', declare_on ch w = (Ok e, w').

(** [m] keeps the cache complete and raises nothing of its own. *)
Definition sound {A} (m : Act (publisher * W) A) (Q : A → Prop) : Prop :=
  ∀ s, complete s.1 → complete (m s).2.1 ∧ real (m s).1 ∧ ∀ a, (m s).1 = Ok a → Q a.
Lemma sound_bind {A B} (m : Act (publisher * W) A) (k : A → Act (publisher * W) B) Q R :
  sound m Q → (∀ a, Q a → sound (k a) R) → sound (bindA m k) R.
Proof.
  intros Hm Hk s Hs. rewrite bindA_run. destruct (Hm s Hs) as (Hc & Hr & Hq). destruct (m s) as [[a|e] s']; cbn in *.
  - by apply (Hk a (Hq a eq_refl)).
  - split_and!; [done| |done]. intros message [= ->]. by apply (Hr message).
Qed.
Lemma sound_pure {A} (f : publisher * W → A) (Q : A → Prop) :
  (∀ s, complete s.1 → Q (f s)) → sound (fun s => (Ok (f s), s)) Q.
Proof. intros HQ s Hs. split_and!; [done|by intros message|]. intros a [= <-]. by apply HQ. Qed.
Lemma sound_outside {A} (m : Act W A) : (∀ w, real (m w).1) → sound (outside m) (fun _ => True).
Proof. intros Hm [p w] Hs. unfold outside. cbn. specialize (Hm w). by destruct (m w). Qed.
Lemma sound_connect url : honest_client → sound (connect_if_closed url) (fun _ => True).
Proof.
  intros Hh. unfold connect_if_closed. eapply (sound_bind _ _ (fun _ => True)); [by apply sound_pure|]. intros p _.
  eapply (sound_bind _ _ (fun _ => True)); [by apply sound_pure|]. intros [c|] _; [by apply (sound_pure (fun _ => c))|].
  eapply sound_bind; [apply sound_outside; apply (honest_connect Hh)|]. intros c _.
  intros s Hs. by split_and!.
Qed.
(** Opening a channel assigns it before its exchange: a declaration that raises leaves the channel. *)
Lemma open_and_declare_run connection p w :
  open_and_declare connection (p, w) =
  match open_channel connection w with
  | (Raise e, w1) => (Raise e, (p, w1))
  | (Ok ch, w1) =>
      match declare_on ch w1 with
      | (Raise e, w2) => (Raise e, (p <| pub_channel := Some ch |>, w2))
      | (Ok x, w2) => (Ok tt, (p <| pub_channel := Some ch |> <| pub_exchange := Some x |>, w2))
      end
  end.
Proof.
  unfold open_and_declare, bindA, outside, assign. cbn. destruct (open_channel connection w) as [[ch|e] w1]; [|done].
  cbn. by destruct (declare_on ch w1) as [[x|e] w2].
Qed.
Lemma sound_open connection : honest_client → declares →
  sound (do+ open_and_declare connection in let+ p := cached in retA (pub_exchange p)) (fun o => o ≠ None).
Proof.
  intros Hh Hd [p w] Hs. rewrite bindA_run, open_and_declare_run.
  pose proof (honest_channel Hh connection w) as Ho. destruct (open_channel connection w) as [[ch|e] w1]; cbn in *.
  - destruct (Hd ch w1) as (x & w2 & ->). cbn. split_and!; [done|by intros message|]. by intros a [= <-].
  - split_and!; [done| |done]. intros message [= ->]. by apply (Ho message).
Qed.
Definition usable_of (closed_by_default : bool) (o : option nat) w : option nat :=
  match o with
  | Some x => if default closed_by_default (closed_attribute x w) then None else Some x
  | None => None
  end.
#[local] Opaque connect_if_closed open_and_declare.
Lemma panel_lookup_run url p w :
  publisher_exchange_for_url url (p, w) =
  match usable_of false (pub_exchange p) w, usable_of true (pub_channel p) w with
  | Some e, _ => (Ok (Some e), (p, w))
  | None, Some _ => (Ok (pub_exchange p), (p, w))
  | None, None =>
      (let+ c := connect_if_closed url in do+ open_and_declare c in let+ p := cached in retA (pub_exchange p)) (p, w)
  end.
Proof.
  unfold publisher_exchange_for_url. rewrite bindA_run. cbn. rewrite bindA_run. cbn. fold (usable_of false (pub_exchange p) w).
  destruct (usable_of false (pub_exchange p) w); [done|]. rewrite bindA_run. cbn. fold (usable_of true (pub_channel p) w).
  destruct (usable_of true (pub_channel p) w); [done|]. unfold bindA. by destruct (connect_if_closed url (p, w)) as [[c|e] s].
Qed.
Lemma worker_lookup_run url p w :
  publisher_exchange url (p, w) =
  match usable_of false (pub_exchange p) w with
  | Some e => (Ok (Some e), (p, w))
  | None =>
      match connect_if_closed url (p, w) with
      | (Raise e, s) => (Raise e, s)
      | (Ok c, s) =>
          match usable_of true (pub_channel p) s.2 with
          | Some _ => (Ok (pub_exchange s.1), s)
          | None => (do+ open_and_declare c in let+ p := cached in retA (pub_exchange p)) s
          end
      end
  end.
Proof.
  unfold publisher_exchange, bindA at 1 2. cbn. fold (usable_of false (pub_exchange p) w).
  destruct (usable_of false (pub_exchange p) w); [done|]. unfold bindA at 1.
  destruct (connect_if_closed url (p, w)) as [[c|e] s]; [|done]. unfold bindA at 1. cbn.
  fold (usable_of true (pub_channel p) s.2). by destruct (usable_of true (pub_channel p) s.2).
Qed.
#[local] Transparent connect_if_closed open_and_declare.
Lemma connect_keeps url s :
  pub_channel (connect_if_closed url s).2.1 = pub_channel s.1 ∧ pub_exchange (connect_if_closed url s).2.1 = pub_exchange s.1.
Proof.
  unfold connect_if_closed, bindA, cached, usable, outside, assign, retA. cbn.
  destruct (match pub_connection s.1 with Some _ => _ | None => _ end); [done|].
  by destruct (connect_robust url s.2) as [[c|e] w].
Qed.
Lemma usable_some b o w x : usable_of b o w = Some x → o ≠ None.
Proof. by destruct o. Qed.
Lemma sound_lookup url : honest_client → declares →
  sound (publisher_exchange_for_url url) (fun o => o ≠ None) ∧ sound (publisher_exchange url) (fun o => o ≠ None).
Proof.
  intros Hh Hd. split; intros [p w] Hs; cbn in Hs.
  - rewrite panel_lookup_run. destruct (usable_of false _ w) as [e|]; [split_and!; [done|by intros message|by intros a [= <-]]|].
    destruct (usable_of true _ w) as [ch|] eqn:Ech.
    + split_and!; [done|by intros message|]. intros a [= <-]. apply Hs. by eapply usable_some.
    + apply (sound_bind _ _ (fun _ => True)); [by apply sound_connect|intros c _; by apply sound_open|done].
  - rewrite worker_lookup_run. destruct (usable_of false _ w) as [e|]; [split_and!; [done|by intros message|by intros a [= <-]]|].
    destruct (sound_connect url Hh (p, w) Hs) as (Hc & Hr & _). destruct (connect_keeps url (p, w)) as [Kc Ke].
    destruct (connect_if_closed url (p, w)) as [[c|e] s']; cbn in *.
    + destruct (usable_of true _ s'.2) as [ch|] eqn:Ech; [|by apply sound_open].
      split_and!; [done|by intros message|]. intros a [= <-]. rewrite Ke. apply Hs. by eapply usable_some.
    + split_and!; [done| |done]. intros message [= ->]. by apply (Hr message).
Qed.
Lemma sound_publish lookup key message : honest_client → sound lookup (fun o => o ≠ None) →
  sound (let+ exchange := lookup in publish_on exchange key message) (fun _ => True).
Proof.
  intros Hh Hl. eapply sound_bind; [exact Hl|]. intros [e|] Hne; [|done]. apply sound_outside. apply (honest_publish Hh).
Qed.
Lemma sound_publishes (publish : string → M → Act (publisher * W) unit) calls s :
  (∀ key message, sound (publish key message) (fun _ => True)) → complete s.1 →
  complete (publishes publish calls s).2.1 ∧ Forall real (publishes publish calls s).1.
Proof.
  intros Hp. revert s. induction calls as [|[[key message] between] calls IH]; intros s Hs; [done|]. cbn.
  destruct (Hp key message (s.1, between s.2) Hs) as (Hc & Hr & _).
  destruct (publish key message (s.1, between s.2)) as [r s']. cbn in *.
  destruct (IH s' Hc) as [Hc' Hrs]. destruct (publishes publish calls s') as [rs s'']. cbn in *. split; [done|]. by constructor.
Qed.

(** *** After a failed declaration *)
(** The cache holds an open connection and an open channel, and no exchange. *)
Definition stuck (c ch : nat) (s : publisher * W) : Prop :=
  s.1 = mkPublisher (Some c) (Some ch) None ∧ closed_attribute c s.2 = Some false ∧ closed_attribute ch s.2 = Some false.
Definition NO_PUBLISH : exn := AttributeError "'NoneType' object has no attribute 'publish'".
Lemma stuck_panel url key message c ch s : stuck c ch s → panel_publish url key message s = (Raise NO_PUBLISH, s).
Proof.
  destruct s as [p w]. intros (E & Hc & Hch). cbn in E, Hc, Hch. subst p. unfold panel_publish. rewrite bindA_run, panel_lookup_run. cbn in *.
  by rewrite Hch.
Qed.
Lemma stuck_worker url key message c ch s : stuck c ch s → worker_publish url key message s = (Raise NO_PUBLISH, s).
Proof.
  destruct s as [p w]. intros (E & Hc & Hch). cbn in E, Hc, Hch. subst p. unfold worker_publish. rewrite bindA_run, worker_lookup_run. cbn in *.
  unfold connect_if_closed, bindA. cbn. rewrite Hc. cbn. by rewrite Hch.
Qed.
Lemma stuck_publishes (publish : string → M → Act (publisher * W) unit) calls c ch s :
  (∀ key message s, stuck c ch s → publish key message s = (Raise NO_PUBLISH, s)) → stuck c ch s →
  (∀ key message between w, (key, message, between) ∈ calls → closed_attribute c w = Some false →
     closed_attribute ch w = Some false →
     closed_attribute c (between w) = Some false ∧ closed_attribute ch (between w) = Some false) →
  (publishes publish calls s).1 = replicate (length calls) (Raise NO_PUBLISH) ∧
  (publishes publish calls s).2 = (s.1, foldl (fun w call => call.2 w) s.2 calls).
Proof.
  intros Hp. revert s. induction calls as [|[[key message] between] calls IH]; intros s Hs Hb; [by destruct s|].
  cbn [publishes]. destruct Hs as (E & Hc & Hch).
  destruct (Hb key message between s.2) as [Hc' Hch']; [by left|done|done|].
  assert (stuck c ch (s.1, between s.2)) as Hs' by done. rewrite (Hp key message _ Hs').
  destruct (IH (s.1, between s.2) Hs') as [H1 H2]; [intros k m b w Hin; eapply Hb; right; exact Hin|].
  destruct (publishes publish calls (s.1, between s.2)) as [rs s'']. cbn in *. by rewrite H1, H2.
Qed.
End facts.

(** ** Properties *)

(** A publisher whose declarations succeed always finds an exchange. Whatever closes and reopens
    between two messages, and whichever connections, channels and publishes fail, as long as declaring
    the topology does not raise, no message of the panel or of the worker fails for want of an
    exchange: each is published or raises what the AMQP client raised. *)
Lemma publishers_find_an_exchange {W M} `{Amqp W M} url calls w :
  honest_client → declares →
  Forall real (publishes (panel_publish url) calls (new_publisher, w)).1 ∧
  Forall real (publishes (worker_publish url) calls (new_publisher, w)).1.
Proof.
  intros Hh Hd. destruct (sound_lookup url Hh Hd) as [Hp Hw].
  split; (apply sound_publishes; [intros key message; by apply sound_publish|by intros Hne]).
Qed.

(** One failed declaration silences a process. If the first message of the panel or of the worker
    connects and opens a channel but declaring the topology raises, and the connection and the channel
    report that they are open, then every later message fails with the attribute error of a missing
    exchange and nothing is sent, for as long as both stay open: the lookup keeps the channel it
    stored, never declares again and returns no exchange. *)
Lemma failed_declaration_silences_publisher {W M} `{Amqp W M} url key message calls w w1 w2 w3 c ch e :
  connect_robust url w = (Ok c, w1) → open_channel c w1 = (Ok ch, w2) → declare_on ch w2 = (Raise e, w3) →
  closed_attribute c w3 = Some false → closed_attribute ch w3 = Some false →
  (∀ k m between w, (k, m, between) ∈ calls → closed_attribute c w = Some false → closed_attribute ch w = Some false →
     closed_attribute c (between w) = Some false ∧ closed_attribute ch (between w) = Some false) →
  ∀ publish, publish ∈ [panel_publish url; worker_publish url] →
    publish key message (new_publisher, w) = (Raise e, (mkPublisher (Some c) (Some ch) None, w3)) ∧
    publishes publish calls (publish key message (new_publisher, w)).2 =
      (replicate (length calls) (Raise NO_PUBLISH),
       (mkPublisher (Some c) (Some ch) None, foldl (fun w call => call.2 w) w3 calls)).
Proof.
  intros Hconnect Hopen Hdeclare Hc Hch Hb publish Hpub.
  assert (∀ s, stuck c ch s → ∀ k m, publish k m s = (Raise NO_PUBLISH, s)) as Hstuck.
  { intros s Hs k m. apply elem_of_cons in Hpub as [->|Epub%list_elem_of_singleton]; [|rewrite Epub];
      [by eapply stuck_panel|by eapply stuck_worker]. }
  assert (publish key message (new_publisher, w) = (Raise e, (mkPublisher (Some c) (Some ch) None, w3))) as Hfirst.
  { apply elem_of_cons in Hpub as [->|Epub%list_elem_of_singleton]; [|rewrite Epub].
    - unfold panel_publish. rewrite bindA_run, panel_lookup_run. cbn. unfold connect_if_closed, open_and_declare, bindA, outside, assign.
      cbn. rewrite Hconnect. cbn. rewrite Hopen. cbn. by rewrite Hdeclare.
    - unfold worker_publish. rewrite bindA_run, worker_lookup_run. cbn. unfold connect_if_closed, open_and_declare, bindA, outside, assign.
      cbn. rewrite Hconnect. cbn. rewrite Hopen. cbn. by rewrite Hdeclare. }
  split; [done|]. rewrite Hfirst. cbn [snd].
  destruct (stuck_publishes publish calls c ch (mkPublisher (Some c) (Some ch) None, w3)) as [H1 H2];
    [intros k m s Hs; by apply Hstuck|done|exact Hb|].
  destruct (publishes publish calls _) as [rs s]. cbn in *. by rewrite H1, H2.
Qed.

(** A client whose objects stay open and whose first declaration fails; the world counts the calls. *)
#[export] Instance sample_amqp : Amqp nat string := {
  connect_robust url w := (Ok 0, S w);
  open_channel c w := (Ok 1, S w);
  declare_on ch w := (if (w <? 3)%nat then Raise (BrokerError "PRECONDITION_FAILED") else Ok 2, S w);
  exchange_publish x key message w := (Ok tt, S w);
  closed_attribute x w := Some false;
  close_object x w := (Ok tt, S w) }.
Lemma failed_declaration_silences_publisher_witness :
  publishes (panel_publish "amqp://") [("amnezia.sync", "a", S); ("amnezia.sync", "b", S)]
    (panel_publish "amqp://" "amnezia.sync" "m" (new_publisher, 0)).2
  = ([Raise NO_PUBLISH; Raise NO_PUBLISH], (mkPublisher (Some 0) (Some 1) None, 5)).
Proof.
  refine (proj2 (failed_declaration_silences_publisher "amqp://" "amnezia.sync" "m"
    [("amnezia.sync", "a", S); ("amnezia.sync", "b", S)] 0 1 2 3 0 1 (BrokerError "PRECONDITION_FAILED")
    _ _ _ _ _ _ (panel_publish "amqp://") _)); try reflexivity; [done|by left].
Defined.
