(* ===== verification/NodeAgent.v ===== *)
(** * The node agent

    [node/agent/agent.py] and [node/agent/mtproxy.py]: the HTTP agent of a node. Its state is the
    node's disk (the tunnel's configuration file, the MTProxy configuration, temporary files) and the
    world outside, which runs the [awg] and [supervisorctl] commands. The texts are those of
    [AgentConfig]. Requests are served one at a time: the worker holds a lock per node. *)
From S2P Require Import Prelude PyStr Json Bytes AgentConfig WorkerClients.
From Stdlib Require Import Ascii.

Abbreviation fields := (list (string * json)).

(** ** What the agent takes from outside *)
Record AgentSettings := mkAgentSettings {
  INTERFACE : string;
  AGENT_TOKEN : string;
  WG_CONFIG : string;
  MTPROXY_CONFIG_PATH : string }.

Record node (W : Type) := mkNode { disk : gmap string string; outside : W }.
Arguments mkNode {W} _ _.
Arguments disk {W} _.
Arguments outside {W} _.

Record MTProxyConfig := mkMTProxyConfig {
  mt_port : Z; mt_public_host : string; mt_secret : string; mt_tls_domain : string }.
#[export] Instance MTProxyConfig_eq_dec : EqDecision MTProxyConfig.
Proof. solve_decision. Defined.

Class Host (W : Type) := {
  (* a command with its timeout, seeing the disk: exit code, output, error output *)
  run_process : list string → option Z → gmap string string → W → outcome (Z * string * string) * W;
  (* a new temporary file with this suffix *)
  temp_name : gmap string string → string → string;
  (* [signal.Signals(n)] as [CalledProcessError] prints it *)
  signal_text : Z → string;
  (* pydantic's [model_dump_json(indent=2)] and [model_validate_json] *)
  model_dump_json : MTProxyConfig → string;
  model_validate_json : string → outcome MTProxyConfig;
  (* the errors pydantic reports for a body that breaks its constraints *)
  validation_errors : MTProxyConfig → list (list (string * json)) }.

Section agent.
Context {W : Type} `{Host W} (settings : AgentSettings).
Abbreviation Agent := (Act (node W)).

(** ** Files and processes *)
Definition read_file (path : string) : Agent (option string) := fun n => (Ok (disk n !! path), n).
Definition write_file (path content : string) : Agent unit := fun n =>
  (Ok tt, mkNode (<[path := content]> (disk n)) (outside n)).
Definition unlink (path : string) : Agent unit := fun n =>
  (Ok tt, mkNode (delete path (disk n)) (outside n)).
Definition named_temporary_file (suffix content : string) : Agent string := fun n =>
  let name := temp_name (disk n) suffix in
  (Ok name, mkNode (<[name := content]> (disk n)) (outside n)).
(** [try: m finally: h]. *)
Definition finallyA {A} (m : Agent A) (h : Agent unit) : Agent A := fun n =>
  match m n with
  | (o, n') => match h n' with (Ok _, n'') => (o, n'') | (Raise e, n'') => (Raise e, n'') end
  end.

Definition subprocess_run (args : list string) (timeout : option Z) : Agent (Z * string * string) :=
  fun n => let '(o, w) := run_process args timeout (disk n) (outside n) in (o, mkNode (disk n) w).
(** [str(CalledProcessError)] *)
Definition called_process_text (args : list string) (returncode : Z) : string :=
  "Command '" +:+ py_repr (JArr (JStr <$> args)) +:+ "' " +:+
  (if (returncode <? 0)%Z then "died with " +:+ signal_text (- returncode) +:+ "."
   else "returned non-zero exit status " +:+ pretty returncode +:+ ".").
(** [subprocess.run(..., check=True).stdout] *)
Definition checked_run (args : list string) : Agent string :=
  let+ result := subprocess_run args None in
  let '(returncode, stdout, stderr) := result in
  if returncode == 0%Z then retA stdout
  else raiseA (CalledProcessError returncode stderr (called_process_text args returncode)).

Definition run_awg (args : list string) : Agent string :=
  tryA (checked_run ("awg" :: args)) (fun exc =>
    match exc with
    | CalledProcessError _ stderr message =>
        raiseA (HTTPException 500 (if truthy_str stderr then stderr else message))
    | _ => raiseA exc
    end).

(** The lock file is truncated when it is opened; its owner runs alone. *)
Definition config_lock {A} (m : Agent A) : Agent A :=
  do+ write_file (WG_CONFIG settings +:+ ".lock") "" in m.

(** ** [awg show] *)
Definition _INTERFACE_INT_KEYS : list string :=
  ["listening_port"; "jc"; "jmin"; "jmax"; "s1"; "s2"; "s3"; "s4"].
Definition int_value_of (s : string) : outcome Z :=
  match py_int s with
  | Some z => Ok z
  | None => Raise (ValueError ("invalid literal for int() with base 10: " +:+ repr_str s))
  end.

(** [(.+?)] up to [stop], where the rest must match too: the shortest such prefix, without a line
    feed. *)
Fixpoint lazy_group {B} (stop : chars) (rest : chars → option B) (acc l : chars)
    : option (chars * B) :=
  let here :=
    match acc with
    | [] => None
    | _ => if prefix_of stop l
           then match rest (drop (length stop) l) with Some b => Some (rev acc, b) | None => None end
           else None
    end in
  match here with
  | Some r => Some r
  | None =>
      match l with
      | [] => None
      | c :: l => if c == LF then None else lazy_group stop rest (c :: acc) l
      end
  end.
(** [\s*] before a group, longest first. *)
Fixpoint blanks_then {B} (m : chars → option B) (l : chars) : option B :=
  match l with
  | c :: l' =>
      if is_space c then match blanks_then m l' with Some b => Some b | None => m l end else m l
  | [] => m l
  end.
Definition parse_transfer (value : string) : option (string * string) :=
  match lazy_group (of_str " received,")
          (blanks_then (lazy_group (of_str " sent") (fun _ => Some tt) [])) [] (of_str value) with
  | Some (received, (sent, _)) => Some (to_str received, to_str sent)
  | None => None
  end.

(** [d[key] = value] of a dictionary. *)
Fixpoint dict_set (d : fields) (key : string) (v : json) : fields :=
  match d with
  | [] => [(key, v)]
  | (k, x) :: d => if k == key then (k, v) :: d else (k, x) :: dict_set d key v
  end.

Record shown := mkShown { sh_interface : fields; sh_peers : list fields; sh_current : option fields }.
Definition new_shown_peer (public_key : string) : fields :=
  [("public_key", JStr public_key); ("allowed_ips", JArr []); ("endpoint", JNull);
   ("latest_handshake", JNull); ("transfer_rx", JNull); ("transfer_tx", JNull)].
Definition close_shown (st : shown) : list fields :=
  sh_peers st ++ match sh_current st with Some p => [p] | None => [] end.
Definition json_ips (value : string) : json := JArr (JStr ∘ strip <$> split_char value ",").
Definition peer_field (peer : fields) (key value : string) : fields :=
  if key == "transfer" then
    match parse_transfer value with
    | Some (rx, tx) => dict_set (dict_set peer "transfer_rx" (JStr rx)) "transfer_tx" (JStr tx)
    | None => peer
    end
  else if key == "allowed_ips" then dict_set peer key (json_ips value)
  else dict_set peer key (JStr value).

Definition show_line (st : shown) (raw : string) : outcome shown :=
  let line := strip raw in
  if negb (truthy_str line) then Ok st
  else if startswith line "interface:" then Ok (mkShown (sh_interface st) (sh_peers st) None)
  else if startswith line "peer:" then
    Ok (mkShown (sh_interface st) (close_shown st)
          (Some (new_shown_peer (strip (removeprefix line "peer:")))))
  else if negb (contains line ":") then Ok st
  else
    let '(key, _, value) := partition line ":" in
    let key := replace (lower (strip key)) " " "_" in
    let value := strip value in
    match sh_current st with
    | None =>
        v ← (if key isin _INTERFACE_INT_KEYS then z ← int_value_of value; Ok (JInt z)
             else Ok (JStr value));
        Ok (mkShown (dict_set (sh_interface st) key v) (sh_peers st) None)
    | Some peer => Ok (mkShown (sh_interface st) (sh_peers st) (Some (peer_field peer key value)))
    end.
Fixpoint show_lines (st : shown) (lines : list string) : outcome shown :=
  match lines with
  | [] => Ok st
  | l :: lines => st ← show_line st l; show_lines st lines
  end.
Definition parse_awg_show (output : string) : outcome (fields * list fields) :=
  st ← show_lines (mkShown [] [] None) (splitlines output);
  Ok (sh_interface st, close_shown st).

(** ** The tunnel's endpoints *)
Definition configured : Agent (gmap string ConfiguredPeer) :=
  let+ content := read_file (WG_CONFIG settings) in
  match content with
  | None => retA ∅
  | Some _ =>
      config_lock (let+ content := read_file (WG_CONFIG settings) in
                   retA (configured_peers content))
  end.

Definition with_psk (configured : gmap string ConfiguredPeer) (peer : fields) : fields :=
  match configured !! py_str (json_or (json_get peer "public_key") (JStr "")) with
  | Some c => dict_set peer "psk_key" (JStr (cp_psk_key c))
  | None => peer
  end.
Definition status : Agent json :=
  let+ output := run_awg ["show"; INTERFACE settings] in
  let+ result := liftA (parse_awg_show output) in
  let+ configured := configured in
  retA (JObj [("interface", JObj result.1);
              ("peers", JArr (JObj ∘ with_psk configured <$> result.2))]).

Definition AWG_DUMP_PART_COUNT : nat := 8.
Definition dump_line (line : string) : outcome (list json) :=
  match split_char line (ascii_of_nat 9) with
  | [pubkey; _; endpoint; _; last_hs; rx; tx; _] =>
      last_hs ← int_value_of last_hs;
      rx ← int_value_of rx;
      tx ← int_value_of tx;
      Ok [JObj [("public_key", JStr pubkey);
                ("endpoint", if endpoint != "(none)" then JStr endpoint else JNull);
                ("last_handshake", JInt last_hs); ("rx_bytes", JInt rx); ("tx_bytes", JInt tx)]]
  | parts =>
      if (length parts <? AWG_DUMP_PART_COUNT)%nat then Ok []
      else Raise (ValueError "too many values to unpack (expected 8)")
  end.
Definition dump : Agent json :=
  let+ output := run_awg ["show"; INTERFACE settings; "dump"] in
  let+ peers := liftA (map_outcome dump_line (tail (splitlines output))) in
  retA (JObj [("peers", JArr (concat peers))]).

Definition apply_live_interface (cfg : InterfaceConfig) (previous_interface_text : string)
    : Agent unit :=
  let+ private_key_path := named_temporary_file ".key" (private_key cfg) in
  finallyA
    (do+ checked_run (live_interface_set_args (INTERFACE settings) cfg private_key_path
                        previous_interface_text) in retA tt)
    (unlink private_key_path).

Definition configured_answer : json := JObj [("status", JStr "configured")].
Definition configure_interface (cfg : InterfaceConfig) : Agent json :=
  let+ plan := config_lock
    (let+ content := read_file (WG_CONFIG settings) in
     let '(existing_interface, desired) := configured_text content cfg in
     match desired with
     | None => retA None
     | Some desired =>
         do+ write_file (WG_CONFIG settings) desired in retA (Some existing_interface)
     end) in
  match plan with
  | None => retA configured_answer
  | Some existing_interface =>
      do+ tryA (apply_live_interface cfg existing_interface) (fun exc =>
        match exc with CalledProcessError _ _ _ => retA tt | _ => raiseA exc end) in
      retA configured_answer
  end.

Record SyncPeerRequest := mkSyncPeerRequest {
  sp_public_key : string; sp_allowed_ip : string; sp_psk_key : option string }.

Definition persist (pubkey allowed_ip psk_key : string) : Agent unit :=
  config_lock
    (let+ content := read_file (WG_CONFIG settings) in
     write_file (WG_CONFIG settings) (persist_peer content pubkey allowed_ip psk_key)).
Definition unpersist (pubkey : string) : Agent unit :=
  config_lock
    (let+ content := read_file (WG_CONFIG settings) in
     match content with
     | None => raiseA (FileNotFoundError (WG_CONFIG settings))
     | Some content => write_file (WG_CONFIG settings) (unpersist_peer content pubkey)
     end).

Definition sync_peer (req : SyncPeerRequest) : Agent json :=
  do+ run_awg ["show"; INTERFACE settings] in
  do+ (if truthy (sp_psk_key req) then
         let+ psk_file := named_temporary_file ".psk" (default "" (sp_psk_key req)) in
         finallyA
           (do+ run_awg ["set"; INTERFACE settings; "peer"; sp_public_key req;
                         "preshared-key"; psk_file; "allowed-ips"; sp_allowed_ip req +:+ "/32"] in
            retA tt)
           (unlink psk_file)
       else
         do+ run_awg ["set"; INTERFACE settings; "peer"; sp_public_key req;
                      "allowed-ips"; sp_allowed_ip req +:+ "/32"] in
         retA tt) in
  do+ persist (sp_public_key req) (sp_allowed_ip req) (str_or (sp_psk_key req) "") in
  retA (JObj [("status", JStr "ok")]).

(** [binascii.a2b_base64] without strict mode: characters outside the alphabet are skipped, and a
    complete padding ends the data. [quad] is the position in the quad, [left] its pending bits. *)
Fixpoint a2b_base64 (quad pads : nat) (left : Z) (l : chars) : option bytes :=
  match l with
  | [] => if quad == 0 then Some [] else None
  | c :: l =>
      if c == "="%char then
        if (2 <=? quad)%nat && (4 <=? quad + S pads)%nat then Some []
        else a2b_base64 quad (if (2 <=? quad)%nat then S pads else pads) left l
      else match b64_value b64_tail_std c with
      | None => a2b_base64 quad pads left l
      | Some v =>
          match quad with
          | 0 => a2b_base64 1 0 v l
          | 1 => r ← a2b_base64 2 0 (v mod 16)%Z l; Some ((left * 4 + v / 16)%Z :: r)
          | 2 => r ← a2b_base64 3 0 (v mod 4)%Z l; Some ((left * 16 + v / 4)%Z :: r)
          | _ => r ← a2b_base64 0 0 0 l; Some ((left * 64 + v)%Z :: r)
          end
      end
  end.
(** [bytes.translate] of the URL-safe alphabet. *)
Definition url_to_std (c : ascii) : ascii :=
  if c == "-"%char then "+"%char else if c == "_"%char then "/"%char else c.
(** A [binascii.Error] is the [ValueError] here that the agent catches. *)
Definition urlsafe_b64decode (s : string) : outcome (option bytes) :=
  if forallb (fun c => (code c <? 128)%nat) (of_str s)
  then Ok (a2b_base64 0 0 0 (url_to_std <$> of_str s))
  else Raise (ValueError "string argument should contain only ASCII characters").

Definition PUBKEY_LEN : nat := 32.
Definition delete_peer (pubkey_b64 : string) : Agent json :=
  let+ decoded := liftA (urlsafe_b64decode (to_str (b64_pad (of_str pubkey_b64)))) in
  match decoded with
  | None => raiseA (HTTPException 400 "Invalid pubkey encoding")
  | Some raw =>
      if length raw != PUBKEY_LEN then raiseA (HTTPException 400 "Invalid pubkey length") else
      let pub_std := b64encode raw in
      do+ run_awg ["set"; INTERFACE settings; "peer"; pub_std; "remove"] in
      do+ unpersist pub_std in
      retA (JObj [("removed", JStr pub_std)])
  end.

(** ** MTProxy *)
Definition SUPERVISOR_CONFIG_PATH : string := "/etc/supervisor/conf.d/supervisord.conf".
Definition SUPERVISOR_TIMEOUT_SECONDS : Z := 5.
Definition SUPERVISOR_ACTIONS : list string := ["start"; "stop"; "restart"; "status"].

Record MTProxyStatus := mkMTProxyStatus {
  ms_state : string; ms_port : option Z; ms_public_host : option string; ms_secret_set : bool }.

(** The constraints of the request body. *)
Definition valid_mtproxy (c : MTProxyConfig) : bool :=
  (1 <=? mt_port c)%Z && (mt_port c <=? 65535)%Z && truthy_str (mt_public_host c) &&
  truthy_str (mt_secret c) && truthy_str (mt_tls_domain c).

Definition apply_mtproxy_config (config : MTProxyConfig) : Agent unit :=
  let+ temp := named_temporary_file ".tmp" (model_dump_json config +:+ newline) in
  do+ write_file (MTPROXY_CONFIG_PATH settings) (model_dump_json config +:+ newline) in
  unlink temp.
Definition remove_mtproxy_config : Agent unit := unlink (MTPROXY_CONFIG_PATH settings).

(** The exit code and the output of a command. *)
Abbreviation runner := (list string → Agent (Z * string)).
Definition run_supervisor : runner := fun args =>
  let+ result := subprocess_run args (Some SUPERVISOR_TIMEOUT_SECONDS) in
  retA (result.1.1, result.1.2).
Definition supervisor_with (run : runner) (action : string) : Agent string :=
  let+ result := tryA (run ["supervisorctl"; "-c"; SUPERVISOR_CONFIG_PATH; action; "mtproxy"])
    (fun exc => match exc with
                | TimeoutExpired _ => raiseA (SupervisorTimeoutError action)
                | _ => raiseA exc
                end) in
  if result.1 != 0%Z then raiseA (SupervisorCommandError action result.1)
  else retA (strip result.2).
Definition supervisor_mtproxy : string → Agent string := supervisor_with run_supervisor.

Definition supervisor_action (args : list string) : outcome string :=
  match List.find (fun arg => arg isin SUPERVISOR_ACTIONS) (rev args) with
  | Some arg => Ok arg
  | None => Raise (SupervisorCommandError "status" 1)
  end.
(** The runner the agent's endpoints use: it runs [supervisorctl] itself and raises its errors. *)
Definition mtproxy_status_runner : runner := fun args =>
  let+ action := liftA (supervisor_action args) in
  let+ output := supervisor_mtproxy action in
  retA (0%Z, output).

Definition load_config : Agent (option MTProxyConfig) :=
  let+ content := read_file (MTPROXY_CONFIG_PATH settings) in
  match content with
  | None => retA None
  | Some content =>
      let+ config := liftA (model_validate_json (read_text content)) in retA (Some config)
  end.

Definition supervisor_states : list string :=
  ["RUNNING"; "STARTING"; "STOPPED"; "EXITED"; "FATAL"; "BACKOFF"; "UNKNOWN"].
Definition extract_supervisor_state (supervisor_output : string) : string :=
  match split_ws supervisor_output with
  | _ :: candidate :: _ => if candidate isin supervisor_states then candidate else "UNKNOWN"
  | _ => "UNKNOWN"
  end.
Definition parse_supervisor_state (supervisor_output : string) : string :=
  let state := extract_supervisor_state supervisor_output in
  if state isin ["RUNNING"; "STARTING"] then "running"
  else if state isin ["STOPPED"; "EXITED"] then "stopped"
  else "failed".

Definition status_of (state : string) (config : option MTProxyConfig) : MTProxyStatus :=
  match config with
  | None => mkMTProxyStatus "disabled" None None false
  | Some c => mkMTProxyStatus state (Some (mt_port c)) (Some (mt_public_host c)) (truthy_str (mt_secret c))
  end.
Definition parse_mtproxy_status (supervisor_output : string) : Agent MTProxyStatus :=
  let+ config := load_config in
  retA (status_of (parse_supervisor_state supervisor_output) config).
Definition read_mtproxy_status (run : runner) : Agent MTProxyStatus :=
  let+ supervisor_output := tryA (let+ out := supervisor_with run "status" in retA (Some out))
    (fun exc => match exc with SupervisorCommandError _ _ => retA None | _ => raiseA exc end) in
  match supervisor_output with
  | None => let+ config := load_config in retA (status_of "disabled" config)
  | Some out => parse_mtproxy_status out
  end.
Definition current_mtproxy_status : Agent MTProxyStatus := read_mtproxy_status mtproxy_status_runner.

(** [raise _mtproxy_http_error(exc) from exc] for the supervisor's errors. *)
Definition is_command_error (exc : exn) : bool :=
  match exc with SupervisorCommandError _ _ => true | _ => false end.
Definition is_timeout_error (exc : exn) : bool :=
  match exc with SupervisorTimeoutError _ => true | _ => false end.
Definition supervisor_errors {A} (caught : exn → bool) (m : Agent A) : Agent A :=
  tryA m (fun exc => if caught exc then raiseA (HTTPException 500 (exn_text exc)) else raiseA exc).

Definition apply_mtproxy (req : MTProxyConfig) : Agent MTProxyStatus :=
  supervisor_errors (fun exc => is_command_error exc || is_timeout_error exc)
    (do+ apply_mtproxy_config req in
     let+ status := current_mtproxy_status in
     do+ (if ms_state status == "running" then supervisor_mtproxy "restart"
          else supervisor_mtproxy "start") in
     current_mtproxy_status).
Definition mtproxy_status : Agent MTProxyStatus :=
  supervisor_errors is_timeout_error current_mtproxy_status.
Definition disable_mtproxy : Agent MTProxyStatus :=
  do+ supervisor_errors (fun exc => is_command_error exc || is_timeout_error exc)
        (do+ supervisor_mtproxy "stop" in remove_mtproxy_config) in
  retA (mkMTProxyStatus "disabled" None None false).
Definition start_mtproxy_from_existing_config : Agent unit :=
  let+ content := read_file (MTPROXY_CONFIG_PATH settings) in
  match content with
  | None => retA tt
  | Some _ =>
      tryA (do+ supervisor_mtproxy "start" in retA tt) (fun exc =>
        if is_command_error exc || is_timeout_error exc then retA tt else raiseA exc)
  end.

(** ** The application *)
Inductive agent_request :=
  | Health
  | Status
  | Dump
  | PutInterface (cfg : InterfaceConfig)
  | PutPeer (req : SyncPeerRequest)
  (* the decoded path of a DELETE request *)
  | Delete (path : string)
  | PutMtproxy (req : MTProxyConfig)
  | MtproxyStatus.

Definition status_json (s : MTProxyStatus) : json :=
  JObj [("state", JStr (ms_state s));
        ("port", match ms_port s with Some p => JInt p | None => JNull end);
        ("public_host", match ms_public_host s with Some h => JStr h | None => JNull end);
        ("secret_set", JBool (ms_secret_set s))].

(** A path parameter is one non-empty segment. *)
Definition peer_segment (path : string) : option string :=
  if startswith path "/peers/" then
    let seg := removeprefix path "/peers/" in
    if truthy_str seg && negb ("/"%char isin of_str seg) then Some seg else None
  else None.
(** The paths that answer other methods. *)
Definition other_paths : list string :=
  ["/health"; "/mtproxy/status"; "/status"; "/dump"; "/interface"; "/peers"].

(** [validation_exception_handler] *)
Definition validation_location (location : json) : string :=
  match location with
  | JArr parts =>
      join "." (py_str <$> List.filter (fun part =>
        match part with JStr s => negb (s isin ["body"; "query"; "path"]) | _ => true end) parts)
  | _ => ""
  end.
Definition validation_error_message (error : fields) : string :=
  let location := validation_location (json_get error "loc") in
  let message := get_str error "msg" "Invalid value" in
  if truthy_str location then location +:+ ": " +:+ message else message.
Definition validation_detail (errors : list fields) : string :=
  match validation_error_message <$> errors with
  | [] => "Invalid request"
  | messages => "Invalid request: " +:+ join "; " messages
  end.

Definition route (req : agent_request) : Agent json :=
  match req with
  | Health => retA (JObj [("status", JStr "ok")])
  | Status => status
  | Dump => dump
  | PutInterface cfg => configure_interface cfg
  | PutPeer req => sync_peer req
  | Delete path =>
      if path == "/mtproxy" then let+ s := disable_mtproxy in retA (status_json s)
      else match peer_segment path with
           | Some seg => delete_peer seg
           | None =>
               if path isin other_paths then raiseA (HTTPException 405 "Method Not Allowed")
               else raiseA (HTTPException 404 "Not Found")
           end
  | PutMtproxy req =>
      if valid_mtproxy req then let+ s := apply_mtproxy req in retA (status_json s)
      else raiseA (HTTPException 422 (validation_detail (validation_errors req)))
  | MtproxyStatus => let+ s := mtproxy_status in retA (status_json s)
  end.

(** [require_auth]: every endpoint but [/health], and no unmatched path, asks for the token. *)
Definition needs_token (req : agent_request) : bool :=
  match req with
  | Health => false
  | Delete path => (path == "/mtproxy") || match peer_segment path with Some _ => true | None => false end
  | _ => true
  end.
Definition authorised (token : option string) : outcome unit :=
  match token with
  | None => Raise (HTTPException 401 "Not authenticated")
  | Some t => if t != AGENT_TOKEN settings then Raise (HTTPException 401 "Invalid token") else Ok tt
  end.
Definition handle_request (token : option string) (req : agent_request) : Agent json :=
  if needs_token req then do+ liftA (authorised token) in route req else route req.

(** The exception handlers: a status code and a JSON body. *)
Definition phrase (code : Z) : string :=
  if code == 400%Z then "Bad Request" else if code == 401%Z then "Unauthorized"
  else if code == 404%Z then "Not Found" else if code == 422%Z then "Unprocessable Content"
  else "Internal Server Error".
Definition http_detail (code : Z) (detail : string) : string :=
  if truthy_str detail then detail else phrase code.
Definition agent_response (o : outcome json) : Z * json :=
  match o with
  | Ok body => (200%Z, body)
  | Raise (HTTPException code detail) => (code, JObj [("detail", JStr (http_detail code detail))])
  | Raise _ =>
      (500%Z, JObj [("detail", JStr "Internal server error. Details were written to the server log.")])
  end.
Definition agent_serve (token : option string) (req : agent_request) (n : node W)
    : (Z * json) * node W :=
  let '(o, n) := handle_request token req n in (agent_response o, n).
End agent.

(** A run of the agent: what every request was answered with. *)
Fixpoint run_agent {W} `{Host W} (settings : AgentSettings)
    (requests : list (option string * agent_request)) (n : node W) : list (outcome json) * node W :=
  match requests with
  | [] => ([], n)
  | (token, req) :: requests =>
      let '(o, n) := handle_request settings token req n in
      let '(os, n) := run_agent settings requests n in (o :: os, n)
  end.

(** ** The table of peers

    What the agent promises: a table of peers that a successful PUT writes and a successful DELETE
    removes from, and nothing else changes. *)
Definition deleted_key (path : string) : option string :=
  match peer_segment path with
  | Some seg =>
      match urlsafe_b64decode (to_str (b64_pad (of_str seg))) with
      | Ok (Some raw) => Some (b64encode raw)
      | _ => None
      end
  | None => None
  end.
Definition table_step (table : gmap string ConfiguredPeer) (step : agent_request * outcome json)
    : gmap string ConfiguredPeer :=
  if is_ok step.2 then
    match step.1 with
    | PutPeer req =>
        <[sp_public_key req := written_peer (sp_public_key req) (sp_allowed_ip req)
                                 (str_or (sp_psk_key req) "")]> table
    | Delete path =>
        match deleted_key path with Some key => delete key table | None => table end
    | _ => table
    end
  else table.

(** The values a request may carry: single tokens, and an interface without a peer section. *)
Definition clean_request (req : agent_request) : bool :=
  match req with
  | PutPeer req => clean_peer (sp_public_key req) (sp_allowed_ip req) (str_or (sp_psk_key req) "")
  | PutInterface cfg => clean_interface cfg
  | _ => true
  end.

(** The agent's files are different files. *)
Class AgentFiles {W} `{Host W} (settings : AgentSettings) : Prop := {
  temp_is_new : ∀ d suffix, temp_name d suffix ≠ WG_CONFIG settings;
  temp_is_not_mtproxy : ∀ d suffix, temp_name d suffix ≠ MTPROXY_CONFIG_PATH settings;
  mtproxy_elsewhere : MTPROXY_CONFIG_PATH settings ≠ WG_CONFIG settings }.

Section refinement.
Context {W : Type} `{Host W} (settings : AgentSettings) `{!AgentFiles settings}.

Definition tunnel_config (n : node W) : option string := disk n !! WG_CONFIG settings.
Definition peer_table (n : node W) : gmap string ConfiguredPeer := configured_peers (tunnel_config n).
Definition readable (content : option string) : Prop :=
  match content with Some text => ∃ es, Holds text es | None => True end.

(** Computations that leave the tunnel's configuration alone. *)
Definition leaves {A} (m : Act (node W) A) : Prop := ∀ n, tunnel_config (m n).2 = tunnel_config n.

Lemma leaves_ret {A} (a : A) : leaves (retA a).
Proof. by intros n. Qed.
Lemma leaves_raise {A} e : leaves (A := A) (raiseA e).
Proof. by intros n. Qed.
Lemma leaves_lift {A} (o : outcome A) : leaves (liftA o).
Proof. by intros n. Qed.
Lemma leaves_bind {A B} (m : Act (node W) A) (k : A → Act (node W) B) :
  leaves m → (∀ a, leaves (k a)) → leaves (bindA m k).
Proof.
  intros Hm Hk n. rewrite bindA_run. specialize (Hm n). destruct (m n) as [[a|e] n']; [|done].
  by rewrite Hk.
Qed.
Lemma leaves_try {A} (m : Act (node W) A) h : leaves m → (∀ e, leaves (h e)) → leaves (tryA m h).
Proof.
  intros Hm Hh n. unfold tryA. specialize (Hm n). destruct (m n) as [[a|e] n']; [done|]. by rewrite Hh.
Qed.
Lemma leaves_finally {A} (m : Act (node W) A) h : leaves m → leaves h → leaves (finallyA m h).
Proof.
  intros Hm Hh n. unfold finallyA. specialize (Hm n). destruct (m n) as [o n'].
  specialize (Hh n'). destruct (h n') as [[a|e] n'']; cbn in *; congruence.
Qed.
Lemma leaves_read path : leaves (read_file path).
Proof. by intros n. Qed.
Lemma leaves_run args timeout : leaves (subprocess_run args timeout).
Proof. intros n. unfold subprocess_run. by destruct (run_process _ _ _ _). Qed.
Lemma leaves_write path content : path ≠ WG_CONFIG settings → leaves (write_file path content).
Proof. intros Hp n. apply lookup_insert_ne. done. Qed.
Lemma leaves_unlink path : path ≠ WG_CONFIG settings → leaves (unlink path).
Proof. intros Hp n. apply lookup_delete_ne. done. Qed.
Lemma leaves_with_temp {A} suffix content (k : string → Act (node W) A) :
  (∀ name, name ≠ WG_CONFIG settings → leaves (k name)) →
  leaves (bindA (named_temporary_file suffix content) k).
Proof.
  intros Hk n. rewrite bindA_run. unfold named_temporary_file. rewrite (Hk _ (temp_is_new _ _)).
  apply lookup_insert_ne, temp_is_new.
Qed.
Lemma lock_elsewhere : WG_CONFIG settings +:+ ".lock" ≠ WG_CONFIG settings.
Proof.
  intros E. apply (f_equal (fun s => length (of_str s))) in E.
  rewrite of_str_app, length_app in E. cbn in E. lia.
Qed.
Lemma leaves_lock {A} (m : Act (node W) A) : leaves m → leaves (config_lock settings m).
Proof. intros Hm. apply leaves_bind; [apply leaves_write, lock_elsewhere|done]. Qed.
End refinement.

Ltac leaves_tac :=
  repeat first
    [ apply leaves_ret | apply leaves_raise | apply leaves_lift | apply leaves_read | apply leaves_run
    | refine (leaves_with_temp _ _ _ _ _); intros ? ? | apply leaves_lock | apply leaves_finally
    | apply leaves_bind; [|intros ?] | apply leaves_try; [|intros ?]
    | apply leaves_write; apply mtproxy_elsewhere
    | apply leaves_unlink; first [assumption | apply mtproxy_elsewhere]
    | match goal with |- leaves _ (match ?x with _ => _ end) => destruct x end
    | match goal with |- leaves _ (let _ := ?x in _) => cbv zeta end
    | match goal with |- AgentFiles _ => assumption end ].

Section table.
Context {W : Type} `{Host W} (settings : AgentSettings) `{!AgentFiles settings}.

Lemma leaves_checked_run args : leaves (W := W) settings (checked_run args).
Proof. unfold checked_run. leaves_tac. Qed.
Lemma leaves_awg args : leaves (W := W) settings (run_awg args).
Proof. unfold run_awg. apply leaves_try; [apply leaves_checked_run|intros e; leaves_tac]. Qed.
Lemma leaves_status : leaves (W := W) settings (status settings).
Proof. unfold status, configured. apply leaves_bind; [apply leaves_awg|intros ?]. leaves_tac. Qed.
Lemma leaves_dump : leaves (W := W) settings (dump settings).
Proof. unfold dump. apply leaves_bind; [apply leaves_awg|intros ?]. leaves_tac. Qed.
Lemma leaves_supervisor_with run action :
  (∀ args, leaves (W := W) settings (run args)) → leaves (W := W) settings (supervisor_with run action).
Proof. intros Hr. unfold supervisor_with. leaves_tac. apply Hr. Qed.
Lemma leaves_supervisor action : leaves (W := W) settings (supervisor_mtproxy action).
Proof. apply leaves_supervisor_with. intros args. unfold run_supervisor. leaves_tac. Qed.
Lemma leaves_mtproxy_status : leaves (W := W) settings (current_mtproxy_status settings).
Proof.
  unfold current_mtproxy_status, read_mtproxy_status, parse_mtproxy_status, load_config.
  leaves_tac.
Qed.

(** A computation that, when it succeeds, has changed the configuration by [f], and otherwise has
    left it alone. *)
Definition effect {A} (m : Act (node W) A) (f : option string → option string) : Prop := ∀ n,
  tunnel_config settings (m n).2 =
  if is_ok (m n).1 then f (tunnel_config settings n) else tunnel_config settings n.

Lemma effect_leaves {A} (m : Act (node W) A) : leaves settings m → effect m (fun c => c).
Proof. intros Hm n. rewrite Hm. by destruct (is_ok _). Qed.
Lemma effect_after {A B} (m : Act (node W) A) (k : A → Act (node W) B) f :
  leaves settings m → (∀ a, effect (k a) f) → effect (bindA m k) f.
Proof.
  intros Hm Hk n. rewrite bindA_run. specialize (Hm n). destruct (m n) as [[a|e] n']; [|done].
  cbn in Hm. by rewrite Hk, Hm.
Qed.
Lemma effect_ret {A B} (m : Act (node W) A) (b : A → B) f :
  effect m f → effect (bindA m (fun a => retA (b a))) f.
Proof. intros Hm n. rewrite bindA_run. specialize (Hm n). by destruct (m n) as [[a|e] n']. Qed.

Lemma effect_lift {A B} (a : A) (k : A → Act (node W) B) f :
  effect (k a) f → effect (bindA (liftA (Ok a)) k) f.
Proof. done. Qed.

Lemma effect_persist k ip psk :
  effect (persist settings k ip psk) (fun c => Some (persist_peer c k ip psk)).
Proof.
  apply effect_after; [apply leaves_write, lock_elsewhere|]. intros _ n. cbn. apply lookup_insert_eq.
Qed.
Lemma effect_unpersist k :
  effect (unpersist settings k) (fmap (fun text => unpersist_peer text k)).
Proof.
  apply effect_after; [apply leaves_write, lock_elsewhere|]. intros _ n. unfold read_file.
  rewrite bindA_run. unfold tunnel_config.
  destruct (disk n !! WG_CONFIG settings) as [text|] eqn:E; [|done]. cbn. apply lookup_insert_eq.
Qed.

Lemma sync_peer_effect req :
  effect (sync_peer settings req)
    (fun c => Some (persist_peer c (sp_public_key req) (sp_allowed_ip req) (str_or (sp_psk_key req) ""))).
Proof.
  unfold sync_peer. apply effect_after; [apply leaves_awg|intros _].
  apply effect_after; [leaves_tac|intros _].
  apply (effect_ret _ (fun _ => JObj [("status", JStr "ok")])), effect_persist.
Qed.

Lemma delete_peer_effect seg :
  effect (delete_peer settings seg)
    (match urlsafe_b64decode (to_str (b64_pad (of_str seg))) with
     | Ok (Some raw) => fmap (fun text => unpersist_peer text (b64encode raw))
     | _ => fun c => c
     end).
Proof.
  unfold delete_peer. destruct (urlsafe_b64decode _) as [[raw|]|e]; [|intros n; reflexivity|intros n; reflexivity].
  apply effect_lift. cbv iota.
  destruct (length raw != PUBKEY_LEN); [intros n; reflexivity|].
  apply effect_after; [apply leaves_awg|intros _].
  apply (effect_ret _ (fun _ => JObj [("removed", JStr (b64encode raw))])), effect_unpersist.
Qed.

(** [PUT /interface] keeps the peers whatever happens to the live update. *)
Lemma configure_interface_effect cfg n :
  tunnel_config settings (configure_interface settings cfg n).2 =
  match (configured_text (tunnel_config settings n) cfg).2 with
  | Some text => Some text
  | None => tunnel_config settings n
  end.
Proof.
  unfold configure_interface. rewrite bindA_run.
  match goal with |- context [config_lock settings ?m n] =>
    assert (∃ plan n', config_lock settings m n = (Ok plan, n') ∧
      tunnel_config settings n' = match (configured_text (tunnel_config settings n) cfg).2 with
                                  | Some text => Some text
                                  | None => tunnel_config settings n
                                  end) as (plan & n' & -> & <-) end.
  { unfold config_lock. rewrite bindA_run. unfold write_file at 1. rewrite bindA_run.
    unfold read_file. cbn [disk]. rewrite lookup_insert_ne by apply lock_elsewhere.
    fold (tunnel_config settings n).
    destruct (configured_text (tunnel_config settings n) cfg) as [old [text|]];
      do 2 eexists; (split; [reflexivity|]); [apply lookup_insert_eq|].
    apply lookup_insert_ne, lock_elsewhere. }
  revert n'. match goal with |- ∀ n, tunnel_config _ (?m n).2 = _ => change (leaves settings m) end.
  leaves_tac.
Qed.

(** One request against the table. *)
Lemma leaves_effect {A} (m : Act (node W) A) n :
  leaves settings m → tunnel_config settings (m n).2 = tunnel_config settings n.
Proof. intros Hm. apply Hm. Qed.

Lemma effect_json {A} (m : Act (node W) A) (b : A → json) f :
  effect m f → effect (bindA m (fun a => retA (b a))) f.
Proof. apply effect_ret. Qed.

(** What a request leaves in the file. *)
Definition file_step (req : agent_request) (o : outcome json) (content content' : option string) : Prop :=
  match req with
  | PutPeer r =>
      content' = if is_ok o then Some (persist_peer content (sp_public_key r) (sp_allowed_ip r)
                                         (str_or (sp_psk_key r) ""))
                 else content
  | Delete path =>
      content' = match deleted_key path with
                 | Some k => if is_ok o then (fun text => unpersist_peer text k) <$> content else content
                 | None => content
                 end
  | PutInterface cfg =>
      content' = content ∨
      content' = match (configured_text content cfg).2 with Some text => Some text | None => content end
  | _ => content' = content
  end.

Lemma delete_unmatched_leaves path :
  peer_segment path = None → leaves settings (route settings (Delete path)).
Proof. intros Hp. cbn [route]. rewrite Hp. leaves_tac. Qed.
Lemma route_file_step req n :
  file_step req (route settings req n).1 (tunnel_config settings n)
    (tunnel_config settings (route settings req n).2).
Proof.
  destruct req as [| | |cfg|req|path|req|]; cbn [file_step].
  - done.
  - apply leaves_effect, leaves_status.
  - apply leaves_effect, leaves_dump.
  - right. apply configure_interface_effect.
  - apply sync_peer_effect.
  - unfold deleted_key. destruct (peer_segment path) as [seg|] eqn:Hseg;
      [|by apply leaves_effect, delete_unmatched_leaves].
    cbn [route]. rewrite Hseg. destruct (path == "/mtproxy") eqn:Hp.
    { py_bool. by subst path. }
    pose proof (delete_peer_effect seg n) as E.
    rewrite E. destruct (urlsafe_b64decode _) as [[raw|]|e]; [done|..]; by destruct (is_ok _).
  - apply leaves_effect. cbn [route]. unfold apply_mtproxy, supervisor_errors, apply_mtproxy_config.
    leaves_tac.
  - apply leaves_effect. cbn [route]. unfold mtproxy_status, supervisor_errors. leaves_tac.
Qed.
Lemma request_file_step token req n :
  file_step req (handle_request settings token req n).1 (tunnel_config settings n)
    (tunnel_config settings (handle_request settings token req n).2).
Proof.
  unfold handle_request. destruct (needs_token req); [|apply route_file_step].
  rewrite bindA_run. unfold liftA, authorised. destruct token as [t|].
  - destruct (t != AGENT_TOKEN settings); [|apply route_file_step].
    destruct req; cbn; auto. by destruct (deleted_key path).
  - destruct req; cbn; auto. by destruct (deleted_key path).
Qed.

Lemma file_step_table req o content content' :
  file_step req o content content' → clean_request req = true → readable content →
  readable content' ∧
  configured_peers content' = table_step (configured_peers content) (req, o).
Proof.
  intros Hstep Hc Hr.
  destruct req as [| | |cfg|r|path|r|]; cbn [file_step clean_request] in Hstep, Hc;
    unfold table_step; cbn [fst snd].
  - subst. by destruct (is_ok o).
  - subst. by destruct (is_ok o).
  - subst. by destruct (is_ok o).
  - assert (readable content' ∧ configured_peers content' = configured_peers content) as [? ->];
      [|by destruct (is_ok o)].
    destruct Hstep as [->| ->]; [done|]. destruct content as [text|].
    + destruct Hr as [es Hes]. pose proof (holds_interface text es cfg Hes Hc) as Hn.
      destruct (configured_text (Some text) cfg) as [old [text'|]]; cbn in Hn |- *.
      * split; [by exists es|]. fold (configured_peers (Some text')) (configured_peers (Some text)).
        by rewrite !(holds_configured _ es).
      * split; [by exists es|done].
    + pose proof (holds_first_interface cfg Hc) as Hn.
      destruct (configured_text None cfg) as [old [text'|]]; cbn in Hn |- *; [|done].
      split; [by exists []|]. fold (configured_peers (Some text')). by rewrite (holds_configured _ []).
  - subst content'. destruct (is_ok o); [|done]. destruct content as [text|].
    + destruct Hr as [es Hes]. pose proof (holds_persist _ _ _ _ _ Hes Hc) as Hn. split; [by eexists|].
      rewrite (holds_configured _ _ Hn), put_entry_map by by eapply holds_nodup. by rewrite (holds_configured _ _ Hes).
    + pose proof (holds_new_file _ _ _ Hc) as Hn. split; [by eexists|].
      rewrite (holds_configured _ _ Hn). done.
  - subst content'. destruct (deleted_key path) as [k|]; [|by destruct (is_ok o)].
    destruct (is_ok o); [|done]. destruct content as [text|]; cbn [fmap option_fmap option_map].
    + destruct Hr as [es Hes]. pose proof (holds_unpersist _ _ k Hes) as Hn. split; [by eexists|].
      rewrite (holds_configured _ _ Hn), drop_entry_map by by eapply holds_nodup. by rewrite (holds_configured _ _ Hes).
    + split; [done|]. cbn. by rewrite delete_empty.
  - subst. by destruct (is_ok o).
  - subst. by destruct (is_ok o).
Qed.

Lemma request_table token req n :
  readable (tunnel_config settings n) → clean_request req = true →
  let r := handle_request settings token req n in
  readable (tunnel_config settings r.2) ∧
  peer_table settings r.2 = table_step (peer_table settings n) (req, r.1).
Proof. intros Hr Hc. eapply file_step_table; [apply request_file_step|done|done]. Qed.

(** C5: the node agent implements a table of peers. Whatever requests it serves, in whatever order,
    with or without a valid token, and whatever the [awg] and [supervisorctl] commands answer, the
    peers it reads back from its configuration file are those the successful requests wrote: a PUT of
    a peer that was answered without an error stores that peer with its address and its pre-shared
    key, a DELETE that was answered without an error removes the peer its path decodes to, and no
    other request (a new interface section included) changes any peer. *)
Theorem agent_refines_peer_table requests n :
  readable (tunnel_config settings n) →
  Forall (fun r => clean_request r.2 = true) requests →
  let '(answers, n') := run_agent settings requests n in
  readable (tunnel_config settings n') ∧
  peer_table settings n' = foldl table_step (peer_table settings n) (zip requests.*2 answers).
Proof.
  intros Hr Hc. revert n Hr. induction Hc as [|[token req] requests Hreq _ IH]; intros n Hr; [done|].
  cbn [run_agent]. destruct (request_table token req n Hr Hreq) as [Hr' Ht].
  destruct (handle_request settings token req n) as [o n']. cbn [fst snd] in Hr', Ht.
  specialize (IH n' Hr'). destruct (run_agent settings requests n') as [os n'']. destruct IH as [Hr'' IH].
  split; [done|]. cbn [fmap list_fmap zip zip_with foldl snd]. rewrite IH, Ht. done.
Qed.
End table.

(** ** The key of a DELETE *)
Lemma b64_value_pad tail : good_tail tail → b64_value tail "="%char = None.
Proof. by intros [->| ->]. Qed.

(** On what strict decoding accepts, the lenient decoder agrees with it. *)
Lemma a2b_strict l bs : b64_decode_chars b64_tail_std l = Some bs → a2b_base64 0 0 0 l = Some bs.
Proof.
  remember (length l) as k eqn:Hk. revert l bs Hk.
  induction (lt_wf k) as [k _ IH]. intros l bs -> Hd.
  assert (∀ c, c = "="%char → b64_value b64_tail_std c = None) as Hpad by (by intros c ->).
  destruct l as [|w [|x [|y [|z l]]]]; [done..|]. cbn [b64_decode_chars] in Hd.
  destruct (b64_value b64_tail_std w) as [a|] eqn:Ew; [|done].
  destruct (b64_value b64_tail_std x) as [b|] eqn:Ex; [|done]. cbn [mbind option_bind] in Hd.
  assert ((w == "="%char) = false ∧ (x == "="%char) = false) as [Hw Hx]
    by (split; apply bool_decide_eq_false_2; intros E; apply Hpad in E; congruence).
  cbn [a2b_base64]. rewrite Hw, Ew, Hx, Ex.
  destruct (y == "="%char) eqn:Hy; [destruct (z == "="%char) eqn:Hz|]; cbn [andb] in Hd.
  - destruct l; [|done]. injection Hd as <-. reflexivity.
  - apply bool_decide_eq_true in Hy. by rewrite (Hpad y Hy) in Hd.
  - destruct (b64_value b64_tail_std y) as [c|] eqn:Ey; [|done]. cbn [mbind option_bind] in Hd.
    destruct (z == "="%char) eqn:Hz.
    + destruct l; [|done]. injection Hd as <-. reflexivity.
    + destruct (b64_value b64_tail_std z) as [d|] eqn:Ez; [|done]. cbn [mbind option_bind] in Hd.
      destruct (b64_decode_chars b64_tail_std l) as [r|] eqn:Er; [|done]. injection Hd as <-.
      rewrite (IH (length l) ltac:(cbn; lia) l r eq_refl Er). reflexivity.
Qed.

Lemma url_to_std_value c v :
  b64_value b64_tail_url c = Some v → b64_value b64_tail_std (url_to_std c) = Some v.
Proof. destruct c as [[] [] [] [] [] [] [] []]; vm_compute; try done; auto. Qed.
Lemma url_to_std_pad c : (url_to_std c == "="%char) = (c == "="%char).
Proof. destruct c as [[] [] [] [] [] [] [] []]; vm_compute; reflexivity. Qed.
Lemma url_to_std_decode l bs :
  b64_decode_chars b64_tail_url l = Some bs →
  b64_decode_chars b64_tail_std (url_to_std <$> l) = Some bs.
Proof.
  remember (length l) as k eqn:Hk. revert l bs Hk.
  induction (lt_wf k) as [k _ IH]. intros l bs -> Hd.
  destruct l as [|w [|x [|y [|z l]]]]; [done..|].
  cbn [fmap list_fmap b64_decode_chars] in *. rewrite !url_to_std_pad.
  destruct (b64_value b64_tail_url w) as [a|] eqn:Ew; [|done]. rewrite (url_to_std_value _ _ Ew).
  destruct (b64_value b64_tail_url x) as [b|] eqn:Ex; [|done]. rewrite (url_to_std_value _ _ Ex).
  cbn [mbind option_bind] in *.
  destruct ((y == "="%char) && (z == "="%char)); [by destruct l|].
  destruct (b64_value b64_tail_url y) as [c|] eqn:Ey; [|done]. rewrite (url_to_std_value _ _ Ey).
  cbn [mbind option_bind] in *. destruct (z == "="%char); [by destruct l|].
  destruct (b64_value b64_tail_url z) as [d|] eqn:Ez; [|done]. rewrite (url_to_std_value _ _ Ez).
  cbn [mbind option_bind] in *.
  destruct (b64_decode_chars b64_tail_url l) as [r|] eqn:Er; [|done].
  by rewrite (IH (length l) ltac:(cbn; lia) l r eq_refl Er).
Qed.

Lemma b64_pad_whole l : length l mod 4 = 0 → b64_pad l = l.
Proof.
  intros Hl. unfold b64_pad.
  assert (Z.of_nat (length l) mod 4 = 0)%Z as Hz.
  { change 4%Z with (Z.of_nat 4). rewrite <- Nat2Z.inj_mod, Hl. done. }
  assert ((- Z.of_nat (length l)) mod 4 = 0)%Z as -> by (Z.div_mod_to_equations; lia).
  apply app_nil_r.
Qed.

(** The characters of an encoding are ASCII, and the URL-safe ones have no slash. *)
Definition b64_char (tail : list ascii) (c : ascii) : bool :=
  (c == "="%char) || match b64_value tail c with Some _ => true | None => false end.
Lemma decoded_chars tail l bs :
  good_tail tail → b64_decode_chars tail l = Some bs → forallb (b64_char tail) l = true.
Proof.
  intros Ht. remember (length l) as k eqn:Hk. revert l bs Hk.
  induction (lt_wf k) as [k _ IH]. intros l bs -> Hd. unfold b64_char in *.
  destruct l as [|w [|x [|y [|z l]]]]; [done..|]. cbn [b64_decode_chars forallb] in *.
  destruct (b64_value tail w) as [a|]; [|done].
  destruct (b64_value tail x) as [b|]; [|done]. cbn [mbind option_bind] in *. rewrite !orb_true_r. cbn [andb].
  destruct (y == "="%char) eqn:Hy; cbn [andb] in Hd; [destruct (z == "="%char) eqn:Hz|].
  - destruct l; [|done]. done.
  - py_bool. subst y. by rewrite b64_value_pad in Hd.
  - destruct (b64_value tail y) as [c|]; [|done]. cbn [mbind option_bind orb] in *.
    destruct (z == "="%char); [destruct l; done|].
    destruct (b64_value tail z) as [d|]; [|done]. cbn [mbind option_bind orb andb] in *.
    destruct (b64_decode_chars tail l) as [r|] eqn:Er; [|done].
    apply (IH (length l) ltac:(cbn; lia) l r eq_refl Er).
Qed.
Lemma b64_char_ascii tail c : good_tail tail → b64_char tail c = true → (code c <? 128)%nat = true.
Proof. intros [->| ->]; destruct c as [[] [] [] [] [] [] [] []]; vm_compute; done. Qed.
Lemma url_char_not_slash c : b64_char b64_tail_url c = true → c ≠ "/"%char.
Proof. by intros H ->. Qed.

(** The three spellings of a key decode to it. *)
Lemma std_key_decodes raw :
  is_bytes raw → urlsafe_b64decode (to_str (b64_pad (of_str (b64encode raw)))) = Ok (Some raw).
Proof.
  intros Hr. assert (good_tail b64_tail_std) as Ht by by left.
  pose proof (b64_decode_encode _ raw Ht Hr) as Hd.
  pose proof (decoded_chars _ _ _ Ht Hd) as Hc. rewrite forallb_forall in Hc.
  unfold b64encode. rewrite of_to_str, b64_pad_whole by apply b64_encode_length.
  unfold urlsafe_b64decode. rewrite of_to_str.
  assert (forallb (fun c => (code c <? 128)%nat) (b64_encode_chars b64_tail_std raw) = true) as ->.
  { apply forallb_forall. intros c Hin. apply (b64_char_ascii b64_tail_std); [done|by apply Hc]. }
  assert (url_to_std <$> b64_encode_chars b64_tail_std raw = b64_encode_chars b64_tail_std raw) as ->.
  { rewrite <- (list_fmap_id (b64_encode_chars b64_tail_std raw)) at 2.
    apply list_fmap_ext. intros i c Hi. apply list_elem_of_lookup_2, list_elem_of_In, Hc in Hi.
    clear -Hi. destruct c as [[] [] [] [] [] [] [] []]; vm_compute in Hi |- *; done. }
  by rewrite (a2b_strict _ _ Hd).
Qed.
Lemma url_chars_decode l raw :
  b64_decode_chars b64_tail_url l = Some raw → urlsafe_b64decode (to_str l) = Ok (Some raw).
Proof.
  intros Hd. assert (good_tail b64_tail_url) as Ht by by right.
  pose proof (decoded_chars _ _ _ Ht Hd) as Hc. rewrite forallb_forall in Hc.
  unfold urlsafe_b64decode. rewrite of_to_str.
  assert (forallb (fun c => (code c <? 128)%nat) l = true) as ->.
  { apply forallb_forall. intros c Hin. apply (b64_char_ascii b64_tail_url); [done|by apply Hc]. }
  by rewrite (a2b_strict _ _ (url_to_std_decode _ _ Hd)).
Qed.
Lemma url_key_decodes raw seg :
  is_bytes raw → seg ∈ [urlsafe_b64encode raw; urlsafe_b64encode_nopad raw] →
  b64_decode_chars b64_tail_url (b64_pad (of_str seg)) = Some raw.
Proof.
  intros Hr [->|[->|[]%elem_of_nil]%elem_of_cons]%elem_of_cons.
  - unfold urlsafe_b64encode. rewrite of_to_str, b64_pad_whole by apply b64_encode_length.
    apply b64_decode_encode; [by right|done].
  - exact (urlsafe_nopad_roundtrip raw Hr).
Qed.

Lemma peer_segment_of seg :
  seg ≠ "" → "/"%char ∉ of_str seg → peer_segment ("/peers/" +:+ seg) = Some seg.
Proof.
  intros Hne Hs. unfold peer_segment. rewrite startswith_app, removeprefix_app.
  unfold truthy_str. by rewrite !bool_decide_eq_false_2.
Qed.
Lemma peer_segment_slash seg :
  "/"%char ∈ of_str seg → peer_segment ("/peers/" +:+ seg) = None.
Proof.
  intros Hs. unfold peer_segment. rewrite startswith_app, removeprefix_app.
  rewrite (bool_decide_eq_true_2 _ Hs). by rewrite andb_false_r.
Qed.
Lemma urlsafe_no_slash raw seg :
  is_bytes raw → seg ∈ [urlsafe_b64encode raw; urlsafe_b64encode_nopad raw] → "/"%char ∉ of_str seg.
Proof.
  intros Hr Hseg Hin. pose proof (url_key_decodes raw seg Hr Hseg) as Hd.
  pose proof (decoded_chars b64_tail_url _ _ ltac:(by right) Hd) as Hc. rewrite forallb_forall in Hc.
  eapply url_char_not_slash; [apply Hc|done]. unfold b64_pad. apply in_or_app. left.
  by apply list_elem_of_In.
Qed.

Lemma url_key_deleted raw seg :
  is_bytes raw → length raw = PUBKEY_LEN →
  seg ∈ [urlsafe_b64encode raw; urlsafe_b64encode_nopad raw] →
  deleted_key ("/peers/" +:+ seg) = Some (b64encode raw).
Proof.
  intros Hr Hlen Hseg. unfold deleted_key. pose proof (url_key_decodes raw seg Hr Hseg) as Hd.
  rewrite peer_segment_of; [|intros ->|by eapply urlsafe_no_slash].
  - by rewrite (url_chars_decode _ _ Hd).
  - injection Hd as <-. done.
Qed.
Lemma std_key_nonempty raw : is_bytes raw → length raw = PUBKEY_LEN → b64encode raw ≠ "".
Proof.
  intros Hr Hlen E. pose proof (std_key_decodes raw Hr) as Hd. rewrite E in Hd. by injection Hd as <-.
Qed.
Lemma std_key_routed raw :
  is_bytes raw → length raw = PUBKEY_LEN → "/"%char ∉ of_str (b64encode raw) →
  peer_segment ("/peers/" +:+ b64encode raw) = Some (b64encode raw).
Proof. intros Hr Hlen Hs. apply peer_segment_of; [by apply std_key_nonempty|done]. Qed.
Lemma std_key_deleted raw :
  is_bytes raw → length raw = PUBKEY_LEN → "/"%char ∉ of_str (b64encode raw) →
  deleted_key ("/peers/" +:+ b64encode raw) = Some (b64encode raw).
Proof. intros Hr Hlen Hs. unfold deleted_key. rewrite std_key_routed by done. by rewrite std_key_decodes. Qed.
Lemma slash_key_unrouted {W} `{Host W} (settings : AgentSettings) key (n : node W) token :
  "/"%char ∈ of_str key →
  handle_request settings token (Delete ("/peers/" +:+ key)) n = (Raise (HTTPException 404 "Not Found"), n).
Proof.
  intros Hs. unfold handle_request, needs_token, route. rewrite peer_segment_slash by done.
  assert (∀ path, "/peers/" +:+ key = path → path ∉ "/mtproxy" :: other_paths) as Hp.
  { intros path <-. apply not_elem_of_cons. split; [done|].
    unfold other_paths. rewrite !not_elem_of_cons. by split_and!; [..|apply not_elem_of_nil]. }
  specialize (Hp _ eq_refl). apply not_elem_of_cons in Hp as [Hm Ho].
  rewrite bool_decide_eq_false_2 by done. cbn [orb]. by rewrite bool_decide_eq_false_2.
Qed.

(** A peer is deleted under any URL-safe spelling of its key, and not under every standard one.
    For every 32-byte key, the URL-safe base64 text of the key, with or without its padding, is
    routed to the handler and decoded to exactly the peer stored under the standard base64 text.
    The standard text itself is routed to the handler, with the same result, exactly when it has no
    slash in it; when it has one, the agent answers 404 to a DELETE of that peer, runs no command
    and changes nothing on the node. *)
Lemma delete_key_spellings {W} `{Host W} (settings : AgentSettings) raw (n : node W) token :
  is_bytes raw → length raw = PUBKEY_LEN →
  (∀ seg, seg ∈ [urlsafe_b64encode raw; urlsafe_b64encode_nopad raw] →
     deleted_key ("/peers/" +:+ seg) = Some (b64encode raw)) ∧
  (if "/"%char isin of_str (b64encode raw)
   then handle_request settings token (Delete ("/peers/" +:+ b64encode raw)) n
        = (Raise (HTTPException 404 "Not Found"), n)
   else deleted_key ("/peers/" +:+ b64encode raw) = Some (b64encode raw)).
Proof.
  intros Hr Hlen. split; [intros seg; by apply url_key_deleted|].
  case_bool_decide as Hs; [by apply slash_key_unrouted|by apply std_key_deleted].
Qed.

(** ** A new interface section *)
Section interface.
Context {W : Type} `{Host W} (settings : AgentSettings) `{!AgentFiles settings}.

(** The configuration the text of [cfg] and the kept sections make, and asking for it again. *)
Lemma configured_text_settles content cfg :
  readable content → clean_interface cfg = true →
  let text := default (default "" content) (configured_text content cfg).2 in
  (∃ peers, text = build_interface_block cfg +:+ peers) ∧
  configured_text (Some text) cfg = ((configured_text (Some text) cfg).1, None).
Proof.
  intros Hr Hc.
  assert (∃ sections, Forall (fun b => head b = Some "[Peer]") sections ∧
    Forall (fun b => plain b = true) (concat sections) ∧
    default (default "" content) (configured_text content cfg).2
    = unlines (rewritten cfg sections ++ concat sections)) as (sections & Hh & Hp & ->).
  { destruct content as [text|].
    - destruct Hr as (es & ifc & sections & -> & Hp & Hq & Hs & Hnd). exists sections.
      pose proof (holds_head _ _ Hs) as Hh. rewrite configured_text_spec by done. cbn [snd default].
      apply Forall_app in Hp as [_ Hp]. split_and!; [done|done|].
      case_bool_decide as E; [by rewrite E|done].
    - exists []. split_and!; [constructor|constructor|]. cbn [default]. unfold configured_text, rewritten.
      rewrite !app_nil_r. assert (build_interface_block cfg +:+ "" = unlines (interface_lines cfg)) as ->.
      { apply (inj of_str). by rewrite of_str_app, app_nil_r. }
      case_bool_decide as E; [by rewrite <- E|done]. }
  destruct (rewritten_quiet cfg sections Hc) as [Hrp Hrq]. cbn zeta. split.
  - exists (unlines ((match sections with [] => [] | _ => [""] end) ++ concat sections)).
    unfold rewritten. rewrite <- app_assoc. apply unlines_app.
  - rewrite configured_text_spec by (first [done | apply Forall_app; split; done]). cbn [fst].
    by rewrite bool_decide_eq_true_2.
Qed.

(** Writing the interface section is idempotent. After any PUT of an interface (whether the live
    update succeeded or not), the configuration file begins with exactly the section of the request;
    the same request again is answered at once: it runs no command and leaves the file alone. *)
Lemma configure_interface_idempotent cfg n :
  readable (tunnel_config settings n) → clean_interface cfg = true →
  let n1 := (configure_interface settings cfg n).2 in
  let '(again, n2) := configure_interface settings cfg n1 in
  (∃ peers, tunnel_config settings n1 = Some (build_interface_block cfg +:+ peers)) ∧
  again = Ok configured_answer ∧ outside n2 = outside n1 ∧
  tunnel_config settings n2 = tunnel_config settings n1.
Proof.
  intros Hr Hc. cbv zeta. set (n1 := (configure_interface settings cfg n).2).
  destruct (configured_text_settles _ cfg Hr Hc) as [Hb Hagain]. cbv zeta in Hb, Hagain.
  assert (tunnel_config settings n1 = Some (default (default "" (tunnel_config settings n))
    (configured_text (tunnel_config settings n) cfg).2)) as Hn1.
  { unfold n1. rewrite configure_interface_effect by done.
    destruct (configured_text (tunnel_config settings n) cfg) as [old [text|]] eqn:E; [done|]. cbn.
    destruct (tunnel_config settings n) as [text|]; [done|]. exfalso.
    unfold configured_text in E. case_bool_decide as E'; [|done].
    apply (f_equal of_str) in E'. unfold build_interface_block in E'.
    rewrite of_str_app in E'. discriminate E'. }
  set (text := default _ _) in *. rewrite <- Hn1 in Hagain. clearbody n1. clear Hr.
  unfold configure_interface, config_lock. rewrite !bindA_run. unfold write_file at 1.
  rewrite !bindA_run. unfold read_file. cbn [disk].
  rewrite lookup_insert_ne by apply lock_elsewhere. fold (tunnel_config settings n1).
  rewrite Hagain. cbn. rewrite Hn1. split_and!; [|done|done|].
  - destruct Hb as [peers Hb]. exists peers. by f_equal.
  - unfold tunnel_config. cbn. rewrite lookup_insert_ne by apply lock_elsewhere. exact Hn1.
Qed.
End interface.

(** ** MTProxy *)

(** What pydantic promises: a valid configuration survives its own JSON. *)
Class MtproxyCodec {W} `{Host W} : Prop := {
  mtproxy_roundtrip : ∀ c, valid_mtproxy c = true →
    model_validate_json (read_text (model_dump_json c +:+ newline)) = Ok c }.

Section mtproxy.
Context {W : Type} `{Host W} (settings : AgentSettings) `{!AgentFiles settings} `{!MtproxyCodec}.

Definition supervisor_args (action : string) : list string :=
  ["supervisorctl"; "-c"; SUPERVISOR_CONFIG_PATH; action; "mtproxy"].
Definition mtproxy_file (n : node W) : option string := disk n !! MTPROXY_CONFIG_PATH settings.

(** The supervisor's commands see the disk and do not write to it. *)
Lemma supervisor_run action n :
  supervisor_mtproxy action n =
  let '(r, w) := run_process (supervisor_args action) (Some SUPERVISOR_TIMEOUT_SECONDS) (disk n) (outside n) in
  (match r with
   | Ok (returncode, stdout, _) =>
       if returncode != 0%Z then Raise (SupervisorCommandError action returncode) else Ok (strip stdout)
   | Raise (TimeoutExpired _) => Raise (SupervisorTimeoutError action)
   | Raise e => Raise e
   end, mkNode (disk n) w).
Proof.
  unfold supervisor_mtproxy, supervisor_with, run_supervisor. rewrite bindA_run. unfold tryA.
  rewrite bindA_run. unfold subprocess_run. fold (supervisor_args action).
  destruct (run_process _ _ _ _) as [[[[rc out] err]|e] w]; [|by destruct e].
  cbn. by destruct (rc != 0%Z).
Qed.

(** The status the agent reads, for every answer of [supervisorctl status]. *)
Definition status_seen (r : outcome (Z * string * string)) (config : option MTProxyConfig)
    : outcome MTProxyStatus :=
  match r with
  | Ok (returncode, stdout, _) =>
      Ok (status_of (if returncode != 0%Z then "disabled"
                     else parse_supervisor_state (strip (strip stdout))) config)
  | Raise (TimeoutExpired _) => Raise (SupervisorTimeoutError "status")
  | Raise (SupervisorCommandError _ _) => Ok (status_of "disabled" config)
  | Raise e => Raise e
  end.
Lemma nested_status_run m :
  supervisor_with mtproxy_status_runner "status" m =
  match supervisor_mtproxy "status" m with
  | (Ok out, m') => (Ok (strip out), m')
  | (Raise (TimeoutExpired _), m') => (Raise (SupervisorTimeoutError "status"), m')
  | (Raise e, m') => (Raise e, m')
  end.
Proof.
  unfold supervisor_with at 1, tryA. rewrite bindA_run. unfold mtproxy_status_runner. rewrite bindA_run.
  change (liftA (supervisor_action _) m) with (Ok "status", m). cbv beta iota. rewrite bindA_run.
  destruct (supervisor_mtproxy "status" m) as [[out|e] m']; [done|by destruct e].
Qed.
Lemma read_status_run n config :
  (∀ w, load_config settings (mkNode (disk n) w) = (Ok config, mkNode (disk n) w)) →
  current_mtproxy_status settings n =
  let '(r, w) := run_process (supervisor_args "status") (Some SUPERVISOR_TIMEOUT_SECONDS)
                   (disk n) (outside n) in
  (status_seen r config, mkNode (disk n) w).
Proof.
  intros Hc. unfold current_mtproxy_status, read_mtproxy_status.
  rewrite bindA_run. unfold tryA. rewrite bindA_run, nested_status_run, supervisor_run.
  destruct (run_process _ _ _ _) as [[[[rc out] err]|e] w].
  - cbn [status_seen]. destruct (rc != 0%Z); cbv beta iota.
    + unfold retA at 1. rewrite bindA_run, Hc. reflexivity.
    + unfold retA at 1. unfold parse_mtproxy_status. rewrite bindA_run, Hc. reflexivity.
  - destruct e; try reflexivity. cbv beta iota. unfold retA at 1. rewrite bindA_run, Hc. reflexivity.
Qed.

Lemma load_missing n : mtproxy_file n = None → ∀ w, load_config settings (mkNode (disk n) w) = (Ok None, mkNode (disk n) w).
Proof. intros Hn w. unfold load_config. rewrite bindA_run. unfold read_file. cbn [disk]. unfold mtproxy_file in Hn. by rewrite Hn. Qed.
Lemma load_written n c : valid_mtproxy c = true → mtproxy_file n = Some (model_dump_json c +:+ newline) →
  ∀ w, load_config settings (mkNode (disk n) w) = (Ok (Some c), mkNode (disk n) w).
Proof.
  intros Hc Hn w. unfold load_config. rewrite bindA_run. unfold read_file. cbn [disk].
  unfold mtproxy_file in Hn. rewrite Hn. rewrite bindA_run. unfold liftA.
  by rewrite mtproxy_roundtrip.
Qed.

(** The configuration is on the disk before any command runs. *)
Lemma apply_config_written req n :
  ∃ n', apply_mtproxy_config settings req n = (Ok tt, n') ∧ outside n' = outside n ∧
    mtproxy_file n' = Some (model_dump_json req +:+ newline).
Proof.
  unfold apply_mtproxy_config. rewrite bindA_run. unfold named_temporary_file. rewrite bindA_run.
  eexists. split; [reflexivity|]. split; [done|]. unfold mtproxy_file. cbn.
  rewrite lookup_delete_ne by apply temp_is_not_mtproxy. apply lookup_insert_eq.
Qed.

(** A proxy that is not running reads as disabled. The exit code of [supervisorctl status] decides:
    when it is not zero (as supervisord documents for every process that is stopped, exited or has
    failed for good) the agent reports the state disabled, with the port and the host of the
    configuration, whatever state the command printed; only a zero exit code makes it read the
    printed state, and a time-out is the only error of the command that reaches the caller. The disk
    is only read. *)
Lemma mtproxy_status_reads_exit_code n config :
  (match config with
   | None => mtproxy_file n = None
   | Some c => valid_mtproxy c = true ∧ mtproxy_file n = Some (model_dump_json c +:+ newline)
   end) →
  let '(r, w) := run_process (supervisor_args "status") (Some SUPERVISOR_TIMEOUT_SECONDS)
                   (disk n) (outside n) in
  let '(o, n') := mtproxy_status settings n in
  n' = mkNode (disk n) w ∧
  match r with
  | Ok (returncode, stdout, _) =>
      ∃ state, o = Ok (status_of state config) ∧
        (returncode ≠ 0%Z → state = "disabled") ∧
        (returncode = 0%Z → state = parse_supervisor_state (strip (strip stdout)))
  | Raise (TimeoutExpired _) =>
      o = Raise (HTTPException 500 "supervisorctl status mtproxy timed out")
  | Raise (SupervisorCommandError _ _) => o = Ok (status_of "disabled" config)
  | Raise (SupervisorTimeoutError action) =>
      o = Raise (HTTPException 500 ("supervisorctl " +:+ action +:+ " mtproxy timed out"))
  | Raise e => o = Raise e
  end.
Proof.
  intros Hcfg. unfold mtproxy_status, supervisor_errors, tryA.
  rewrite (read_status_run n config).
  2:{ destruct config as [c|]; [destruct Hcfg; by apply load_written|by apply load_missing]. }
  destruct (run_process _ _ _ _) as [[[[rc out] err]|e] w]; cbn [status_seen].
  - split; [done|]. eexists. split; [reflexivity|].
    split; intros Hrc; [by rewrite (bool_decide_eq_false_2 _ Hrc)|by rewrite (bool_decide_eq_true_2 _ Hrc)].
  - destruct e; split; reflexivity.
Qed.

(** Applying a proxy configuration takes effect or says so. A valid configuration is on the disk
    before any supervisor command runs, and stays there whatever the commands do; an answer without
    an error reports the port and the host of exactly that configuration and a secret that is set. *)
Lemma apply_mtproxy_writes_first req n :
  valid_mtproxy req = true →
  let '(o, n') := apply_mtproxy settings req n in
  mtproxy_file n' = Some (model_dump_json req +:+ newline) ∧
  match o with
  | Ok s => ms_port s = Some (mt_port req) ∧ ms_public_host s = Some (mt_public_host req) ∧
            ms_secret_set s = true
  | Raise e => is_command_error e = false ∧ is_timeout_error e = false
  end.
Proof.
  intros Hv. unfold apply_mtproxy, supervisor_errors, tryA at 1. rewrite bindA_run.
  destruct (apply_config_written req n) as (n1 & -> & _ & Hf). 
  assert (∀ m, mtproxy_file m = Some (model_dump_json req +:+ newline) →
    ∃ r w, current_mtproxy_status settings m = (status_seen r (Some req), mkNode (disk m) w)) as Hread.
  { intros m Hm. rewrite (read_status_run m (Some req)) by by apply load_written.
    destruct (run_process _ _ _ _) as [r w]. by exists r, w. }
  rewrite bindA_run. destruct (Hread n1 Hf) as (r1 & w1 & ->).
  assert (∀ e, match (if is_command_error e || is_timeout_error e
                      then HTTPException 500 (exn_text e) else e) with
               | e' => is_command_error e' = false ∧ is_timeout_error e' = false end) as Herr by (by intros []).
  assert (∀ e (m : node W), (if is_command_error e || is_timeout_error e
      then raiseA (A := MTProxyStatus) (HTTPException 500 (exn_text e)) else raiseA e) m
    = (Raise (if is_command_error e || is_timeout_error e then HTTPException 500 (exn_text e) else e), m))
    as Hraise by (intros e m; by destruct (_ || _)).
  destruct (status_seen r1 (Some req)) as [s1|e1]; [|rewrite Hraise; split; [exact Hf|apply Herr]].
  rewrite bindA_run.
  match goal with |- context [(if ?b then ?x else ?y) ?m] =>
    replace ((if b then x else y) m) with (supervisor_mtproxy (if b then "restart" else "start") m)
      by (by destruct b) end.
  rewrite supervisor_run. destruct (run_process _ _ _ _) as [r2 w2].
  match goal with |- context [match ?x with Ok _ => _ | Raise e => (Raise e, _) end] => destruct x as [t|e2] end;
    [|rewrite Hraise; split; [exact Hf|apply Herr]].
  match goal with |- context [current_mtproxy_status settings ?m] =>
    destruct (Hread m Hf) as (r3 & w3 & ->) end.
  unfold status_seen. destruct r3 as [[[rc out] err]|e3].
  - split; [exact Hf|]. cbn. unfold valid_mtproxy in Hv. by py_bool.
  - assert (ms_secret_set (status_of "disabled" (Some req)) = true) as Hs.
    { cbn. unfold valid_mtproxy in Hv. by py_bool. }
    destruct e3; (split; [exact Hf|done]).
Qed.
End mtproxy.

(** ** A node for the witnesses

    Three peers may be live on it; its commands succeed for those and fail for any other key. *)
Definition sample_key (b : Z) : string := b64encode (replicate 32 b).
Definition sample_live : Type := bool * bool * bool.
Definition live_keys (v : sample_live) : list string :=
  (if v.1.1 then [sample_key 0] else []) ++ (if v.1.2 then [sample_key 1] else []) ++
  (if v.2 then [sample_key 255] else []).
Definition set_live (key : string) (b : bool) (v : sample_live) : option sample_live :=
  if key == sample_key 0 then Some (b, v.1.2, v.2)
  else if key == sample_key 1 then Some (v.1.1, b, v.2)
  else if key == sample_key 255 then Some (v.1, b)
  else None.
Definition sample_show (v : sample_live) : string :=
  writelines (with_newline <$> "interface: awg0" ::
    concat ((fun k => ["peer: " +:+ k; "  allowed ips: 10.8.0.2/32"]) <$> live_keys v)).
Definition tab : string := to_str [ascii_of_nat 9].
Definition sample_dump (v : sample_live) : string :=
  writelines (with_newline <$> "awg0" ::
    ((fun k => join tab [k; "(none)"; "(none)"; "10.8.0.2/32"; "0"; "1"; "2"; "off"]) <$> live_keys v)).
Definition sample_process (args : list string) (v : sample_live)
    : outcome (Z * string * string) * sample_live :=
  let succeed output v := (Ok (0%Z, output, ""), v) in
  let set_peer key b :=
    match set_live key b v with
    | Some v' => succeed "" v'
    | None => (Ok (1%Z, "", "Key is not the correct length or format"), v)
    end in
  let word i := nth i args "" in
  if word 0 == "supervisorctl" then succeed "mtproxy RUNNING pid 7, uptime 0:01:00" v
  else if word 1 == "show" then succeed (if length args == 4 then sample_dump v else sample_show v) v
  else if (word 1 == "set") && (word 3 == "peer") then set_peer (word 4) (word 5 != "remove")
  else succeed "" v.

(** A codec that loses nothing: the number of the configuration, in binary. *)
#[export] Instance MTProxyConfig_countable : Countable MTProxyConfig.
Proof.
  apply (inj_countable' (fun c => (mt_port c, mt_public_host c, mt_secret c, mt_tls_domain c))
    (fun t => let '(a, b, c, d) := t in mkMTProxyConfig a b c d)).
  by intros [].
Defined.
#[export] Instance sample_host : Host sample_live := {
  run_process args _ _ v := sample_process args v;
  temp_name _ suffix := "/tmp/agent" +:+ suffix;
  signal_text _ := "SIGKILL";
  model_dump_json c := to_str (bits_of (encode c));
  model_validate_json s :=
    match of_bits (of_str s) with
    | Some p => match decode p with Some c => Ok c | None => Raise (ValueError "json") end
    | None => Raise (ValueError "json")
    end;
  validation_errors _ := [] }.
Definition sample_settings : AgentSettings :=
  mkAgentSettings "awg0" "t" "/etc/awg0.conf" "/etc/mtproxy.json".
Lemma sample_files : AgentFiles sample_settings.
Proof. by split. Qed.
Lemma sample_codec : MtproxyCodec.
Proof.
  split. intros c _. cbn. unfold read_text. rewrite universal_newlines_id.
  - rewrite of_to_str, of_str_app, of_to_str, of_bits_of, decode_encode. done.
  - rewrite of_str_app, of_to_str, not_elem_of_app. split; [|literal_in].
    generalize (encode c). intros p. induction p as [p IH|p IH|]; cbn; rewrite not_elem_of_cons;
      (split; [done|]); [done|done|apply not_elem_of_nil].
Qed.

Definition sample_interface : InterfaceConfig := default_interface "c2VjcmV0".
Definition sample_node : node sample_live :=
  mkNode {["/etc/awg0.conf" := build_interface_block sample_interface]} (false, false, false).
Lemma sample_readable : readable (tunnel_config sample_settings sample_node).
Proof. exists []. apply (holds_first_interface sample_interface). vm_compute. reflexivity. Qed.
Definition sample_requests : list (option string * agent_request) :=
  [(Some "t", PutPeer (mkSyncPeerRequest (sample_key 0) "10.8.0.2" (Some "psk")));
   (Some "wrong", Delete ("/peers/" +:+ sample_key 0));
   (Some "t", PutInterface (default_interface "bmV3"));
   (Some "t", PutPeer (mkSyncPeerRequest (sample_key 1) "10.8.0.3" None));
   (Some "t", Delete ("/peers/" +:+ sample_key 1))].

Lemma sample_requests_clean : Forall (fun r => clean_request r.2 = true) sample_requests.
Proof. repeat (apply Forall_cons; split; [vm_compute; reflexivity|]). by apply Forall_nil. Qed.
Definition sample_proxy : MTProxyConfig := mkMTProxyConfig 443 "proxy.example.com" "s3cret" "cloudsyncpro.net".
Definition sample_proxy_node : node sample_live :=
  mkNode {["/etc/mtproxy.json" := model_dump_json sample_proxy +:+ newline]} (false, false, false).

Lemma agent_refines_peer_table_witness :
  is_ok <$> (run_agent sample_settings sample_requests sample_node).1 = [true; false; true; true; true] ∧
  let '(answers, n') := run_agent sample_settings sample_requests sample_node in
  peer_table sample_settings n' =
    foldl table_step (peer_table sample_settings sample_node) (zip sample_requests.*2 answers).
Proof.
  split; [vm_compute; reflexivity|].
  pose proof (agent_refines_peer_table (AgentFiles0 := sample_files) sample_settings sample_requests sample_node
    sample_readable sample_requests_clean) as Ht.
  destruct (run_agent sample_settings sample_requests sample_node) as [answers n']. exact (proj2 Ht).
Defined.
Lemma delete_key_spellings_witness :
  "/"%char ∈ of_str (sample_key 255) ∧
  handle_request sample_settings (Some "t") (Delete ("/peers/" +:+ sample_key 255)) sample_node
  = (Raise (HTTPException 404 "Not Found"), sample_node).
Proof.
  split; [literal_in|].
  assert (is_bytes (replicate 32 255%Z)) as Hb by (apply Forall_replicate; unfold is_byte; lia).
  exact (proj2 (delete_key_spellings sample_settings (replicate 32 255%Z) sample_node (Some "t") Hb eq_refl)).
Defined.
Lemma configure_interface_idempotent_witness :
  let n1 := (configure_interface sample_settings (default_interface "bmV3") sample_node).2 in
  (configure_interface sample_settings (default_interface "bmV3") n1).1 = Ok configured_answer.
Proof.
  pose proof (configure_interface_idempotent (AgentFiles0 := sample_files) sample_settings
    (default_interface "bmV3") sample_node sample_readable ltac:(vm_compute; reflexivity)) as Ht.
  cbv zeta in Ht |- *. destruct (configure_interface sample_settings (default_interface "bmV3")
    (configure_interface sample_settings (default_interface "bmV3") sample_node).2) as [again n2].
  exact (proj1 (proj2 Ht)).
Defined.
Lemma mtproxy_status_reads_exit_code_witness :
  (mtproxy_status sample_settings sample_proxy_node).1 = Ok (status_of "running" (Some sample_proxy)).
Proof.
  assert (mtproxy_file sample_settings sample_proxy_node = Some (model_dump_json sample_proxy +:+ newline)) as Hf
    by (apply lookup_singleton_eq).
  pose proof (mtproxy_status_reads_exit_code (H0 := sample_codec) sample_settings sample_proxy_node
    (Some sample_proxy) (conj eq_refl Hf)) as Ht.
  cbn [run_process sample_host sample_process supervisor_args] in Ht.
  destruct (mtproxy_status sample_settings sample_proxy_node) as [o n'].
  destruct Ht as (_ & state & -> & _ & Hs). by rewrite (Hs eq_refl).
Defined.
Lemma apply_mtproxy_writes_first_witness :
  mtproxy_file sample_settings (apply_mtproxy sample_settings sample_proxy sample_node).2
  = Some (model_dump_json sample_proxy +:+ newline).
Proof.
  pose proof (apply_mtproxy_writes_first (AgentFiles0 := sample_files) (H0 := sample_codec)
    sample_settings sample_proxy sample_node eq_refl) as Ht.
  destruct (apply_mtproxy sample_settings sample_proxy sample_node) as [o n']. exact (proj1 Ht).
Defined.
