(* ===== verification/WorkerQueue.v ===== *)
(** * Commands and the worker's queue

    [panel/worker/app/commands.py] and [queue.py]: the command a message carries and its validation,
    the worker's own copy of the broker topology, and what becomes of a message: acknowledged after
    the handler, parked in a retry queue, or poisoned. The broker connection is the class [Broker];
    JSON parsing and date parsing are the class [Codec]. *)
From S2P Require Import Prelude PyStr Json Bytes Models Session Jobs WorkerClients.

Class Codec := {
  (* [json.loads(body.decode('utf-8'))] *)
  loads : bytes → outcome json;
  (* pydantic's reading of a date and time *)
  parse_datetime : json → option datetime }.

(** ** [commands.py] *)
Definition COMMAND_NAMES : list string :=
  ["sync_all"; "sync_node"; "provision_node"; "health_check_all"; "health_check_node";
   "cleanup_raw_traffic_samples"; "remnawave_full_reconcile"; "remnawave_sync_user";
   "remnawave_disable_user"; "telegram_proxy_apply_node"; "telegram_proxy_check_node";
   "telegram_proxy_disable_node"].
Definition TARGET_TYPES : list string :=
  ["all"; "node"; "traffic"; "remnawave"; "remnawave_user"; "telegram_proxy_node"].
Definition TELEGRAM_PROXY_COMMANDS : list string :=
  ["telegram_proxy_apply_node"; "telegram_proxy_check_node"; "telegram_proxy_disable_node"].

Record WorkerCommand := mkWorkerCommand {
  command : string;
  idempotency_key : string;
  operation_id : string;
  track_operation : bool;
  target_type : string;
  target_id : option string;
  created_at : datetime }.
#[export] Instance WorkerCommand_eq_dec : EqDecision WorkerCommand.
Proof. solve_decision. Defined.

Definition validation_error (message : string) : exn := ValueError message.

(** A boolean field, in pydantic's lax mode. *)
Definition lax_bool (v : json) : option bool :=
  match v with
  | JBool b => Some b
  | JInt z => if z == 0%Z then Some false else if z == 1%Z then Some true else None
  | JFloat r => if r == "0.0" then Some false else if r == "1.0" then Some true else None
  | JStr s =>
      let s := lower s in
      if s isin ["0"; "off"; "f"; "false"; "n"; "no"] then Some false
      else if s isin ["1"; "on"; "t"; "true"; "y"; "yes"] then Some true else None
  | _ => None
  end.

Definition validate_target_type (c : WorkerCommand) : outcome WorkerCommand :=
  if (command c isin TELEGRAM_PROXY_COMMANDS) && (target_type c != "telegram_proxy_node")
  then Raise (validation_error "Telegram proxy commands require target_type=telegram_proxy_node")
  else Ok c.

(** [WorkerCommand.model_validate(v)] *)
Definition model_validate `{Codec} (v : json) : outcome WorkerCommand :=
  match v with
  | JObj fields =>
      match json_find fields "command", json_find fields "idempotency_key",
            json_find fields "operation_id", json_find fields "target_type",
            json_find fields "created_at" with
      | Some (JStr command), Some (JStr key), Some (JStr oid), Some (JStr target_type), Some at_ =>
          let track := match json_find fields "track_operation" with
                       | None => Some true | Some v => lax_bool v end in
          let target := match json_find fields "target_id" with
                        | None | Some JNull => Some None
                        | Some (JStr s) => Some (Some s)
                        | Some _ => None end in
          match track, target, parse_datetime at_ with
          | Some track, Some target, Some at_ =>
              if (command isin COMMAND_NAMES) && truthy_str key && truthy_str oid
                 && (target_type isin TARGET_TYPES)
              then validate_target_type (mkWorkerCommand command key oid track target_type target at_)
              else Raise (validation_error "Input should be valid")
          | _, _, _ => Raise (validation_error "Input should be valid")
          end
      | _, _, _, _, _ => Raise (validation_error "Field required")
      end
  | _ => Raise (validation_error "Input should be a valid dictionary")
  end.

(** [command.node_id] *)
Definition command_node_id (c : WorkerCommand) : option string := target_id c.

(** The row of an operation as the panel lists it, turned into a command
    ([backend_client.command_from_operation]). *)
Definition command_from_operation `{Codec} (operation : list (string * json)) : outcome WorkerCommand :=
  match json_find operation "kind", json_find operation "id", json_find operation "updated_at" with
  | None, _, _ => Raise (KeyError "kind")
  | _, None, _ => Raise (KeyError "id")
  | _, _, None => Raise (KeyError "updated_at")
  | Some kind, Some id, Some updated_at =>
      model_validate (JObj
        [("command", kind); ("idempotency_key", id); ("operation_id", id);
         ("track_operation", JBool true);
         ("target_type", json_or (json_get operation "target_type") (JStr "all"));
         ("target_id", json_get operation "target_id"); ("created_at", updated_at)])
  end.

(** ** The worker's copy of the topology *)
Module WorkerTopology.
Definition EXCHANGE : string := "amnezia.jobs".
Definition DEAD_LETTER_EXCHANGE : string := "amnezia.jobs.dlx".
Definition LEGACY_SYNC_QUEUE : string := "amnezia.sync".
Definition LEGACY_PROVISION_QUEUE : string := "amnezia.provision".
Definition NODE_OPERATIONS_QUEUE : string := "amnezia.node_operations".
Definition SYNC_ALL_QUEUE := NODE_OPERATIONS_QUEUE.
Definition SYNC_NODE_QUEUE := NODE_OPERATIONS_QUEUE.
Definition PROVISION_NODE_QUEUE := NODE_OPERATIONS_QUEUE.
Definition NODE_HEARTBEAT_QUEUE : string := "amnezia.node_heartbeat".
Definition CLEANUP_RAW_TRAFFIC_SAMPLES_QUEUE : string := "amnezia.cleanup_raw_traffic_samples".
Definition REMNAWAVE_FULL_RECONCILE_QUEUE : string := "amnezia.remnawave_full_reconcile".
Definition REMNAWAVE_SYNC_USER_QUEUE : string := "amnezia.remnawave_sync_user".
Definition REMNAWAVE_DISABLE_USER_QUEUE : string := "amnezia.remnawave_disable_user".
Definition TELEGRAM_PROXY_OPERATIONS_QUEUE : string := "amnezia.telegram_proxy_operations".
Definition POISON_QUEUE : string := "amnezia.poison".
Definition RETRY_QUEUES : list (string * Z) :=
  [("amnezia.retry.10s", 10000%Z); ("amnezia.retry.1m", 60000%Z); ("amnezia.retry.10m", 600000%Z)].
Definition RETRY_DELAYS : list (string * Z) := [("10s", 10000%Z); ("1m", 60000%Z); ("10m", 600000%Z)].

Record QueueSpec := mkQueueSpec { spec_command : string; queue_name : string; sequential : bool }.
Definition QUEUE_SPECS : list QueueSpec :=
  [mkQueueSpec "sync_all" SYNC_ALL_QUEUE true;
   mkQueueSpec "sync_node" SYNC_NODE_QUEUE true;
   mkQueueSpec "provision_node" PROVISION_NODE_QUEUE true;
   mkQueueSpec "health_check_all" NODE_HEARTBEAT_QUEUE false;
   mkQueueSpec "health_check_node" NODE_HEARTBEAT_QUEUE false;
   mkQueueSpec "cleanup_raw_traffic_samples" CLEANUP_RAW_TRAFFIC_SAMPLES_QUEUE false;
   mkQueueSpec "remnawave_full_reconcile" REMNAWAVE_FULL_RECONCILE_QUEUE false;
   mkQueueSpec "remnawave_sync_user" REMNAWAVE_SYNC_USER_QUEUE false;
   mkQueueSpec "remnawave_disable_user" REMNAWAVE_DISABLE_USER_QUEUE false;
   mkQueueSpec "telegram_proxy_apply_node" TELEGRAM_PROXY_OPERATIONS_QUEUE true;
   mkQueueSpec "telegram_proxy_check_node" TELEGRAM_PROXY_OPERATIONS_QUEUE true;
   mkQueueSpec "telegram_proxy_disable_node" TELEGRAM_PROXY_OPERATIONS_QUEUE true].
Definition ROUTING_KEYS : list (string * string) :=
  (fun spec => (spec_command spec, queue_name spec)) <$> QUEUE_SPECS.

(** [ROUTING_KEYS[command]] and [_retry_queue_name]. *)
Definition routing_key (command : string) : outcome string :=
  match dict_get ROUTING_KEYS command with Some key => Ok key | None => Raise (KeyError command) end.
Definition retry_queue_name (command delay_name : string) : outcome string :=
  key ← routing_key command; Ok (key +:+ ".retry." +:+ delay_name).

(** [_declare_topology]: the queues in the order they are declared, a name only once, and the bindings. *)
Definition spec_queues : list queue_decl :=
  foldl (fun acc spec => declare_once acc (command_queue_decl (queue_name spec) (sequential spec)))
    [] QUEUE_SPECS.
(** A retry queue shares the set of declared names with the command queues. *)
Definition retry_queues : outcome (list queue_decl) :=
  decls ← map_outcome (fun sd : QueueSpec * (string * Z) =>
      name ← retry_queue_name (spec_command sd.1) sd.2.1;
      Ok (mkQueue name false (Some sd.2.2) (Some EXCHANGE) (Some (queue_name sd.1))))
    (spec ← QUEUE_SPECS; delay ← RETRY_DELAYS; [(spec, delay)]);
  Ok (drop (length spec_queues) (foldl declare_once spec_queues decls)).

Definition declare_topology : outcome topology :=
  retries ← retry_queues;
  Ok (mkTopology
    ([plain_queue POISON_QUEUE] ++ spec_queues
     ++ [plain_queue LEGACY_SYNC_QUEUE; plain_queue LEGACY_PROVISION_QUEUE]
     ++ ((fun nd : string * Z => mkQueue nd.1 false (Some nd.2) (Some EXCHANGE) None) <$> RETRY_QUEUES)
     ++ retries)
    ([mkBinding DEAD_LETTER_EXCHANGE POISON_QUEUE POISON_QUEUE]
     ++ ((fun q => mkBinding EXCHANGE (Q_name q) (Q_name q)) <$> spec_queues)
     ++ [mkBinding EXCHANGE "sync" LEGACY_SYNC_QUEUE; mkBinding EXCHANGE "provision" LEGACY_PROVISION_QUEUE]
     ++ ((fun nd : string * Z => mkBinding DEAD_LETTER_EXCHANGE nd.1 nd.1) <$> RETRY_QUEUES)
     ++ ((fun q => mkBinding DEAD_LETTER_EXCHANGE (Q_name q) (Q_name q)) <$> retries))).

(** [_declare_consumer_queues]: the queues one channel consumes. *)
Definition consumer_queues (sequentially : bool) : list queue_decl :=
  foldl (fun acc spec => declare_once acc (command_queue_decl (queue_name spec) (sequential spec)))
    [] (List.filter (fun spec => Bool.eqb (sequential spec) sequentially) QUEUE_SPECS)
  ++ (if sequentially then [plain_queue LEGACY_SYNC_QUEUE; plain_queue LEGACY_PROVISION_QUEUE] else []).
End WorkerTopology.

(** ** Handling a message *)
Record RetryPolicy := mkRetryPolicy { max_attempts : Z }.
Definition default_retry_policy : RetryPolicy := mkRetryPolicy 3.

(** A delivered message: its body and its integer headers. *)
Record Message := mkMessage { message_body : bytes; message_headers : option (list (string * Z)) }.
Definition RETRY_COUNT_HEADER : string := "x-retry-count".
Definition retry_count (m : Message) : Z :=
  default 0%Z (dict_get (default [] (message_headers m)) RETRY_COUNT_HEADER).

(** [RETRY_DELAYS[i][0]], with Python's negative indices. *)
Definition delay_at (i : Z) : outcome string :=
  let n := Z.of_nat (length WorkerTopology.RETRY_DELAYS) in
  let i := if (i <? 0)%Z then (i + n)%Z else i in
  match (if (i <? 0)%Z then None else WorkerTopology.RETRY_DELAYS !! Z.to_nat i) with
  | Some delay => Ok delay.1
  | None => Raise (RuntimeError "tuple index out of range")
  end.

(** Where a failed message goes and the count it carries there ([_retry_or_dead_letter]). *)
Definition retry_destination (policy : RetryPolicy) (command : string) (count : Z)
    : outcome (string * Z) :=
  let attempts := (count + 1)%Z in
  if (max_attempts policy <=? attempts)%Z then Ok (WorkerTopology.POISON_QUEUE, attempts) else
  delay_name ← delay_at (Z.min (attempts - 1) (Z.of_nat (length WorkerTopology.RETRY_DELAYS) - 1));
  retry_queue ← WorkerTopology.retry_queue_name command delay_name;
  Ok (retry_queue, attempts).

Class Broker (W : Type) := {
  (* exchange, routing key, command, headers *)
  amqp_publish : string → string → WorkerCommand → list (string * Z) → W → outcome unit * W;
  amqp_ack : Message → W → outcome unit * W }.

Section queue.
Context {W : Type} `{Codec} `{Broker W}.

Definition retry_or_dead_letter (policy : RetryPolicy) (c : WorkerCommand) (m : Message) : Act W unit :=
  let+ destination := liftA (retry_destination policy (command c) (retry_count m)) in
  amqp_publish WorkerTopology.DEAD_LETTER_EXCHANGE destination.1 c
    [(RETRY_COUNT_HEADER, destination.2)].

Definition read_message (m : Message) : outcome WorkerCommand :=
  body ← loads (message_body m); model_validate body.

Definition handle_message (policy : RetryPolicy) (handler : WorkerCommand → Act W unit) (m : Message)
    : Act W unit :=
  let+ c := liftA (read_message m) in
  do+ tryA (handler c) (fun _ => retry_or_dead_letter policy c m) in
  amqp_ack m.

(** [publish_command] *)
Definition publish_command (c : WorkerCommand) : Act W unit :=
  let+ key := liftA (WorkerTopology.routing_key (command c)) in
  amqp_publish WorkerTopology.EXCHANGE key c [].
End queue.

(** ** The journey of a message whose handler keeps failing

    From its own queue: each failure sends it where [retry_destination] says; a retry queue gives it
    back to its own queue when the delay is over. [None]: the message was lost, or the fuel. *)
Fixpoint journey (fuel : nat) (t : topology) (policy : RetryPolicy) (cmd : string) (count : Z)
    : option (list string) :=
  match fuel with
  | 0 => None
  | S fuel =>
      match retry_destination policy cmd count, WorkerTopology.routing_key cmd with
      | Ok (key, count'), Ok own =>
          match route t WorkerTopology.DEAD_LETTER_EXCHANGE key with
          | [q] =>
              if q == WorkerTopology.POISON_QUEUE then Some [q]
              else if expired_to t q == Some [own]
              then (q ::.) <$> journey fuel t policy cmd count' else None
          | _ => None
          end
      | _, _ => None
      end
  end.

(** ** Lemmas *)
Lemma delay_at_ok i :
  (0 <= i < 3)%Z → ∃ delay, delay ∈ Jobs.RETRY_DELAYS ∧ delay_at i = Ok delay.1.
Proof.
  intros Hi. assert (i = 0 ∨ i = 1 ∨ i = 2)%Z as [->|[->| ->]] by lia.
  - exists ("10s", 10000%Z). split; [by left|done].
  - exists ("1m", 60000%Z). split; [by right; left|done].
  - exists ("10m", 600000%Z). split; [by right; right; left|done].
Qed.

(** Every command's retries come back to its own queue. *)
Definition retries_return (t : topology) (cmd own : string) : Prop :=
  WorkerTopology.routing_key cmd = Ok own ∧
  route t WorkerTopology.DEAD_LETTER_EXCHANGE WorkerTopology.POISON_QUEUE = [WorkerTopology.POISON_QUEUE] ∧
  ∀ delay, delay ∈ Jobs.RETRY_DELAYS →
    let q := own +:+ ".retry." +:+ delay.1 in
    route t WorkerTopology.DEAD_LETTER_EXCHANGE q = [q] ∧ q ≠ WorkerTopology.POISON_QUEUE ∧
    expired_to t q = Some [own].

Lemma journey_ends t policy cmd own count fuel :
  retries_return t cmd own → (0 <= count)%Z → (Z.to_nat (max_attempts policy - count) < fuel)%nat →
  ∃ stops, journey fuel t policy cmd count = Some (stops ++ [WorkerTopology.POISON_QUEUE]) ∧
    length stops = Z.to_nat (max_attempts policy - count - 1) ∧
    ∀ q, q ∈ stops → ∃ delay, delay ∈ Jobs.RETRY_DELAYS ∧ q = own +:+ ".retry." +:+ delay.1.
Proof.
  intros (Hown & Hpoison & Hret). revert count. induction fuel as [|fuel IH]; intros count Hc Hf; [lia|].
  cbn [journey]. unfold retry_destination.
  destruct (Z.leb_spec (max_attempts policy) (count + 1)) as [Hle|Hgt].
  - exists []. rewrite Hown, Hpoison, bool_decide_true by done. split_and!; [done|simpl; lia|].
    by intros q ?%elem_of_nil.
  - destruct (delay_at_ok (Z.min (count + 1 - 1) (Z.of_nat (length WorkerTopology.RETRY_DELAYS) - 1)))
      as (delay & Hd & ->); [simpl; lia|].
    destruct (Hret delay Hd) as (Hr & Hnp & He).
    unfold WorkerTopology.retry_queue_name. rewrite Hown. simpl mbind. cbv beta iota.
    rewrite Hr. rewrite bool_decide_false by done. rewrite He, bool_decide_true by done.
    destruct (IH (count + 1)%Z) as (stops & -> & Hl & Hs); [lia|lia|].
    exists ((own +:+ ".retry." +:+ delay.1) :: stops). split; [done|].
    split; [simpl; lia|]. intros q [->|?]%elem_of_cons; [by exists delay|by apply Hs].
Qed.

Definition retries_return_check (t : topology) (cmd own : string) : bool :=
  (WorkerTopology.routing_key cmd == Ok own) &&
  (route t WorkerTopology.DEAD_LETTER_EXCHANGE WorkerTopology.POISON_QUEUE
     == [WorkerTopology.POISON_QUEUE]) &&
  forallb (fun delay : string * Z =>
    let q := own +:+ ".retry." +:+ delay.1 in
    (route t WorkerTopology.DEAD_LETTER_EXCHANGE q == [q]) && (q != WorkerTopology.POISON_QUEUE) &&
    (expired_to t q == Some [own])) Jobs.RETRY_DELAYS.

Lemma retries_return_checked t cmd own :
  retries_return_check t cmd own = true → retries_return t cmd own.
Proof.
  unfold retries_return_check. intros [[H1 H2]%andb_true_iff H3]%andb_true_iff.
  apply bool_decide_eq_true in H1, H2. split; [exact H1|]. split; [exact H2|].
  intros delay Hd. rewrite forallb_forall in H3. apply list_elem_of_In, H3 in Hd.
  apply andb_true_iff in Hd as [[Hr Hn]%andb_true_iff He].
  apply bool_decide_eq_true in Hr, He. apply negb_true_iff, bool_decide_eq_false in Hn. done.
Qed.

(** What the computed topology satisfies. *)
Lemma panel_topology_checked (check : topology → bool) :
  match Jobs.declare_topology with Ok t => check t | Raise _ => false end = true →
  ∃ t, Jobs.declare_topology = Ok t ∧ check t = true.
Proof. destruct Jobs.declare_topology as [t|e]; [by exists t|done]. Qed.

Definition journey_check (t : topology) (q : CommandQueue) : bool :=
  retries_return_check t (CQ_command q) (CQ_queue_name q) &&
  (journey 3 t default_retry_policy (CQ_command q) 0 ==
     Some [CQ_queue_name q +:+ ".retry.10s"; CQ_queue_name q +:+ ".retry.1m";
           WorkerTopology.POISON_QUEUE]).

Definition same_elements {A} `{EqDecision A} (l k : list A) : bool :=
  forallb (fun x => x isin k) l && forallb (fun x => x isin l) k.
Lemma same_elements_spec {A} `{EqDecision A} (l k : list A) :
  same_elements l k = true → ∀ x, x ∈ l ↔ x ∈ k.
Proof.
  intros [H1 H2]%andb_true_iff x. rewrite forallb_forall in H1, H2. split; intros Hx.
  - by apply list_elem_of_In, H1, bool_decide_eq_true in Hx.
  - by apply list_elem_of_In, H2, bool_decide_eq_true in Hx.
Qed.

(** A codec and a broker for the witnesses: the body [[1]] is a tracked node sync, [[2]] an untracked
    health check; the broker records what it is given. *)
Definition sample_command (name : string) (track : bool) : json :=
  JObj [("command", JStr name); ("idempotency_key", JStr "k"); ("operation_id", JStr "op-1");
        ("track_operation", JBool track); ("target_type", JStr "node"); ("target_id", JStr "a");
        ("created_at", JStr "2026-01-01T00:00:00Z")].
#[export] Instance sample_codec : Codec := {
  loads body := match body with
    | [1%Z] => Ok (sample_command "sync_node" true)
    | [2%Z] => Ok (sample_command "health_check_node" false)
    | _ => Raise (JSONDecodeError "Expecting value")
    end;
  parse_datetime _ := Some (utc 0) }.
#[export] Instance sample_broker {W} : Broker W := {
  amqp_publish exchange key c headers w := (Ok tt, w);
  amqp_ack m w := (Ok tt, w) }.

(** ** Properties *)



(** The worker's copy of the topology is the panel's. Both sides declare the same queues with the
    same arguments and the same bindings, and use the same routing key for every command; the worker
    consumes every command queue, the sequential ones on its sequential channel. *)
Lemma worker_topology_agrees :
  ∃ panel worker, Jobs.declare_topology = Ok panel ∧ WorkerTopology.declare_topology = Ok worker ∧
  (∀ q, q ∈ top_queues panel ↔ q ∈ top_queues worker) ∧
  (∀ b, b ∈ top_bindings panel ↔ b ∈ top_bindings worker) ∧
  ∀ q, q ∈ COMMAND_QUEUES →
    WorkerTopology.routing_key (CQ_command q) = routing_key_for_command (CQ_command q) ∧
    CQ_queue_name q ∈ Q_name <$> WorkerTopology.consumer_queues (CQ_sequential q).
Proof.
  destruct (panel_topology_checked (fun panel =>
    match WorkerTopology.declare_topology with
    | Ok worker => same_elements (top_queues panel) (top_queues worker) &&
                   same_elements (top_bindings panel) (top_bindings worker)
    | Raise _ => false
    end)) as (panel & Hp & Hc); [vm_compute; reflexivity|].
  destruct WorkerTopology.declare_topology as [worker|e]; [|done].
  apply andb_true_iff in Hc as [Hq Hb]. exists panel, worker.
  split; [exact Hp|]. split; [reflexivity|]. split; [by apply same_elements_spec|].
  split; [by apply same_elements_spec|].
  intros q Hin. assert (forallb (fun q =>
      (WorkerTopology.routing_key (CQ_command q) == routing_key_for_command (CQ_command q)) &&
      (CQ_queue_name q isin (Q_name <$> WorkerTopology.consumer_queues (CQ_sequential q))))
      COMMAND_QUEUES = true) as Hall by (vm_compute; reflexivity).
  rewrite forallb_forall in Hall. apply list_elem_of_In, Hall, andb_true_iff in Hin as [H1 H2].
  apply bool_decide_eq_true in H1, H2. split; [exact H1|exact H2].
Qed.
