(* ===== verification/Consumers.v ===== *)
(** * The worker's consumers

    [RabbitQueue.consume] and [_consume_queue] ([panel/worker/app/queue.py]): one loop per consumed
    queue, each taking a message from its iterator, waiting for a permit of its channel's semaphore
    and starting a task for it; the task gives the permit back when it is done, however it ended. The
    loops, the tasks and the broker are interleaved event by event. How many deliveries the broker
    leaves unacknowledged on a consumer is the class [Qos]. A task is a start and an end: what
    [_handle_message] does in between is [WorkerQueue.handle_message], whose result is what the end
    carries. *)
From S2P Require Import Prelude PyStr Json Bytes Models Session Jobs WorkerClients WorkerQueue.

(** Whether the broker sends a consumer its next message, by its channel's prefetch count and the
    deliveries the consumer has not acknowledged. *)
Class Qos := { sends_next : nat → nat → bool }.
Class QosLaws `{Qos} := { sends_next_spec : ∀ prefetch unacked,
  0 < prefetch → sends_next prefetch unacked = true ↔ unacked < prefetch }.

Record delivery := mkDelivery { dl_tag : nat; dl_queue : string; dl_message : Message }.
#[export] Instance Message_eq_dec : EqDecision Message.
Proof. solve_decision. Defined.
#[export] Instance delivery_eq_dec : EqDecision delivery.
Proof. solve_decision. Defined.

(** One [_consume_queue]: its queue on the broker, its iterator, and the message the loop holds while
    it waits for a permit. *)
Record consumer := mkConsumer {
  ready : list delivery; buffered : list delivery; held : option delivery }.
#[export] Instance consumer_eta : Eta consumer := fun r => mkConsumer (ready r) (buffered r) (held r).

(** [arrived] and [started] are histories: the messages in the order the broker got them, and the tasks
    in the order they were created. A delivery whose task raised is [abandoned]: never acknowledged. *)
Record worker := mkWorker {
  consumers : gmap string consumer;
  sequential_limiter : nat;
  parallel_limiter : nat;
  running : list delivery;
  settled : list delivery;
  abandoned : list delivery;
  arrived : list delivery;
  started : list delivery }.
#[export] Instance worker_eta : Eta worker := fun r =>
  mkWorker (consumers r) (sequential_limiter r) (parallel_limiter r) (running r) (settled r)
    (abandoned r) (arrived r) (started r).

Definition sequential_queues : list string := Q_name <$> WorkerTopology.consumer_queues true.
Definition parallel_queues : list string := Q_name <$> WorkerTopology.consumer_queues false.
Definition is_sequential (q : string) : bool := q isin sequential_queues.
Definition prefetch_count (concurrency : nat) (q : string) : nat :=
  if is_sequential q then 1 else concurrency.

(** [consume], once both channels are declared: an idle loop per queue and two fresh semaphores. *)
Definition consume (concurrency : nat) : worker :=
  mkWorker (list_to_map ((fun q => (q, mkConsumer [] [] None)) <$> sequential_queues ++ parallel_queues))
    1 concurrency [] [] [] [] [].

Inductive consumer_event :=
  | Arrive (q : string) (m : Message)
  | Deliver (q : string)
  | Take (q : string)
  | Acquire (q : string)
  | Finish (d : delivery) (result : outcome unit).

Definition in_queue (q : string) (l : list delivery) : list delivery := List.filter (fun d => dl_queue d == q) l.
Definition on_consumer (q : string) (f : consumer → consumer) (w : worker) : worker :=
  w <| consumers := alter f q (consumers w) |>.
(** The deliveries of a queue the broker has no acknowledgement for. *)
Definition unacknowledged (q : string) (w : worker) : list delivery :=
  match consumers w !! q with
  | Some c => in_queue q (abandoned w ++ running w) ++ option_list (held c) ++ buffered c
  | None => []
  end.
Definition permits (q : string) (w : worker) : nat :=
  if is_sequential q then sequential_limiter w else parallel_limiter w.
Definition set_permits (q : string) (n : nat) (w : worker) : worker :=
  if is_sequential q then w <| sequential_limiter := n |> else w <| parallel_limiter := n |>.

Section consumers.
Context `{Codec} `{Qos}.

(** The result of a task, where the handler and what follows it end with [result]: a message that
    cannot be read raises before the handler is called. *)
Definition task_result (m : Message) (result : outcome unit) : outcome unit :=
  match read_message m with Raise e => Raise e | Ok _ => result end.

(** An event that is not due changes nothing. *)
Definition consumer_step (concurrency : nat) (w : worker) (e : consumer_event) : worker :=
  match e with
  | Arrive q m =>
      match consumers w !! q with
      | Some _ =>
          let d := mkDelivery (length (arrived w)) q m in
          on_consumer q (fun c => c <| ready := ready c ++ [d] |>) w <| arrived := arrived w ++ [d] |>
      | None => w
      end
  | Deliver q =>
      match consumers w !! q with
      | Some (mkConsumer (d :: rest) buffer held) =>
          if sends_next (prefetch_count concurrency q) (length (unacknowledged q w))
          then on_consumer q (fun _ => mkConsumer rest (buffer ++ [d]) held) w else w
      | _ => w
      end
  | Take q =>
      match consumers w !! q with
      | Some (mkConsumer rest (d :: buffer) None) => on_consumer q (fun _ => mkConsumer rest buffer (Some d)) w
      | _ => w
      end
  | Acquire q =>
      match consumers w !! q, permits q w with
      | Some (mkConsumer rest buffer (Some d)), S n =>
          set_permits q n
            (on_consumer q (fun _ => mkConsumer rest buffer None) w
               <| running := running w ++ [d] |> <| started := started w ++ [d] |>)
      | _, _ => w
      end
  | Finish d result =>
      if d isin running w then
        let w := set_permits (dl_queue d) (S (permits (dl_queue d) w))
                   (w <| running := List.filter (fun d' => d' != d) (running w) |>) in
        match task_result (dl_message d) result with
        | Ok _ => w <| settled := settled w ++ [d] |>
        | Raise _ => w <| abandoned := abandoned w ++ [d] |>
        end
      else w
  end.
Definition run_consumers (concurrency : nat) (events : list consumer_event) : worker :=
  foldl (consumer_step concurrency) (consume concurrency) events.
End consumers.

(** What a task does to the world is [handle_message]; it ends the way [task_result] says. *)
Lemma handle_message_result {W} `{Codec} `{Broker W} policy handler m (w : W) :
  (handle_message policy handler m w).1 = task_result m (handle_message policy handler m w).1 ∧
  (∀ e, read_message m = Raise e → handle_message policy handler m w = (Raise e, w)).
Proof.
  unfold handle_message, task_result, bindA, liftA. destruct (read_message m) as [c|e] eqn:E; [done|].
  split; [done|]. by intros e' [= ->].
Qed.

(** ** The invariant *)
Definition tasks_of (sequentially : bool) (l : list delivery) : nat :=
  length (List.filter (fun d => Bool.eqb (is_sequential (dl_queue d)) sequentially) l).
Definition limiter (sequentially : bool) (w : worker) : nat :=
  if sequentially then sequential_limiter w else parallel_limiter w.
Definition capacity (concurrency : nat) (sequentially : bool) : nat := if sequentially then 1 else concurrency.
(** The messages of a queue that have no task yet, the next one first. *)
Definition waiting (c : consumer) : list delivery := option_list (held c) ++ buffered c ++ ready c.

Record consumers_inv (concurrency : nat) (w : worker) : Prop := {
  inv_permits : ∀ b, limiter b w + tasks_of b (running w) = capacity concurrency b;
  inv_tasks : started w ≡ₚ running w ++ settled w ++ abandoned w;
  inv_tags : ∀ i d, arrived w !! i = Some d → dl_tag d = i;
  inv_queue : ∀ q c, consumers w !! q = Some c →
    in_queue q (arrived w) = in_queue q (started w) ++ waiting c;
  inv_consumed : ∀ d, d ∈ arrived w → is_Some (consumers w !! dl_queue d);
  inv_started : ∀ d, d ∈ started w → d ∈ arrived w;
  inv_once : NoDup (started w) }.

Lemma tasks_of_app b l k : tasks_of b (l ++ k) = tasks_of b l + tasks_of b k.
Proof. unfold tasks_of. by rewrite List.filter_app, length_app. Qed.
#[export] Instance tasks_of_perm b : Proper (Permutation ==> eq) (tasks_of b).
Proof. intros l k HP. unfold tasks_of. by rewrite HP. Qed.
Lemma in_queue_app q l k : in_queue q (l ++ k) = in_queue q l ++ in_queue q k.
Proof. apply List.filter_app. Qed.
Lemma in_queue_single q d : in_queue q [d] = if dl_queue d == q then [d] else [].
Proof. done. Qed.
Lemma elem_of_in_queue q l d : d ∈ in_queue q l ↔ d ∈ l ∧ dl_queue d = q.
Proof. unfold in_queue. rewrite elem_of_lfilter. by rewrite bool_decide_eq_true. Qed.
Lemma in_queue_once q l : NoDup l → NoDup (in_queue q l).
Proof. intros Hl. apply NoDup_ListNoDup, List.NoDup_filter. by apply NoDup_ListNoDup. Qed.
Lemma without_perm (l : list delivery) d :
  NoDup l → d ∈ l → l ≡ₚ d :: List.filter (fun d' => d' != d) l.
Proof.
  induction l as [|x l IH]; [by intros _ ?%elem_of_nil|]. intros [Hx Hl]%NoDup_cons Hd. cbn.
  case_bool_decide as E; cbn.
  - subst x. f_equiv. clear IH Hd. induction l as [|y l IH]; [done|]. cbn.
    apply not_elem_of_cons in Hx as [Hy Hx]. rewrite bool_decide_eq_false_2 by congruence. cbn.
    f_equiv. apply IH; [done|]. by apply NoDup_cons in Hl as [].
  - apply elem_of_cons in Hd as [->|Hd]; [done|]. rewrite (IH Hl Hd) at 1. apply Permutation_swap.
Qed.

(** The fields an event on one consumer leaves alone. *)
Lemma limiter_set_permits b q n w :
  limiter b (set_permits q n w) = if Bool.eqb (is_sequential q) b then n else limiter b w.
Proof. unfold limiter, set_permits. by destruct (is_sequential q), b. Qed.
Lemma set_permits_frame q n w :
  consumers (set_permits q n w) = consumers w ∧ running (set_permits q n w) = running w ∧
  settled (set_permits q n w) = settled w ∧ abandoned (set_permits q n w) = abandoned w ∧
  arrived (set_permits q n w) = arrived w ∧ started (set_permits q n w) = started w.
Proof. unfold set_permits. by destruct (is_sequential q). Qed.
Lemma permits_limiter q w : permits q w = limiter (is_sequential q) w.
Proof. done. Qed.

Section invariant.
Context `{Codec} `{Qos} (concurrency : nat).

Lemma arrived_once w : consumers_inv concurrency w → NoDup (arrived w).
Proof.
  intros I. apply (NoDup_fmap_1 dl_tag), NoDup_alt. intros i j t Hi Hj.
  rewrite list_lookup_fmap in Hi, Hj.
  destruct (arrived w !! i) as [d|] eqn:Ei; [|done]. destruct (arrived w !! j) as [d'|] eqn:Ej; [|done].
  apply (inv_tags _ _ I) in Ei, Ej. cbn in Hi, Hj. congruence.
Qed.
Lemma consume_inv : consumers_inv concurrency (consume concurrency).
Proof.
  unfold consume. split; cbn [arrived started running settled abandoned consumers].
  - by intros [].
  - reflexivity.
  - intros i d. by rewrite lookup_nil.
  - intros q c Hc. apply elem_of_list_to_map_2, list_elem_of_fmap in Hc as (q' & [= <- ->] & _). reflexivity.
  - by intros d ?%elem_of_nil.
  - by intros d ?%elem_of_nil.
  - by apply NoDup_nil_2.
Qed.

(** An event that only moves messages within one consumer. *)
Lemma moved_inv w q c c' :
  consumers_inv concurrency w → consumers w !! q = Some c → waiting c' = waiting c →
  consumers_inv concurrency (on_consumer q (fun _ => c') w).
Proof.
  intros I Hc Hw. split; try apply I.
  - intros q' x. simpl. destruct (decide (q' = q)) as [->|Hne].
    + rewrite lookup_alter_eq, Hc. intros [= <-]. rewrite Hw. by apply (inv_queue _ _ I).
    + rewrite lookup_alter_ne by done. apply (inv_queue _ _ I).
  - intros d Hd. simpl. apply (inv_consumed _ _ I) in Hd as [x Hx].
    destruct (decide (dl_queue d = q)) as [->|Hne]; [by rewrite lookup_alter_eq, Hc|]. by rewrite lookup_alter_ne, Hx.
Qed.

Lemma arrive_inv w q c m :
  consumers_inv concurrency w → consumers w !! q = Some c →
  consumers_inv concurrency (consumer_step concurrency w (Arrive q m)).
Proof.
  intros I Hc. cbn [consumer_step]. rewrite Hc. set (d := mkDelivery (length (arrived w)) q m). split; simpl; try apply I.
  - intros i x. rewrite lookup_app_Some. intros [Hi|[Hi Hx]]; [by apply (inv_tags _ _ I)|].
    apply list_lookup_singleton_Some in Hx as [Ei Ex]. subst x. cbn. lia.
  - intros q' x. rewrite in_queue_app, in_queue_single. change (dl_queue d) with q.
    destruct (decide (q' = q)) as [->|Hne].
    + rewrite lookup_alter_eq, Hc, bool_decide_eq_true_2 by done. intros [= <-].
      rewrite (inv_queue _ _ I q c Hc). unfold waiting. simpl. by rewrite <- !app_assoc.
    + rewrite lookup_alter_ne, bool_decide_eq_false_2 by congruence. intros Hx. rewrite app_nil_r.
      by apply (inv_queue _ _ I).
  - intros x [Hx|Ex%list_elem_of_singleton]%elem_of_app.
    + apply (inv_consumed _ _ I) in Hx as [y Hy]. destruct (decide (dl_queue x = q)) as [->|Hne].
      * by rewrite lookup_alter_eq, Hc.
      * by rewrite lookup_alter_ne, Hy.
    + subst x. change (dl_queue d) with q. by rewrite lookup_alter_eq, Hc.
  - intros x Hx%(inv_started _ _ I). apply elem_of_app. by left.
Qed.

(** The message a loop holds has no task yet. *)
Lemma held_fresh w q rest buffer d :
  consumers_inv concurrency w → consumers w !! q = Some (mkConsumer rest buffer (Some d)) →
  dl_queue d = q ∧ d ∈ arrived w ∧ d ∉ started w.
Proof.
  intros I Hc. pose proof (inv_queue _ _ I q _ Hc) as Hq. unfold waiting in Hq. cbn in Hq.
  assert (d ∈ in_queue q (arrived w)) as [Ha Eq]%elem_of_in_queue by (rewrite Hq, elem_of_app; right; left).
  split_and!; [done|done|]. intros Hs.
  assert (NoDup (in_queue q (arrived w))) as Hnd by by apply in_queue_once, arrived_once.
  rewrite Hq in Hnd. apply NoDup_app in Hnd as (_ & Hnd & _). apply (Hnd d); [by apply elem_of_in_queue|by left].
Qed.
Lemma acquire_inv w q rest buffer d n :
  consumers_inv concurrency w → consumers w !! q = Some (mkConsumer rest buffer (Some d)) → permits q w = S n →
  consumers_inv concurrency (consumer_step concurrency w (Acquire q)).
Proof.
  intros I Hc Hn. cbn [consumer_step]. rewrite Hc, Hn. destruct (held_fresh w q rest buffer d I Hc) as (Eq & Ha & Hf).
  match goal with |- consumers_inv _ (set_permits _ _ ?x) => set (w1 := x) end.
  destruct (set_permits_frame q n w1) as (Fc & Fr & Fs & Fb & Fa & Ft).
  change (consumers w1) with (alter (fun _ => mkConsumer rest buffer None) q (consumers w)) in Fc.
  change (running w1) with (running w ++ [d]) in Fr. change (started w1) with (started w ++ [d]) in Ft.
  change (settled w1) with (settled w) in Fs. change (abandoned w1) with (abandoned w) in Fb.
  change (arrived w1) with (arrived w) in Fa.
  split; rewrite ?Fc, ?Fr, ?Fs, ?Fb, ?Fa, ?Ft.
  - intros b. pose proof (inv_permits _ _ I b) as Hb. rewrite permits_limiter in Hn.
    rewrite limiter_set_permits, tasks_of_app. unfold tasks_of at 2. cbn. rewrite Eq.
    assert (limiter b w1 = limiter b w) as -> by by destruct b.
    destruct (Bool.eqb (is_sequential q) b) eqn:E; cbn; [apply Bool.eqb_prop in E; subst b|]; lia.
  - rewrite (inv_tasks _ _ I), <- !app_assoc. f_equiv.
    by rewrite (app_assoc (settled w)), Permutation_app_comm.
  - apply (inv_tags _ _ I).
  - intros q' x. rewrite in_queue_app, in_queue_single, Eq. destruct (decide (q' = q)) as [->|Hne].
    + rewrite lookup_alter_eq, Hc, bool_decide_eq_true_2 by done. intros [= <-].
      rewrite (inv_queue _ _ I q _ Hc). unfold waiting. simpl. by rewrite <- app_assoc.
    + rewrite lookup_alter_ne, bool_decide_eq_false_2 by congruence. rewrite app_nil_r. apply (inv_queue _ _ I).
  - intros x Hx%(inv_consumed _ _ I).
    destruct (decide (dl_queue x = q)) as [->|Hne]; [by rewrite lookup_alter_eq, Hc|]. by rewrite lookup_alter_ne.
  - intros x [Hx|Ex%list_elem_of_singleton]%elem_of_app; [by apply (inv_started _ _ I)|rewrite Ex; exact Ha].
  - apply NoDup_app. split_and!; [apply I| |by apply NoDup_singleton].
    intros x Hx Ex%list_elem_of_singleton. apply Hf. rewrite <- Ex. exact Hx.
Qed.

Lemma running_once w : consumers_inv concurrency w → NoDup (running w).
Proof. intros I. pose proof (inv_once _ _ I) as Hnd. rewrite (inv_tasks _ _ I) in Hnd. by apply NoDup_app in Hnd as []. Qed.
Lemma finish_inv w d r :
  consumers_inv concurrency w → consumers_inv concurrency (consumer_step concurrency w (Finish d r)).
Proof.
  intros I. cbn [consumer_step]. case_bool_decide as Hd; [|done].
  pose proof (without_perm _ d (running_once w I) Hd) as Hp.
  set (left := List.filter (fun d' => d' != d) (running w)) in *.
  set (w1 := w <| running := left |>). set (n := S (permits (dl_queue d) w)).
  destruct (set_permits_frame (dl_queue d) n w1) as (Fc & Fr & Fs & Fb & Fa & Ft).
  change (consumers w1) with (consumers w) in Fc. change (running w1) with left in Fr.
  change (started w1) with (started w) in Ft. change (settled w1) with (settled w) in Fs.
  change (abandoned w1) with (abandoned w) in Fb. change (arrived w1) with (arrived w) in Fa.
  assert (∀ x, consumers x = consumers w → arrived x = arrived w → started x = started w → running x = left →
    (∀ b, limiter b x = limiter b (set_permits (dl_queue d) n w1)) →
    settled x ++ abandoned x ≡ₚ d :: settled w ++ abandoned w → consumers_inv concurrency x) as Hx.
  { intros x Hc Ha Ht Hr Hl Hs. split.
    - intros b. pose proof (inv_permits _ _ I b) as Hb. rewrite Hp in Hb. change (d :: left) with ([d] ++ left) in Hb.
      rewrite tasks_of_app in Hb. unfold tasks_of at 1 in Hb. cbn in Hb.
      rewrite Hr, Hl, limiter_set_permits. change (limiter b w1) with (limiter b w). unfold n. rewrite permits_limiter.
      destruct (Bool.eqb (is_sequential (dl_queue d)) b) eqn:E; cbn in Hb; [|lia].
      apply Bool.eqb_prop in E. subst b. lia.
    - rewrite Ht, Hr, (inv_tasks _ _ I), Hp, Hs. by rewrite <- Permutation_middle.
    - rewrite Ha. apply I.
    - rewrite Hc, Ha, Ht. apply I.
    - rewrite Hc, Ha. apply I.
    - rewrite Ht, Ha. apply I.
    - rewrite Ht. apply I. }
  destruct (task_result _ _) as [u|e]; (apply Hx; [exact Fc|exact Fa|exact Ft|exact Fr|intros []; reflexivity|]).
  - cbn. rewrite Fs, Fb, <- app_assoc. cbn. by rewrite <- Permutation_middle.
  - cbn. rewrite Fs, Fb, app_assoc. by rewrite Permutation_app_comm.
Qed.
Lemma consumer_step_inv w e : consumers_inv concurrency w → consumers_inv concurrency (consumer_step concurrency w e).
Proof.
  intros I. destruct e as [q m|q|q|q|d r].
  - destruct (consumers w !! q) as [c|] eqn:Hc; [by eapply arrive_inv|]. cbn [consumer_step]. by rewrite Hc.
  - cbn [consumer_step]. destruct (consumers w !! q) as [[[|d rest] buffer held]|] eqn:Hc; [done| |done].
    case_match; [|done]. eapply moved_inv; [done|exact Hc|]. unfold waiting. cbn. by rewrite <- app_assoc.
  - cbn [consumer_step]. destruct (consumers w !! q) as [[rest [|d buffer] [x|]]|] eqn:Hc; try done.
    by eapply moved_inv.
  - destruct (consumers w !! q) as [[rest buffer [d|]]|] eqn:Hc; [destruct (permits q w) eqn:Hn| |].
    + cbn [consumer_step]. by rewrite Hc, Hn.
    + by eapply acquire_inv.
    + cbn [consumer_step]. by rewrite Hc.
    + cbn [consumer_step]. by rewrite Hc.
  - by apply finish_inv.
Qed.
Lemma run_consumers_inv events : consumers_inv concurrency (run_consumers concurrency events).
Proof. unfold run_consumers. apply (foldl_invariant (consumers_inv concurrency)); [apply consume_inv|]. intros w e _ I. by apply consumer_step_inv. Qed.

(** *** Unacknowledged deliveries *)
Lemma unack_spec w q c :
  consumers w !! q = Some c →
  unacknowledged q w = in_queue q (abandoned w ++ running w) ++ option_list (held c) ++ buffered c.
Proof. unfold unacknowledged. by intros ->. Qed.
Lemma unack_frame w w' q :
  consumers w' !! q = consumers w !! q → abandoned w' = abandoned w → running w' = running w →
  unacknowledged q w' = unacknowledged q w.
Proof. unfold unacknowledged. by intros -> -> ->. Qed.
Lemma unack_other w q q' f : q' ≠ q → unacknowledged q' (on_consumer q f w) = unacknowledged q' w.
Proof. intros Hne. apply unack_frame; [by apply lookup_alter_ne|done..]. Qed.

(** Only the broker's next delivery adds to them. *)
Lemma unack_acquire w q q' rest buffer d n :
  consumers_inv concurrency w → consumers w !! q = Some (mkConsumer rest buffer (Some d)) → permits q w = S n →
  unacknowledged q' (consumer_step concurrency w (Acquire q)) ≡ₚ unacknowledged q' w.
Proof.
  intros I Hc Hn. destruct (held_fresh w q rest buffer d I Hc) as (Eq & _ & _).
  cbn [consumer_step]. rewrite Hc, Hn. match goal with |- unacknowledged _ (set_permits _ _ ?x) ≡ₚ _ => set (w1 := x) end.
  destruct (set_permits_frame q n w1) as (Fc & Fr & Fs & Fb & Fa & Ft).
  unfold unacknowledged. rewrite Fc, Fr, Fb. change (consumers w1) with (alter (fun _ => mkConsumer rest buffer None) q (consumers w)).
  change (running w1) with (running w ++ [d]). change (abandoned w1) with (abandoned w).
  rewrite !in_queue_app, in_queue_single, Eq. destruct (decide (q' = q)) as [->|Hne].
  - rewrite lookup_alter_eq, Hc, bool_decide_eq_true_2 by done. cbn. by rewrite <- !app_assoc.
  - rewrite lookup_alter_ne, bool_decide_eq_false_2 by congruence. by rewrite !app_nil_r.
Qed.
Lemma unack_finish w d r q :
  consumers_inv concurrency w →
  length (unacknowledged q (consumer_step concurrency w (Finish d r))) ≤ length (unacknowledged q w).
Proof.
  intros I. cbn [consumer_step]. case_bool_decide as Hd; [|done].
  pose proof (without_perm _ d (running_once w I) Hd) as Hp.
  set (left := List.filter (fun d' => d' != d) (running w)) in *.
  destruct (set_permits_frame (dl_queue d) (S (permits (dl_queue d) w)) (w <| running := left |>))
    as (Fc & Fr & _ & Fb & _ & _).
  set (w1 := set_permits _ _ _) in *.
  change (consumers (w <| running := left |>)) with (consumers w) in Fc.
  change (running (w <| running := left |>)) with left in Fr.
  change (abandoned (w <| running := left |>)) with (abandoned w) in Fb.
  destruct (task_result _ _) as [u|e]; unfold unacknowledged.
  - change (consumers (w1 <| settled := _ |>)) with (consumers w1).
    change (abandoned (w1 <| settled := _ |>)) with (abandoned w1). change (running (w1 <| settled := _ |>)) with (running w1).
    rewrite Fc, Fr, Fb. destruct (consumers w !! q) as [c|]; [|done]. rewrite !in_queue_app, !length_app.
    assert (length (in_queue q left) ≤ length (in_queue q (running w))); [|lia].
    unfold in_queue at 2. rewrite Hp. cbn. destruct (dl_queue d == q); cbn; unfold in_queue; lia.
  - change (consumers (w1 <| abandoned := _ |>)) with (consumers w1).
    change (abandoned (w1 <| abandoned := ?l |>)) with l. change (running (w1 <| abandoned := _ |>)) with (running w1).
    rewrite Fc, Fr, Fb. destruct (consumers w !! q) as [c|]; [|done]. rewrite !in_queue_app, !length_app.
    assert (length (in_queue q [d]) + length (in_queue q left) = length (in_queue q (running w))); [|lia].
    unfold in_queue at 3. rewrite Hp. cbn. by destruct (dl_queue d == q).
Qed.

Lemma unack_step `{!QosLaws} w e q :
  consumers_inv concurrency w → 0 < prefetch_count concurrency q →
  length (unacknowledged q w) ≤ prefetch_count concurrency q →
  length (unacknowledged q (consumer_step concurrency w e)) ≤ prefetch_count concurrency q.
Proof.
  intros I Hp Hle. destruct e as [q' m|q'|q'|q'|d r].
  - cbn [consumer_step]. destruct (consumers w !! q') as [c|] eqn:Hc; [|done].
    assert (unacknowledged q (on_consumer q' (fun c => c <| ready := ready c ++ [mkDelivery (length (arrived w)) q' m] |>) w)
            = unacknowledged q w) as E; [|by unfold unacknowledged in *; simpl in *; rewrite E].
    destruct (decide (q = q')) as [->|Hne]; [|by apply unack_other].
    unfold unacknowledged. simpl. by rewrite lookup_alter_eq, Hc.
  - cbn [consumer_step]. destruct (consumers w !! q') as [[[|d rest] buffer h]|] eqn:Hc; [done| |done].
    destruct (sends_next _ _) eqn:Hs; [|done]. destruct (decide (q = q')) as [->|Hne]; [|by rewrite unack_other].
    apply sends_next_spec in Hs; [|done]. rewrite (unack_spec w q' _ Hc) in Hs.
    erewrite unack_spec by (simpl; by rewrite lookup_alter_eq, Hc). cbn [held buffered] in *.
    change (abandoned (on_consumer _ _ w)) with (abandoned w). change (running (on_consumer _ _ w)) with (running w).
    rewrite !length_app in *. cbn. lia.
  - cbn [consumer_step]. destruct (consumers w !! q') as [[rest [|d buffer] [x|]]|] eqn:Hc; try done.
    destruct (decide (q = q')) as [->|Hne]; [|by rewrite unack_other].
    rewrite (unack_spec w q' _ Hc) in Hle. erewrite unack_spec by (simpl; by rewrite lookup_alter_eq, Hc).
    exact Hle.
  - destruct (consumers w !! q') as [[rest buffer [d|]]|] eqn:Hc; [destruct (permits q' w) eqn:Hn| |].
    + cbn [consumer_step]. by rewrite Hc, Hn.
    + by rewrite unack_acquire.
    + cbn [consumer_step]. by rewrite Hc.
    + cbn [consumer_step]. by rewrite Hc.
  - etrans; [by apply unack_finish|done].
Qed.
Lemma unack_bound `{!QosLaws} events q :
  0 < prefetch_count concurrency q →
  length (unacknowledged q (run_consumers concurrency events)) ≤ prefetch_count concurrency q.
Proof.
  intros Hp. unfold run_consumers.
  apply (foldl_invariant (fun w => consumers_inv concurrency w ∧
    length (unacknowledged q w) ≤ prefetch_count concurrency q)).
  - split; [apply consume_inv|]. unfold unacknowledged. destruct (consumers _ !! q) as [c|] eqn:Hc; [|cbn; lia].
    apply elem_of_list_to_map_2, list_elem_of_fmap in Hc as (q' & [= <- ->] & _). cbn. lia.
  - intros w e _ [I Hle]. split; [by apply consumer_step_inv|by apply unack_step].
Qed.

(** *** A message that cannot be read *)
Definition unreadable (m : Message) : Prop := ∃ e, read_message m = Raise e.
Lemma settled_readable events d : d ∈ settled (run_consumers concurrency events) → ¬ unreadable (dl_message d).
Proof.
  unfold run_consumers.
  apply (foldl_invariant (fun w => d ∈ settled w → ¬ unreadable (dl_message d))); [by intros ?%elem_of_nil|].
  intros w e _ IH. destruct e as [q m|q|q|q|d' r]; cbn [consumer_step]; repeat case_match; try exact IH.
  - match goal with |- context [set_permits ?q ?n ?x] =>
      destruct (set_permits_frame q n x) as (_ & _ & Fs & _); set (z := set_permits q n x) in * end.
    rewrite Fs. exact IH.
  - match goal with |- context [set_permits ?q ?n ?x] =>
      destruct (set_permits_frame q n x) as (_ & _ & Fs & _); set (z := set_permits q n x) in * end.
    change (d ∈ settled z ++ [d'] → ¬ unreadable (dl_message d)). rewrite Fs.
    intros [Hd|Ed%list_elem_of_singleton]%elem_of_app; [by apply IH|]. subst d'. intros [e He].
    unfold task_result in *. by rewrite He in *.
  - match goal with |- context [set_permits ?q ?n ?x] =>
      destruct (set_permits_frame q n x) as (_ & _ & Fs & _); set (z := set_permits q n x) in * end.
    change (d ∈ settled z → ¬ unreadable (dl_message d)). rewrite Fs. exact IH.
Qed.

(** While the task of an unreadable message of a sequential queue is there, or after it, its consumer
    is full and no other task of the queue starts. *)
Lemma stalled_step w e d :
  consumers_inv concurrency w → length (unacknowledged (dl_queue d) w) ≤ 1 → unreadable (dl_message d) →
  d ∈ abandoned w ++ running w →
  let w' := consumer_step concurrency w e in
  d ∈ abandoned w' ++ running w' ∧ in_queue (dl_queue d) (started w') = in_queue (dl_queue d) (started w).
Proof.
  intros I Hle [ex Hex] Hd w'. subst w'. destruct e as [q m|q|q|q|d' r]; cbn [consumer_step].
  - by destruct (consumers w !! q).
  - destruct (consumers w !! q) as [[[|x rest] buffer h]|]; [done| |done]. by destruct (sends_next _ _).
  - by destruct (consumers w !! q) as [[rest [|x buffer] [y|]]|].
  - destruct (consumers w !! q) as [[rest buffer [x|]]|] eqn:Hq; [|done..].
    destruct (permits q w) as [|n] eqn:Hn; [done|].
    match goal with |- context [set_permits ?q ?n ?x] =>
      destruct (set_permits_frame q n x) as (_ & Fr & _ & Fb & _ & Ft) end. rewrite Fr, Fb, Ft. simpl.
    destruct (decide (q = dl_queue d)) as [->|Hne].
    + exfalso. rewrite (unack_spec w _ _ Hq) in Hle. cbn in Hle. rewrite length_app in Hle. cbn in Hle.
      assert (d ∈ in_queue (dl_queue d) (abandoned w ++ running w)) as Hin
        by (apply elem_of_in_queue; split; [exact Hd|reflexivity]).
      destruct (in_queue _ _); [by apply elem_of_nil in Hin|]. cbn in Hle. lia.
    + destruct (held_fresh w q rest buffer x I Hq) as (Ex & _ & _). split.
      * rewrite app_assoc. apply elem_of_app. by left.
      * rewrite in_queue_app, in_queue_single, Ex, bool_decide_eq_false_2 by done. apply app_nil_r.
  - case_bool_decide as Hd'; [|done].
    match goal with |- context [set_permits ?q ?n ?x] =>
      destruct (set_permits_frame q n x) as (_ & Er & _ & Eb & _ & Et); set (z := set_permits q n x) in * end.
    change (running _) with (List.filter (fun x => x != d') (running w)) in Er at 2.
    change (abandoned _) with (abandoned w) in Eb at 2. change (started _) with (started w) in Et at 2.
    assert (d ≠ d' → d ∈ abandoned w ++ running z) as Hkeep.
    { intros Hne. rewrite Er. apply elem_of_app in Hd as [Hd|Hd]; apply elem_of_app; [by left|right].
      apply elem_of_lfilter. split; [done|]. by rewrite bool_decide_eq_false_2. }
    destruct (task_result (dl_message d') r) as [u|e'] eqn:Et'.
    + assert (d ≠ d') as Hne by (intros ->; unfold task_result in Et'; by rewrite Hex in Et').
      change (d ∈ abandoned z ++ running z ∧ in_queue (dl_queue d) (started z) = in_queue (dl_queue d) (started w)).
      rewrite Eb, Et. split; [by apply Hkeep|done].
    + change (d ∈ (abandoned z ++ [d']) ++ running z ∧
              in_queue (dl_queue d) (started z) = in_queue (dl_queue d) (started w)).
      rewrite Eb, Et. split; [|done]. destruct (decide (d = d')) as [<-|Hne].
      * apply elem_of_app. left. apply elem_of_app. right. by left.
      * specialize (Hkeep Hne). rewrite !elem_of_app in *. tauto.
Qed.
Lemma run_consumers_snoc events e :
  run_consumers concurrency (events ++ [e]) = consumer_step concurrency (run_consumers concurrency events) e.
Proof. unfold run_consumers. by rewrite foldl_app. Qed.
Lemma stalled_run `{!QosLaws} events events' d :
  is_sequential (dl_queue d) = true → unreadable (dl_message d) →
  d ∈ abandoned (run_consumers concurrency events) ++ running (run_consumers concurrency events) →
  d ∈ abandoned (run_consumers concurrency (events ++ events')) ++ running (run_consumers concurrency (events ++ events')) ∧
  in_queue (dl_queue d) (started (run_consumers concurrency (events ++ events')))
  = in_queue (dl_queue d) (started (run_consumers concurrency events)).
Proof.
  intros Hs Hu Hd. induction events' as [|e events' IH] using rev_ind; [by rewrite app_nil_r|].
  rewrite app_assoc, run_consumers_snoc. destruct IH as [Hd' <-]. apply stalled_step; [|  |done|done].
  - apply run_consumers_inv.
  - pose proof (unack_bound (events ++ events') (dl_queue d)) as Hb. unfold prefetch_count in Hb. rewrite Hs in Hb.
    apply Hb. lia.
Qed.

(** *** Progress *)
Definition internal (e : consumer_event) : Prop := match e with Arrive _ _ => False | _ => True end.
(** [w'] follows from [w] without new messages, and [d] is acknowledged now and was not before. *)
Definition settles (w w' : worker) (d : delivery) : Prop :=
  settled w' = settled w ++ [d] ∧ abandoned w' = abandoned w ∧ arrived w' = arrived w.

Lemma finish_settles w d :
  d ∈ running w → ¬ unreadable (dl_message d) → settles w (consumer_step concurrency w (Finish d (Ok tt))) d.
Proof.
  intros Hd Hr. cbn [consumer_step]. rewrite bool_decide_eq_true_2 by done.
  match goal with |- context [set_permits ?q ?n ?x] =>
    destruct (set_permits_frame q n x) as (_ & _ & Fs & Fb & Fa & _); set (z := set_permits q n x) in * end.
  unfold task_result. destruct (read_message (dl_message d)) as [c|e] eqn:E; [|by destruct Hr; exists e].
  split_and!; [exact (f_equal (fun l => l ++ [d]) Fs)|exact Fb|exact Fa].
Qed.
Lemma acquire_runs w q rest buffer d n :
  consumers w !! q = Some (mkConsumer rest buffer (Some d)) → permits q w = S n →
  let w' := consumer_step concurrency w (Acquire q) in
  d ∈ running w' ∧ settled w' = settled w ∧ abandoned w' = abandoned w ∧ arrived w' = arrived w.
Proof.
  intros Hc Hn. cbn [consumer_step]. rewrite Hc, Hn. cbv zeta.
  match goal with |- context [set_permits ?q ?n ?x] =>
    destruct (set_permits_frame q n x) as (_ & -> & -> & -> & -> & _) end.
  split_and!; [|done..]. apply elem_of_app. right. by left.
Qed.

(** With no task running and no delivery abandoned, the next message of any queue can be handled. *)
Lemma queue_serves `{!QosLaws} w q c d rest :
  0 < concurrency → consumers_inv concurrency w → running w = [] → abandoned w = [] →
  (∀ x, x ∈ arrived w → ¬ unreadable (dl_message x)) →
  consumers w !! q = Some c → waiting c = d :: rest →
  ∃ es, Forall internal es ∧ settles w (foldl (consumer_step concurrency) w es) d.
Proof.
  intros Hpos I Hr Hb Hread Hc Hw.
  assert (∃ n, permits q w = S n) as [n Hn].
  { pose proof (inv_permits _ _ I (is_sequential q)) as Hp. rewrite Hr in Hp. cbn in Hp. rewrite permits_limiter.
    unfold capacity in Hp. destruct (limiter _ _); [|by eexists]. destruct (is_sequential q); lia. }
  assert (¬ unreadable (dl_message d)) as Hd.
  { apply Hread. pose proof (inv_queue _ _ I q c Hc) as Hq. rewrite Hw in Hq.
    assert (d ∈ in_queue q (arrived w)) as [? _]%elem_of_in_queue; [|done]. rewrite Hq. apply elem_of_app. right. by left. }
  assert (∀ w' rest' buffer', consumers w' !! q = Some (mkConsumer rest' buffer' (Some d)) → permits q w' = S n →
    settled w' = settled w → abandoned w' = abandoned w → arrived w' = arrived w →
    settles w (foldl (consumer_step concurrency) w' [Acquire q; Finish d (Ok tt)]) d) as Hrun.
  { intros w' rest' buffer' Hc' Hn' Es Eb Ea. destruct (acquire_runs w' q _ _ d n Hc' Hn') as (Hin & Fs & Fb & Fa).
    destruct (finish_settles _ d Hin Hd) as (Gs & Gb & Ga). cbn [foldl]. split_and!; congruence. }
  assert (∀ w' rest' buffer', consumers w' !! q = Some (mkConsumer rest' (d :: buffer') None) → permits q w' = S n →
    settled w' = settled w → abandoned w' = abandoned w → arrived w' = arrived w →
    settles w (foldl (consumer_step concurrency) w' [Take q; Acquire q; Finish d (Ok tt)]) d) as Htake.
  { intros w' rest' buffer' Hc' Hn' Es Eb Ea.
    change (settles w (foldl (consumer_step concurrency) (consumer_step concurrency w' (Take q)) [Acquire q; Finish d (Ok tt)]) d).
    cbn [consumer_step]. rewrite Hc'. eapply Hrun; [simpl; by rewrite lookup_alter_eq, Hc'|exact Hn'|exact Es|exact Eb|exact Ea]. }
  destruct c as [[|x ready'] [|y buffer] [h|]]; cbn in Hw; try discriminate Hw; injection Hw as -> <-.
  1-2,4,6: exists [Acquire q; Finish d (Ok tt)]; split; [by repeat constructor|by eapply Hrun].
  1,3: exists [Take q; Acquire q; Finish d (Ok tt)]; split; [by repeat constructor|by eapply Htake].
  exists [Deliver q; Take q; Acquire q; Finish d (Ok tt)]. split; [by repeat constructor|].
  change (settles w (foldl (consumer_step concurrency) (consumer_step concurrency w (Deliver q)) [Take q; Acquire q; Finish d (Ok tt)]) d).
  cbn [consumer_step]. rewrite Hc, (unack_spec w q _ Hc), Hr, Hb. cbn.
  assert (0 < prefetch_count concurrency q) as Hpre by (unfold prefetch_count; case_match; lia).
  rewrite (proj2 (sends_next_spec _ 0 Hpre)) by done.
  eapply Htake; [simpl; by rewrite lookup_alter_eq, Hc|exact Hn|done..].
Qed.
Lemma message_settles `{!QosLaws} w :
  0 < concurrency → consumers_inv concurrency w → abandoned w = [] →
  (∀ x, x ∈ arrived w → ¬ unreadable (dl_message x)) → length (settled w) < length (arrived w) →
  ∃ es d, Forall internal es ∧ settles w (foldl (consumer_step concurrency) w es) d.
Proof.
  intros Hpos I Hb Hread Hlen. destruct (running w) as [|d l] eqn:Hr.
  - assert (∃ d, d ∈ arrived w ∧ d ∉ started w) as (d & Ha & Hs).
    { pose proof (inv_tasks _ _ I) as Hp. rewrite Hr, Hb, app_nil_r in Hp. apply Permutation_length in Hp. cbn in Hp.
      destruct (decide (Forall (.∈ started w) (arrived w))) as [Hall|Hn].
      - exfalso. assert (arrived w ⊆+ started w) as Hsub%submseteq_length; [|lia].
        apply NoDup_submseteq; [by apply arrived_once|]. by apply Forall_forall.
      - apply not_Forall_Exists in Hn; [|intros x; apply _]. apply Exists_exists in Hn as (d & Hd & Hn). by exists d. }
    destruct (inv_consumed _ _ I d Ha) as [c Hc]. pose proof (inv_queue _ _ I _ c Hc) as Hq.
    destruct (waiting c) as [|x rest] eqn:Hw.
    + exfalso. assert (d ∈ in_queue (dl_queue d) (arrived w)) as Hin by by apply elem_of_in_queue.
      rewrite Hq, app_nil_r in Hin. by apply elem_of_in_queue in Hin as [].
    + destruct (queue_serves w _ c x rest Hpos I Hr Hb Hread Hc Hw) as (es & He & Hset). by exists es, x.
  - exists [Finish d (Ok tt)], d. split; [by repeat constructor|]. cbn [foldl]. apply finish_settles; [rewrite Hr; by left|].
    apply Hread, (inv_started _ _ I). rewrite (inv_tasks _ _ I), Hr. by left.
Qed.
Lemma all_settle `{!QosLaws} n w :
  0 < concurrency → consumers_inv concurrency w → abandoned w = [] →
  (∀ x, x ∈ arrived w → ¬ unreadable (dl_message x)) → length (arrived w) ≤ n + length (settled w) →
  ∃ es, Forall internal es ∧ let w' := foldl (consumer_step concurrency) w es in
    arrived w' = arrived w ∧ settled w' ≡ₚ arrived w.
Proof.
  intros Hpos. revert w. induction n as [|n IH]; intros w I Hb Hread Hlen.
  - exists []. split; [done|]. cbn. split; [done|].
    assert (settled w ⊆+ arrived w) as Hsub.
    { pose proof (inv_once _ _ I) as Hnd. rewrite (inv_tasks _ _ I) in Hnd.
      apply NoDup_submseteq.
      - apply NoDup_app in Hnd as (_ & _ & Hnd). by apply NoDup_app in Hnd as [].
      - intros x Hx. apply (inv_started _ _ I). rewrite (inv_tasks _ _ I), !elem_of_app. auto. }
    by apply submseteq_length_Permutation.
  - destruct (decide (length (settled w) < length (arrived w))) as [Hlt|Hge].
    + destruct (message_settles w Hpos I Hb Hread Hlt) as (es & d & He & Hs & Hb' & Ha).
      destruct (IH (foldl (consumer_step concurrency) w es)) as (es' & He' & Ha' & Hset).
      * apply (foldl_invariant (consumers_inv concurrency)); [done|]. intros x e _ Hx. by apply consumer_step_inv.
      * congruence.
      * by rewrite Ha.
      * rewrite Hs, Ha, length_app. cbn. lia.
      * exists (es ++ es'). split; [by apply Forall_app|]. rewrite foldl_app. cbv zeta. by rewrite Ha', Hset, Ha.
    + apply (IH w I Hb Hread). lia.
Qed.
End invariant.

(** ** Properties *)

(** C18: Whatever the broker, the loops and the tasks do and however they interleave, at most one task of
    the sequential queues and at most [concurrency] tasks of the others run at a time, and the permits
    of the two semaphores are exactly those the running tasks do not hold. Every message that got a task
    got exactly one, is running, acknowledged or abandoned, and each queue's tasks were created in the
    order its messages arrived. *)
Theorem consumers_respect_limits `{Codec} `{Qos} concurrency events :
  let w := run_consumers concurrency events in
  let sequential_tasks := List.filter (fun d => is_sequential (dl_queue d)) (running w) in
  let parallel_tasks := List.filter (fun d => negb (is_sequential (dl_queue d))) (running w) in
  length sequential_tasks + sequential_limiter w = 1 ∧
  length parallel_tasks + parallel_limiter w = concurrency ∧
  NoDup (started w) ∧ started w ≡ₚ running w ++ settled w ++ abandoned w ∧
  ∀ q, in_queue q (started w) `prefix_of` in_queue q (arrived w).
Proof.
  cbv zeta. pose proof (run_consumers_inv concurrency events) as I. set (w := run_consumers _ _) in *.
  split_and!.
  - pose proof (inv_permits _ _ I true) as Hb. unfold tasks_of in Hb.
    rewrite (filter_ext _ (fun d => is_sequential (dl_queue d))) in Hb by (intros d; by destruct (is_sequential _)).
    cbn in Hb. lia.
  - pose proof (inv_permits _ _ I false) as Hb. unfold tasks_of in Hb.
    rewrite (filter_ext _ (fun d => negb (is_sequential (dl_queue d)))) in Hb by (intros d; by destruct (is_sequential _)).
    cbn in Hb. lia.
  - apply I.
  - apply I.
  - intros q. destruct (consumers w !! q) as [c|] eqn:Hc.
    + rewrite (inv_queue _ _ I q c Hc). by eexists.
    + assert (in_queue q (started w) = []) as ->; [|apply prefix_nil].
      destruct (in_queue q (started w)) as [|d l] eqn:E; [done|].
      assert (d ∈ in_queue q (started w)) as [Hd <-]%elem_of_in_queue by (rewrite E; by left).
      destruct (inv_consumed _ _ I d (inv_started _ _ I d Hd)) as [c Hc']. congruence.
Qed.

(** C20: A message that cannot be read stops its queue. Once a sequential queue's loop has started the task
    of a message whose body does not decode to a command, no later message of that queue is ever
    started, whatever happens next: the task raises, the message is never acknowledged, and the broker
    sends a consumer with a prefetch of one nothing more. *)
Theorem unreadable_message_stops_its_queue `{Codec} `{Qos} `{!QosLaws} concurrency events events' d :
  d ∈ started (run_consumers concurrency events) → is_sequential (dl_queue d) = true →
  unreadable (dl_message d) →
  in_queue (dl_queue d) (started (run_consumers concurrency (events ++ events')))
  = in_queue (dl_queue d) (started (run_consumers concurrency events)) ∧
  d ∉ settled (run_consumers concurrency (events ++ events')).
Proof.
  intros Hd Hs Hu. split; [|intros Hset; by apply settled_readable in Hset].
  apply (stalled_run concurrency events events' d Hs Hu). pose proof (settled_readable concurrency events d) as Hns.
  rewrite (inv_tasks _ _ (run_consumers_inv concurrency events)) in Hd. rewrite !elem_of_app in *. tauto.
Qed.


(** ** A small run *)
#[export] Instance sample_qos : Qos := { sends_next prefetch unacked := (prefetch =? 0)%nat || (unacked <? prefetch)%nat }.
#[export] Instance sample_qos_laws : QosLaws.
Proof.
  split. intros prefetch unacked Hp. unfold sends_next, sample_qos. rewrite orb_true_iff, Nat.eqb_eq, Nat.ltb_lt. lia.
Qed.
Definition handled (q : string) (d : delivery) (result : outcome unit) : list consumer_event :=
  [Deliver q; Take q; Acquire q; Finish d result].
(** A node operation whose body is not JSON, then a good one; and two node operations in a row. *)
Definition broken_first : delivery := mkDelivery 0 "amnezia.node_operations" (mkMessage [9%Z] None).
Definition first_operation : delivery := mkDelivery 0 "amnezia.node_operations" (mkMessage [1%Z] None).

Lemma unreadable_message_stops_its_queue_witness :
  let events := Arrive "amnezia.node_operations" (mkMessage [9%Z] None)
                  :: handled "amnezia.node_operations" broken_first (Ok tt) in
  let events' := Arrive "amnezia.node_operations" (mkMessage [1%Z] None)
                  :: handled "amnezia.node_operations" (mkDelivery 1 "amnezia.node_operations" (mkMessage [1%Z] None)) (Ok tt) in
  in_queue "amnezia.node_operations" (started (run_consumers 4 (events ++ events'))) = [broken_first].
Proof.
  cbv zeta. etrans; [apply (unreadable_message_stops_its_queue 4 _ _ broken_first)|].
  - apply (bool_decide_eq_true_1 _). vm_compute. reflexivity.
  - vm_compute. reflexivity.
  - eexists. vm_compute. reflexivity.
  - vm_compute. reflexivity.
Defined.
