(* ===== verification/WorkerHandlers.v ===== *)
(** * The worker's command handlers

    [panel/worker/app/handlers.py] and the pure parts of [main.py]: how a command is started, executed
    and reported, how a node is brought to the snapshot the panel wants, the Remnawave and Telegram
    handlers, and the recovery of stale operations. One worker runs the handlers of a node under that
    node's lock, so a handler is one uninterrupted computation here. *)
From S2P Require Import Prelude PyStr Json Bytes Models Session Jobs WorkerClients WorkerQueue.
From Stdlib Require Import Ascii.

Definition MTPROXY_UNSUPPORTED_NODE_AGENT_ERROR : string :=
  "Node agent does not support Telegram MTProxy; update the node image".

Abbreviation fields := (list (string * json)).

(** [v.get(...)] needs a dictionary. *)
Definition as_dict (v : json) : outcome fields :=
  match v with JObj f => Ok f | _ => Raise (RuntimeError "object has no attribute 'get'") end.
(** [d[key]] *)
Definition item (d : fields) (key : string) : outcome json :=
  match json_find d key with Some v => Ok v | None => Raise (KeyError key) end.
(** [d.get(key) or []], iterated. *)
Definition get_list (d : fields) (key : string) : outcome (list json) :=
  list_of (json_or (json_get d key) (JArr [])).
(** [d | {key: value}] of a key that is absent; [d.setdefault(key, value)]. *)
Definition setdefault (d : fields) (key : string) (v : json) : fields :=
  match json_find d key with Some _ => d | None => d ++ [(key, v)] end.

(** [{**d, **e}] *)
Definition dict_update (d e : fields) : fields :=
  List.filter (fun kv : string * json => match json_find e kv.1 with Some _ => false | None => true end) d ++ e.

(** ** Peers of a snapshot *)

(** A peer the node should have. *)
Definition desired_peer (peer : fields) : json :=
  JObj [("public_key", JStr (get_str peer "public_key" ""));
        ("allowed_ip", json_get peer "allowed_ip");
        ("psk_key", json_or (json_get peer "psk_key") (JStr ""));
        ("name", json_or (json_or (json_get peer "user_name") (json_get peer "user_id"))
                   (json_get peer "peer_id"))].

Definition split_peer (acc : list fields * list string) (peer : fields) : list fields * list string :=
  let public_key := get_str peer "public_key" "" in
  if negb (truthy_str public_key) then acc
  else if (match json_get peer "status" with JStr s => s == "pending_delete" | _ => false end)
          || json_truthy (json_get peer "is_blocked")
  then (acc.1, acc.2 ++ [public_key])
  else (acc.1 ++ [obj_fields (desired_peer peer)], acc.2).
Definition split_peers (peers : list fields) : list fields * list string :=
  foldl split_peer ([], []) peers.

(** The peers a node reports, by public key; of two with one key the later counts. *)
Definition current_peers (peers : list fields) : gmap string fields :=
  foldl (fun m peer => if json_truthy (json_get peer "public_key")
                       then <[get_str peer "public_key" "" := peer]> m else m) ∅ peers.

Definition desired_allowed_ips (peer : fields) : list string :=
  let allowed_ip := strip (get_str peer "allowed_ip" "") in
  if truthy_str allowed_ip then [allowed_ip +:+ "/32"] else [].

Definition peer_matches_current (desired : fields) (current : option fields) : outcome bool :=
  match current with
  | None => Ok false
  | Some current =>
      allowed ← get_list current "allowed_ips";
      Ok ((sorted_strings (py_str <$> allowed) == desired_allowed_ips desired) &&
          (get_str current "psk_key" "" == get_str desired "psk_key" ""))
  end.

(** What to put and what to delete now. *)
Definition reconcile_peers (active : list fields) (to_delete : list string) (status : fields)
    : outcome (list fields * list string) :=
  peers ← get_list status "peers";
  peers ← map_outcome as_dict peers;
  let current := current_peers peers in
  keep ← map_outcome (fun peer =>
    same ← peer_matches_current peer (current !! get_str peer "public_key" "");
    Ok (peer, same)) active;
  Ok (fst <$> List.filter (fun ps : fields * bool => negb ps.2) keep,
      List.filter (fun key => bool_decide (is_Some (current !! key))) to_delete).

(** ** Results *)
Definition interface_result (interface status dump : fields) : outcome fields :=
  result ← dict_of (json_or (json_or (json_get dump "interface") (json_get status "interface"))
                      (JObj interface));
  let endpoint := json_get status "endpoint" in
  Ok (if json_truthy endpoint then setdefault result "endpoint" endpoint else result).

Definition peer_result (peer : fields) : list json :=
  if json_truthy (json_get peer "public_key") then
    [JObj [("public_key", json_get peer "public_key");
           ("status", json_or (json_get peer "status") (JStr "active"));
           ("endpoint", json_get peer "endpoint");
           ("rx_bytes", json_get peer "rx_bytes");
           ("tx_bytes", json_get peer "tx_bytes");
           ("last_handshake", json_get peer "last_handshake")]]
  else [].
Definition peer_results (dump : fields) : outcome (list json) :=
  peers ← get_list dump "peers";
  peers ← map_outcome as_dict peers;
  Ok (concat (peer_result <$> peers)).

Definition result_ok (result : fields) : bool := json_truthy (json_get result "ok").
Definition failed_result (error : string) : fields := [("ok", JBool false); ("error", JStr error)].

Definition provision_result (result : fields) : fields :=
  if negb (result_ok result)
  then [("ok", JBool false); ("error", json_or (json_get result "error") (JStr "provision failed"))]
  else [("ok", JBool true); ("interface", json_get result "interface")].

(** ** Telegram *)
Definition is_int (v : json) : bool := match v with JInt _ | JBool _ => true | _ => false end.
Definition is_str (v : json) : bool := match v with JStr _ => true | _ => false end.
Definition nonempty_str (v : json) : bool := match v with JStr s => truthy_str s | _ => false end.

Definition telegram_proxy_config (snapshot : fields) : outcome json :=
  match json_get snapshot "desired" with
  | JObj desired =>
      if negb (json_truthy (json_get desired "enabled"))
      then Raise (ValueError "Telegram proxy is not enabled") else
      if negb (nonempty_str (json_get desired "secret"))
      then Raise (ValueError "Telegram proxy secret is missing") else
      if negb (nonempty_str (json_get desired "public_host"))
      then Raise (ValueError "Telegram proxy public_host is missing") else
      if negb (is_int (json_get desired "port"))
      then Raise (TypeError "Telegram proxy port is missing") else
      if negb (nonempty_str (json_get desired "tls_domain"))
      then Raise (ValueError "Telegram proxy tls_domain is missing") else
      Ok (JObj [("secret", json_get desired "secret"); ("port", json_get desired "port");
                ("public_host", json_get desired "public_host");
                ("tls_domain", json_get desired "tls_domain")])
  | _ => Raise (TypeError "Telegram proxy snapshot desired config is missing")
  end.

Definition telegram_proxy_result (status : fields) : fields :=
  let state := get_str status "state" "unknown" in
  let public_host := json_get status "public_host" in
  let port := json_get status "port" in
  if state == "running" then
    if is_str public_host && is_int port
    then [("status", JStr "ready"); ("public_host", public_host); ("public_port", port)]
    else [("status", JStr "active")]
  else if state == "disabled" then [("status", JStr "disabled")]
  else if state == "stopped" then [("status", JStr "failed"); ("error", JStr "MTProxy is stopped")]
  else if state == "failed" then [("status", JStr "failed"); ("error", JStr "MTProxy is failed")]
  else [("status", JStr "unknown")].

Definition telegram_proxy_node_id (snapshot : fields) : string :=
  py_str (json_or (json_or (json_get snapshot "node_id") (json_get snapshot "id")) (JStr "")).
Definition telegram_proxy_token (snapshot : fields) : string := get_str snapshot "token" "".

(** [str(snapshot['url']).rstrip('/')] *)
Definition snapshot_endpoint (snapshot : fields) : outcome string :=
  url ← item snapshot "url"; Ok (rstrip_char "/"%char (py_str url)).

(** The message of an exception without the secret of the snapshot. *)
Definition redacted (snapshot : fields) (message : string) : string :=
  match json_get (obj_fields (json_get snapshot "desired")) "secret" with
  | JStr secret => if truthy_str secret then replace message secret "<redacted>" else message
  | _ => message
  end.
Definition is_unsupported (exc : exn) : bool :=
  match exc with
  | HTTPStatusError status path _ _ => (status == 404%Z) && startswith path "/mtproxy"
  | _ => false
  end.
Definition telegram_proxy_error (snapshot : fields) (exc : exn) : string :=
  if is_unsupported exc then MTPROXY_UNSUPPORTED_NODE_AGENT_ERROR
  else redacted snapshot (exn_text exc).

(** ** Remnawave *)
Definition http_error_detail (status : Z) (body : string) : string :=
  let body := strip body in
  let detail := "Remnawave API request failed with " +:+ pretty status in
  if truthy_str body then detail +:+ ": " +:+ body else detail.

(** [int(v)] of a parsed value; a float is given by its integral digits. *)
Definition int_of_json (v : json) : outcome Z :=
  match v with
  | JInt z => Ok z
  | JBool b => Ok (if b then 1 else 0)%Z
  | JStr s =>
      match py_int s with Some z => Ok z | None => Raise (ValueError "invalid literal for int()") end
  | JFloat r =>
      match py_int (partition r ".").1.1 with Some z => Ok z | None => Raise (ValueError "invalid literal for int()") end
  | _ => Raise (TypeError "int() argument must be a string, a bytes-like object or a real number")
  end.

Definition upserted_count (result : fields) (fallback : Z) : outcome Z :=
  match json_get result "upserted" with
  | JArr l => Ok (Z.of_nat (length l))
  | JNull => Ok fallback
  | v => int_of_json v
  end.

Definition require_node_id (c : WorkerCommand) : outcome string :=
  match target_id c with
  | Some t => if truthy_str t then Ok t else Raise (ValueError (command c +:+ " requires target_id"))
  | None => Raise (ValueError (command c +:+ " requires target_id"))
  end.

Inductive handler_kind :=
  | SyncAll | SyncNode | ProvisionNode | HealthCheckAll | HealthCheckNode | CleanupSamples
  | FullReconcile | SyncUser | DisableUser | TelegramApply | TelegramCheck | TelegramDisable.
Definition OPERATION_HANDLERS : list (string * handler_kind) :=
  [("sync_all", SyncAll); ("sync_node", SyncNode); ("provision_node", ProvisionNode);
   ("health_check_all", HealthCheckAll); ("health_check_node", HealthCheckNode);
   ("cleanup_raw_traffic_samples", CleanupSamples); ("remnawave_full_reconcile", FullReconcile);
   ("remnawave_sync_user", SyncUser); ("remnawave_disable_user", DisableUser);
   ("telegram_proxy_apply_node", TelegramApply); ("telegram_proxy_check_node", TelegramCheck);
   ("telegram_proxy_disable_node", TelegramDisable)].

Record CommandResult := mkCommandResult {
  result_command : string;
  result_node_id : option string;
  ok : bool;
  detail : option string;
  result : option json }.

Section handlers.
Context {W : Type} `{Transport W} (backend : BackendClient).

(** ** Bringing a node to its snapshot *)
Definition delete_peer_if_present (endpoint token public_key : string) : Act W unit :=
  tryA (delete_peer endpoint token public_key) (fun exc =>
    match exc with
    | HTTPStatusError status _ _ _ => if status != 404%Z then raiseA exc else retA tt
    | _ => raiseA exc
    end).

(** [snapshot.get('peers', [])] *)
Definition snapshot_peers (snapshot : fields) : outcome (list fields) :=
  peers ← list_of (default (JArr []) (json_find snapshot "peers"));
  map_outcome as_dict peers.

Definition apply_snapshot (snapshot : fields) : Act W fields :=
  let+ endpoint := liftA (snapshot_endpoint snapshot) in
  let token := get_str snapshot "token" "" in
  let+ interface := liftA (v ← item snapshot "interface"; dict_of v) in
  let+ interface := put_interface endpoint token (JObj interface) in
  let+ current_status := node_status_request endpoint token in
  let+ peers := liftA (snapshot_peers snapshot) in
  let '(active_peers, peers_to_delete) := split_peers peers in
  let+ plan := liftA (reconcile_peers active_peers peers_to_delete current_status) in
  let '(peers_to_put, peers_to_delete) := plan in
  do+ (match peers_to_put with
       | [] => retA tt
       | _ => do+ put_peers endpoint token (JObj <$> peers_to_put) in retA tt
       end) in
  do+ eachA (delete_peer_if_present endpoint token) peers_to_delete in
  let+ status := node_status_request endpoint token in
  let+ dump := node_dump endpoint token in
  let+ interface := liftA (interface_result interface status dump) in
  let+ peers := liftA (peer_results dump) in
  retA [("ok", JBool true); ("interface", JObj interface); ("peers", JArr peers)].

(** [str(result['error'])] *)
Definition raise_if_failed (result : fields) : Act W fields :=
  if result_ok result then retA result
  else let+ error := liftA (item result "error") in raiseA (RuntimeError (py_str error)).

Definition attempt_snapshot (snapshot : fields) : Act W fields :=
  tryA (apply_snapshot snapshot) (fun exc => retA (failed_result (exn_text exc))).

Definition sync_snapshot (snapshot : fields) : Act W fields :=
  let+ node_id := liftA (item snapshot "id") in
  let+ result := attempt_snapshot snapshot in
  do+ report_sync_result backend (py_str node_id) (JObj result) in
  raise_if_failed result.

Definition provision_snapshot (snapshot : fields) : Act W fields :=
  let+ node_id := liftA (item snapshot "id") in
  let+ result := attempt_snapshot snapshot in
  do+ report_provision_result backend (py_str node_id) (JObj (provision_result result)) in
  raise_if_failed result.

Definition heartbeat_snapshot (snapshot : fields) : Act W fields :=
  let+ node_id := liftA (item snapshot "id") in
  let+ endpoint := liftA (snapshot_endpoint snapshot) in
  let token := get_str snapshot "token" "" in
  let+ result := tryA
    (do+ node_health endpoint in
     let+ dump := node_dump endpoint token in
     let+ peers := liftA (peer_results dump) in
     retA [("ok", JBool true); ("peers", JArr peers)])
    (fun exc => retA (failed_result (exn_text exc))) in
  do+ report_heartbeat_result backend (py_str node_id) (JObj result) in
  retA result.

Definition count_ok (results : list fields) : Z := Z.of_nat (length (List.filter result_ok results)).

(** The lock of a node is keyed by [snapshot['id']]. *)
Definition sync_all : Act W fields :=
  let+ snapshots := fetch_sync_snapshot backend in
  let+ results := mapA (fun snapshot =>
    let+ snapshot := liftA (as_dict snapshot) in
    do+ liftA (item snapshot "id") in
    sync_snapshot snapshot) snapshots in
  let nodes := Z.of_nat (length results) in
  retA [("nodes", JInt nodes); ("succeeded", JInt (count_ok results));
        ("failed", JInt (nodes - count_ok results))].

Definition handle_health_check_all : Act W fields :=
  let+ snapshots := fetch_sync_snapshot backend in
  let+ results := mapA (fun snapshot =>
    let+ snapshot := liftA (as_dict snapshot) in heartbeat_snapshot snapshot) snapshots in
  let nodes := Z.of_nat (length results) in
  retA [("nodes", JInt nodes); ("reachable", JInt (count_ok results));
        ("unreachable", JInt (nodes - count_ok results))].

Definition sync_node (c : WorkerCommand) : Act W fields :=
  let+ node_id := liftA (require_node_id c) in
  let+ snapshot := fetch_node_sync_snapshot backend node_id in
  sync_snapshot snapshot.
Definition provision_node (c : WorkerCommand) : Act W fields :=
  let+ node_id := liftA (require_node_id c) in
  let+ snapshot := fetch_node_provision_snapshot backend node_id in
  provision_snapshot snapshot.
Definition health_check_node (c : WorkerCommand) : Act W fields :=
  let+ node_id := liftA (require_node_id c) in
  let+ snapshot := fetch_node_sync_snapshot backend node_id in
  heartbeat_snapshot snapshot.

(** ** Telegram proxy *)
Definition report_proxy (node_id : string) (result : fields) : Act W fields :=
  do+ report_telegram_proxy_node_result backend node_id (JObj result) in
  if (match json_get result "status" with JStr s => s == "failed" | _ => false end)
  then let+ error := liftA (item result "error") in raiseA (RuntimeError (py_str error))
  else retA result.
Definition attempt_proxy (snapshot : fields) (m : Act W fields) : Act W fields :=
  tryA (let+ status := m in retA (telegram_proxy_result status))
    (fun exc => retA [("status", JStr "failed"); ("error", JStr (telegram_proxy_error snapshot exc))]).

Definition apply_telegram_proxy_snapshot (snapshot : fields) : Act W fields :=
  let+ result := attempt_proxy snapshot
    (let+ config := liftA (telegram_proxy_config snapshot) in
     let+ endpoint := liftA (snapshot_endpoint snapshot) in
     put_mtproxy endpoint (telegram_proxy_token snapshot) config) in
  report_proxy (telegram_proxy_node_id snapshot) result.
Definition check_telegram_proxy_snapshot (snapshot : fields) : Act W fields :=
  let+ result := attempt_proxy snapshot
    (let+ endpoint := liftA (snapshot_endpoint snapshot) in
     get_mtproxy_status endpoint (telegram_proxy_token snapshot)) in
  report_proxy (telegram_proxy_node_id snapshot) result.
Definition disable_telegram_proxy_snapshot (snapshot : fields) : Act W fields :=
  let+ result := attempt_proxy snapshot
    (let+ endpoint := liftA (snapshot_endpoint snapshot) in
     delete_mtproxy endpoint (telegram_proxy_token snapshot)) in
  report_proxy (telegram_proxy_node_id snapshot) result.

Definition on_telegram_node (handler : fields → Act W fields) (c : WorkerCommand) : Act W fields :=
  let+ node_id := liftA (require_node_id c) in
  let+ snapshot := fetch_telegram_proxy_node_snapshot backend node_id in
  handler snapshot.
Definition telegram_proxy_apply_node := on_telegram_node apply_telegram_proxy_snapshot.
Definition telegram_proxy_check_node := on_telegram_node check_telegram_proxy_snapshot.
Definition telegram_proxy_disable_node := on_telegram_node disable_telegram_proxy_snapshot.

(** ** Remnawave *)
Definition remnawave_client : Act W (option RemnawaveClient) :=
  let+ config := fetch_remnawave_config backend in
  if negb (json_truthy (json_get config "enabled")) then retA None else
  let base_url := get_str config "base_url" "" in
  let token := py_str (json_or (json_or (json_get config "api_token") (json_get config "token"))
                         (JStr "")) in
  if negb (truthy_str base_url) || negb (truthy_str token)
  then raiseA (RuntimeError "Remnawave config is enabled but base_url or api_token is missing")
  else retA (Some (new_remnawave_client base_url token)).

(** [except httpx.HTTPStatusError as exc: raise RuntimeError(self._http_error_detail(exc))] *)
Definition explain_http {A} (m : Act W A) : Act W A :=
  tryA m (fun exc =>
    match exc with
    | HTTPStatusError status _ body _ => raiseA (RuntimeError (http_error_detail status body))
    | _ => raiseA exc
    end).

(** The progress of a full reconcile. *)
Record reconcile_state := mkReconcile {
  rc_start : Z; rc_fetched : Z; rc_pages : Z; rc_upserted : Z;
  rc_seen : gset string; rc_total : option Z }.

(** One turn of the loop: the new state, and whether the loop ends. *)
Definition reconcile_page (client : RemnawaveClient) (r : reconcile_state)
    : Act W (bool * reconcile_state) :=
  let+ payload := explain_http (list_users client (rc_start r) PAGE_SIZE) in
  let+ page := liftA (extract_users_page payload) in
  let '(users, total) := page in
  match users with
  | [] => retA (true, mkReconcile (rc_start r) (rc_fetched r) (rc_pages r) (rc_upserted r) (rc_seen r) total)
  | _ =>
      let seen : gset string := list_to_set ((fun user : fields => get_str user "remnawave_uuid" "") <$>
        List.filter (fun user : fields => json_truthy (json_get user "remnawave_uuid")) users) in
      let+ result := upsert_remnawave_users backend (JObj <$> users) in
      let n := Z.of_nat (length users) in
      let+ upserted := liftA (upserted_count result n) in
      let start := (rc_start r + n)%Z in
      let r := mkReconcile start (rc_fetched r + n)%Z (rc_pages r + 1)%Z (rc_upserted r + upserted)%Z
                 (rc_seen r ∪ seen) total in
      retA (match total with Some t => (t <=? start)%Z | None => false end, r)
  end.

(** The loop, for at most [fuel] pages; [None] when it would go on. *)
Fixpoint reconcile_loop (fuel : nat) (client : RemnawaveClient) (r : reconcile_state)
    : Act W (option reconcile_state) :=
  match fuel with
  | 0 => retA None
  | S fuel =>
      let+ step := reconcile_page client r in
      let '(finished, r) := step in
      if (finished : bool) then retA (Some r) else reconcile_loop fuel client r
  end.

Definition json_total (total : option Z) : json :=
  match total with Some z => JInt z | None => JNull end.

Definition remnawave_full_reconcile (fuel : nat) : Act W (option fields) :=
  let+ client := remnawave_client in
  match client with
  | None => retA (Some [("enabled", JBool false); ("skipped", JBool true)])
  | Some client =>
      let+ outcome := reconcile_loop fuel client (mkReconcile 0 0 0 0 ∅ None) in
      match outcome with
      | None => retA None
      | Some r =>
          let+ completion := complete_remnawave_reconcile backend (JObj
            [("seen_uuids", JArr (JStr <$> sorted_strings (elements (rc_seen r))));
             ("pages", JInt (rc_pages r)); ("users", JInt (rc_fetched r));
             ("upserted", JInt (rc_upserted r)); ("total", json_total (rc_total r))]) in
          retA (Some [("enabled", JBool true); ("pages", JInt (rc_pages r));
            ("users", JInt (rc_fetched r)); ("upserted", JInt (rc_upserted r));
            ("total", json_total (rc_total r)); ("completion", JObj completion)])
      end
  end.

Definition skipped_user (user_uuid : string) : fields :=
  [("enabled", JBool false); ("skipped", JBool true); ("uuid", JStr user_uuid)].

Definition remnawave_sync_user (c : WorkerCommand) : Act W fields :=
  let+ user_uuid := liftA (require_node_id c) in
  let+ client := remnawave_client in
  match client with
  | None => retA (skipped_user user_uuid)
  | Some client =>
      let+ payload := explain_http (get_user client user_uuid) in
      match payload with
      | None => raiseA (RuntimeError ("Remnawave user " +:+ user_uuid +:+ " was not found"))
      | Some payload =>
          let+ user := liftA (normalize_user_payload payload) in
          let+ result := upsert_remnawave_users backend [JObj user] in
          retA (dict_update [("uuid", JStr user_uuid); ("deleted", JBool false)] result)
      end
  end.

Definition remnawave_disable_user (c : WorkerCommand) : Act W fields :=
  let+ user_uuid := liftA (require_node_id c) in
  let+ client := remnawave_client in
  match client with
  | None => retA (skipped_user user_uuid)
  | Some client =>
      let+ result := explain_http (disable_user client user_uuid) in
      retA [("uuid", JStr user_uuid); ("disabled", JBool true); ("remnawave", JObj result)]
  end.

(** ** Dispatch *)

(** [fuel] bounds the pages of a full reconcile; running out of it is an exception here. *)
Definition run_handler (fuel : nat) (c : WorkerCommand) : Act W fields :=
  match dict_get OPERATION_HANDLERS (command c) with
  | None => raiseA (KeyError (command c))
  | Some SyncAll => sync_all
  | Some SyncNode => sync_node c
  | Some ProvisionNode => provision_node c
  | Some HealthCheckAll => handle_health_check_all
  | Some HealthCheckNode => health_check_node c
  | Some CleanupSamples => cleanup_raw_traffic_samples backend
  | Some FullReconcile =>
      let+ result := remnawave_full_reconcile fuel in
      match result with Some r => retA r | None => raiseA (RuntimeError "out of fuel") end
  | Some SyncUser => remnawave_sync_user c
  | Some DisableUser => remnawave_disable_user c
  | Some TelegramApply => telegram_proxy_apply_node c
  | Some TelegramCheck => telegram_proxy_check_node c
  | Some TelegramDisable => telegram_proxy_disable_node c
  end.

(** [_dispatch], over any handler of commands. *)
Definition dispatch (handler : WorkerCommand → Act W fields) (c : WorkerCommand)
    : Act W (option fields) :=
  let run := let+ result := handler c in
             do+ (if track_operation c
                  then succeed_operation backend (operation_id c) (JObj result) else retA tt) in
             retA (Some result) in
  if track_operation c then
    let+ started := tryA (do+ start_operation backend (operation_id c) in retA true)
      (fun exc => match exc with
        | HTTPStatusError status _ _ _ => if status == 409%Z then retA false else raiseA exc
        | _ => raiseA exc
        end) in
    if (started : bool) then run else retA None
  else run.

Definition handle (handler : WorkerCommand → Act W fields) (c : WorkerCommand)
    : Act W CommandResult :=
  tryA
    (let+ outcome := dispatch handler c in
     match outcome with
     | None => retA (mkCommandResult (command c) (target_id c) true None
         (Some (JObj [("skipped", JBool true); ("reason", JStr "operation already handled")])))
     | Some result => retA (mkCommandResult (command c) (target_id c) true None (Some (JObj result)))
     end)
    (fun exc =>
       let error := exn_text exc in
       do+ (if track_operation c then fail_operation backend (operation_id c) error JNull else retA tt) in
       retA (mkCommandResult (command c) (target_id c) false (Some error) None)).

(** [handle_queue_command] of [main.py]. *)
Definition handle_queue_command (fuel : nat) (c : WorkerCommand) : Act W unit :=
  do+ handle (run_handler fuel) c in retA tt.

(** ** Recovery ([main.py]) *)
Definition recover_stale_operations `{Codec} `{Broker W} (stale_after_sec running_timeout_sec : Z)
    : Act W unit :=
  let+ operations := fetch_stale_operations backend "queued" stale_after_sec in
  do+ eachA (fun operation =>
    let+ operation := liftA (as_dict operation) in
    let+ c := liftA (command_from_operation operation) in
    publish_command c) operations in
  let+ running := fetch_stale_operations backend "running" running_timeout_sec in
  eachA (fun operation =>
    let+ operation := liftA (as_dict operation) in
    let+ id := liftA (item operation "id") in
    timeout_operation backend (py_str id)) running.
End handlers.

(** ** Lemmas *)
Section lemmas.
Context {W : Type} `{Transport W} (backend : BackendClient).

(** A failure is reported if the command is tracked, and swallowed. *)
Definition report_failure (c : WorkerCommand) (error : string) : Act W unit :=
  if track_operation c then fail_operation backend (operation_id c) error JNull else retA tt.

Lemma handle_run handler c w :
  handle backend handler c w =
  match dispatch backend handler c w with
  | (Ok None, w') => (Ok (mkCommandResult (command c) (target_id c) true None
         (Some (JObj [("skipped", JBool true); ("reason", JStr "operation already handled")]))), w')
  | (Ok (Some r), w') => (Ok (mkCommandResult (command c) (target_id c) true None (Some (JObj r))), w')
  | (Raise exc, w') =>
      match report_failure c (exn_text exc) w' with
      | (Ok _, w'') => (Ok (mkCommandResult (command c) (target_id c) false (Some (exn_text exc)) None), w'')
      | (Raise e, w'') => (Raise e, w'')
      end
  end.
Proof.
  unfold handle, tryA, report_failure. rewrite bindA_run.
  destruct (dispatch backend handler c w) as [[[r|]|exc] w']; [done|done|].
  by rewrite bindA_run.
Qed.

Context (client : RemnawaveClient) (all : list fields) (total : option Z).

(** A remote API that pages through [all]: any page before the end is a non-empty part of what is left,
    and the total, if it is given, is the number of profiles. *)
Definition pages_through : Prop :=
  (total = None ∨ total = Some (Z.of_nat (length all))) ∧
  ∀ (start : nat) w, start ≤ length all → ∃ payload n w',
    list_users client (Z.of_nat start) PAGE_SIZE w = (Ok payload, w') ∧
    extract_users_page payload = Ok (take n (drop start all), total) ∧
    (start < length all → 0 < n).
(** A panel that takes every batch. *)
Definition takes_batches : Prop :=
  ∀ users w, ∃ result k w', upsert_remnawave_users backend users w = (Ok result, w') ∧
    ∀ n, upserted_count result n = Ok k ∨ upserted_count result n = Ok n.

Definition uuids_of (users : list fields) : gset string :=
  list_to_set ((fun user : fields => get_str user "remnawave_uuid" "") <$>
    List.filter (fun user : fields => json_truthy (json_get user "remnawave_uuid")) users).

Lemma uuids_of_app l k : uuids_of (l ++ k) = uuids_of l ∪ uuids_of k.
Proof. unfold uuids_of. by rewrite List.filter_app, fmap_app, list_to_set_app_L. Qed.

Lemma reconcile_loop_complete : pages_through → takes_batches → ∀ fuel (start : nat) r w,
  start ≤ length all → rc_start r = Z.of_nat start → rc_fetched r = Z.of_nat start →
  rc_seen r = uuids_of (take start all) → length all - start < fuel →
  ∃ r' w', reconcile_loop backend fuel client r w = (Ok (Some r'), w') ∧
    rc_fetched r' = Z.of_nat (length all) ∧ rc_seen r' = uuids_of all ∧ rc_total r' = total.
Proof.
  intros [Htotal Hpages] Htakes. induction fuel as [|fuel IH]; intros start r w Hle Hs Hf Hseen Hfuel; [lia|].
  cbn [reconcile_loop]. rewrite bindA_run. unfold reconcile_page. rewrite bindA_run.
  destruct (Hpages start w Hle) as (payload & n & w1 & Hlist & Hpage & Hn).
  unfold explain_http, tryA. rewrite Hs, Hlist. rewrite bindA_run. unfold liftA at 1. rewrite Hpage.
  cbv beta iota zeta. destruct (take n (drop start all)) as [|u us] eqn:Eu.
  - (* the empty page *)
    assert (start = length all) as ->.
    { destruct (decide (start < length all)) as [Hlt|]; [|lia]. specialize (Hn Hlt).
      apply (f_equal length) in Eu. rewrite length_take, length_drop in Eu. simpl in Eu. lia. }
    eexists _, _. split; [reflexivity|]. simpl. split_and!; [done| |done].
    by rewrite Hseen, firstn_all.
  - set (users := u :: us) in *.
    assert (length users = min n (length all - start)) as Hlen.
    { rewrite <- Eu, length_take, length_drop. lia. }
    assert (0 < length users) as Hpos by (simpl; lia).
    assert (take (start + length users) all = take start all ++ users) as Htake.
    { rewrite <- take_take_drop. f_equal. rewrite <- Eu, length_take, length_drop.
      rewrite <- Eu in Hlen. destruct (decide (n ≤ length all - start)).
      - by rewrite Nat.min_l.
      - rewrite Nat.min_r, !take_ge by (rewrite ?length_drop; lia). done. }
    clearbody users. clear Eu u us.
    rewrite !bindA_run. destruct (Htakes (JObj <$> users) w1) as (result & k & w2 & Hup & Hcount).
    rewrite Hup. rewrite bindA_run. unfold liftA at 1.
    assert (∃ k', upserted_count result (Z.of_nat (length users)) = Ok k') as [k' ->]
      by (destruct (Hcount (Z.of_nat (length users))); eauto).
    cbv beta iota zeta. unfold retA at 1.
    set (r2 := mkReconcile _ _ _ _ _ _).
    assert (rc_seen r2 = uuids_of (take (start + length users) all)) as Hseen2.
    { rewrite Htake, uuids_of_app. simpl. by rewrite Hseen. }
    assert (rc_fetched r2 = Z.of_nat (start + length users)) as Hf2 by (simpl; lia).
    destruct (match total with Some t => (t <=? Z.of_nat start + Z.of_nat (length users))%Z | None => false end)
      eqn:Efin.
    + destruct Htotal as [Et|Et]; rewrite Et in Efin; [done|]. apply Z.leb_le in Efin.
      assert (start + length users = length all) as Hall by lia.
      exists r2, w2. split; [done|]. rewrite Hall in Hseen2, Hf2. rewrite firstn_all in Hseen2. done.
    + apply (IH (start + length users)); try done; [lia|simpl; lia|lia].
Qed.
End lemmas.

(** A network for the witnesses: a remote API with two profiles, and a panel that takes everything. *)
Definition sample_page (users : list json) : outcome json :=
  Ok (JObj [("response", JObj [("total", JInt 2); ("users", JArr users)])]).
Definition sample_profile (uuid : string) : json := JObj [("uuid", JStr uuid)].
#[export] Instance sample_transport : Transport unit := {
  http_request method url token body w :=
    (Ok (mkResponse 200 "OK"
       (if contains url "/api/users?start=0&" then sample_page [sample_profile "u-1"; sample_profile "u-2"]
        else if contains url "/api/users?start=1&" then sample_page [sample_profile "u-2"]
        else if contains url "/api/users?" then sample_page []
        else Ok (JObj [])) ""), w);
  httpx_error_text url r := "" }.

(** ** Properties *)




Definition sample_users : list fields :=
  match normalize_user [("uuid", JStr "u-1")], normalize_user [("uuid", JStr "u-2")] with
  | Ok a, Ok b => [a; b]
  | _, _ => []
  end.

Lemma sample_pages_through :
  pages_through (mkRemnawaveClient "http://remote" "t") sample_users (Some 2%Z).
Proof.
  split; [by right|]. intros start [] Hs. change (length sample_users) with 2 in *.
  destruct start as [|[|[|start]]]; [| | |lia].
  - eexists _, 2, tt. split; [vm_compute; reflexivity|]. split; [vm_compute; reflexivity|lia].
  - eexists _, 1, tt. split; [vm_compute; reflexivity|]. split; [vm_compute; reflexivity|lia].
  - eexists _, 0, tt. split; [vm_compute; reflexivity|]. split; [vm_compute; reflexivity|lia].
Qed.
Lemma sample_takes_batches : takes_batches (mkBackendClient "http://panel" "t").
Proof.
  intros users []. exists [], 0%Z, tt. split; [vm_compute; reflexivity|]. intros n. by right.
Qed.

