(* ===== verification/WorkerMain.v ===== *)
(** * The worker process

    [panel/worker/app/main.py]: the tasks the process runs side by side - the consumer, the periodic
    publishers, the Remnawave schedule, the recovery of stale operations and of pending provisions -
    each as one turn of its loop, and the task group that ends the process when a task raises. Fresh
    identifiers, the clock and its ISO text are the class [Ambient]. *)
From S2P Require Import Prelude PyStr Json Bytes Models Session Jobs WorkerClients WorkerQueue WorkerHandlers.

Class Ambient (W : Type) := {
  fresh_uuid : W → string * W;
  utc_now : W → datetime * W;
  isoformat : datetime → string }.

(** [Settings], with the defaults of [from_env]. *)
Record Settings := mkSettings {
  sync_interval_sec : Z;
  worker_concurrency : nat;
  heartbeat_interval_sec : Z;
  recovery_interval_sec : Z;
  stale_after_sec : Z;
  running_timeout_sec : Z;
  provision_recovery_interval_sec : Z;
  provision_pending_retry_sec : Z;
  provision_failed_retry_sec : Z }.
Definition default_settings : Settings := mkSettings 30 4 5 30 30 300 60 60 300.

Section process.
Context {W : Type} `{Transport W} `{Codec} `{Broker W} `{Ambient W}.
Context (backend : BackendClient) (settings : Settings).

Definition new_command (name target_type : string) (target_id : option string) : Act W WorkerCommand :=
  fun w =>
    let '(operation_id, w) := fresh_uuid w in
    let '(at_, w) := utc_now w in
    (model_validate (JObj
       [("command", JStr name); ("idempotency_key", JStr operation_id);
        ("operation_id", JStr operation_id); ("track_operation", JBool false);
        ("target_type", JStr target_type);
        ("target_id", match target_id with Some t => JStr t | None => JNull end);
        ("created_at", JStr (isoformat at_))]), w).

(** ** One turn of each loop, after its sleep *)
Definition schedule_sync_all : Act W unit :=
  let+ c := new_command "sync_all" "all" None in publish_command c.
Definition schedule_cleanup_raw_traffic_samples : Act W unit :=
  let+ c := new_command "cleanup_raw_traffic_samples" "traffic" None in publish_command c.
Definition schedule_health_check_all : Act W unit :=
  let+ c := new_command "health_check_all" "all" None in publish_command c.

(** [except Exception: log; continue] *)
Definition logged (m : Act W unit) : Act W unit := tryA m (fun _ => retA tt).

Definition schedule_remnawave_reconcile : Act W unit :=
  logged
    (let+ state := fetch_remnawave_polling_state backend in
     if json_truthy (json_get state "enabled") && json_truthy (json_get state "due") then
       let+ c := new_command "remnawave_full_reconcile" "remnawave" None in publish_command c
     else retA tt).
Definition recover_stale : Act W unit :=
  recover_stale_operations backend (stale_after_sec settings) (running_timeout_sec settings).
Definition recover_pending_provisions : Act W unit :=
  logged
    (let+ operations := create_provision_recovery_operations backend
                          (provision_pending_retry_sec settings) (provision_failed_retry_sec settings) in
     eachA (fun operation =>
       let+ operation := liftA (as_dict operation) in
       let+ c := liftA (command_from_operation operation) in
       publish_command c) operations).

(** A message is handled in a task of its own, whose exception nobody awaits. *)
Definition consume (fuel : nat) (m : Message) : Act W unit :=
  logged (handle_message default_retry_policy (handle_queue_command backend fuel) m).

(** ** The task group *)
Inductive task :=
  | Delivery (m : Message)
  | SyncAllDue
  | HealthCheckAllDue
  | CleanupDue
  | RemnawaveDue
  | RecoverStaleDue
  | RecoverProvisionsDue.
Definition turn (fuel : nat) (t : task) : Act W unit :=
  match t with
  | Delivery m => consume fuel m
  | SyncAllDue => schedule_sync_all
  | HealthCheckAllDue => schedule_health_check_all
  | CleanupDue => schedule_cleanup_raw_traffic_samples
  | RemnawaveDue => schedule_remnawave_reconcile
  | RecoverStaleDue => recover_stale
  | RecoverProvisionsDue => recover_pending_provisions
  end.
(** The turns in the order in which they come due; the first exception cancels the other tasks and
    leaves [run]. *)
Definition run (fuel : nat) (due : list task) : Act W unit := eachA (turn fuel) due.
(** The loops that have no [except]. *)
Definition unguarded (t : task) : bool :=
  match t with
  | SyncAllDue | HealthCheckAllDue | CleanupDue | RecoverStaleDue => true
  | _ => false
  end.

Lemma logged_returns m w : ∃ w', logged m w = (Ok tt, w').
Proof. unfold logged, tryA. destruct (m w) as [[[]|e] w']; by eexists. Qed.
Lemma guarded_turn fuel t w : unguarded t = false → ∃ w', turn fuel t w = (Ok tt, w').
Proof. destruct t; intros Ht; try discriminate Ht; apply logged_returns. Qed.
Lemma run_app fuel before after w :
  run fuel (before ++ after) w
  = match run fuel before w with (Ok _, w') => run fuel after w' | r => r end.
Proof.
  revert w. induction before as [|t before IH]; intros w; [done|]. cbn [app run eachA]. rewrite !bindA_run.
  destruct (turn fuel t w) as [[[]|e] w']; [apply IH|done].
Qed.
Lemma run_guarded fuel due w :
  Forall (fun t => unguarded t = false) due → ∃ w', run fuel due w = (Ok tt, w').
Proof.
  intros Hd. revert w. induction Hd as [|t due Ht _ IH]; intros w; [by eexists|]. cbn [run eachA].
  rewrite bindA_run. destruct (guarded_turn fuel t w Ht) as [w1 ->]. apply IH.
Qed.
(** The run up to its first exception. *)
Lemma run_raises fuel due w e w' :
  run fuel due w = (Raise e, w') →
  ∃ before t after w1, due = before ++ t :: after ∧ run fuel before w = (Ok tt, w1) ∧
    turn fuel t w1 = (Raise e, w').
Proof.
  revert w. induction due as [|t due IH]; intros w; cbn [run eachA]; [done|]. rewrite bindA_run.
  destruct (turn fuel t w) as [[[]|e1] w1] eqn:Et.
  - intros (before & t' & after & w2 & -> & Hb & Ht)%IH. exists (t :: before), t', after, w2.
    split; [done|]. split; [|done]. cbn [run eachA]. by rewrite bindA_run, Et.
  - intros [= -> ->]. by exists [], t, due, w.
Qed.
End process.

(** ** Properties *)

(** A command the worker schedules is valid, untracked and routed. With a fresh identifier that is
    not empty, and a date text that the command model reads back, each of the four commands the loops
    schedule passes the validation, names itself as operation, and has a queue of its own name to go
    to; publishing it is the whole remaining turn. *)
Lemma scheduled_command_valid {W} `{Codec} `{Ambient W} name target_type w :
  (name, target_type) ∈ [("sync_all", "all"); ("cleanup_raw_traffic_samples", "traffic");
                         ("health_check_all", "all"); ("remnawave_full_reconcile", "remnawave")] →
  (fresh_uuid w).1 ≠ "" →
  (∀ t, parse_datetime (JStr (isoformat t)) = Some t) →
  let '(at_, w2) := utc_now (fresh_uuid w).2 in
  new_command name target_type None w
  = (Ok (mkWorkerCommand name (fresh_uuid w).1 (fresh_uuid w).1 false target_type None at_), w2).
Proof.
  intros Hn Hid Hiso. unfold new_command. destruct (fresh_uuid w) as [id w1]. cbn [fst snd] in *.
  destruct (utc_now w1) as [at_ w2]. f_equal.
  assert (truthy_str id = true) as Ht by (unfold truthy_str; by rewrite bool_decide_eq_false_2).
  assert ((name isin COMMAND_NAMES) = true ∧ (target_type isin TARGET_TYPES) = true ∧
          (name isin TELEGRAM_PROXY_COMMANDS) = false) as (Hc & Htt & Htg).
  { rewrite !elem_of_cons, elem_of_nil in Hn.
    destruct Hn as [[= -> ->]|[[= -> ->]|[[= -> ->]|[[= -> ->]|[]]]]]; split_and!; reflexivity. }
  unfold model_validate.
  repeat match goal with |- context [json_find ?f ?k] =>
    let v := eval vm_compute in (json_find f k) in change (json_find f k) with v end.
  cbn [lax_bool]. rewrite Hiso, Hc, Ht, Htt. cbn [andb]. unfold validate_target_type. cbn [command].
  by rewrite Htg.
Qed.

(** The worker outlives every failure but those of four loops. Whatever the broker, the panel and
    the nodes answer, a failing message, a failing Remnawave schedule and a failing recovery of
    provisions never end the process; it ends exactly when a turn of the periodic sync, health check
    or cleanup publishers or of the recovery of stale operations raises, with that exception, and no
    turn that is due later runs. *)
Lemma worker_ends_with_unguarded_loops {W} `{Transport W} `{Codec} `{Broker W} `{Ambient W}
    backend settings fuel due w :
  (Forall (fun t => unguarded t = false) due → ∃ w', run backend settings fuel due w = (Ok tt, w')) ∧
  (∀ e w', run backend settings fuel due w = (Raise e, w') ↔
     ∃ before t after w1, due = before ++ t :: after ∧ unguarded t = true ∧
       run backend settings fuel before w = (Ok tt, w1) ∧
       turn backend settings fuel t w1 = (Raise e, w')).
Proof.
  split; [apply run_guarded|]. intros e w'. split.
  - intros (before & t & after & w1 & Hd & Hb & Ht)%run_raises. exists before, t, after, w1.
    split_and!; try done. destruct (unguarded t) eqn:Eu; [done|].
    destruct (guarded_turn backend settings fuel t w1 Eu) as [w2 E]. congruence.
  - intros (before & t & after & w1 & -> & _ & Hb & Ht). rewrite run_app, Hb. cbn [run eachA].
    by rewrite bindA_run, Ht.
Qed.

(** A worker whose broker is down and whose message nobody can read keeps running until a periodic
    command cannot be published. *)
#[export] Instance broker_down : Broker unit := {
  amqp_publish exchange key c headers w := (Raise (BrokerError "connection refused"), w);
  amqp_ack m w := (Raise (BrokerError "connection refused"), w) }.
#[export] Instance sample_ambient : Ambient unit := {
  fresh_uuid w := ("op-1", w);
  utc_now w := (utc 0, w);
  isoformat _ := "not a date" }.
Lemma worker_ends_with_unguarded_loops_witness :
  let backend := new_backend_client "http://panel" "worker" in
  (∃ w', run backend default_settings 3 [RemnawaveDue; Delivery (mkMessage [9%Z] None); RecoverProvisionsDue] tt
         = (Ok tt, w')) ∧
  (∃ before t after w1, [RemnawaveDue; SyncAllDue; RemnawaveDue] = before ++ t :: after ∧
     unguarded t = true ∧ run backend default_settings 3 before tt = (Ok tt, w1) ∧
     turn backend default_settings 3 t w1 = (Raise (BrokerError "connection refused"), tt)).
Proof.
  split.
  - apply (worker_ends_with_unguarded_loops (new_backend_client "http://panel" "worker") default_settings 3).
    repeat constructor.
  - apply (proj2 (worker_ends_with_unguarded_loops (new_backend_client "http://panel" "worker")
                    default_settings 3 [RemnawaveDue; SyncAllDue; RemnawaveDue] tt)).
    vm_compute. reflexivity.
Defined.
