(* ===== verification/NodeReconcile.v ===== *)
(** * The worker and a node agent together

    What bringing a node to its snapshot ([WorkerHandlers.apply_snapshot]) leaves on the node, when
    the node runs the agent of [NodeAgent]. How an HTTP request of the worker reaches the agent's
    endpoints is stated per path as a hypothesis ([reaches]). *)
From S2P Require Import Prelude PyStr Json Bytes AgentConfig WorkerClients NodeAgent WorkerHandlers.
From Stdlib Require Import Ascii.

(** ** The agent as a server *)

(** A world that holds a node. *)
Class HostsNode (W V : Type) := {
  node_of : W → node V;
  put_node : node V → W → W;
  node_of_put : ∀ n w, node_of (put_node n w) = n }.
#[export] Instance node_hosts_itself {V} : HostsNode (node V) V := {
  node_of n := n; put_node n _ := n; node_of_put n w := eq_refl }.

(** The body of PUT /peers as the request model reads it. *)
Definition peer_request (body : json) : option SyncPeerRequest :=
  let d := obj_fields body in
  match json_get d "public_key", json_get d "allowed_ip", json_get d "psk_key" with
  | JStr k, JStr a, JStr s => Some (mkSyncPeerRequest k a (Some s))
  | JStr k, JStr a, JNull => Some (mkSyncPeerRequest k a None)
  | _, _, _ => None
  end.

Definition agent_reply (r : Z * json) : Response := mkResponse r.1 (phrase r.1) (Ok r.2) (dumps_compact r.2).

(** A command of the node fails as a process fails, never as an HTTP answer, and [awg] prints no
    field [psk_key] of its own. *)
Class AwgOutput (V : Type) `{Host V} : Prop := {
  process_is_not_http : ∀ args timeout d v status detail v',
    run_process args timeout d v ≠ (Raise (HTTPException status detail), v');
  shown_without_psk : ∀ args d v output err v' r peer,
    run_process ("awg" :: "show" :: args) None d v = (Ok (0%Z, output, err), v') →
    parse_awg_show output = Ok r → peer ∈ r.2 → json_find peer "psk_key" = None }.

Section codes.
Context {V : Type} `{Host V} `{!AwgOutput V} (settings : AgentSettings).

(** The HTTP errors of a routed request are error statuses, and none of them is 404. *)
Definition honest {A} (o : outcome A) : Prop :=
  match o with Raise (HTTPException c _) => (400 <= c)%Z ∧ c ≠ 404%Z | _ => True end.
Definition codes {A} (m : Act (node V) A) : Prop := ∀ n, honest (m n).1.

Lemma codes_ret {A} (a : A) : codes (retA a).
Proof. by intros n. Qed.
Lemma codes_raise {A} e : honest (A := A) (Raise e) → codes (A := A) (raiseA e).
Proof. by intros He n. Qed.
Lemma codes_lift {A} (o : outcome A) : honest o → codes (liftA o).
Proof. by intros Ho n. Qed.
Lemma codes_bind {A B} (m : Act (node V) A) (k : A → Act (node V) B) :
  codes m → (∀ a, codes (k a)) → codes (bindA m k).
Proof.
  intros Hm Hk n. rewrite bindA_run. specialize (Hm n). destruct (m n) as [[a|e] n']; [apply Hk|exact Hm].
Qed.
Lemma codes_try {A} (m : Act (node V) A) h :
  codes m → (∀ e, honest (A := A) (Raise e) → codes (h e)) → codes (tryA m h).
Proof.
  intros Hm Hh n. unfold tryA. specialize (Hm n). destruct (m n) as [[a|e] n']; [done|by apply Hh].
Qed.
Lemma codes_finally {A} (m : Act (node V) A) h : codes m → codes h → codes (finallyA m h).
Proof.
  intros Hm Hh n. unfold finallyA. specialize (Hm n). destruct (m n) as [o n'].
  specialize (Hh n'). by destruct (h n') as [[a|e] n''].
Qed.
Lemma codes_lock {A} (m : Act (node V) A) : codes m → codes (config_lock settings m).
Proof. intros Hm. apply codes_bind; [by intros n|done]. Qed.
Lemma codes_read path : codes (read_file path).
Proof. by intros n. Qed.
Lemma codes_write path content : codes (write_file path content).
Proof. by intros n. Qed.
Lemma codes_unlink path : codes (unlink path).
Proof. by intros n. Qed.
Lemma codes_temp suffix content : codes (named_temporary_file suffix content).
Proof. by intros n. Qed.
Lemma codes_run args timeout : codes (subprocess_run args timeout).
Proof.
  intros n. unfold subprocess_run. pose proof (process_is_not_http args timeout (disk n) (outside n)) as Hp.
  destruct (run_process _ _ _ _) as [[r|e] v]; [done|]. destruct e; try done. by destruct (Hp status_code detail v).
Qed.
Lemma codes_awg args : codes (run_awg args).
Proof.
  unfold run_awg. apply codes_try.
  - unfold checked_run. apply codes_bind; [apply codes_run|]. intros [[rc out] err].
    destruct (rc == 0%Z); [apply codes_ret|by apply codes_raise].
  - intros e He. destruct e; by apply codes_raise.
Qed.

Lemma honest_bind {A B} (o : outcome A) (k : A → outcome B) :
  honest o → (∀ a, honest (k a)) → honest (o ≫= k).
Proof. intros Ho Hk. destruct o; [apply Hk|exact Ho]. Qed.
Lemma int_value_honest s : honest (int_value_of s).
Proof. unfold int_value_of. by destruct (py_int s). Qed.
Lemma show_line_honest st raw : honest (show_line st raw).
Proof.
  unfold show_line. destruct (negb _); [done|]. destruct (startswith _ "interface:"); [done|].
  destruct (startswith _ _); [done|]. destruct (negb _); [done|].
  destruct (partition _ _) as [[k sep] v]. destruct (sh_current st); [done|].
  apply honest_bind; [|done]. destruct (bool_decide _); [|done].
  apply honest_bind; [apply int_value_honest|done].
Qed.
Lemma parse_awg_show_honest output : honest (parse_awg_show output).
Proof.
  unfold parse_awg_show. apply honest_bind; [|done]. generalize (mkShown [] [] None).
  induction (splitlines output) as [|l ls IH]; intros st; [done|]. cbn [show_lines].
  apply honest_bind; [apply show_line_honest|apply IH].
Qed.
Lemma dump_line_honest line : honest (dump_line line).
Proof.
  unfold dump_line. generalize (split_char line (ascii_of_nat 9)). intros parts.
  destruct parts as [|? [|? [|? [|? [|? [|? [|? [|? [|? ?]]]]]]]]]; cbv beta iota;
    try (by destruct (_ <? _)%nat).
  apply honest_bind; [apply int_value_honest|intros ?].
  apply honest_bind; [apply int_value_honest|intros ?].
  by apply honest_bind; [apply int_value_honest|intros ?].
Qed.
Lemma map_outcome_honest {A B} (f : A → outcome B) l : (∀ a, honest (f a)) → honest (map_outcome f l).
Proof.
  intros Hf. induction l as [|a l IH]; [done|]. cbn [map_outcome].
  apply honest_bind; [done|intros ?]. by apply honest_bind.
Qed.
End codes.

Ltac codes_io := first [apply codes_read | apply codes_write | apply codes_unlink | apply codes_temp].

Section answers.
Context {V : Type} `{Host V} `{!AwgOutput V} (settings : AgentSettings) `{!AgentFiles settings}.

(** The tunnel's endpoints only answer with error statuses when they fail. *)
Definition tunnel_request (req : agent_request) : bool :=
  match req with
  | PutMtproxy _ | MtproxyStatus => false
  | Delete path => match peer_segment path with Some _ => true | None => false end
  | _ => true
  end.
Lemma urlsafe_honest s : honest (urlsafe_b64decode s).
Proof. unfold urlsafe_b64decode. by destruct (forallb _ _). Qed.
Lemma route_codes req : tunnel_request req = true → codes (route settings req).
Proof.
  intros Ht.
  destruct req as [| | |cfg|r|path|r|]; cbn [route]; try done.
  - unfold status, configured. repeat first [apply codes_awg | apply codes_ret | apply codes_lock | apply codes_read
      | apply codes_lift, parse_awg_show_honest | apply codes_bind; [|intros ?]
      | match goal with |- codes (match ?x with _ => _ end) => destruct x end].
  - unfold dump. repeat first [apply codes_awg | apply codes_ret
      | apply codes_lift, map_outcome_honest, dump_line_honest | apply codes_bind; [|intros ?]].
  - unfold configure_interface. apply codes_bind.
    + apply codes_lock, codes_bind; [codes_io|]. intros content.
      destruct (configured_text content cfg) as [old [text|]]; [|apply codes_ret].
      apply codes_bind; [codes_io|intros _; apply codes_ret].
    + intros [old|]; [|apply codes_ret]. apply codes_bind; [|intros _; apply codes_ret].
      apply codes_try.
      * unfold apply_live_interface. apply codes_bind; [codes_io|]. intros name.
        apply codes_finally; [|codes_io]. apply codes_bind; [|intros _; apply codes_ret].
        unfold checked_run. apply codes_bind; [apply codes_run|]. intros [[rc out] err].
        destruct (rc == 0%Z); [apply codes_ret|by apply codes_raise].
      * intros e He. destruct e; first [apply codes_ret | by apply codes_raise].
  - unfold sync_peer. apply codes_bind; [apply codes_awg|intros _]. apply codes_bind.
    + destruct (truthy _).
      * apply codes_bind; [codes_io|]. intros name. apply codes_finally; [|codes_io].
        apply codes_bind; [apply codes_awg|intros _; apply codes_ret].
      * apply codes_bind; [apply codes_awg|intros _; apply codes_ret].
    + intros _. apply codes_bind; [|intros _; apply codes_ret].
      apply codes_lock, codes_bind; [codes_io|]. intros content. codes_io.
  - cbn [tunnel_request] in Ht. destruct (peer_segment path) as [seg|] eqn:Hseg; [|done].
    destruct (path == "/mtproxy") eqn:Hp; [by py_bool; subst path|].
    unfold delete_peer. apply codes_bind; [apply codes_lift, urlsafe_honest|].
    intros [raw|]; [|by apply codes_raise]. destruct (length raw != PUBKEY_LEN); [by apply codes_raise|].
    apply codes_bind; [apply codes_awg|intros _]. apply codes_bind; [|intros _; apply codes_ret].
    apply codes_lock, codes_bind; [codes_io|]. intros [content|]; [codes_io|by apply codes_raise].
Qed.
Lemma handle_codes token req : tunnel_request req = true → codes (handle_request settings token req).
Proof.
  intros Ht. unfold handle_request. destruct (needs_token req); [|by apply route_codes].
  apply codes_bind; [|intros _; by apply route_codes]. apply codes_lift.
  destruct token as [t|]; [|done]. unfold authorised. by destruct (t != AGENT_TOKEN settings).
Qed.

(** An answer is a success exactly when the endpoint returned. *)
Lemma response_success o :
  honest o → is_success (agent_reply (agent_response o)) = is_ok o.
Proof.
  destruct o as [v|e]; [done|]. intros He. destruct e; try reflexivity. unfold is_success. cbn in He |- *.
  destruct He as [He _]. destruct (status_code <? 300)%Z eqn:E; [|by rewrite andb_false_r]. apply Z.ltb_lt in E. lia.
Qed.
End answers.

(** ** Requests of the worker that reach the agent *)
Section reaching.
Context {W V : Type} `{HV : Host V} `{!AwgOutput V} `{HN : !HostsNode W V} `{HT : Transport W}.
Context (settings : AgentSettings) `{!AgentFiles settings}.
(* pydantic's reading of an interface body *)
Context (interface_of : json → InterfaceConfig) (endpoint token : string).

Definition bearer : option string := if truthy_str token then Some token else None.
Definition calls (method path : string) (body : option json) (req : agent_request) : Prop := ∀ w,
  http_request method (rstrip_char "/"%char endpoint +:+ path) token body w =
  let '(r, n) := agent_serve settings bearer req (node_of w) in (Ok (agent_reply r), put_node n w).

(** The routes of the agent; a DELETE path without characters that a URL escapes arrives as it is. *)
Record reaches : Prop := {
  reaches_status : calls "GET" "/status" None Status;
  reaches_dump : calls "GET" "/dump" None Dump;
  reaches_interface : ∀ body, calls "PUT" "/interface" (Some body) (PutInterface (interface_of body));
  reaches_peers : ∀ body req, peer_request body = Some req →
    calls "PUT" "/peers" (Some body) (PutPeer req);
  reaches_delete : ∀ raw, is_bytes raw → length raw = PUBKEY_LEN →
    calls "DELETE" ("/peers/" +:+ b64encode raw) None (Delete ("/peers/" +:+ b64encode raw)) }.

Definition table (w : W) : gmap string ConfiguredPeer := peer_table settings (node_of w).
Definition ready (w : W) : Prop := readable (tunnel_config settings (node_of w)).

Lemma node_request_run method path body req w :
  calls method path body req →
  node_request method endpoint token path body w =
  let '(o, n) := handle_request settings bearer req (node_of w) in
  (raise_for_status (rstrip_char "/"%char endpoint +:+ path) (agent_reply (agent_response o)), put_node n w).
Proof.
  intros Hc. unfold node_request. rewrite bindA_run, Hc. unfold agent_serve.
  by destruct (handle_request settings bearer req (node_of w)).
Qed.

(** What one request does to the table and returns. *)
Lemma node_request_outcome method path body req w :
  calls method path body req → tunnel_request req = true → clean_request req = true → ready w →
  let '(o, n) := handle_request settings bearer req (node_of w) in
  let '(r, w') := node_request method endpoint token path body w in
  w' = put_node n w ∧ ready w' ∧ table w' = table_step (table w) (req, o) ∧
  match o with
  | Ok v => ∃ response, r = Ok response ∧ R_json response = Ok v
  | Raise (HTTPException code _) => code ≠ 404%Z ∧ ∃ p b m, r = Raise (HTTPStatusError code p b m)
  | Raise _ => ∃ p b m, r = Raise (HTTPStatusError 500 p b m)
  end.
Proof.
  intros Hc Ht Hcl Hr. destruct (request_table settings bearer req (node_of w) Hr Hcl) as [Hr' Htab].
  pose proof (handle_codes settings bearer req Ht (node_of w)) as Hh.
  rewrite (node_request_run _ _ _ _ w Hc).
  destruct (handle_request settings bearer req (node_of w)) as [o n]. cbn [fst snd] in *.
  unfold raise_for_status. rewrite (response_success o Hh).
  unfold ready, table. rewrite node_of_put.
  destruct o as [v|e]; cbn [is_ok].
  - split_and!; [done|done|done|]. eexists. by split.
  - split_and!; [done|done|done|]. destruct e; try (by do 3 eexists). split; [apply Hh|]. by do 3 eexists.
Qed.

(** A dictionary answer is the endpoint's value. *)
Lemma node_dict_ok method path body req w d w' :
  calls method path body req → tunnel_request req = true → clean_request req = true → ready w →
  node_dict method endpoint token path body w = (Ok d, w') →
  ∃ v, (handle_request settings bearer req (node_of w)) = (Ok v, node_of w') ∧ dict_of v = Ok d ∧
    ready w' ∧ table w' = table_step (table w) (req, Ok v).
Proof.
  intros Hc Ht Hcl Hr Hd. pose proof (node_request_outcome _ _ _ _ w Hc Ht Hcl Hr) as Ho.
  unfold node_dict in Hd. rewrite bindA_run in Hd.
  destruct (handle_request settings bearer req (node_of w)) as [o n].
  destruct (node_request method endpoint token path body w) as [r w1].
  destruct Ho as (-> & Hr' & Htab & Hresp).
  destruct o as [v|e].
  - destruct Hresp as (response & -> & Hj). rewrite bindA_run in Hd. unfold liftA in Hd.
    rewrite Hj in Hd. injection Hd as Hd <-. exists v. rewrite node_of_put. by split_and!.
  - exfalso. destruct e; (destruct Hresp as (p & b & m & ->) || destruct Hresp as (_ & p & b & m & ->)); done.
Qed.

(** *** Putting peers *)
Definition put_in (t : gmap string ConfiguredPeer) (r : SyncPeerRequest) : gmap string ConfiguredPeer :=
  <[sp_public_key r := written_peer (sp_public_key r) (sp_allowed_ip r) (str_or (sp_psk_key r) "")]> t.
Lemma put_peers_table (Hreach : reaches) bodies requests w n w' :
  Forall2 (fun body r => peer_request body = Some r ∧ clean_request (PutPeer r) = true) bodies requests →
  ready w → put_peers endpoint token bodies w = (Ok n, w') →
  ready w' ∧ table w' = foldl put_in (table w) requests.
Proof.
  intros Hb Hr Hput. unfold put_peers in Hput. rewrite bindA_run in Hput.
  assert (∀ w w1, ready w → eachA (fun peer => do+ node_request "PUT" endpoint token "/peers" (Some peer) in retA tt)
    bodies w = (Ok tt, w1) → ready w1 ∧ table w1 = foldl put_in (table w) requests) as Heach.
  { clear -Hb Hreach AwgOutput0 AgentFiles0.
    induction Hb as [|body r bodies requests [Hbody Hclean] _ IH]; intros w w1 Hr He; cbn [eachA foldl] in He |- *.
    - by injection He as <-.
    - rewrite bindA_run, bindA_run in He.
      pose proof (node_request_outcome _ _ _ _ w (reaches_peers Hreach body r Hbody) eq_refl Hclean Hr) as Ho.
      destruct (handle_request settings bearer (PutPeer r) (node_of w)) as [o n].
      destruct (node_request "PUT" endpoint token "/peers" (Some body) w) as [res w2].
      destruct Ho as (-> & Hr2 & Htab & Hresp).
      destruct o as [v|e].
      + destruct Hresp as (response & -> & _). cbn in He.
        destruct (IH _ _ Hr2 He) as [Hr3 Htab3]. split; [done|]. by rewrite Htab3, Htab.
      + exfalso. destruct e; (destruct Hresp as (p & b & m & ->) || destruct Hresp as (_ & p & b & m & ->)); done. }
  destruct (eachA _ bodies w) as [[[]|e] w1] eqn:E; [|done]. injection Hput as <- <-. by eapply Heach.
Qed.

(** *** Deleting peers *)
Definition slashed (key : string) : bool := "/"%char isin of_str key.
Definition take_out (t : gmap string ConfiguredPeer) (key : string) : gmap string ConfiguredPeer :=
  if slashed key then t else delete key t.
Definition node_key (key : string) : Prop := ∃ raw, is_bytes raw ∧ length raw = PUBKEY_LEN ∧ key = b64encode raw.

Lemma delete_present_table (Hreach : reaches) key w w' :
  node_key key → ready w →
  delete_peer_if_present endpoint token key w = (Ok tt, w') →
  ready w' ∧ table w' = take_out (table w) key.
Proof.
  intros (raw & Hb & Hlen & ->) Hr Hd. unfold take_out, slashed, delete_peer_if_present, tryA, WorkerClients.delete_peer in *.
  rewrite bindA_run in Hd. case_bool_decide as Hs.
  - rewrite (node_request_run _ _ _ _ w (reaches_delete Hreach raw Hb Hlen)) in Hd.
    rewrite slash_key_unrouted in Hd by done.
    assert (w' = put_node (node_of w) w) as -> by (by inversion Hd).
    unfold ready, table. by rewrite node_of_put.
  - set (path := "/peers/" +:+ b64encode raw) in *.
    assert (tunnel_request (Delete path) = true) as Ht.
    { cbn. unfold path. by rewrite std_key_routed. }
    pose proof (node_request_outcome _ _ _ _ w (reaches_delete Hreach raw Hb Hlen) Ht eq_refl Hr) as Ho.
    fold path in Ho. destruct (handle_request settings bearer (Delete path) (node_of w)) as [o n].
    destruct (node_request "DELETE" endpoint token path None w) as [res w2].
    destruct Ho as (-> & Hr2 & Htab & Hresp).
    assert (∀ v, o = Ok v → table (put_node n w) = delete (b64encode raw) (table w)) as Hok.
    { intros v ->. rewrite Htab. unfold table_step. cbn [fst snd is_ok]. unfold path.
      by rewrite std_key_deleted. }
    destruct o as [v|e].
    + destruct Hresp as (response & -> & _). cbn in Hd. injection Hd as <-. split; [done|by eapply Hok].
    + exfalso. destruct e; try (destruct Hresp as (p & b & m & ->); cbn in Hd; done).
      destruct Hresp as (Hcode & p & b & m & ->). cbn in Hd.
      rewrite bool_decide_eq_false_2 in Hd by done. done.
Qed.
Lemma deletes_table (Hreach : reaches) keys w w' :
  Forall node_key keys → ready w →
  eachA (delete_peer_if_present endpoint token) keys w = (Ok tt, w') →
  ready w' ∧ table w' = foldl take_out (table w) keys.
Proof.
  intros Hk. revert w. induction Hk as [|key keys Hkey _ IH]; intros w Hr He; cbn [eachA foldl] in He |- *.
  - by injection He as <-.
  - rewrite bindA_run in He.
    destruct (delete_peer_if_present endpoint token key w) as [[[]|e] w1] eqn:E; [|done].
    destruct (delete_present_table Hreach key w w1 Hkey Hr E) as [Hr1 Ht1].
    destruct (IH w1 Hr1 He) as [Hr2 Ht2]. split; [done|]. by rewrite Ht2, Ht1.
Qed.

(** *** The status the worker compares with *)
Lemma run_awg_output args n output n' :
  run_awg (W := V) args n = (Ok output, n') →
  ∃ err v', run_process ("awg" :: args) None (disk n) (outside n) = (Ok (0%Z, output, err), v').
Proof.
  unfold run_awg, tryA, checked_run. rewrite bindA_run. unfold subprocess_run.
  destruct (run_process _ _ _ _) as [[[[rc out] err]|e] v'].
  - case_bool_decide as E; [|by destruct err]. intros [= <- <-]. subst rc. by exists err, v'.
  - by destruct e.
Qed.
Lemma status_shape n v n' :
  status settings n = (Ok v, n') →
  ∃ iface shown, (∀ sh, sh ∈ shown → json_find sh "psk_key" = None) ∧
    v = JObj [("interface", JObj iface);
              ("peers", JArr (JObj ∘ with_psk (peer_table settings n') <$> shown))].
Proof.
  unfold status. rewrite bindA_run. intros Hs.
  destruct (run_awg _ n) as [[output|e] n1] eqn:Erun; [|done]. rewrite bindA_run in Hs. unfold liftA in Hs.
  destruct (parse_awg_show output) as [[iface shown]|e] eqn:Ep; [|done].
  exists iface, shown. split.
  { intros sh Hsh. destruct (run_awg_output _ _ _ _ Erun) as (err & v' & Hrun).
    by apply (shown_without_psk _ _ _ _ _ _ _ _ Hrun Ep). }
  rewrite bindA_run in Hs. unfold configured in Hs. rewrite bindA_run in Hs. unfold read_file at 1 in Hs.
  destruct (disk n1 !! WG_CONFIG settings) as [text|] eqn:Ed.
  - unfold config_lock in Hs. rewrite !bindA_run in Hs. unfold write_file in Hs.
    rewrite bindA_run in Hs. unfold read_file in Hs. cbn [disk] in Hs.
    rewrite lookup_insert_ne, Ed in Hs by apply lock_elsewhere. injection Hs as <- <-.
    unfold peer_table, tunnel_config. cbn [disk]. by rewrite lookup_insert_ne, Ed by apply lock_elsewhere.
  - injection Hs as <- <-. unfold peer_table, tunnel_config. by rewrite Ed.
Qed.
Lemma handle_ok req n v n' :
  handle_request settings bearer req n = (Ok v, n') → route settings req n = (Ok v, n').
Proof.
  unfold handle_request. destruct (needs_token req); [|done]. rewrite bindA_run. unfold liftA.
  by destruct (authorised settings bearer) as [[]|e].
Qed.
Lemma status_seen_by_worker (Hreach : reaches) w d w' :
  ready w → node_status_request endpoint token w = (Ok d, w') →
  ∃ iface shown, (∀ sh, sh ∈ shown → json_find sh "psk_key" = None) ∧
    d = [("interface", JObj iface); ("peers", JArr (JObj ∘ with_psk (table w') <$> shown))] ∧
    ready w' ∧ table w' = table w.
Proof.
  intros Hr Hd. destruct (node_dict_ok _ _ _ _ w d w' (reaches_status Hreach) eq_refl eq_refl Hr Hd)
    as (v & Hv & Hdict & Hr' & Ht).
  apply handle_ok in Hv. destruct (status_shape _ _ _ Hv) as (iface & shown & Hp & ->).
  exists iface, shown. injection Hdict as <-. by split_and!.
Qed.
End reaching.

(** *** Dictionaries *)
Lemma json_get_find d k : json_get d k = default JNull (json_find d k).
Proof.
  unfold json_get, json_find. induction d as [|[k' v] d IH]; [done|]. cbn [List.find dict_get fst].
  rewrite (bool_decide_ext (k' = k) (k = k')) by done. by destruct (k == k').
Qed.
Lemma json_find_set d k v k' :
  json_find (dict_set d k v) k' = if k' == k then Some v else json_find d k'.
Proof.
  induction d as [|[x y] d IH]; cbn [dict_set]; [done|]. unfold json_find in *.
  destruct (decide (x = k)) as [->|Hne].
  - rewrite (bool_decide_eq_true_2 (k = k)) by done. cbn [dict_get]. by case_bool_decide.
  - rewrite (bool_decide_eq_false_2 (x = k)) by done. cbn [dict_get]. rewrite IH.
    repeat case_bool_decide; congruence.
Qed.
Lemma map_outcome_Forall2 {A B} (f : A → outcome B) xs ys :
  map_outcome f xs = Ok ys → Forall2 (fun x y => f x = Ok y) xs ys.
Proof.
  revert ys; induction xs as [|x xs IH]; intros ys H; cbn in H; [by injection H as <-|].
  destruct (f x) as [y|e] eqn:E; [|done]. cbn in H.
  destruct (map_outcome f xs) as [ys'|e]; [|done]. injection H as <-. constructor; [done|by apply IH].
Qed.
Lemma current_peers_lookup peers k q :
  current_peers peers !! k = Some q → q ∈ peers ∧ get_str q "public_key" "" = k.
Proof.
  unfold current_peers.
  assert (∀ m : gmap string fields, (∀ k q, m !! k = Some q → q ∈ peers ∧ get_str q "public_key" "" = k) →
    ∀ l, (∀ x, x ∈ l → x ∈ peers) → foldl (fun m peer => if json_truthy (json_get peer "public_key")
      then <[get_str peer "public_key" "" := peer]> m else m) m l !! k = Some q →
    q ∈ peers ∧ get_str q "public_key" "" = k) as Hl; [|apply (Hl ∅); done].
  intros m Hm l. revert m Hm. induction l as [|x l IH]; intros m Hm Hsub; cbn [foldl]; [apply Hm|].
  apply IH; [|intros y Hy; apply Hsub; by right]. intros k' q'.
  destruct (json_truthy _); [|apply Hm]. destruct (decide (get_str x "public_key" "" = k')) as [<-|Hne].
  - rewrite lookup_insert_eq. intros [= <-]. split; [apply Hsub; by left|done].
  - rewrite lookup_insert_ne by done. apply Hm.
Qed.

(** A peer the worker finds already right has its pre-shared key in the table. *)
Lemma matching_psk table shown p :
  (∀ sh, sh ∈ shown → json_find sh "psk_key" = None) →
  peer_matches_current p (current_peers (with_psk table <$> shown) !! get_str p "public_key" "") = Ok true →
  get_str p "psk_key" "" ≠ "" →
  ∃ c, table !! get_str p "public_key" "" = Some c ∧ cp_psk_key c = get_str p "psk_key" "".
Proof.
  intros Hp Hm Hpsk. destruct (current_peers _ !! _) as [q|] eqn:Eq; [|done].
  apply current_peers_lookup in Eq as [Hq Hkey]. apply list_elem_of_fmap in Hq as (sh & -> & Hsh).
  specialize (Hp sh Hsh) as Hnone.
  unfold peer_matches_current in Hm.
  destruct (get_list _ "allowed_ips") as [allowed|e]; [|done]. cbn in Hm. injection Hm as Hm.
  apply andb_true_iff in Hm as [_ Hm]. apply bool_decide_eq_true in Hm.
  unfold with_psk in Hm, Hkey.
  destruct (table !! py_str (json_or (json_get sh "public_key") (JStr ""))) as [c|] eqn:Ec.
  - exists c. split.
    + rewrite <- Hkey, <- Ec. unfold get_str. by rewrite !json_get_find, json_find_set.
    + rewrite <- Hm. unfold get_str. rewrite json_get_find, json_find_set.
      change ("psk_key" == "psk_key") with true. unfold json_or, default, id. cbn [json_truthy].
      destruct (truthy_str (cp_psk_key c)) eqn:E; [done|]. unfold truthy_str in E. py_bool. by rewrite E.
  - exfalso. apply Hpsk. rewrite <- Hm. unfold get_str. rewrite json_get_find, Hnone. done.
Qed.

(** *** The table after the plan *)
Lemma put_in_lookup_other t rs k :
  k ∉ sp_public_key <$> rs → foldl put_in t rs !! k = t !! k.
Proof.
  revert t; induction rs as [|r rs IH]; intros t Hk; [done|]. cbn in Hk. apply not_elem_of_cons in Hk as [Hk Hrs].
  cbn [foldl]. rewrite IH by done. unfold put_in. by rewrite lookup_insert_ne.
Qed.
Lemma put_in_lookup t rs r :
  NoDup (sp_public_key <$> rs) → r ∈ rs →
  foldl put_in t rs !! sp_public_key r
  = Some (written_peer (sp_public_key r) (sp_allowed_ip r) (str_or (sp_psk_key r) "")).
Proof.
  revert t; induction rs as [|x rs IH]; intros t Hnd Hr; [by apply elem_of_nil in Hr|].
  cbn in Hnd. apply NoDup_cons in Hnd as [Hx Hnd]. cbn [foldl].
  apply elem_of_cons in Hr as [->|Hr]; [|by apply IH].
  rewrite put_in_lookup_other by done. unfold put_in. by rewrite lookup_insert_eq.
Qed.
Lemma take_out_lookup t ks k :
  foldl take_out t ks !! k = if (k isin ks) && negb (slashed k) then None else t !! k.
Proof.
  revert t; induction ks as [|x ks IH]; intros t; [done|]. cbn [foldl]. rewrite IH. unfold take_out.
  destruct (decide (k = x)) as [->|Hne].
  - rewrite (bool_decide_eq_true_2 (x ∈ x :: ks)) by by left. cbn [andb].
    destruct (slashed x) eqn:Es; cbn [negb]; [by rewrite andb_false_r|].
    rewrite andb_true_r. case_bool_decide; [done|]. by rewrite lookup_delete_eq.
  - assert ((k isin x :: ks) = (k isin ks)) as ->.
    { apply bool_decide_ext. rewrite elem_of_cons. naive_solver. }
    destruct (slashed x); [done|]. by rewrite lookup_delete_ne.
Qed.

(** ** Bringing a node to its snapshot *)
Definition key_of (p : fields) : string := get_str p "public_key" "".
Definition psk_of (p : fields) : string := get_str p "psk_key" "".
(** The peers a status reports. *)
Definition reported (status : fields) : outcome (gmap string fields) :=
  peers ← get_list status "peers"; peers ← map_outcome as_dict peers; Ok (current_peers peers).
(** A peer the agent's request model accepts, made of single tokens. *)
Definition acceptable (p : fields) : Prop :=
  ∃ r, peer_request (JObj p) = Some r ∧ clean_request (PutPeer r) = true.

Lemma acceptable_request p :
  acceptable p → ∃ r, peer_request (JObj p) = Some r ∧ clean_request (PutPeer r) = true ∧
    sp_public_key r = key_of p ∧ str_or (sp_psk_key r) "" = psk_of p.
Proof.
  intros (r & Hr & Hc). exists r. split; [done|]. split; [done|]. unfold peer_request in Hr.
  cbn [obj_fields] in Hr. unfold key_of, psk_of, get_str, json_or.
  destruct (json_get p "public_key") as [| |k| | | |]; try done.
  destruct (json_get p "allowed_ip") as [| |a| | | |]; try done.
  destruct (json_get p "psk_key") as [| |s| | | |]; try done; injection Hr as <-;
    cbn [sp_public_key sp_psk_key str_or json_truthy];
    unfold truthy_str; repeat case_bool_decide; subst; done.
Qed.

Lemma acceptable_requests ps :
  Forall acceptable ps →
  ∃ rs, Forall2 (fun body r => peer_request body = Some r ∧ clean_request (PutPeer r) = true) (JObj <$> ps) rs ∧
    sp_public_key <$> rs = key_of <$> ps ∧
    (∀ p, p ∈ ps → ∃ r, r ∈ rs ∧ sp_public_key r = key_of p ∧ str_or (sp_psk_key r) "" = psk_of p).
Proof.
  induction 1 as [|p ps Hp _ (rs & Hf & Hk & Hr)].
  - exists []. split_and!; [constructor|done|]. by intros p Hp%elem_of_nil.
  - destruct (acceptable_request p Hp) as (r & Hreq & Hc & Hkey & Hpsk). exists (r :: rs).
    split_and!; [by constructor|cbn; by rewrite Hkey, Hk|].
    intros q [->|Hq]%elem_of_cons; [exists r; split; [by left|done]|].
    destruct (Hr q Hq) as (r' & Hin & ?). exists r'. split; [by right|done].
Qed.
Lemma NoDup_fmap_in {A B} (f : A → B) l x y :
  NoDup (f <$> l) → x ∈ l → y ∈ l → f x = f y → x = y.
Proof.
  induction l as [|z l IH]; [by intros _ ?%elem_of_nil|]. intros [Hz Hnd]%NoDup_cons Hx Hy E.
  apply elem_of_cons in Hx as [->|Hx], Hy as [->|Hy]; [done| | |by apply IH].
  - exfalso. apply Hz. rewrite E. by apply list_elem_of_fmap_2.
  - exfalso. apply Hz. rewrite <- E. by apply list_elem_of_fmap_2.
Qed.
(** The peers to put are some of the active ones; the others are right already. *)
Lemma to_put (f : fields → outcome bool) active keep :
  Forall2 (fun p ps => (same ← f p; Ok (p, same)) = Ok ps) active keep →
  let puts := fst <$> List.filter (fun ps : fields * bool => negb ps.2) keep in
  (NoDup (key_of <$> active) → NoDup (key_of <$> puts)) ∧
  (∀ p, p ∈ puts → p ∈ active) ∧
  (∀ p, p ∈ active → p ∈ puts ∨ f p = Ok true).
Proof.
  intros H. cbv zeta. induction H as [|p ps active keep Hp _ (Hnd & Hsub & Hcase)].
  - split_and!; [done|by intros p Hp%elem_of_nil|by intros p Hp%elem_of_nil].
  - destruct (f p) as [same|e] eqn:Ef; [|done]. injection Hp as <-. cbn [List.filter snd].
    destruct same; cbn [negb fmap list_fmap fst].
    + split_and!.
      * intros [_ Hnd']%NoDup_cons. by apply Hnd.
      * intros q Hq. right. by apply Hsub.
      * intros q [->|Hq]%elem_of_cons; [by right|by apply Hcase].
    + split_and!.
      * intros [Hp Hnd']%NoDup_cons. apply NoDup_cons. split; [|by apply Hnd].
        intros (q & Hq & Hin)%list_elem_of_fmap. apply Hp. rewrite Hq. apply list_elem_of_fmap.
        exists q. split; [done|by apply Hsub].
      * intros q [->|Hq]%elem_of_cons; [by left|right; by apply Hsub].
      * intros q [->|Hq]%elem_of_cons; [left; by left|].
        destruct (Hcase q Hq); [left; by right|by right].
Qed.

Section convergence.
Context {W V : Type} `{HV : Host V} `{!AwgOutput V} `{HN : !HostsNode W V} `{HT : Transport W}.
Context (settings : AgentSettings) `{!AgentFiles settings}.
Context (interface_of : json → InterfaceConfig) (endpoint token : string).
Abbreviation table := (table (HN := HN) settings).
Abbreviation ready := (ready (HN := HN) settings).

(** One pass of the plan. *)
Lemma plan_table (Hreach : reaches settings interface_of endpoint token) iface shown w active dels puts gone w3 w4 n :
  (∀ sh, sh ∈ shown → json_find sh "psk_key" = None) →
  reconcile_peers active dels
    [("interface", JObj iface); ("peers", JArr (JObj ∘ with_psk (table w) <$> shown))] = Ok (puts, gone) →
  Forall acceptable active → Forall node_key dels → NoDup ((key_of <$> active) ++ dels) → ready w →
  put_peers endpoint token (JObj <$> puts) w = (Ok n, w3) →
  eachA (delete_peer_if_present endpoint token) gone w3 = (Ok tt, w4) →
  let current := current_peers (with_psk (table w) <$> shown) in
  ready w4 ∧
  (∀ p, p ∈ active → psk_of p ≠ "" → ∃ c, table w4 !! key_of p = Some c ∧ cp_psk_key c = psk_of p) ∧
  (∀ k, k ∈ dels → is_Some (current !! k) → table w4 !! k = if slashed k then table w !! k else None) ∧
  (∀ k, k ∉ key_of <$> active → k ∉ dels ∨ current !! k = None → table w4 !! k = table w !! k).
Proof.
  intros Hp Hplan Hacc Hkeys Hnd Hr Hput Hdel. cbv zeta.
  unfold reconcile_peers in Hplan.
  assert (map_outcome as_dict (JObj ∘ with_psk (table w) <$> shown) = Ok (with_psk (table w) <$> shown)) as Hdicts.
  { clear. induction shown as [|sh l IH]; [done|]. cbn. by rewrite IH. }
  assert (get_list [("interface", JObj iface); ("peers", JArr (JObj ∘ with_psk (table w) <$> shown))] "peers"
    = Ok (JObj ∘ with_psk (table w) <$> shown)) as Hlist by (by destruct shown).
  rewrite Hlist in Hplan. cbn [mbind outcome_bind] in Hplan. rewrite Hdicts in Hplan.
  cbn [mbind outcome_bind] in Hplan.
  set (current := current_peers (with_psk (table w) <$> shown)) in *.
  destruct (map_outcome _ active) as [keep|e] eqn:Ekeep; [|done]. cbn [mbind outcome_bind] in Hplan.
  injection Hplan as <- <-. apply map_outcome_Forall2 in Ekeep.
  set (puts := fst <$> List.filter (fun ps : fields * bool => negb ps.2) keep) in *.
  set (gone := List.filter (fun key => bool_decide (is_Some (current !! key))) dels) in *.
  destruct (to_put _ _ _ Ekeep) as (Hndp & Hsub & Hcase). fold puts in Hndp, Hsub, Hcase.
  apply NoDup_app in Hnd as (Hnda & Hdisj & _).
  assert (Forall acceptable puts) as Haccp.
  { apply Forall_forall. intros p Hin. rewrite Forall_forall in Hacc. by apply Hacc, Hsub. }
  destruct (acceptable_requests puts Haccp) as (rs & Hrs & Hrk & Hrin).
  destruct (put_peers_table settings interface_of endpoint token Hreach _ rs w n w3 Hrs Hr Hput) as [Hr3 Ht3].
  assert (Forall node_key gone) as Hgone.
  { apply Forall_forall. intros k Hk. rewrite Forall_forall in Hkeys. apply Hkeys.
    apply list_elem_of_In, List.filter_In in Hk as [Hk _]. by apply list_elem_of_In. }
  destruct (deletes_table settings interface_of endpoint token Hreach gone w3 w4 Hgone Hr3 Hdel) as [Hr4 Ht4].
  assert (∀ k, k ∈ gone ↔ k ∈ dels ∧ is_Some (current !! k)) as Hin.
  { intros k. unfold gone. rewrite list_elem_of_In, List.filter_In, bool_decide_eq_true.
    by rewrite <- list_elem_of_In. }
  assert (∀ k, k ∈ key_of <$> puts → k ∈ key_of <$> active) as Hpk.
  { intros k (p & -> & Hp')%list_elem_of_fmap. apply list_elem_of_fmap. exists p. split; [done|by apply Hsub]. }
  split; [done|]. rewrite Ht4, Ht3. split_and!.
  - intros p Hpa Hpsk. rewrite take_out_lookup.
    assert (key_of p ∉ gone) as Hng.
    { rewrite Hin. intros [Hk _]. eapply Hdisj; [|exact Hk]. apply list_elem_of_fmap. by exists p. }
    rewrite (bool_decide_eq_false_2 _ Hng). cbn [andb].
    destruct (decide (key_of p ∈ key_of <$> puts)) as [Hk|Hk].
    + apply list_elem_of_fmap in Hk as (q & Hq & Hqin).
      assert (q = p) as ->.
      { by apply (NoDup_fmap_in key_of active); [|apply Hsub| |]. }
      destruct (Hrin p Hqin) as (r & Hr' & Hkey & Hps).
      rewrite <- Hkey, put_in_lookup; [|by rewrite Hrk; apply Hndp|done].
      eexists. split; [reflexivity|]. by rewrite <- Hps.
    + rewrite put_in_lookup_other by (by rewrite Hrk).
      destruct (Hcase p Hpa) as [Hput'|Hm]; [exfalso; apply Hk, list_elem_of_fmap; by exists p|].
      by apply (matching_psk (table w) shown p Hp Hm).
  - intros k Hk Hs. rewrite take_out_lookup. rewrite (bool_decide_eq_true_2 (k ∈ gone)) by by apply Hin.
    cbn [andb]. destruct (slashed k); cbn [negb]; [|done].
    apply put_in_lookup_other. rewrite Hrk. intros Hka%Hpk. by eapply Hdisj.
  - intros k Hk Hor. rewrite take_out_lookup.
    rewrite (bool_decide_eq_false_2 (k ∈ gone)).
    + cbn [andb]. apply put_in_lookup_other. rewrite Hrk. auto.
    + rewrite Hin. intros [Hd [q Hq]]. destruct Hor; [done|congruence].
Qed.

(** A dictionary answer of an interface update keeps the table. *)
Lemma interface_step (Hreach : reaches settings interface_of endpoint token) body w d w' :
  clean_interface (interface_of body) = true → ready w →
  put_interface endpoint token body w = (Ok d, w') → ready w' ∧ table w' = table w.
Proof.
  intros Hc Hr Hd. destruct (node_dict_ok _ _ _ _ _ _ _ w d w' (reaches_interface _ _ _ _ Hreach body)
    eq_refl Hc Hr Hd) as (v & _ & _ & Hr' & Ht). by split.
Qed.
Lemma dump_step (Hreach : reaches settings interface_of endpoint token) w d w' :
  ready w → node_dump endpoint token w = (Ok d, w') → ready w' ∧ table w' = table w.
Proof.
  intros Hr Hd. destruct (node_dict_ok _ _ _ _ _ _ _ w d w' (reaches_dump _ _ _ _ Hreach)
    eq_refl eq_refl Hr Hd) as (v & _ & _ & Hr' & Ht). by split.
Qed.

(** C6: a successful sync leaves the node as the snapshot wants it, up to keys with a slash. When the
    worker brings a node to a snapshot and no step fails, then in the node's configuration: every
    active peer of the snapshot that has a pre-shared key is there under that key; every peer to be
    removed that the node's status reported is gone, if its public key has no slash in standard
    base64, and is still there, exactly as before, if it has one; and no other peer has changed. The
    sync reports success in every case. *)
Theorem synced_node_matches_snapshot snapshot interface peers active dels w result w' :
  reaches settings interface_of endpoint token →
  snapshot_endpoint snapshot = Ok endpoint → get_str snapshot "token" "" = token →
  (v ← item snapshot "interface"; dict_of v) = Ok interface →
  clean_interface (interface_of (JObj interface)) = true →
  snapshot_peers snapshot = Ok peers → split_peers peers = (active, dels) →
  Forall acceptable active → Forall node_key dels → NoDup ((key_of <$> active) ++ dels) → ready w →
  apply_snapshot snapshot w = (Ok result, w') →
  ∃ w1 answer w2 status current,
    put_interface endpoint token (JObj interface) w = (Ok answer, w1) ∧
    node_status_request endpoint token w1 = (Ok status, w2) ∧ reported status = Ok current ∧
    result_ok result = true ∧ ready w' ∧
    (∀ p, p ∈ active → psk_of p ≠ "" → ∃ c, table w' !! key_of p = Some c ∧ cp_psk_key c = psk_of p) ∧
    (∀ k, k ∈ dels → is_Some (current !! k) → table w' !! k = if slashed k then table w !! k else None) ∧
    (∀ k, k ∉ key_of <$> active → k ∉ dels ∨ current !! k = None → table w' !! k = table w !! k).
Proof.
  intros Hreach Hend Htok Hifc Hclean Hpeers Hsplit Hacc Hkeys Hnd Hr Happ.
  unfold apply_snapshot in Happ. rewrite bindA_run in Happ. unfold liftA at 1 in Happ. rewrite Hend in Happ.
  cbv zeta in Happ. rewrite Htok, bindA_run in Happ. unfold liftA at 1 in Happ. rewrite Hifc, bindA_run in Happ.
  destruct (put_interface endpoint token (JObj interface) w) as [[answer|e] w1] eqn:E1; [|done].
  destruct (interface_step Hreach _ _ _ _ Hclean Hr E1) as [Hr1 Ht1].
  rewrite bindA_run in Happ.
  destruct (node_status_request endpoint token w1) as [[d|e] w2] eqn:E2; [|done].
  destruct (status_seen_by_worker settings interface_of endpoint token Hreach w1 d w2 Hr1 E2)
    as (iface & shown & Hp & -> & Hr2 & Ht2).
  rewrite bindA_run in Happ. unfold liftA at 1 in Happ. rewrite Hpeers, Hsplit, bindA_run in Happ.
  unfold liftA at 1 in Happ.
  destruct (reconcile_peers active dels _) as [[puts gone]|e] eqn:Eplan; [|done].
  rewrite bindA_run in Happ.
  assert (∃ n w3, put_peers endpoint token (JObj <$> puts) w2 = (Ok n, w3) ∧
    (do+ eachA (delete_peer_if_present endpoint token) gone in
     let+ status := node_status_request endpoint token in
     let+ dump := node_dump endpoint token in
     let+ interface0 := liftA (interface_result answer status dump) in
     let+ peers := liftA (peer_results dump) in
     retA [("ok", JBool true); ("interface", JObj interface0); ("peers", JArr peers)]) w3
    = (Ok result, w')) as (n & w3 & E3 & Hrest).
  { destruct puts as [|p puts].
    - exists 0, w2. split; [reflexivity|exact Happ].
    - rewrite bindA_run in Happ.
      destruct (put_peers endpoint token (JObj <$> (p :: puts)) w2) as [[n|e] w3]; [|done].
      exists n, w3. split; [done|exact Happ]. }
  clear Happ. rewrite bindA_run in Hrest.
  destruct (eachA _ gone w3) as [[[]|e] w4] eqn:E4; [|done].
  destruct (plan_table Hreach iface shown w2 active dels puts gone w3 w4 n Hp Eplan Hacc Hkeys Hnd Hr2 E3 E4)
    as (Hr4 & Hact & Hdel & Hframe).
  rewrite bindA_run in Hrest.
  destruct (node_status_request endpoint token w4) as [[d5|e] w5] eqn:E5; [|done].
  destruct (status_seen_by_worker settings interface_of endpoint token Hreach w4 d5 w5 Hr4 E5)
    as (_ & _ & _ & _ & Hr5 & Ht5).
  rewrite bindA_run in Hrest.
  destruct (node_dump endpoint token w5) as [[d6|e] w6] eqn:E6; [|done].
  destruct (dump_step Hreach _ _ _ Hr5 E6) as [Hr6 Ht6].
  rewrite bindA_run in Hrest. unfold liftA at 1 in Hrest.
  destruct (interface_result _ _ _) as [ifr|e]; [|done]. rewrite bindA_run in Hrest. unfold liftA in Hrest.
  destruct (peer_results d6) as [prs|e]; [|done]. injection Hrest as <- <-.
  exists w1, answer, w2. eexists. exists (current_peers (with_psk (table w2) <$> shown)).
  split; [done|]. split; [exact E2|]. rewrite Ht6, Ht5. rewrite <- Ht1, <- Ht2. split_and!; try done.
  unfold reported.
  assert (get_list [("interface", JObj iface); ("peers", JArr (JObj ∘ with_psk (table w2) <$> shown))] "peers"
    = Ok (JObj ∘ with_psk (table w2) <$> shown)) as -> by (by destruct shown).
  cbn [mbind outcome_bind].
  assert (map_outcome as_dict (JObj ∘ with_psk (table w2) <$> shown) = Ok (with_psk (table w2) <$> shown)) as ->;
    [|done].
  clear. induction shown as [|sh l IH]; [done|]. cbn. by rewrite IH.
Qed.
End convergence.

(** ** A network with one node, for the witness *)
#[export] Instance sample_awg_output : AwgOutput sample_live.
Proof.
  split.
  - intros args timeout d v status detail v'. cbn [run_process sample_host]. unfold sample_process.
    destruct (_ == _); [done|]. destruct (_ == _); [done|]. destruct (_ && _); [|done].
    by destruct (set_live _ _ _).
  - intros args d v output err v' r peer Hrun Hparse Hpeer.
    assert (output = sample_show v ∨ output = sample_dump v) as Hout.
    { cbn [run_process sample_host] in Hrun. unfold sample_process in Hrun. cbn [nth] in Hrun.
      change ("awg" == "supervisorctl") with false in Hrun. change ("show" == "show") with true in Hrun.
      cbv iota in Hrun. injection Hrun as <- _ _. destruct (_ == 4); auto. }
    revert Hpeer. destruct Hout as [->| ->]; revert Hparse; destruct v as [[[] []] []];
      (match goal with |- parse_awg_show ?t = _ → _ =>
         let x := eval vm_compute in (parse_awg_show t) in
         change (parse_awg_show t) with x; intros [= <-] end);
      cbn [snd]; rewrite ?elem_of_cons, elem_of_nil; intros Hp;
      repeat destruct Hp as [->|Hp]; done.
Qed.

Definition sample_endpoint : string := "http://node".
Definition interface_default (body : json) : InterfaceConfig :=
  default_interface (get_str (obj_fields body) "private_key" "").
Definition sample_request (method path : string) (body : option json) : agent_request :=
  if method == "DELETE" then Delete path
  else if path == "/status" then Status
  else if path == "/dump" then Dump
  else if path == "/interface" then PutInterface (interface_default (default JNull body))
  else match peer_request (default JNull body) with Some r => PutPeer r | None => Health end.
Definition sample_wire : Transport (node sample_live) := {|
  http_request method url token body n :=
    let '(r, n) := agent_serve sample_settings (Some token) (sample_request method (removeprefix url sample_endpoint) body) n in
    (Ok (agent_reply r), n);
  httpx_error_text _ _ := "" |}.
Lemma sample_reaches :
  reaches (HT := sample_wire) sample_settings interface_default sample_endpoint "t".
Proof.
  split.
  - by intros w.
  - by intros w.
  - by intros body w.
  - intros body r Hr w. cbn -[peer_request agent_serve]. unfold sample_request. cbn -[peer_request agent_serve].
    by rewrite Hr.
  - intros raw Hb Hlen w. cbn [http_request sample_wire]. unfold sample_request.
    change (rstrip_char "/" sample_endpoint) with sample_endpoint. by rewrite removeprefix_app.
Qed.

(** One peer to install, and two to remove, one of them with a slash in its key. *)
Definition sample_snapshot_peer (key status : string) : json :=
  JObj [("public_key", JStr key); ("allowed_ip", JStr "10.8.0.2"); ("psk_key", JStr "psk");
        ("status", JStr status)].
Definition sample_snapshot : fields :=
  [("id", JStr "n-1"); ("url", JStr "http://node"); ("token", JStr "t");
   ("interface", JObj [("private_key", JStr "bmV3")]);
   ("peers", JArr [sample_snapshot_peer (sample_key 0) "active";
                   sample_snapshot_peer (sample_key 1) "pending_delete";
                   sample_snapshot_peer (sample_key 255) "pending_delete"])].
Definition sample_before : node sample_live :=
  (run_agent sample_settings
    [(Some "t", PutPeer (mkSyncPeerRequest (sample_key 1) "10.8.0.3" (Some "psk")));
     (Some "t", PutPeer (mkSyncPeerRequest (sample_key 255) "10.8.0.4" (Some "psk")))] sample_node).2.
Lemma sample_before_ready : readable (tunnel_config sample_settings sample_before).
Proof.
  unfold sample_before.
  destruct (request_table (AgentFiles0 := sample_files) sample_settings (Some "t")
    (PutPeer (mkSyncPeerRequest (sample_key 1) "10.8.0.3" (Some "psk"))) sample_node sample_readable
    ltac:(vm_compute; reflexivity)) as [H1 _].
  cbn [run_agent]. destruct (handle_request _ _ _ sample_node) as [o1 n1].
  destruct (request_table (AgentFiles0 := sample_files) sample_settings (Some "t")
    (PutPeer (mkSyncPeerRequest (sample_key 255) "10.8.0.4" (Some "psk"))) n1 H1
    ltac:(vm_compute; reflexivity)) as [H2 _].
  cbv zeta in H2. by destruct (handle_request _ _ _ n1) as [o2 n2].
Qed.

Definition sample_peers : list fields :=
  match snapshot_peers sample_snapshot with Ok peers => peers | Raise _ => [] end.
Lemma synced_node_matches_snapshot_witness :
  ∃ result w', apply_snapshot (H := sample_wire) sample_snapshot sample_before = (Ok result, w') ∧
    result_ok result = true ∧
    (∃ c, peer_table sample_settings w' !! sample_key 0 = Some c ∧ cp_psk_key c = "psk") ∧
    is_Some (peer_table sample_settings w' !! sample_key 255) ∧
    peer_table sample_settings w' !! sample_key 1 = None.
Proof.
  assert (∃ result w', apply_snapshot (H := sample_wire) sample_snapshot sample_before = (Ok result, w') ∧
    is_Some (peer_table sample_settings w' !! sample_key 255) ∧
    peer_table sample_settings w' !! sample_key 1 = None) as (result & w' & Happ & Hslash & Hgone).
  { assert (match apply_snapshot (H := sample_wire) sample_snapshot sample_before with
            | (Ok _, w') => bool_decide (is_Some (peer_table sample_settings w' !! sample_key 255)) &&
                            bool_decide (peer_table sample_settings w' !! sample_key 1 = None)
            | _ => false
            end = true) as Hrun by (vm_compute; reflexivity).
    destruct (apply_snapshot (H := sample_wire) sample_snapshot sample_before) as [[result|e] w']; [|done].
    apply andb_true_iff in Hrun as [Hs Hg].
    exists result, w'. split; [done|]. split; [exact (bool_decide_eq_true_1 _ Hs)|exact (bool_decide_eq_true_1 _ Hg)]. }
  assert (∀ b, (0 <= b < 256)%Z → node_key (sample_key b)) as Hkey.
  { intros b Hb. exists (replicate 32 b). split_and!; [apply Forall_replicate, Hb|done|done]. }
  destruct (split_peers sample_peers) as [active dels] eqn:Esplit.
  assert (Forall acceptable active ∧ active = [obj_fields (desired_peer (obj_fields
      (sample_snapshot_peer (sample_key 0) "active")))] ∧ dels = [sample_key 1; sample_key 255])
    as (Hacc & -> & ->).
  { vm_compute in Esplit. injection Esplit as <- <-. split; [|split; vm_compute; reflexivity].
    apply Forall_cons. split; [|by apply Forall_nil].
    exists (mkSyncPeerRequest (sample_key 0) "10.8.0.2" (Some "psk")). split; vm_compute; reflexivity. }
  destruct (synced_node_matches_snapshot (AgentFiles0 := sample_files) sample_settings interface_default
    sample_endpoint "t" sample_snapshot [("private_key", JStr "bmV3")] sample_peers _ _ sample_before result w'
    sample_reaches eq_refl eq_refl eq_refl ltac:(vm_compute; reflexivity) eq_refl Esplit Hacc)
    as (_ & _ & _ & _ & _ & _ & _ & _ & Hok & _ & Hact & _).
  - repeat (apply Forall_cons; split; [apply Hkey; lia|]). by apply Forall_nil.
  - apply (bool_decide_eq_true_1 (NoDup _)). vm_compute. reflexivity.
  - exact sample_before_ready.
  - exact Happ.
  - exists result, w'. split; [exact Happ|]. split; [exact Hok|]. split; [|by split].
    destruct (Hact _ (proj2 (list_elem_of_singleton _ _) eq_refl) ltac:(vm_compute; done)) as (c & Hc & Hpsk).
    exists c. by split.
Defined.
