(* ===== verification/EndToEnd.v ===== *)
(** * The panel and the worker together

    What a command published by the panel does when the worker takes it. The panel answers the
    worker's requests with its own handlers ([WorkerApi]); the theorems compose them with the worker's
    clients and handlers. How FastAPI maps a request to a handler is stated per path as a hypothesis
    ([answers]). *)
From S2P Require Import Prelude PyStr Json Bytes Models Session Sample Secrets Jobs WorkerRemnawave.
From S2P Require Import TelegramProxy Downloads RemnawaveApi Panel WorkerClients WorkerQueue WorkerHandlers.
From S2P Require WorkerApi.

(** ** The panel as a server *)

(** A world that holds a panel. *)
Class Hosts (W : Type) := {
  panel_of : W → panel;
  put_panel : panel → W → W;
  panel_of_put : ∀ p w, panel_of (put_panel p w) = p }.
#[export] Instance panel_hosts_itself : Hosts panel := {
  panel_of p := p; put_panel p _ := p; panel_of_put p w := eq_refl }.

(** The phrase of a status the worker routes answer with. *)
Definition status_phrase (code : Z) : string :=
  if code == 200%Z then "OK" else if code == 401%Z then "Unauthorized"
  else if code == 404%Z then "Not Found" else if code == 409%Z then "Conflict"
  else if code == 422%Z then "Unprocessable Content" else "Internal Server Error".

(** The JSON answer to a request: the handler's value, or the error handlers of [error_handlers.py]. *)
Definition UNHANDLED_DETAIL : string :=
  "Internal server error. Details were written to the server log.".
Definition http_detail (code : Z) (detail : string) : string :=
  if truthy_str detail then detail else status_phrase code.
Definition response_of {A} (to_json : A → json) (o : outcome A) : Response :=
  let answer code v := mkResponse code (status_phrase code) (Ok v) (dumps_compact v) in
  match o with
  | Ok a => answer 200%Z (to_json a)
  | Raise (HTTPException code detail) => answer code (JObj [("detail", JStr (http_detail code detail))])
  | Raise _ => answer 500%Z (JObj [("detail", JStr UNHANDLED_DETAIL)])
  end.

Definition serve_as {W A} `{Hosts W} (m : M A) (to_json : A → json) (w : W) : Response * W :=
  let '(o, s) := m (session_of (panel_of w)) in
  (response_of to_json o, put_panel (mkPanel (committed s) (trace s) (draws s)) w).

Definition started_json (r : string * Z) : json := JObj [("status", JStr r.1); ("attempts", JInt r.2)].
Definition status_json (status : string) : json := JObj [("status", JStr status)].
(** The body of a report, read as [OperationResult]. *)
Definition report_error (body : option json) : option string :=
  match json_get (obj_fields (default JNull body)) "error" with JStr s => Some s | _ => None end.
Definition report_result (body : option json) : option json :=
  match json_get (obj_fields (default JNull body)) "result" with JNull => None | v => Some v end.

Section server.
Context {W : Type} `{Env} `{Hosts W} `{Transport W} (backend : BackendClient).

(** The operation routes of one operation reach their handlers. *)
Record answers (oid : string) : Prop := {
  answers_start : ∀ w,
    http_request "POST" (base_url backend +:+ operation_path oid "start") (worker_token backend) None w =
    let '(r, w') := serve_as (WorkerApi.start_operation oid) started_json w in (Ok r, w');
  answers_fail : ∀ error result w,
    let body := JObj [("error", JStr error); ("result", result)] in
    http_request "POST" (base_url backend +:+ operation_path oid "fail") (worker_token backend) (Some body) w =
    let '(r, w') := serve_as (WorkerApi.fail_operation oid (Some error) (report_result (Some body)))
                      status_json w in (Ok r, w') }.

(** An error status reaches the worker as [HTTPStatusError]. *)
Lemma backend_call_error method path body w r w' :
  http_request method (base_url backend +:+ path) (worker_token backend) body w = (Ok r, w') →
  is_success r = false →
  ∃ p text message, backend_call backend method path body w =
    (Raise (HTTPStatusError (R_status_code r) p text message), w').
Proof.
  intros Hr Hs. unfold backend_call. rewrite bindA_run, Hr. unfold liftA, backend_raise_for_status,
    raise_for_status. rewrite Hs. destruct (negb _); by do 3 eexists.
Qed.

(** A request for an operation the handler rejects: nothing changes but the clock. *)
Definition rejected {A} (m : M A) (p : panel) (code : Z) : Prop :=
  ∃ detail s, m (session_of p) = (Raise (HTTPException code detail), s) ∧
    committed s = tables p ∧ trace s = history p.

Lemma serve_rejected {A} (m : M A) to_json w code :
  rejected m (panel_of w) code →
  ∃ r w', serve_as m to_json w = (r, w') ∧ R_status_code r = code ∧
    tables (panel_of w') = tables (panel_of w) ∧ history (panel_of w') = history (panel_of w).
Proof.
  intros (detail & s & Hm & Hc & Ht). unfold serve_as. rewrite Hm. eexists _, _.
  split; [reflexivity|]. by rewrite panel_of_put.
Qed.

Lemma the_operation_run oid s :
  WorkerApi.the_operation oid s =
  (match operations (work s) !! oid with
   | Some o => Ok o
   | None => Raise (HTTPException 404 "Operation not found")
   end, s).
Proof. unfold WorkerApi.the_operation, reads, bindM. by destruct (operations (work s) !! oid). Qed.

Lemma start_rejected oid p :
  match operations (tables p) !! oid with
  | None => rejected (WorkerApi.start_operation oid) p 404
  | Some o => Op_status o ∉ ["queued"; "pending"] → rejected (WorkerApi.start_operation oid) p 409
  end.
Proof.
  unfold rejected, WorkerApi.start_operation, WorkerApi.ensure_status.
  rewrite bind_run, the_operation_run. cbn [work session_of].
  destruct (operations (tables p) !! oid) as [o|].
  - intros Ho. rewrite bind_run, bool_decide_false by done. do 2 eexists. split; [reflexivity|done].
  - do 2 eexists. split; [reflexivity|done].
Qed.
Lemma fail_rejected oid error result p :
  operations (tables p) !! oid = None → rejected (WorkerApi.fail_operation oid error result) p 404.
Proof.
  intros Ho. unfold rejected, WorkerApi.fail_operation, WorkerApi.finish_operation.
  rewrite bind_run, the_operation_run. cbn [work session_of]. rewrite Ho.
  do 2 eexists. split; [reflexivity|done].
Qed.

(** The worker's view of a rejected start. *)
Lemma start_error oid w code :
  answers oid → rejected (WorkerApi.start_operation oid) (panel_of w) code →
  (200 <=? code)%Z && (code <? 300)%Z = false →
  ∃ p text message w', start_operation backend oid w = (Raise (HTTPStatusError code p text message), w') ∧
    tables (panel_of w') = tables (panel_of w) ∧ history (panel_of w') = history (panel_of w).
Proof.
  intros Ha Hrej Hcode. destruct (serve_rejected _ started_json w code Hrej) as (r & w' & Hs & Hr & Ht & Hh).
  pose proof (answers_start _ Ha w) as Hreq. rewrite Hs in Hreq.
  destruct (backend_call_error _ _ _ _ r w' Hreq) as (p & text & message & Hcall).
  { unfold is_success. by rewrite Hr. }
  exists p, text, message, w'. split; [|done]. unfold start_operation, backend_dict.
  rewrite bindA_run, Hcall. by rewrite Hr.
Qed.
Lemma fail_error oid w error :
  answers oid → operations (tables (panel_of w)) !! oid = None →
  ∃ p text message w', fail_operation backend oid error JNull w =
      (Raise (HTTPStatusError 404 p text message), w') ∧
    tables (panel_of w') = tables (panel_of w) ∧ history (panel_of w') = history (panel_of w).
Proof.
  intros Ha Ho.
  destruct (serve_rejected _ status_json w 404 (fail_rejected oid (Some error)
    (report_result (Some (JObj [("error", JStr error); ("result", JNull)]))) _ Ho))
    as (r & w' & Hs & Hr & Ht & Hh).
  pose proof (answers_fail _ Ha error JNull w) as Hreq. cbv zeta in Hreq. rewrite Hs in Hreq.
  destruct (backend_call_error _ _ _ _ r w' Hreq) as (p & text & message & Hcall).
  { unfold is_success. by rewrite Hr. }
  exists p, text, message, w'. split; [|done]. unfold fail_operation.
  rewrite bindA_run, Hcall. by rewrite Hr.
Qed.
End server.

Section delivery.
Context {W : Type} `{Env} `{Hosts W} `{Transport W} (backend : BackendClient).

(** A tracked command whose start the panel refuses never reaches its handler. *)
Lemma handle_started_before c w :
  track_operation c = true → answers backend (operation_id c) →
  rejected (WorkerApi.start_operation (operation_id c)) (panel_of w) 409 →
  ∃ r w', (∀ handler, handle backend handler c w = (Ok r, w')) ∧ ok r = true ∧ result_command r = command c ∧
    tables (panel_of w') = tables (panel_of w) ∧ history (panel_of w') = history (panel_of w).
Proof.
  intros Ht Ha Hrej.
  destruct (start_error backend _ w 409 Ha Hrej eq_refl) as (p & text & message & w' & Hs & Htab & Hhist).
  eexists _, w'. split.
  - intros handler. rewrite handle_run. unfold dispatch. rewrite Ht. unfold tryA.
    rewrite !bindA_run, Hs. reflexivity.
  - done.
Qed.

Lemma handle_unknown_operation c w :
  track_operation c = true → answers backend (operation_id c) →
  operations (tables (panel_of w)) !! operation_id c = None →
  ∃ w' exc, (∀ handler, handle backend handler c w = (Raise exc, w')) ∧
    tables (panel_of w') = tables (panel_of w) ∧ history (panel_of w') = history (panel_of w).
Proof.
  intros Ht Ha Ho. pose proof (start_rejected (operation_id c) (panel_of w)) as Hrej. rewrite Ho in Hrej.
  destruct (start_error backend _ w 404 Ha Hrej eq_refl) as (p & text & message & w1 & Hs & Htab & Hhist).
  rewrite <- Htab in Ho.
  destruct (fail_error backend _ w1 message Ha Ho) as (p' & text' & message' & w2 & Hf & Htab2 & Hhist2).
  exists w2, (HTTPStatusError 404 p' text' message'). split; [|split; congruence].
  intros handler. assert (dispatch backend handler c w =
    (Raise (HTTPStatusError 404 p text message), w1)) as Hd.
  { unfold dispatch. rewrite Ht. unfold tryA. rewrite !bindA_run, Hs. reflexivity. }
  rewrite handle_run, Hd. unfold report_failure. rewrite Ht. cbn [exn_text]. by rewrite Hf.
Qed.
End delivery.

(** A panel that serves the operation routes of one operation, for the witnesses. *)
Definition sample_backend : BackendClient := mkBackendClient "http://panel" "t".
Definition sample_net (oid : string) : Transport panel := {|
  http_request method url token body w :=
    let served {A} (r : Response * panel) : outcome Response * panel := (Ok r.1, r.2) in
    if url == "http://panel" +:+ operation_path oid "start"
    then served (A := unit) (serve_as (WorkerApi.start_operation oid) started_json w)
    else served (A := unit) (serve_as (WorkerApi.fail_operation oid (report_error body) (report_result body))
                  status_json w);
  httpx_error_text url r := "" |}.

Lemma sample_answers oid : answers (H1 := sample_net oid) sample_backend oid.
Proof.
  split.
  - intros w. cbn [http_request sample_net sample_backend base_url worker_token].
    rewrite bool_decide_true by done. by destruct (serve_as _ _ w).
  - intros error result w. cbn [http_request sample_net sample_backend base_url worker_token].
    rewrite bool_decide_false; [cbn [report_error json_get obj_fields]; by destruct (serve_as _ _ w)|].
    unfold operation_path. intros E. by repeat apply str_app_inj_l in E.
Qed.

Definition sample_tracked : WorkerCommand :=
  mkWorkerCommand "sync_node" "key-1" "op-1" true "node" (Some "a") (utc 0).
Definition running_panel : panel :=
  mkPanel (update_operation (sample_operation <| Op_status := "running" |>) sample_db) [] 0.

(** A stale operation as the panel lists it; [iso] is [datetime.isoformat]. *)
Definition stale_fields (iso : datetime → string) (o : AsyncOperation) : list (string * json) :=
  let text (s : option string) := match s with Some s => JStr s | None => JNull end in
  [("id", JStr (Op_id o)); ("kind", JStr (Op_kind o)); ("target_type", text (Op_target_type o));
   ("target_id", text (Op_target_id o)); ("status", JStr (Op_status o));
   ("attempts", JInt (Op_attempts o)); ("updated_at", JStr (iso (Op_updated_at o)))].

Lemma telegram_operation_rejected `{Codec} iso o :
  Op_kind o ∈ TELEGRAM_PROXY_COMMANDS → Op_target_type o = Some "node" →
  ∃ message, command_from_operation (stale_fields iso o) = Raise (validation_error message).
Proof.
  intros Hk Ht. unfold command_from_operation, stale_fields. simpl. rewrite Ht. simpl.
  assert (Op_kind o isin TELEGRAM_PROXY_COMMANDS = true) as Hk' by by apply bool_decide_eq_true.
  destruct (match Op_target_id o with Some _ => _ | None => _ end) eqn:Etid;
    destruct (parse_datetime _); simpl; try by eexists.
  all: match goal with |- context [if ?b then _ else _] => destruct b end; [|by eexists].
  all: unfold validate_target_type; cbn [command target_type]; rewrite Hk'; by eexists.
Qed.

(** ** Properties *)

(** C4: a tracked command runs at most once however often its message is delivered. Once the operation
    has left [queued] - it is running, finished, failed or timed out - a delivery of its command is
    answered as already handled, whatever the handler would have done: the handler is not called, the
    panel's tables do not change and nothing is published. *)
Theorem tracked_command_runs_once {W} `{Env} `{Hosts W} `{Transport W} backend c o w :
  track_operation c = true → answers backend (operation_id c) →
  operations (tables (panel_of w)) !! operation_id c = Some o → Op_status o ∉ ["queued"; "pending"] →
  ∃ r w', (∀ handler, handle backend handler c w = (Ok r, w')) ∧ ok r = true ∧ result_command r = command c ∧
    tables (panel_of w') = tables (panel_of w) ∧ history (panel_of w') = history (panel_of w).
Proof.
  intros Ht Ha Ho Hst. apply handle_started_before; [done|done|].
  pose proof (start_rejected (operation_id c) (panel_of w)) as Hrej. rewrite Ho in Hrej. by apply Hrej.
Qed.

Lemma tracked_command_runs_once_witness :
  ∃ r w', (∀ handler, handle (H := sample_net "op-1") sample_backend handler sample_tracked running_panel = (Ok r, w')) ∧
    ok r = true.
Proof.
  assert (Op_status (sample_operation <| Op_status := "running" |>) ∉ ["queued"; "pending"]) as Hst.
  { assert (bool_decide ("running" ∈ ["queued"; "pending"]) = false) as E by (vm_compute; reflexivity).
    exact (bool_decide_eq_false_1 _ E). }
  assert (operations (tables (panel_of running_panel)) !! operation_id sample_tracked =
    Some (sample_operation <| Op_status := "running" |>)) as Ho by (vm_compute; reflexivity).
  destruct (tracked_command_runs_once (H1 := sample_net "op-1") sample_backend sample_tracked _ running_panel
    eq_refl (sample_answers "op-1") Ho Hst) as (r & w' & Hh & Hok & _).
  exists r, w'. split; [exact Hh|exact Hok].
Defined.

(** The command of a webhook never runs. The webhook publishes a tracked command without an operation
    row, so wherever its message is delivered, as long as no such row exists the panel refuses both the
    start and the report of the failure: the worker's [handle] raises without calling the handler, and
    the message goes through its retries into the poison queue. *)
Lemma webhook_command_never_runs `{Quiet} `{Vault} `{RemoteLaws}
    settings body signature timestamp d n payload event_type user_uuid :
  rw_settings d = [settings] → authentic settings body signature timestamp (clock n) →
  parse_webhook body = Ok (payload, JStr event_type) →
  text_column (json_get (obj_fields (json_get payload "data")) "uuid") = Ok user_uuid →
  select (fun e => Webhook_event_key e == webhook_event_key payload) (webhook_events d) = [] →
  broker_error (7 + n) = None → operations d !! uuid4 (5 + n) = None →
  let s := (remnawave_webhook body signature timestamp (start d n)).2 in
  ∃ key p rest, trace s = EvPublish key p :: rest ∧
  ∀ W (hosts : Hosts W) (net : Transport W) backend c w,
    operation_id c = Payload_operation_id p → track_operation c = Payload_track_operation p →
    tables (panel_of w) = committed s → answers backend (operation_id c) →
    ∃ w' exc, (∀ handler, handle backend handler c w = (Raise exc, w')) ∧
      tables (panel_of w') = committed s.
Proof.
  intros Hs Ha Hp Hu He Hbroker Hfresh s. subst s.
  rewrite (webhook_admitted settings _ _ _ _ _ payload (JStr event_type) None) by (by rewrite ?He).
  rewrite (process_new_event payload event_type user_uuid) by done.
  set (d' := stored_event _ _ _ _ _). change (3 + S n) with (4 + n).
  destruct (enqueue_webhook_command_run _ user_uuid (mkSession d' d' [] [EvCommit d'] (4 + n)) Hu)
    as (key & p & _ & _ & Htrack & Hid & _ & Hrun).
  rewrite bind_run, Hrun. cbn [draws]. change (3 + (4 + n)) with (7 + n). rewrite Hbroker.
  exists key, p, [EvCommit d']. split; [done|].
  intros W hosts net backend c w Hcid Hct Htab Hans. simpl in Htab.
  destruct (handle_unknown_operation backend c w) as (w' & exc & Hh & Ht' & _); [congruence|done| |].
  - rewrite Htab, Hcid, Hid. done.
  - exists w', exc. split; [exact Hh|]. simpl. congruence.
Qed.

Lemma webhook_command_never_runs_witness :
  let s := (remnawave_webhook [1%Z] (Some "0f") (Some "10") (start settings_db 10)).2 in
  ∃ key p rest, trace s = EvPublish key p :: rest ∧
    ∃ w' exc, ∀ handler, handle (H := sample_net "id-15") sample_backend handler
      (mkWorkerCommand "remnawave_sync_user" "k" (Payload_operation_id p) (Payload_track_operation p)
         "remnawave_user" (Some "u-1") (utc 0)) (mkPanel (committed s) [] 0) = (Raise exc, w').
Proof.
  assert (parse_webhook [1%Z] = Ok ([("event", JStr "user.modified"); ("data", JObj [("uuid", JStr "u-1")])],
    JStr "user.modified")) as Hp by (vm_compute; reflexivity).
  assert (operations settings_db !! uuid4 15 = None) as Hf by (vm_compute; reflexivity).
  destruct (webhook_command_never_runs sample_settings [1%Z] (Some "0f") (Some "10") settings_db 10
    _ "user.modified" (Some "u-1") eq_refl sample_authentic Hp eq_refl eq_refl eq_refl Hf)
    as (key & p & rest & Ht & Hall).
  exists key, p, rest. split; [exact Ht|].
  assert (Payload_operation_id p = "id-15") as Hid by (vm_compute in Ht; by injection Ht as _ <-).
  destruct (Hall panel panel_hosts_itself (sample_net "id-15") sample_backend
    (mkWorkerCommand "remnawave_sync_user" "k" (Payload_operation_id p) (Payload_track_operation p)
       "remnawave_user" (Some "u-1") (utc 0))
    (mkPanel (committed (remnawave_webhook [1%Z] (Some "0f") (Some "10") (start settings_db 10)).2) [] 0)
    ) as (w' & exc & Hh & _); [reflexivity|reflexivity| | |].
  - cbn [panel_of panel_hosts_itself tables]. reflexivity.
  - cbn [operation_id]. rewrite Hid. apply sample_answers.
  - exists w', exc. exact Hh.
Defined.

Lemma eachA_raises {W A} (f : A → Act W unit) xs x w :
  x ∈ xs → (∀ w, ∃ e w', f x w = (Raise e, w')) → ∃ e w', eachA f xs w = (Raise e, w').
Proof.
  intros Hx Hf. revert w. induction xs as [|y xs IH]; intros w; [by apply elem_of_nil in Hx|].
  cbn [eachA]. rewrite bindA_run. apply elem_of_cons in Hx as [<-|Hx].
  - destruct (Hf w) as (e & w' & ->). by do 2 eexists.
  - destruct (f y w) as [[[]|e] w']; [by apply IH|by do 2 eexists].
Qed.

